(** * WhatsApp conversation analyzer: parser, data model and statistics engine

    A shallow embedding of [js/parser.js], [js/utils.js], [js/dataModel.js]
    and [js/statistics.js], followed by the properties of the engine that the
    specification states.

    Conventions of the embedding.
    - A JavaScript string is the list of its UTF-16 code units ([jsstring]).
    - A [Date] is its time value in milliseconds; the host time zone is taken
      to be UTC (a fixed offset, no daylight saving), so that a local calendar
      day is [t / 86400000].  [calculateStreaks] is the exception: it
      compares local midnights that it prints and reads back as date
      strings, so it takes the date functions of the host as a parameter
      ([Host]).
    - Integer-valued numbers are [Z]; a number that may be [NaN] after
      [parseInt] is [option Z]; the analyzers that divide use [jsnum], the
      rationals extended with the two infinities and [NaN], which leaves the
      rounding of doubles out.  Where the rounding decides what is reported,
      the function is embedded over IEEE binary64 as well
      ([Module Binary64]).
    - Thrown errors are the [Err] results of a small error monad. *)

From Stdlib Require Import Strings.String Strings.Ascii.
From Stdlib Require Import DecimalString.
From Stdlib Require Import List Sorted ZArith NArith QArith Qabs Qround Lia Lqa Bool Arith.
From Stdlib Require SpecFloat.
Import ListNotations.

Close Scope Q_scope.
Local Open Scope Z_scope.

(* ================================================================== *)
(** ** The JavaScript values the program computes with *)
(* ================================================================== *)

Module JS.

(** *** Strings *)

Abbreviation jsstring := (list N).

(** An ASCII literal of the source, as code units. *)
Definition lit (s : string) : jsstring :=
  map N_of_ascii (list_ascii_of_string s).
Arguments lit s%_string.

(** WhiteSpace and LineTerminator code units: what [trim] removes and what
    [\s] matches. *)
Definition isWhiteSpace (c : N) : bool :=
  (((9 <=? c) && (c <=? 13)) || (c =? 32) || (c =? 160) || (c =? 5760)
   || ((8192 <=? c) && (c <=? 8202)) || (c =? 8232) || (c =? 8233)
   || (c =? 8239) || (c =? 8287) || (c =? 12288) || (c =? 65279))%N.

Definition isDigit (c : N) : bool := ((48 <=? c) && (c <=? 57))%N.
Definition isUpperAZ (c : N) : bool := ((65 <=? c) && (c <=? 90))%N.
Definition isLowerAZ (c : N) : bool := ((97 <=? c) && (c <=? 122))%N.
Definition isAlphaAZ (c : N) : bool := isUpperAZ c || isLowerAZ c.

(** [.] of a regular expression without the [s] flag. *)
Definition isLineTerminator (c : N) : bool :=
  ((c =? 10) || (c =? 13) || (c =? 8232) || (c =? 8233))%N.

Fixpoint trimStart (s : jsstring) : jsstring :=
  match s with
  | [] => []
  | c :: s' => if isWhiteSpace c then trimStart s' else s
  end.

Definition trimEnd (s : jsstring) : jsstring := rev (trimStart (rev s)).

Definition trim (s : jsstring) : jsstring := trimEnd (trimStart s).

(** [s.split(sep)] for a separator of one code unit. *)
Fixpoint split (sep : N) (s : jsstring) : list jsstring :=
  match s with
  | [] => [[]]
  | c :: s' =>
      if (c =? sep)%N then [] :: split sep s'
      else match split sep s' with
           | w :: ws => (c :: w) :: ws
           | [] => [[c]]
           end
  end.

Fixpoint startsWith (s pre : jsstring) : bool :=
  match pre, s with
  | [], _ => true
  | _ :: _, [] => false
  | p :: pre', c :: s' => (c =? p)%N && startsWith s' pre'
  end.

Fixpoint includes (s sub : jsstring) : bool :=
  startsWith s sub ||
  match s with
  | [] => false
  | _ :: s' => includes s' sub
  end.

(** [toLowerCase] and [toUpperCase].  The ASCII letters are mapped; so are the
    two code units outside ASCII whose lower case contains an ASCII letter
    (KELVIN SIGN, and capital I with dot above).  Every other code unit is
    kept: the program only searches the result for ASCII phrases (and
    U+200E, which has no case), and no other code unit maps to one. *)
Definition lowerUnit (c : N) : jsstring :=
  if isUpperAZ c then [(c + 32)%N]
  else if (c =? 8490)%N then [107%N]
  else if (c =? 304)%N then [105%N; 775%N]
  else [c].

Definition toLowerCase (s : jsstring) : jsstring := flat_map lowerUnit s.

Definition upperUnit (c : N) : N :=
  if isLowerAZ c then (c - 32)%N else c.

Definition toUpperCase (s : jsstring) : jsstring := map upperUnit s.

Definition jsstring_eqb (a b : jsstring) : bool :=
  if list_eq_dec N.eq_dec a b then true else false.

(** [parseInt(s, 10)]: leading white space, an optional sign, then the
    longest run of decimal digits; [None] is [NaN]. *)
Fixpoint digitsValue (acc : option Z) (s : jsstring) : option Z :=
  match s with
  | [] => acc
  | c :: s' =>
      if isDigit c
      then digitsValue
             (Some (10 * match acc with Some a => a | None => 0 end
                    + Z.of_N (c - 48))) s'
      else acc
  end.

Definition parseInt (s : jsstring) : option Z :=
  match trimStart s with
  | 45%N :: s' => option_map Z.opp (digitsValue None s')
  | 43%N :: s' => digitsValue None s'
  | s' => digitsValue None s'
  end.

(** *** Numbers with the non-finite values *)

Inductive jsnum : Type :=
| Fin (q : Q)
| PInf
| NInf
| NaN.

Definition ofZ (z : Z) : jsnum := Fin (inject_Z z).

Definition jneg (a : jsnum) : jsnum :=
  match a with
  | Fin q => Fin (Qopp q)
  | PInf => NInf
  | NInf => PInf
  | NaN => NaN
  end.

Definition jadd (a b : jsnum) : jsnum :=
  match a, b with
  | NaN, _ | _, NaN => NaN
  | Fin x, Fin y => Fin (Qred (Qplus x y))
  | PInf, NInf | NInf, PInf => NaN
  | PInf, _ | _, PInf => PInf
  | NInf, _ | _, NInf => NInf
  end.

Definition jsub (a b : jsnum) : jsnum := jadd a (jneg b).

Definition signQ (q : Q) : comparison := Qcompare q (0 # 1).

Definition jmul (a b : jsnum) : jsnum :=
  match a, b with
  | NaN, _ | _, NaN => NaN
  | Fin x, Fin y => Fin (Qred (Qmult x y))
  | Fin x, PInf | PInf, Fin x =>
      match signQ x with Gt => PInf | Lt => NInf | Eq => NaN end
  | Fin x, NInf | NInf, Fin x =>
      match signQ x with Gt => NInf | Lt => PInf | Eq => NaN end
  | PInf, PInf | NInf, NInf => PInf
  | PInf, NInf | NInf, PInf => NaN
  end.

(** Division.  A zero divisor is taken as the positive zero: the divisors
    of the program are counts and [Math.ceil] of quotients, and where such a
    quotient is negative (so that the divisor is the negative zero) the
    dividend is a count of 0 and the result is [NaN] for either sign. *)
Definition jdiv (a b : jsnum) : jsnum :=
  match a, b with
  | NaN, _ | _, NaN => NaN
  | Fin x, Fin y =>
      match signQ y with
      | Eq => match signQ x with Gt => PInf | Lt => NInf | Eq => NaN end
      | _ => Fin (Qred (Qdiv x y))
      end
  | Fin _, (PInf | NInf) => Fin (0 # 1)
  | PInf, Fin y => match signQ y with Lt => NInf | _ => PInf end
  | NInf, Fin y => match signQ y with Lt => PInf | _ => NInf end
  | (PInf | NInf), (PInf | NInf) => NaN
  end.

Definition jlt (a b : jsnum) : bool :=
  match a, b with
  | NaN, _ | _, NaN => false
  | Fin x, Fin y => match Qcompare x y with Lt => true | _ => false end
  | NInf, NInf => false
  | NInf, _ => true
  | _, NInf => false
  | PInf, _ => false
  | Fin _, PInf => true
  end.

Definition jgt (a b : jsnum) : bool := jlt b a.
Definition jge (a b : jsnum) : bool :=
  match a, b with
  | NaN, _ | _, NaN => false
  | _, _ => negb (jlt a b)
  end.

(** [Math.max(a, b)] *)
Definition jmax (a b : jsnum) : jsnum :=
  match a, b with
  | NaN, _ | _, NaN => NaN
  | _, _ => if jlt a b then b else a
  end.

Definition jabs (a : jsnum) : jsnum :=
  match a with
  | Fin q => Fin (Qabs q)
  | PInf | NInf => PInf
  | NaN => NaN
  end.

(** [Math.round]: the nearest integer, halves towards positive infinity. *)
Definition Qround_half_up (q : Q) : Z := Qfloor (Qplus q (1 # 2)).

Definition jround (a : jsnum) : jsnum :=
  match a with
  | Fin q => ofZ (Qround_half_up q)
  | _ => a
  end.

(** [a || 0] on numbers: [NaN] and zero are falsy. *)
Definition jorZero (a : jsnum) : jsnum :=
  match a with
  | NaN => Fin (0 # 1)
  | Fin q => match signQ q with Eq => Fin (0 # 1) | _ => a end
  | _ => a
  end.

Definition isFinite (a : jsnum) : bool :=
  match a with Fin _ => true | _ => false end.

(** *** Calendar dates (proleptic Gregorian, UTC) *)

Definition msPerDay : Z := 86400000.

(** Day number (days since 1970-01-01) of a civil date, [m] in 1..12. *)
Definition daysFromCivil (y m d : Z) : Z :=
  let y' := if m <=? 2 then y - 1 else y in
  let era := y' / 400 in
  let yoe := y' - era * 400 in
  let mp := (m + 9) mod 12 in
  let doy := (153 * mp + 2) / 5 + d - 1 in
  let doe := yoe * 365 + yoe / 4 - yoe / 100 + doy in
  era * 146097 + doe - 719468.

(** Civil date (year, month 1..12, day) of a day number. *)
Definition civilFromDays (z : Z) : Z * Z * Z :=
  let z' := z + 719468 in
  let era := z' / 146097 in
  let doe := z' - era * 146097 in
  let yoe := (doe - doe / 1460 + doe / 36524 - doe / 146096) / 365 in
  let doy := doe - (365 * yoe + yoe / 4 - yoe / 100) in
  let mp := (5 * doy + 2) / 153 in
  let d := doy - (153 * mp + 2) / 5 + 1 in
  let m := if mp <? 10 then mp + 3 else mp - 9 in
  let y := yoe + era * 400 in
  (if m <=? 2 then y + 1 else y, m, d).

(** A [Date] object: [None] is the Invalid Date. *)
Definition Date := option Z.

(** [new Date(year, month, day, hours, minutes, seconds)]: a [NaN] argument
    gives the Invalid Date, a year in 0..99 means 1900 + year, months and
    days overflow into the next unit, and the time value is clipped. *)
Definition newDate (year month day hours minutes seconds : option Z) : Date :=
  match year, month, day, hours, minutes, seconds with
  | Some y, Some m, Some d, Some h, Some mi, Some s =>
      let yr := if (0 <=? y) && (y <=? 99) then 1900 + y else y in
      let ym := yr + m / 12 in
      let mn := m mod 12 in
      let dayNo := daysFromCivil ym (mn + 1) 1 + d - 1 in
      let t := dayNo * msPerDay + h * 3600000 + mi * 60000 + s * 1000 in
      if Z.abs t <=? 8640000000000000 then Some t else None
  | _, _, _, _, _, _ => None
  end.

Definition getFullYear (t : Z) : Z :=
  let '(y, _, _) := civilFromDays (t / msPerDay) in y.

(** [getMonth()], 0-indexed. *)
Definition getMonth (t : Z) : Z :=
  let '(_, m, _) := civilFromDays (t / msPerDay) in m - 1.

(** The calendar day of a time value: what [toDateString()] identifies, and
    [new Date(dateString)] is the midnight that starts it. *)
Definition dayOf (t : Z) : Z := t / msPerDay.
Definition midnightOf (day : Z) : Z := day * msPerDay.

(** [Set.prototype.add] on strings. *)
Definition setAddString (s : list jsstring) (x : jsstring) : list jsstring :=
  if existsb (jsstring_eqb x) s then s else s ++ [x].

(** The date functions of the host that depend on its time zone or on its
    engine, each on time values: [toDateString] prints the local calendar
    date; [dateOfString] is the time value of [new Date(string)] for a
    string that [toDateString] printed, which is not in the ISO format, so
    that how it is read is left to the engine (it is taken to be a valid
    date, as the engines give one); [startOfDay] is
    [setHours(0, 0, 0, 0)], the local midnight before a time. *)
Record Host : Type := mkHost {
  toDateString : Z -> jsstring;
  dateOfString : jsstring -> Z;
  startOfDay : Z -> Z
}.

End JS.

(* ================================================================== *)
(** ** Regular expressions, as the backtracking matcher runs them *)
(* ================================================================== *)

Module Regex.
Import JS.

(** The constructs the program's patterns use.  Quantifiers are greedy and
    only ever applied to one character class. *)
Inductive regex : Type :=
| Chr (c : N)                        (* a literal code unit *)
| ChrI (c : N)                       (* a literal under the [i] flag *)
| Cls (p : N -> bool)                (* a character class *)
| Cat (r1 r2 : regex)
| Alt (r1 r2 : regex)
| Opt (r : regex)                    (* r? *)
| Star (p : N -> bool)               (* [class]* *)
| Plus (p : N -> bool)               (* [class]+ *)
| Rep (lo hi : nat) (p : N -> bool)  (* [class]{lo,hi} *)
| Grp (k : nat) (r : regex)          (* capture group number k *)
| Bol                                (* ^ *)
| Eol.                               (* $ *)

Definition caps := nat -> option jsstring.
Definition noCaps : caps := fun _ => None.
Definition setCap (k : nat) (w : jsstring) (cs : caps) : caps :=
  fun j => if Nat.eqb j k then Some w else cs j.

(** The remainders left by a greedy run over a class, longest run first. *)
Fixpoint classRuns (p : N -> bool) (s : jsstring) : list jsstring :=
  match s with
  | [] => [[]]
  | c :: s' => if p c then classRuns p s' ++ [s] else [s]
  end.

Fixpoint repRuns (p : N -> bool) (lo hi : nat) (s : jsstring)
  : list jsstring :=
  let stop := match lo with O => [s] | S _ => [] end in
  match hi with
  | O => stop
  | S hi' =>
      match s with
      | [] => stop
      | c :: s' => if p c then repRuns p (pred lo) hi' s' ++ stop else stop
      end
  end.

(** All the ways [r] matches a prefix of [s], in the order in which the
    backtracking matcher tries them: each is the remainder of the subject
    and the captures so far.  [input] is the whole subject ([^] holds only
    at its start). *)
Fixpoint run (input : jsstring) (r : regex) (st : jsstring * caps)
  : list (jsstring * caps) :=
  match r with
  | Chr c =>
      match fst st with
      | x :: s' => if (x =? c)%N then [(s', snd st)] else []
      | [] => []
      end
  | ChrI c =>
      match fst st with
      | x :: s' =>
          if (upperUnit x =? upperUnit c)%N then [(s', snd st)] else []
      | [] => []
      end
  | Cls p =>
      match fst st with
      | x :: s' => if p x then [(s', snd st)] else []
      | [] => []
      end
  | Cat a b => flat_map (run input b) (run input a st)
  | Alt a b => run input a st ++ run input b st
  | Opt a => run input a st ++ [st]
  | Star p => map (fun s' => (s', snd st)) (classRuns p (fst st))
  | Plus p => map (fun s' => (s', snd st)) (removelast (classRuns p (fst st)))
  | Rep lo hi p => map (fun s' => (s', snd st)) (repRuns p lo hi (fst st))
  | Grp k a =>
      map (fun res =>
             (fst res,
              setCap k (firstn (length (fst st) - length (fst res)) (fst st))
                     (snd res)))
          (run input a st)
  | Bol => if Nat.eqb (length (fst st)) (length input) then [st] else []
  | Eol => match fst st with [] => [st] | _ :: _ => [] end
  end.

(** [input.match(r)] for a pattern without the [g] flag: the first match at
    the leftmost position where there is one. *)
Fixpoint execFrom (input : jsstring) (r : regex) (s : jsstring)
  : option caps :=
  match run input r (s, noCaps) with
  | res :: _ => Some (snd res)
  | [] => match s with
          | [] => None
          | _ :: s' => execFrom input r s'
          end
  end.

Definition exec (r : regex) (input : jsstring) : option caps :=
  execFrom input r input.

(** [input.replace(r, '')] for a pattern with the [g] flag: every match,
    found from left to right, is deleted.  [skip] counts the code units of
    the current match still to be dropped. *)
Fixpoint removeGo (input : jsstring) (r : regex) (skip : nat) (s : jsstring)
  : jsstring :=
  match s with
  | [] => []
  | c :: s' =>
      match skip with
      | S k => removeGo input r k s'
      | O =>
          match run input r (s, noCaps) with
          | res :: _ =>
              match (length s - length (fst res))%nat with
              | O => c :: removeGo input r 0 s'
              | S k => removeGo input r k s'
              end
          | [] => c :: removeGo input r 0 s'
          end
      end
  end.

Definition removeAll (r : regex) (input : jsstring) : jsstring :=
  removeGo input r 0 input.

Definition ch (a : ascii) : regex := Chr (N_of_ascii a).
Definition chI (a : ascii) : regex := ChrI (N_of_ascii a).
Arguments ch a%_char.
Arguments chI a%_char.

Declare Scope regex_scope.
Delimit Scope regex_scope with regex.
Bind Scope regex_scope with regex.
Infix ">>" := Cat (at level 61, right associativity) : regex_scope.

End Regex.

(* ================================================================== *)
(** ** js/parser.js *)
(* ================================================================== *)

Module Parser.
Import JS Regex.

(** A message object; [TS] is the representation of its timestamp: a [Date]
    as the parser builds it, a time value once the date is known valid. *)
Record Message (TS : Type) : Type := mkMessage {
  timestamp : TS;
  participant : jsstring;
  content : jsstring;
  isSystem : bool;
  isMedia : bool
}.
Arguments mkMessage {TS}.
Arguments timestamp {TS}.
Arguments participant {TS}.
Arguments content {TS}.
Arguments isSystem {TS}.
Arguments isMedia {TS}.

(** The errors the parser can raise. *)
Inductive Error : Type :=
| EmptyFileContent                  (* 'File content is empty' *)
| NoValidMessages                   (* 'No valid messages found in file...' *)
| InvalidIsoDateFormat (dateStr : jsstring)
| InvalidDateFormat (dateStr : jsstring)
| InvalidTimeFormat (timeStr : jsstring)
| TypeError.                        (* a method called on [undefined] *)

Inductive Result (A : Type) : Type :=
| Ok (a : A)
| Err (e : Error).
Arguments Ok {A}.
Arguments Err {A}.

Definition bind {A B : Type} (m : Result A) (k : A -> Result B) : Result B :=
  match m with
  | Ok a => k a
  | Err e => Err e
  end.

Notation "x <- m ;; k" := (bind m (fun x => k))
  (at level 62, m at next level, right associativity).

Inductive FormatType : Type := Ios | Android | Iso.

Definition notColon (c : N) : bool := negb (c =? 58)%N.
Definition dot (c : N) : bool := negb (isLineTerminator c).
Definition isAorP (c : N) : bool := ((c =? 65) || (c =? 80))%N.

(** The source patterns are quoted before their transcriptions; in the
    quotations a blank follows the dot-star of the last group. *)
Local Open Scope regex_scope.

(** The date and time sub-patterns:
    \d{1,2}\/\d{1,2}\/\d{2,4}  and  \d{4}-\d{1,2}-\d{1,2}  and
    \d{1,2}:\d{2}(?::\d{2})?(?:\s*[AP]M)?  and  \d{1,2}:\d{2}(?:\s*[AP]M)? *)
Definition slashDate : regex :=
  Rep 1 2 isDigit >> ch "/" >> Rep 1 2 isDigit >> ch "/" >> Rep 2 4 isDigit.

Definition dashDate : regex :=
  Rep 4 4 isDigit >> ch "-" >> Rep 1 2 isDigit >> ch "-" >> Rep 1 2 isDigit.

Definition amPm : regex := Star isWhiteSpace >> Cls isAorP >> ch "M".

Definition timeWithSeconds : regex :=
  Rep 1 2 isDigit >> ch ":" >> Rep 2 2 isDigit >>
  Opt (ch ":" >> Rep 2 2 isDigit) >> Opt amPm.

Definition timeNoSeconds : regex :=
  Rep 1 2 isDigit >> ch ":" >> Rep 2 2 isDigit >> Opt amPm.

(** The pattern  /^\[(\d{1,2}\/\d{1,2}\/\d{2,4}),\s*(\d{1,2}:\d{2}(?::\d{2})?(?:\s*[AP]M)?)\]\s*([^:]+):\s*(.* )$/  *)
Definition iosRegex : regex :=
  Bol >> ch "[" >> Grp 1 slashDate >> ch "," >> Star isWhiteSpace >>
  Grp 2 timeWithSeconds >> ch "]" >> Star isWhiteSpace >>
  Grp 3 (Plus notColon) >> ch ":" >> Star isWhiteSpace >>
  Grp 4 (Star dot) >> Eol.

(** The pattern  /^(\d{1,2}\/\d{1,2}\/\d{2,4}),\s*(\d{1,2}:\d{2}(?:\s*[AP]M)?)\s*-\s*([^:]+):\s*(.* )$/  *)
Definition androidRegex : regex :=
  Bol >> Grp 1 slashDate >> ch "," >> Star isWhiteSpace >>
  Grp 2 timeNoSeconds >>
  Star isWhiteSpace >> ch "-" >> Star isWhiteSpace >>
  Grp 3 (Plus notColon) >> ch ":" >> Star isWhiteSpace >>
  Grp 4 (Star dot) >> Eol.

(** The pattern  /^\[(\d{4}-\d{1,2}-\d{1,2}),\s*(\d{1,2}:\d{2}(?::\d{2})?(?:\s*[AP]M)?)\]\s*([^:]+):\s*(.* )$/  *)
Definition isoRegex : regex :=
  Bol >> ch "[" >> Grp 1 dashDate >> ch "," >> Star isWhiteSpace >>
  Grp 2 timeWithSeconds >> ch "]" >> Star isWhiteSpace >>
  Grp 3 (Plus notColon) >> ch ":" >> Star isWhiteSpace >>
  Grp 4 (Star dot) >> Eol.

(** The pattern  /\s*(AM|PM|am|pm)/gi  *)
Definition amPmRegex : regex :=
  Star isWhiteSpace >>
  Grp 1 (Alt (chI "A" >> chI "M")
        (Alt (chI "P" >> chI "M")
        (Alt (chI "a" >> chI "m") (chI "p" >> chI "m")))).

Local Close Scope regex_scope.

(** The three attempts of the loop body, in the source's order. *)
Definition matchLine (line : jsstring) : option (FormatType * caps) :=
  match exec iosRegex line with
  | Some m => Some (Ios, m)
  | None =>
      match exec androidRegex line with
      | Some m => Some (Android, m)
      | None =>
          match exec isoRegex line with
          | Some m => Some (Iso, m)
          | None => None
          end
      end
  end.

(** [match[k]], about to have a string method called on it. *)
Definition group (m : caps) (k : nat) : Result jsstring :=
  match m k with
  | Some w => Ok w
  | None => Err TypeError
  end.

(** Arithmetic of [parseTimestamp] on numbers that may be [NaN]. *)
Definition nanAdd (a : option Z) (k : Z) : option Z := option_map (fun v => v + k) a.
Definition nanLt (a : option Z) (k : Z) : bool :=
  match a with Some v => v <? k | None => false end.
Definition nanEq (a : option Z) (k : Z) : bool :=
  match a with Some v => v =? k | None => false end.

Definition parseTimestamp (dateStr timeStr : jsstring) (formatType : FormatType)
  : Result Date :=
  dmy <-
    (if (match formatType with Iso => true | _ => false end)
        || includes dateStr (lit "-")
     then
       match map parseInt (split 45 dateStr) with
       | [p0; p1; p2] => Ok (p2, nanAdd p1 (-1), p0)
       | _ => Err (InvalidIsoDateFormat dateStr)
       end
     else
       match map parseInt (split 47 dateStr) with
       | [p0; p1; p2] =>
           Ok (p0, nanAdd p1 (-1), if nanLt p2 100 then nanAdd p2 2000 else p2)
       | _ => Err (InvalidDateFormat dateStr)
       end) ;;
  let '(day, month, year) := dmy in
  let timeUpper := toUpperCase timeStr in
  let isPM := includes timeUpper (lit "PM") in
  let isAM := includes timeUpper (lit "AM") in
  let cleanTime := trim (removeAll amPmRegex timeStr) in
  let timeParts := map parseInt (split 58 cleanTime) in
  if (2 <=? length timeParts)%nat then
    let hours := nth 0 timeParts None in
    let minutes := nth 1 timeParts None in
    let seconds :=
      if (length timeParts =? 3)%nat then nth 2 timeParts None else Some 0 in
    let hours :=
      if isAM || isPM then
        if isPM && negb (nanEq hours 12) then nanAdd hours 12
        else if isAM && nanEq hours 12 then Some 0
        else hours
      else hours in
    Ok (newDate year month day hours minutes seconds)
  else Err (InvalidTimeFormat timeStr).

Definition isZeroWidth (c : N) : bool :=
  (((8203 <=? c) && (c <=? 8207)) || (c =? 65279))%N.

(** [s.replace(/\s+/g, ' ')] *)
Fixpoint collapseWhiteSpace (inRun : bool) (s : jsstring) : jsstring :=
  match s with
  | [] => []
  | c :: s' =>
      if isWhiteSpace c
      then if inRun then collapseWhiteSpace true s'
           else 32%N :: collapseWhiteSpace true s'
      else c :: collapseWhiteSpace false s'
  end.

Definition systemIndicators : list jsstring :=
  [ lit "messages and calls are end-to-end encrypted";
    lit "created group";
    lit "added";
    lit "removed";
    lit "left";
    lit "changed the subject";
    lit "changed this group's icon";
    lit "changed the group description";
    lit "you deleted this message";
    lit "this message was deleted";
    lit "security code changed";
    lit "joined using this group's invite link";
    lit "missed voice call";
    lit "missed video call";
    lit "voice call";
    lit "video call";
    lit "waiting for this message";
    lit "trying to call you";
    lit "called you";
    lit "tap to call back";
    lit "call back" ].

Definition isSystemMessage (content participant : jsstring) : bool :=
  let cleanContent :=
    trim (toLowerCase
            (collapseWhiteSpace false
               (filter (fun c => negb (isZeroWidth c)) content))) in
  if existsb (fun indicator => includes cleanContent indicator)
             systemIndicators
  then true
  else if includes cleanContent (lit "missed")
          && includes cleanContent (lit "call")
  then true
  else if (includes cleanContent (lit "voice")
           || includes cleanContent (lit "video"))
          && includes cleanContent (lit "call")
  then true
  else false.

Definition mediaIndicators : list jsstring :=
  [ lit "<attached:";
    lit "image omitted";
    lit "video omitted";
    lit "audio omitted";
    lit "sticker omitted";
    lit "GIF omitted";
    lit "document omitted";
    lit "Contact card omitted";
    lit "<Media omitted>";
    8206%N :: lit "image omitted";
    8206%N :: lit "video omitted";
    8206%N :: lit "audio omitted";
    8206%N :: lit "sticker omitted";
    8206%N :: lit "GIF omitted";
    8206%N :: lit "document omitted" ].

Definition isMediaMessage (content : jsstring) : bool :=
  let contentLower := toLowerCase content in
  existsb (fun indicator => includes contentLower (toLowerCase indicator))
          mediaIndicators.

(** The state of the loop of [parseWhatsAppChat]: the messages pushed so far
    and the message in progress. *)
Definition ParseState : Type :=
  (list (Message Date) * option (Message Date))%type.

(** The continuation branch: the line is appended to the message in
    progress and can set its media flag. *)
Definition appendLine (cm : Message Date) (line : jsstring) : Message Date :=
  let content' := content cm ++ 10%N :: line in
  mkMessage (timestamp cm) (participant cm) content' (isSystem cm)
            (if isMediaMessage line then true else isMedia cm).

(** One iteration of the loop, on the raw line [lines[i]]. *)
Definition parseLine (st : ParseState) (rawLine : jsstring)
  : Result ParseState :=
  let '(messages, currentMessage) := st in
  let line := trim rawLine in
  if (length line =? 0)%nat then Ok st
  else
    match matchLine line with
    | Some (formatType, m) =>
        let messages :=
          match currentMessage with
          | Some cm => messages ++ [cm]
          | None => messages
          end in
        dateStr <- group m 1 ;;
        timeStr <- group m 2 ;;
        g3 <- group m 3 ;;
        let participant := trim g3 in
        g4 <- group m 4 ;;
        let content := trim g4 in
        timestamp <- parseTimestamp dateStr timeStr formatType ;;
        let isSystem := isSystemMessage content participant in
        let isMedia := isMediaMessage content in
        Ok (messages,
            Some (mkMessage timestamp participant content isSystem isMedia))
    | None =>
        match currentMessage with
        | Some cm => Ok (messages, Some (appendLine cm line))
        | None => Ok st
        end
    end.

Fixpoint parseLines (st : ParseState) (lines : list jsstring)
  : Result ParseState :=
  match lines with
  | [] => Ok st
  | l :: rest => st' <- parseLine st l ;; parseLines st' rest
  end.

(** The messages after the last push. *)
Definition flush (st : ParseState) : list (Message Date) :=
  match snd st with
  | Some cm => fst st ++ [cm]
  | None => fst st
  end.

Definition parseWhatsAppChat (fileContent : jsstring)
  : Result (list (Message Date)) :=
  if (length fileContent =? 0)%nat || (length (trim fileContent) =? 0)%nat
  then Err EmptyFileContent
  else
    let lines := split 10 fileContent in
    st <- parseLines ([], None) lines ;;
    let messages := flush st in
    if (length messages =? 0)%nat then Err NoValidMessages
    else Ok messages.

End Parser.

(* ================================================================== *)
(** ** js/utils.js *)
(* ================================================================== *)

Module Utils.
Import JS.

Definition isHighSurrogate (c : N) : bool := ((55296 <=? c) && (c <=? 56319))%N.
Definition isLowSurrogate (c : N) : bool := ((56320 <=? c) && (c <=? 57343))%N.

(** The code points of a string, each with the code units that spell it:
    what a pattern with the [u] flag steps over. *)
Fixpoint codePoints (s : jsstring) : list (N * jsstring) :=
  match s with
  | [] => []
  | h :: s' =>
      match s' with
      | l :: s'' =>
          if isHighSurrogate h && isLowSurrogate l
          then ((65536 + (h - 55296) * 1024 + (l - 56320))%N, [h; l])
                 :: codePoints s''
          else (h, [h]) :: codePoints s'
      | [] => [(h, [h])]
      end
  end.

Section Emoji.
(** The Unicode property table behind the pattern
    [\p{Emoji_Presentation}|\p{Extended_Pictographic}]. *)
Variable pictographic : N -> bool.

Definition extractEmojis (text : jsstring) : list jsstring :=
  map snd (filter (fun cp => pictographic (fst cp)) (codePoints text)).

Definition countEmojis (text : jsstring) : Z :=
  Z.of_nat (length (extractEmojis text)).
End Emoji.

(** [s.split(/\s+/)] *)
Fixpoint splitWhiteSpace (inRun : bool) (s : jsstring) : list jsstring :=
  match s with
  | [] => [[]]
  | c :: s' =>
      if isWhiteSpace c
      then if inRun then splitWhiteSpace true s'
           else [] :: splitWhiteSpace true s'
      else match splitWhiteSpace false s' with
           | w :: ws => (c :: w) :: ws
           | [] => [[c]]
           end
  end.

Definition countWords (text : jsstring) : Z :=
  match text with
  | [] => 0
  | _ =>
      Z.of_nat
        (length (filter (fun word => (0 <? length word)%nat)
                        (splitWhiteSpace false (trim text))))
  end.

Definition countLetters (text : jsstring) : Z :=
  match text with
  | [] => 0
  | _ => Z.of_nat (length (filter isAlphaAZ text))
  end.

Definition twoHours : Z := 2 * 60 * 60 * 1000.
Definition twentyFourHours : Z := 24 * 60 * 60 * 1000.

Definition isNewConversation (milliseconds : Z) : bool :=
  milliseconds >? twoHours.

Definition isValidResponseTime (milliseconds : Z) : bool :=
  milliseconds <? twentyFourHours.

End Utils.

(* ================================================================== *)
(** ** js/dataModel.js *)
(* ================================================================== *)

Module DataModel.
Import JS Parser Utils.

(** A message of the index: its date is valid, and is its time value. *)
Abbreviation Msg := (Message Z).

(** A [Map] keyed by strings: the entries in insertion order. *)
Definition JSMap (V : Type) : Type := list (jsstring * V).

Fixpoint mapGet {V : Type} (k : jsstring) (m : JSMap V) : option V :=
  match m with
  | [] => None
  | (k', v) :: m' => if jsstring_eqb k' k then Some v else mapGet k m'
  end.

Fixpoint mapSet {V : Type} (k : jsstring) (v : V) (m : JSMap V) : JSMap V :=
  match m with
  | [] => [(k, v)]
  | (k', v') :: m' =>
      if jsstring_eqb k' k then (k', v) :: m' else (k', v') :: mapSet k v m'
  end.

Definition mapHas {V : Type} (k : jsstring) (m : JSMap V) : bool :=
  match mapGet k m with Some _ => true | None => false end.

Record ParticipantData : Type := mkParticipantData {
  name : jsstring;
  messageCount : Z;
  wordCount : Z;
  letterCount : Z;
  emojiCount : Z;
  topEmojis : JSMap Z;
  responseTimes : list Z;
  conversationsStarted : Z;
  messages : list Msg;
  messageLengths : list Z;
  characterLengths : list Z;
  questionCount : Z;
  exclamationCount : Z;
  allCapsCount : Z;
  burstCount : Z
}.

(** [new ParticipantData(name)] *)
Definition newParticipantData (name : jsstring) : ParticipantData :=
  mkParticipantData name 0 0 0 0 [] [] 0 [] [] [] 0 0 0 0.

Section AddMessage.
Variable pictographic : N -> bool.

(** The [forEach] over the emojis of a message. *)
Definition countEmoji (m : JSMap Z) (emoji : jsstring) : JSMap Z :=
  let count := match mapGet emoji m with Some c => c | None => 0 end in
  mapSet emoji (count + 1) m.

Definition addMessage (p : ParticipantData) (message : Msg)
  : ParticipantData :=
  let messageCount' := messageCount p + 1 in
  let messages' := messages p ++ [message] in
  if negb (length (content message) =? 0)%nat && negb (isMedia message)
  then
    let words := countWords (content message) in
    let letters := countLetters (content message) in
    let questionCount' :=
      if includes (content message) (lit "?")
      then questionCount p + 1 else questionCount p in
    let exclamationCount' :=
      if includes (content message) (lit "!")
      then exclamationCount p + 1 else exclamationCount p in
    let alphaChars := filter isAlphaAZ (content message) in
    let allCapsCount' :=
      if (5 <=? length alphaChars)%nat
      then
        (* uppercaseRatio > 0.7 *)
        if (7 * Z.of_nat (length alphaChars)
            <? 10 * Z.of_nat (length (filter isUpperAZ alphaChars)))
        then allCapsCount p + 1 else allCapsCount p
      else allCapsCount p in
    let emojis := extractEmojis pictographic (content message) in
    mkParticipantData
      (name p) messageCount'
      (wordCount p + words) (letterCount p + letters)
      (emojiCount p + Z.of_nat (length emojis))
      (fold_left countEmoji emojis (topEmojis p))
      (responseTimes p) (conversationsStarted p) messages'
      (messageLengths p ++ [words])
      (characterLengths p ++ [Z.of_nat (length (content message))])
      questionCount' exclamationCount' allCapsCount' (burstCount p)
  else
    mkParticipantData
      (name p) messageCount'
      (wordCount p) (letterCount p) (emojiCount p) (topEmojis p)
      (responseTimes p) (conversationsStarted p) messages'
      (messageLengths p) (characterLengths p)
      (questionCount p) (exclamationCount p) (allCapsCount p) (burstCount p).
End AddMessage.

Definition addResponseTime (p : ParticipantData) (milliseconds : Z)
  : ParticipantData :=
  mkParticipantData
    (name p) (messageCount p) (wordCount p) (letterCount p) (emojiCount p)
    (topEmojis p) (responseTimes p ++ [milliseconds])
    (conversationsStarted p) (messages p) (messageLengths p)
    (characterLengths p) (questionCount p) (exclamationCount p)
    (allCapsCount p) (burstCount p).

Definition sumZ (l : list Z) : Z := fold_left Z.add l 0.

Definition getAverageResponseTime (p : ParticipantData) : jsnum :=
  if (length (responseTimes p) =? 0)%nat then ofZ 0
  else jdiv (ofZ (sumZ (responseTimes p)))
            (ofZ (Z.of_nat (length (responseTimes p)))).

Record Metadata : Type := mkMetadata {
  startDate : option Z;
  endDate : option Z;
  totalMessages : Z;
  totalParticipants : Z
}.

(** The index.  The lookup tables by hour, by week day and by calendar day
    are kept; the memoization cache, which no analyzer below reads, is not
    modelled. *)
Record ChatData : Type := mkChatData {
  chatMessages : list Msg;
  participants : JSMap ParticipantData;
  metadata : Metadata;
  messagesByHour : list (list Msg);
  messagesByDay : list (list Msg);
  messagesByDate : list (Z * list Msg)
}.

Definition newChatData : ChatData :=
  mkChatData [] [] (mkMetadata None None 0 0)
             (repeat [] 24) (repeat [] 7) [].

Definition getParticipant (cd : ChatData) (name : jsstring)
  : option ParticipantData :=
  mapGet name (participants cd).

Definition getAllParticipants (cd : ChatData) : list ParticipantData :=
  map snd (participants cd).

(** A method call on the participant object found under [name], when there
    is one: the object is shared with the map, which sees the update. *)
Definition updateParticipant (cd : ChatData) (name : jsstring)
    (f : ParticipantData -> ParticipantData) : ChatData :=
  match getParticipant cd name with
  | Some p =>
      mkChatData (chatMessages cd) (mapSet name (f p) (participants cd))
                 (metadata cd) (messagesByHour cd) (messagesByDay cd)
                 (messagesByDate cd)
  | None => cd
  end.

Definition getHours (t : Z) : Z := (t mod msPerDay) / 3600000.
(** [getDay()], 0 is Sunday; 1970-01-01 was a Thursday. *)
Definition getDay (t : Z) : Z := (dayOf t + 4) mod 7.

Fixpoint pushAt {A : Type} (i : nat) (x : A) (l : list (list A))
  : list (list A) :=
  match l, i with
  | [], _ => []
  | b :: l', O => (b ++ [x]) :: l'
  | b :: l', S i' => b :: pushAt i' x l'
  end.

Fixpoint pushDate (day : Z) (x : Msg) (m : list (Z * list Msg))
  : list (Z * list Msg) :=
  match m with
  | [] => [(day, [x])]
  | (d, b) :: m' =>
      if d =? day then (d, b ++ [x]) :: m' else (d, b) :: pushDate day x m'
  end.

Definition minZ (l : list Z) : Z :=
  match l with [] => 0 | x :: l' => fold_left Z.min l' x end.
Definition maxZ (l : list Z) : Z :=
  match l with [] => 0 | x :: l' => fold_left Z.max l' x end.

Section LoadMessages.
Variable pictographic : N -> bool.

(** The body of the [forEach] of [loadMessages]. *)
Definition processMessage (cd : ChatData) (message : Msg) : ChatData :=
  let ps :=
    if mapHas (participant message) (participants cd)
    then participants cd
    else mapSet (participant message)
                (newParticipantData (participant message))
                (participants cd) in
  let ps :=
    match mapGet (participant message) ps with
    | Some p =>
        mapSet (participant message) (addMessage pictographic p message) ps
    | None => ps
    end in
  mkChatData
    (chatMessages cd) ps (metadata cd)
    (pushAt (Z.to_nat (getHours (timestamp message))) message
            (messagesByHour cd))
    (pushAt (Z.to_nat (getDay (timestamp message))) message
            (messagesByDay cd))
    (pushDate (dayOf (timestamp message)) message (messagesByDate cd)).

Definition loadMessages (cd : ChatData) (msgs : list Msg) : ChatData :=
  let kept := filter (fun msg => negb (isSystem msg)) msgs in
  let md :=
    match kept with
    | [] => metadata cd
    | _ :: _ =>
        let timestamps := map timestamp kept in
        mkMetadata (Some (minZ timestamps)) (Some (maxZ timestamps))
                   (Z.of_nat (length kept))
                   (totalParticipants (metadata cd))
    end in
  let cd1 :=
    mkChatData kept (participants cd) md (messagesByHour cd)
               (messagesByDay cd) (messagesByDate cd) in
  let cd2 := fold_left processMessage kept cd1 in
  mkChatData
    (chatMessages cd2) (participants cd2)
    (mkMetadata (startDate (metadata cd2)) (endDate (metadata cd2))
                (totalMessages (metadata cd2))
                (Z.of_nat (length (participants cd2))))
    (messagesByHour cd2) (messagesByDay cd2) (messagesByDate cd2).
End LoadMessages.

End DataModel.

(* ================================================================== *)
(** ** js/statistics.js *)
(* ================================================================== *)

Module Statistics.
Import JS Parser Utils DataModel.

(** [Array.prototype.sort] with a comparator is stable: [le x y] says that
    the comparator is not positive on [(x, y)]. *)
Fixpoint insertSorted {A : Type} (le : A -> A -> bool) (x : A) (l : list A)
  : list A :=
  match l with
  | [] => [x]
  | y :: l' => if le x y then x :: l else y :: insertSorted le x l'
  end.

Definition sortBy {A : Type} (le : A -> A -> bool) (l : list A) : list A :=
  fold_right (insertSorted le) [] l.

(** [(a, b) => a.timestamp.getTime() - b.timestamp.getTime()] *)
Definition byTimestamp (a b : Msg) : bool :=
  timestamp a - timestamp b <=? 0.

Definition sortMessages (messages : list Msg) : list Msg :=
  sortBy byTimestamp messages.

(** *** calculateResponseTimes *)

(** The outer loop, on [sortedMessages] from index [i] on; the inner loop is
    the search for the first later message of another participant. *)
Fixpoint responseLoop (sorted : list Msg) (cd : ChatData) : ChatData :=
  match sorted with
  | [] => cd
  | currentMsg :: later =>
      let cd' :=
        match find (fun nextMsg =>
                      negb (jsstring_eqb (participant nextMsg)
                                         (participant currentMsg))) later with
        | Some nextMsg =>
            let timeDiff := timestamp nextMsg - timestamp currentMsg in
            if isValidResponseTime timeDiff
            then updateParticipant cd (participant nextMsg)
                                   (fun responder =>
                                      addResponseTime responder timeDiff)
            else cd
        | None => cd
        end in
      responseLoop later cd'
  end.

Definition calculateResponseTimes (messages : list Msg) (cd : ChatData)
  : ChatData :=
  responseLoop (sortMessages messages) cd.

(** *** calculateConversationStarters *)

Definition startConversation (p : ParticipantData) : ParticipantData :=
  mkParticipantData
    (name p) (messageCount p) (wordCount p) (letterCount p) (emojiCount p)
    (topEmojis p) (responseTimes p) (conversationsStarted p + 1)
    (messages p) (messageLengths p) (characterLengths p) (questionCount p)
    (exclamationCount p) (allCapsCount p) (burstCount p).

(** The loop from index 1, [previousMsg] being [sortedMessages[i - 1]]. *)
Fixpoint startersLoop (previousMsg : Msg) (rest : list Msg) (cd : ChatData)
  : ChatData :=
  match rest with
  | [] => cd
  | currentMsg :: rest' =>
      let timeDiff := timestamp currentMsg - timestamp previousMsg in
      let cd' :=
        if isNewConversation timeDiff
        then updateParticipant cd (participant currentMsg) startConversation
        else cd in
      startersLoop currentMsg rest' cd'
  end.

Definition calculateConversationStarters (messages : list Msg) (cd : ChatData)
  : ChatData :=
  match sortMessages messages with
  | [] => cd
  | first :: rest =>
      startersLoop first rest
        (updateParticipant cd (participant first) startConversation)
  end.

(** *** calculateStreaks *)

Record Streak : Type := mkStreak {
  streakLength : Z;
  streakStart : Z;
  streakEnd : Z
}.

Record StreakInfo : Type := mkStreakInfo {
  currentStreak : Z;
  longestStreak : Z;
  streaks : list Streak;
  totalDaysWithMessages : option Z
}.

Record StreakState : Type := mkStreakState {
  stCurrent : Z;
  stLongest : Z;
  stDays : list Z;
  stStreaks : list Streak
}.

Definition closeStreak (st : StreakState) : list Streak :=
  if 2 <=? stCurrent st
  then stStreaks st
         ++ [mkStreak (stCurrent st) (hd 0 (stDays st)) (last (stDays st) 0)]
  else stStreaks st.

Fixpoint streakLoop (prevDate : Z) (rest : list Z) (st : StreakState)
  : StreakState :=
  match rest with
  | [] => st
  | currDate :: rest' =>
      let daysDiff := (currDate - prevDate) / msPerDay in
      if daysDiff =? 1
      then streakLoop currDate rest'
             (mkStreakState (stCurrent st + 1) (stLongest st)
                            (stDays st ++ [currDate]) (stStreaks st))
      else streakLoop currDate rest'
             (mkStreakState 1 (Z.max (stLongest st) (stCurrent st))
                            [currDate] (closeStreak st))
  end.

(** [now] is the time value of [new Date()] when the function runs. *)
Definition calculateStreaks (host : Host) (now : Z) (cd : ChatData)
  : StreakInfo :=
  match chatMessages cd with
  | [] => mkStreakInfo 0 0 [] None
  | _ :: _ =>
      let datesWithMessages :=
        fold_left (fun s msg =>
                     setAddString s (toDateString host (timestamp msg)))
                  (chatMessages cd) [] in
      let sortedDates :=
        sortBy (fun a b => a - b <=? 0)
               (map (dateOfString host) datesWithMessages) in
      let first := hd 0 sortedDates in
      let st :=
        streakLoop first (tl sortedDates) (mkStreakState 1 1 [first] []) in
      let streaks := closeStreak st in
      let longestStreak := Z.max (stLongest st) (stCurrent st) in
      let lastDate := last sortedDates 0 in
      let today := startOfDay host now in
      let daysSinceLastMessage := (today - lastDate) / msPerDay in
      let activeStreak :=
        if daysSinceLastMessage <=? 1 then stCurrent st else 0 in
      mkStreakInfo activeStreak longestStreak streaks
                   (Some (Z.of_nat (length sortedDates)))
  end.

(** *** calculateRelationshipHealth *)

Inductive Interpretation : Type :=
| Excellent | Good | Fair | NeedsAttention.

Definition getHealthInterpretation (score : jsnum) : Interpretation :=
  if jge score (ofZ 80) then Excellent
  else if jge score (ofZ 60) then Good
  else if jge score (ofZ 40) then Fair
  else NeedsAttention.

Record HealthDetail : Type := mkHealthDetail {
  detailName : jsstring;
  detailMessageCount : Z;
  messagePercentage : jsnum;
  avgResponseTime : jsnum;
  avgWordCount : jsnum
}.

Record Health : Type := mkHealth {
  overallHealth : jsnum;
  reciprocityScore : jsnum;
  responseScore : jsnum;
  engagementScore : jsnum;
  interpretation : Interpretation;
  detailP1 : HealthDetail;
  detailP2 : HealthDetail
}.

Definition hundred : jsnum := ofZ 100.

(** The scores before rounding, for the two participants in map order. *)
Definition reciprocityOf (p1 p2 : ParticipantData) : jsnum :=
  let totalMessages := ofZ (messageCount p1 + messageCount p2) in
  let idealSplit := jdiv totalMessages (ofZ 2) in
  let deviation := jabs (jsub (ofZ (messageCount p1)) idealSplit) in
  jmax (ofZ 0) (jsub hundred (jmul (jdiv deviation totalMessages) hundred)).

Definition responseOf (p1 p2 : ParticipantData) : jsnum :=
  let maxTime := ofZ (24 * 60 * 60 * 1000) in
  let responseScore1 :=
    jmax (ofZ 0)
         (jsub hundred (jmul (jdiv (getAverageResponseTime p1) maxTime) hundred)) in
  let responseScore2 :=
    jmax (ofZ 0)
         (jsub hundred (jmul (jdiv (getAverageResponseTime p2) maxTime) hundred)) in
  jdiv (jadd responseScore1 responseScore2) (ofZ 2).

Definition avgWordCountOf (p : ParticipantData) : jsnum :=
  jorZero (jdiv (ofZ (wordCount p)) (ofZ (messageCount p))).

Definition engagementOf (p1 p2 : ParticipantData) : jsnum :=
  let avgWordCount :=
    jdiv (jadd (avgWordCountOf p1) (avgWordCountOf p2)) (ofZ 2) in
  if jlt avgWordCount (ofZ 5)
  then jmul (jdiv avgWordCount (ofZ 5)) hundred
  else if jgt avgWordCount (ofZ 20)
  then jmax (ofZ 0)
            (jsub hundred
                  (jmul (jdiv (jsub avgWordCount (ofZ 20)) (ofZ 30)) hundred))
  else hundred.

(** In exact arithmetic: what holds of it up to the rounding of doubles are
    the ranges of the scores.  [Binary64.calculateRelationshipHealth] is the
    same function as the engine computes it. *)
Definition calculateRelationshipHealth (cd : ChatData) : option Health :=
  match getAllParticipants cd with
  | [p1; p2] =>
      let totalMessages := ofZ (messageCount p1 + messageCount p2) in
      let reciprocityScore := reciprocityOf p1 p2 in
      let responseScore := responseOf p1 p2 in
      let engagementScore := engagementOf p1 p2 in
      let overallHealth :=
        jadd (jadd (jmul reciprocityScore (Fin (4 # 10)))
                   (jmul responseScore (Fin (3 # 10))))
             (jmul engagementScore (Fin (3 # 10))) in
      Some (mkHealth
              (jround overallHealth) (jround reciprocityScore)
              (jround responseScore) (jround engagementScore)
              (getHealthInterpretation overallHealth)
              (mkHealthDetail
                 (name p1) (messageCount p1)
                 (jmul (jdiv (ofZ (messageCount p1)) totalMessages) hundred)
                 (getAverageResponseTime p1) (avgWordCountOf p1))
              (mkHealthDetail
                 (name p2) (messageCount p2)
                 (jmul (jdiv (ofZ (messageCount p2)) totalMessages) hundred)
                 (getAverageResponseTime p2) (avgWordCountOf p2)))
  | _ => None
  end.

(** *** getConversationInitiatorPatterns *)

Record Pattern : Type := mkPattern {
  byHour : list Z;
  byDay : list Z
}.

Fixpoint incrAt (i : nat) (l : list Z) : list Z :=
  match l, i with
  | [], _ => []
  | x :: l', O => (x + 1) :: l'
  | x :: l', S i' => x :: incrAt i' l'
  end.

(** The body of the [forEach]; [lastTimestamp] is [None] while it is
    [null] (a [Date] object is never falsy). *)
Definition initiatorStep (st : JSMap Pattern * option Z) (msg : Msg)
  : JSMap Pattern * option Z :=
  let '(patterns, lastTimestamp) := st in
  let starter :=
    match lastTimestamp with
    | None => true
    | Some t => isNewConversation (timestamp msg - t)
    end in
  let patterns' :=
    if starter then
      match mapGet (participant msg) patterns with
      | Some pattern =>
          mapSet (participant msg)
                 (mkPattern
                    (incrAt (Z.to_nat (getHours (timestamp msg)))
                            (byHour pattern))
                    (incrAt (Z.to_nat (getDay (timestamp msg)))
                            (byDay pattern)))
                 patterns
      | None => patterns
      end
    else patterns in
  (patterns', Some (timestamp msg)).

Definition getConversationInitiatorPatterns (cd : ChatData) : JSMap Pattern :=
  let messages := sortMessages (chatMessages cd) in
  let patterns :=
    fold_left (fun m p => mapSet (name p) (mkPattern (repeat 0 24) (repeat 0 7)) m)
              (getAllParticipants cd) [] in
  fst (fold_left initiatorStep messages (patterns, None)).

(** *** analyzeConversationLengths *)

Definition convoStep (st : list (list Msg) * list Msg * option Z) (msg : Msg)
  : list (list Msg) * list Msg * option Z :=
  let '(conversations, currentConvo, lastTimestamp) := st in
  let sameConversation :=
    match lastTimestamp with
    | None => false
    | Some t => negb (isNewConversation (timestamp msg - t))
    end in
  if sameConversation
  then (conversations, currentConvo ++ [msg], Some (timestamp msg))
  else ((if (0 <? length currentConvo)%nat
         then conversations ++ [currentConvo] else conversations),
        [msg], Some (timestamp msg)).

(** The local [conversations] of [analyzeConversationLengths], after the
    last push. *)
Definition conversationsOf (cd : ChatData) : list (list Msg) :=
  let messages := sortMessages (chatMessages cd) in
  let '(conversations, currentConvo, _) :=
    fold_left convoStep messages ([], [], None) in
  if (0 <? length currentConvo)%nat
  then conversations ++ [currentConvo] else conversations.

Definition turnStep (st : Z * option jsstring) (msg : Msg)
  : Z * option jsstring :=
  let '(turns, lastParticipant) := st in
  match lastParticipant with
  | Some p =>
      if jsstring_eqb (participant msg) p then st
      else (turns + 1, Some (participant msg))
  | None => (turns + 1, Some (participant msg))
  end.

Definition turnsOf (convo : list Msg) : Z :=
  fst (fold_left turnStep convo (0, None)).

Record ConversationLengths : Type := mkConversationLengths {
  lengths : list Z;
  distShort : Z;
  distMedium : Z;
  distLong : Z;
  average : jsnum;
  total : Z;
  longest : Z
}.

Definition countIf (f : Z -> bool) (l : list Z) : Z :=
  Z.of_nat (length (filter f l)).

Definition analyzeConversationLengths (cd : ChatData) : ConversationLengths :=
  let conversations := conversationsOf cd in
  let conversationLengths := map turnsOf conversations in
  mkConversationLengths
    conversationLengths
    (countIf (fun l => l <=? 5) conversationLengths)
    (countIf (fun l => (l >? 5) && (l <=? 15)) conversationLengths)
    (countIf (fun l => l >? 15) conversationLengths)
    (if (0 <? length conversationLengths)%nat
     then jdiv (ofZ (sumZ conversationLengths))
               (ofZ (Z.of_nat (length conversationLengths)))
     else ofZ 0)
    (Z.of_nat (length conversations))
    (if (0 <? length conversationLengths)%nat
     then maxZ conversationLengths else 0).

(** *** analyzeActivityTrend *)

Inductive Trend : Type := Neutral | Increasing | Decreasing | Stable.

Record Period : Type := mkPeriod {
  periodMessages : Z;
  periodDays : Z;
  avgPerDay : jsnum;
  periodStart : Z;
  periodEnd : Z
}.

Record TrendInfo : Type := mkTrendInfo {
  trend : Trend;
  percentageChange : jsnum;
  comparison : option (Period * Period)
}.

(** [Math.ceil(ms / (1000 * 60 * 60 * 24))] *)
Definition ceilDays (ms : Z) : Z := - ((- ms) / msPerDay).

Definition countBetween (lo hi : Z) (l : list Msg) : Z :=
  Z.of_nat
    (length (filter (fun m => (lo <=? timestamp m) && (timestamp m <=? hi)) l)).

Definition analyzeActivityTrend (cd : ChatData) : TrendInfo :=
  match chatMessages cd with
  | [] => mkTrendInfo Neutral (ofZ 0) None
  | _ :: _ =>
      let sortedMessages := sortMessages (chatMessages cd) in
      let firstDate := timestamp (hd (mkMessage 0 [] [] false false) sortedMessages) in
      let lastDate := timestamp (last sortedMessages (mkMessage 0 [] [] false false)) in
      let totalDays := ceilDays (lastDate - firstDate) in
      let '(firstPeriodEnd, secondPeriodStart) :=
        if totalDays <? 60
        then
          (* (totalDays / 2) * 24 * 60 * 60 * 1000 is a whole number *)
          let midPoint := firstDate + totalDays * (msPerDay / 2) in
          (midPoint, midPoint)
        else (firstDate + 30 * msPerDay, lastDate - 30 * msPerDay) in
      let firstPeriodMessages :=
        countBetween firstDate firstPeriodEnd sortedMessages in
      let secondPeriodMessages :=
        countBetween secondPeriodStart lastDate sortedMessages in
      let firstPeriodDays := ceilDays (firstPeriodEnd - firstDate) in
      let secondPeriodDays := ceilDays (lastDate - secondPeriodStart) in
      let firstPeriodAvg := jdiv (ofZ firstPeriodMessages) (ofZ firstPeriodDays) in
      let secondPeriodAvg := jdiv (ofZ secondPeriodMessages) (ofZ secondPeriodDays) in
      let percentageChange :=
        jmul (jdiv (jsub secondPeriodAvg firstPeriodAvg) firstPeriodAvg)
             (ofZ 100) in
      let trend :=
        if jgt percentageChange (ofZ 10) then Increasing
        else if jlt percentageChange (ofZ (-10)) then Decreasing
        else Stable in
      mkTrendInfo trend percentageChange
        (Some (mkPeriod firstPeriodMessages firstPeriodDays firstPeriodAvg
                        firstDate firstPeriodEnd,
               mkPeriod secondPeriodMessages secondPeriodDays secondPeriodAvg
                        secondPeriodStart lastDate))
  end.

(** *** analyzeSentiment *)

Definition numToString (z : Z) : jsstring :=
  lit (NilZero.string_of_int (Z.to_int z)).

(** [s.padStart(2, '0')] *)
Definition padStart2 (s : jsstring) : jsstring :=
  repeat 48%N (2 - length s) ++ s.

Definition getMonthKey (date : Z) : jsstring :=
  numToString (getFullYear date) ++ 45%N :: padStart2 (numToString (getMonth date + 1)).

(** [a.localeCompare(b)], taken as the order of the code units (the keys
    are digits and hyphens). *)
Fixpoint strCompare (a b : jsstring) : Datatypes.comparison :=
  match a, b with
  | [], [] => Eq
  | [], _ :: _ => Lt
  | _ :: _, [] => Gt
  | x :: a', y :: b' =>
      match N.compare x y with
      | Eq => strCompare a' b'
      | c => c
      end
  end.

Definition qlt (a b : Q) : bool :=
  match Qcompare a b with Lt => true | _ => false end.
Definition qmax (a b : Q) : Q := if qlt a b then b else a.
Definition qmin (a b : Q) : Q := if qlt b a then b else a.

Record ScoredMessage : Type := mkScored {
  scoredContent : jsstring;
  score : Q;
  scoredTimestamp : Z
}.

Record PeriodData : Type := mkPeriodData {
  scores : list Q;
  periodPositive : Z;
  periodNegative : Z;
  periodNeutral : Z
}.

Record TrendEntry : Type := mkTrendEntry {
  period : jsstring;
  avgScore : Q;
  trendPositive : Z;
  trendNegative : Z;
  trendNeutral : Z
}.

Record SentimentResult : Type := mkSentimentResult {
  overall : Q;
  positive : Z;
  negative : Z;
  neutral : Z;
  sentimentTrend : list TrendEntry;
  topPositive : list ScoredMessage;
  topNegative : list ScoredMessage
}.

Record SentimentState : Type := mkSentimentState {
  totalScore : Q;
  positiveCount : Z;
  negativeCount : Z;
  neutralCount : Z;
  periodMap : JSMap PeriodData;
  scoredMessages : list ScoredMessage
}.

Definition sumQ (l : list Q) : Q := fold_left (fun sum s => Qred (sum + s)%Q) l (0 # 1)%Q.

Definition MAX_LENGTH : nat := 200.

Section Sentiment.
(** [window.Sentiment]: [None] when the library is not loaded; the scorer
    gives the [score] of its result, or [None] when it throws. *)
Variable Sentiment : option (jsstring -> option Q).

Definition analyzeMessageSentiment (text : jsstring) : Q :=
  if (length text =? 0)%nat || (length (trim text) =? 0)%nat then (0 # 1)%Q
  else
    match Sentiment with
    | None => (0 # 1)%Q
    | Some analyze =>
        match analyze text with
        | Some resultScore =>
            qmax (- (1 # 1)%Q) (qmin (1 # 1)%Q (Qred (resultScore / (10 # 1)%Q)))
        | None => (0 # 1)%Q
        end
    end.

(** The body of the [forEach] of [analyzeSentiment]. *)
Definition sentimentStep (st : SentimentState) (msg : Msg) : SentimentState :=
  if (length (content msg) =? 0)%nat
     || (length (trim (content msg)) =? 0)%nat
  then st
  else if (MAX_LENGTH <? length (content msg))%nat then st
  else
    let score := analyzeMessageSentiment (content msg) in
    let monthKey := getMonthKey (timestamp msg) in
    let periodMap1 :=
      if mapHas monthKey (periodMap st) then periodMap st
      else mapSet monthKey (mkPeriodData [] 0 0 0) (periodMap st) in
    let periodMap2 :=
      match mapGet monthKey periodMap1 with
      | Some period =>
          mapSet monthKey
            (if qlt (5 # 100)%Q score
             then mkPeriodData (scores period ++ [score])
                    (periodPositive period + 1) (periodNegative period)
                    (periodNeutral period)
             else if qlt score (- (5 # 100)%Q)
             then mkPeriodData (scores period ++ [score])
                    (periodPositive period) (periodNegative period + 1)
                    (periodNeutral period)
             else mkPeriodData (scores period ++ [score])
                    (periodPositive period) (periodNegative period)
                    (periodNeutral period + 1))
            periodMap1
      | None => periodMap1
      end in
    mkSentimentState
      (Qred (totalScore st + score)%Q)
      (if qlt (5 # 100)%Q score then positiveCount st + 1 else positiveCount st)
      (if qlt (5 # 100)%Q score then negativeCount st
       else if qlt score (- (5 # 100)%Q) then negativeCount st + 1
       else negativeCount st)
      (if qlt (5 # 100)%Q score then neutralCount st
       else if qlt score (- (5 # 100)%Q) then neutralCount st
       else neutralCount st + 1)
      periodMap2
      (scoredMessages st ++ [mkScored (content msg) score (timestamp msg)]).

Definition trendEntry (e : jsstring * PeriodData) : TrendEntry :=
  mkTrendEntry (fst e)
    (Qred (sumQ (scores (snd e)) / inject_Z (Z.of_nat (length (scores (snd e)))))%Q)
    (periodPositive (snd e)) (periodNegative (snd e)) (periodNeutral (snd e)).

Definition byPeriod (a b : TrendEntry) : bool :=
  match strCompare (period a) (period b) with Gt => false | _ => true end.

(** [(a, b) => b.score - a.score] *)
Definition byScoreDesc (a b : ScoredMessage) : bool :=
  negb (qlt (score a) (score b)).

Definition emptySentiment : SentimentResult :=
  mkSentimentResult (0 # 1)%Q 0 0 0 [] [] [].

(** The analysis of the messages of one participant. *)
Definition sentimentOf (participantMessages : list Msg) : SentimentResult :=
  let messages := sortMessages participantMessages in
  let st :=
    fold_left sentimentStep messages
              (mkSentimentState (0 # 1)%Q 0 0 0 [] []) in
  let trend := sortBy byPeriod (map trendEntry (periodMap st)) in
  let sortedByScore := sortBy byScoreDesc (scoredMessages st) in
  let topPositive :=
    filter (fun m => qlt (0 # 1)%Q (score m)) (firstn 5 sortedByScore) in
  let topNegative :=
    filter (fun m => qlt (score m) (0 # 1)%Q)
           (rev (skipn (length sortedByScore - 5) sortedByScore)) in
  mkSentimentResult
    (if (0 <? length messages)%nat
     then Qred (totalScore st / inject_Z (Z.of_nat (length messages)))%Q
     else (0 # 1)%Q)
    (positiveCount st) (negativeCount st) (neutralCount st)
    trend topPositive topNegative.

Definition analyzeSentiment (cd : ChatData) (participantName : jsstring)
  : SentimentResult :=
  match getParticipant cd participantName with
  | None => emptySentiment
  | Some participant => sentimentOf (messages participant)
  end.
End Sentiment.

End Statistics.

(* ================================================================== *)
(** ** js/parser.js: the helpers that follow the parser *)
(* ================================================================== *)

Module ParserHelpers.
Import JS Parser Utils DataModel Statistics.

(** [Array.prototype.sort()] without a comparator orders strings by their
    code units. *)
Definition byCodeUnits (a b : jsstring) : bool :=
  match strCompare a b with Gt => false | _ => true end.

(** The [Set] that [getParticipants] fills, in insertion order. *)
Definition participantSet {TS : Type} (messages : list (Message TS))
  : list jsstring :=
  fold_left (fun s msg =>
               if isSystem msg then s else setAddString s (participant msg))
            messages [].

Definition getParticipants {TS : Type} (messages : list (Message TS))
  : list jsstring :=
  sortBy byCodeUnits (participantSet messages).

(** A filter argument is a name or [null] ([None]); [!name || name ===
    'Total'] holds of [null], of the empty string and of 'Total'. *)
Definition selectsAll (name : option jsstring) : bool :=
  match name with
  | None => true
  | Some n => (length n =? 0)%nat || jsstring_eqb n (lit "Total")
  end.

Definition filterMessagesByParticipant {TS : Type}
    (messages : list (Message TS)) (participant' : option jsstring)
  : list (Message TS) :=
  match participant' with
  | Some n =>
      if selectsAll participant'
      then filter (fun msg => negb (isSystem msg)) messages
      else filter (fun msg =>
                     jsstring_eqb (participant msg) n && negb (isSystem msg))
                  messages
  | None => filter (fun msg => negb (isSystem msg)) messages
  end.

(** [getDateRange]; [nowStart] and [nowEnd] are the time values of the two
    [new Date()] of the empty case. *)
Definition getDateRange (nowStart nowEnd : Z) (messages : list Msg) : Z * Z :=
  match messages with
  | [] => (nowStart, nowEnd)
  | _ :: _ =>
      let timestamps := map timestamp messages in
      (minZ timestamps, maxZ timestamps)
  end.

End ParserHelpers.

(* ================================================================== *)
(** ** js/utils.js: buckets and percentages *)
(* ================================================================== *)

Module UtilsHelpers.
Import JS Parser Utils DataModel Statistics.

(** [total === 0] *)
Definition isZero (a : jsnum) : bool :=
  match a with
  | Fin q => match signQ q with Eq => true | _ => false end
  | _ => false
  end.

Definition getResponseTimeBucket (milliseconds : Z) : jsstring :=
  let minutes := jdiv (ofZ milliseconds) (ofZ (60 * 1000)) in
  let hours := jdiv minutes (ofZ 60) in
  if jlt minutes (ofZ 1) then lit "<1m"
  else if jlt minutes (ofZ 5) then lit "1-5m"
  else if jlt minutes (ofZ 30) then lit "5-30m"
  else if jlt hours (ofZ 1) then lit "30m-1h"
  else lit "1h+".

Definition calculatePercentage (part total : jsnum) : jsnum :=
  if isZero total then ofZ 0
  else jmul (jdiv part total) (ofZ 100).

(** [Math.min(a, b)] *)
Definition jmin (a b : jsnum) : jsnum :=
  match a, b with
  | NaN, _ | _, NaN => NaN
  | _, _ => if jlt b a then b else a
  end.

End UtilsHelpers.

(* ================================================================== *)
(** ** js/dataModel.js: the getters of the two classes *)
(* ================================================================== *)

Module DataModelGetters.
Import JS Parser Utils DataModel Statistics ParserHelpers UtilsHelpers.

(** *** ParticipantData *)

Definition getMedianResponseTime (p : ParticipantData) : jsnum :=
  if (length (responseTimes p) =? 0)%nat then ofZ 0
  else
    let sorted := sortBy (fun a b => a - b <=? 0) (responseTimes p) in
    let mid := (length sorted / 2)%nat in
    if (length sorted mod 2 =? 0)%nat
    then jdiv (ofZ (nth (mid - 1) sorted 0 + nth mid sorted 0)) (ofZ 2)
    else ofZ (nth mid sorted 0).

(** [(a, b) => b.count - a.count] *)
Definition byCountDesc (a b : jsstring * Z) : bool := snd b - snd a <=? 0.

Definition getTopEmojis (p : ParticipantData) (n : nat)
  : list (jsstring * Z) :=
  firstn n (sortBy byCountDesc (topEmojis p)).

(** The object with the keys '<1m', '1-5m', '5-30m', '30m-1h' and '1h+'. *)
Record Distribution : Type := mkDistribution {
  underOneMinute : Z;
  oneToFiveMinutes : Z;
  fiveToThirtyMinutes : Z;
  thirtyMinutesToOneHour : Z;
  oneHourOrMore : Z
}.

(** The body of the [forEach] of [getResponseTimeDistribution]. *)
Definition distributionStep (d : Distribution) (ms : Z) : Distribution :=
  let minutes := jdiv (ofZ ms) (ofZ (60 * 1000)) in
  let hours := jdiv minutes (ofZ 60) in
  if jlt minutes (ofZ 1)
  then mkDistribution (underOneMinute d + 1) (oneToFiveMinutes d)
         (fiveToThirtyMinutes d) (thirtyMinutesToOneHour d) (oneHourOrMore d)
  else if jlt minutes (ofZ 5)
  then mkDistribution (underOneMinute d) (oneToFiveMinutes d + 1)
         (fiveToThirtyMinutes d) (thirtyMinutesToOneHour d) (oneHourOrMore d)
  else if jlt minutes (ofZ 30)
  then mkDistribution (underOneMinute d) (oneToFiveMinutes d)
         (fiveToThirtyMinutes d + 1) (thirtyMinutesToOneHour d) (oneHourOrMore d)
  else if jlt hours (ofZ 1)
  then mkDistribution (underOneMinute d) (oneToFiveMinutes d)
         (fiveToThirtyMinutes d) (thirtyMinutesToOneHour d + 1) (oneHourOrMore d)
  else mkDistribution (underOneMinute d) (oneToFiveMinutes d)
         (fiveToThirtyMinutes d) (thirtyMinutesToOneHour d) (oneHourOrMore d + 1).

Definition getResponseTimeDistribution (p : ParticipantData) : Distribution :=
  fold_left distributionStep (responseTimes p) (mkDistribution 0 0 0 0 0).

Definition getAverageMessageLength (p : ParticipantData) : jsnum :=
  if (length (messageLengths p) =? 0)%nat then ofZ 0
  else jdiv (ofZ (sumZ (messageLengths p)))
            (ofZ (Z.of_nat (length (messageLengths p)))).

Definition getAverageCharacterLength (p : ParticipantData) : jsnum :=
  if (length (characterLengths p) =? 0)%nat then ofZ 0
  else jdiv (ofZ (sumZ (characterLengths p)))
            (ofZ (Z.of_nat (length (characterLengths p)))).

Record CommunicationStyle : Type := mkCommunicationStyle {
  averageWords : jsnum;
  averageCharacters : jsnum;
  styleQuestionCount : Z;
  questionPercentage : jsnum;
  styleExclamationCount : Z;
  exclamationPercentage : jsnum;
  styleAllCapsCount : Z;
  allCapsPercentage : jsnum;
  styleBurstCount : Z
}.

Definition getCommunicationStyle (p : ParticipantData) : CommunicationStyle :=
  mkCommunicationStyle
    (getAverageMessageLength p) (getAverageCharacterLength p)
    (questionCount p)
    (jmul (jdiv (ofZ (questionCount p)) (ofZ (messageCount p))) (ofZ 100))
    (exclamationCount p)
    (jmul (jdiv (ofZ (exclamationCount p)) (ofZ (messageCount p))) (ofZ 100))
    (allCapsCount p)
    (jmul (jdiv (ofZ (allCapsCount p)) (ofZ (messageCount p))) (ofZ 100))
    (burstCount p).

(** *** ChatData *)

(** [getCached] and [invalidateCache], on the [cache] map of the index:
    the value returned ([None] is [undefined]) and the cache afterwards.
    [computeFn] is called only when the key is absent. *)
Definition getCached {V : Type} (cache : JSMap V) (key : jsstring)
    (computeFn : unit -> V) : option V * JSMap V :=
  let cache' :=
    if negb (mapHas key cache) then mapSet key (computeFn tt) cache
    else cache in
  (mapGet key cache', cache').

Definition invalidateCache {V : Type} (cache : JSMap V) : JSMap V := [].

Definition getMessages (cd : ChatData) (participantName : option jsstring)
  : list Msg :=
  match participantName with
  | Some n =>
      if selectsAll participantName then chatMessages cd
      else match getParticipant cd n with
           | Some participant => messages participant
           | None => []
           end
  | None => chatMessages cd
  end.

(** [table.get(key) || []] for the tables keyed by the numbers 0, 1, ... *)
Definition bucketOf (table : list (list Msg)) (key : Z) : list Msg :=
  if key <? 0 then [] else nth (Z.to_nat key) table [].

Definition filterByName (messages : list Msg)
    (participantName : option jsstring) : list Msg :=
  match participantName with
  | Some n =>
      if selectsAll participantName then messages
      else filter (fun m => jsstring_eqb (participant m) n) messages
  | None => messages
  end.

Definition getMessagesByHour (cd : ChatData) (hour : Z)
    (participantName : option jsstring) : list Msg :=
  filterByName (bucketOf (messagesByHour cd) hour) participantName.

Definition getMessagesByDay (cd : ChatData) (day : Z)
    (participantName : option jsstring) : list Msg :=
  filterByName (bucketOf (messagesByDay cd) day) participantName.

(** [grid[day][hour]++] *)
Fixpoint applyAt {A : Type} (i : nat) (f : A -> A) (l : list A) : list A :=
  match l, i with
  | [], _ => []
  | x :: l', O => f x :: l'
  | x :: l', S i' => x :: applyAt i' f l'
  end.

Definition incrCell (day hour : nat) (grid : list (list Z)) : list (list Z) :=
  applyAt day (incrAt hour) grid.

(** [Array(7).fill(0).map(() => Array(24).fill(0))] *)
Definition emptyGrid : list (list Z) := repeat (repeat 0 24%nat) 7%nat.

Definition getActivityHeatmap (cd : ChatData)
    (participantName : option jsstring) : list (list Z) :=
  fold_left
    (fun heatmap message =>
       if negb (selectsAll participantName)
          && negb (match participantName with
                   | Some n => jsstring_eqb (participant message) n
                   | None => true
                   end)
       then heatmap
       else incrCell (Z.to_nat (getDay (timestamp message)))
                     (Z.to_nat (getHours (timestamp message))) heatmap)
    (chatMessages cd) emptyGrid.

Record TotalStats : Type := mkTotalStats {
  statsMessageCount : Z;
  statsWordCount : Z;
  statsLetterCount : Z;
  statsEmojiCount : Z;
  statsParticipantCount : Z
}.

Definition getTotalStats (cd : ChatData) : TotalStats :=
  fold_left
    (fun stats participant =>
       mkTotalStats (statsMessageCount stats)
                    (statsWordCount stats + wordCount participant)
                    (statsLetterCount stats + letterCount participant)
                    (statsEmojiCount stats + emojiCount participant)
                    (statsParticipantCount stats))
    (getAllParticipants cd)
    (mkTotalStats (totalMessages (metadata cd)) 0 0 0
                  (totalParticipants (metadata cd))).

(** [ChatData.getTopEmojis]: the histograms of the participants are merged
    in map order. *)
Definition mergeEmoji (emojiMap : JSMap Z) (e : jsstring * Z) : JSMap Z :=
  let current :=
    match mapGet (fst e) emojiMap with Some c => c | None => 0 end in
  mapSet (fst e) (current + snd e) emojiMap.

Definition getTopEmojisOfChat (cd : ChatData) (n : nat)
  : list (jsstring * Z) :=
  firstn n
    (sortBy byCountDesc
       (fold_left (fun emojiMap participant =>
                     fold_left mergeEmoji (topEmojis participant) emojiMap)
                  (getAllParticipants cd) [])).

End DataModelGetters.

(* ================================================================== *)
(** ** js/statistics.js: bursts, distributions and the peak *)
(* ================================================================== *)

Module StatisticsQueries.
Import JS Parser Utils DataModel Statistics ParserHelpers UtilsHelpers
       DataModelGetters.

(** *** calculateMessageBursts *)

Definition addBurst (p : ParticipantData) : ParticipantData :=
  mkParticipantData
    (name p) (messageCount p) (wordCount p) (letterCount p) (emojiCount p)
    (topEmojis p) (responseTimes p) (conversationsStarted p)
    (messages p) (messageLengths p) (characterLengths p) (questionCount p)
    (exclamationCount p) (allCapsCount p) (burstCount p + 1).

(** The body of the [forEach]: the index, [currentParticipant] ([None] is
    [null]) and the local [burstCount]. *)
Definition burstStep (st : ChatData * option jsstring * Z) (msg : Msg)
  : ChatData * option jsstring * Z :=
  let '(cd, currentParticipant, burstCount) := st in
  let same :=
    match currentParticipant with
    | Some c => jsstring_eqb (participant msg) c
    | None => false
    end in
  let currentParticipant' :=
    if same then currentParticipant else Some (participant msg) in
  let burstCount' := if same then burstCount + 1 else 0 in
  let cd' :=
    if 1 <=? burstCount'
    then updateParticipant cd (participant msg) addBurst
    else cd in
  (cd', currentParticipant', burstCount').

Definition calculateMessageBursts (messages : list Msg) (cd : ChatData)
  : ChatData :=
  fst (fst (fold_left burstStep (sortMessages messages) (cd, None, 0))).

Definition calculateAllStatistics (cd : ChatData) : ChatData :=
  let cd1 := calculateResponseTimes (chatMessages cd) cd in
  let cd2 := calculateConversationStarters (chatMessages cd1) cd1 in
  calculateMessageBursts (chatMessages cd2) cd2.

(** *** The distributions *)

Definition addDistribution (a b : Distribution) : Distribution :=
  mkDistribution
    (underOneMinute a + underOneMinute b)
    (oneToFiveMinutes a + oneToFiveMinutes b)
    (fiveToThirtyMinutes a + fiveToThirtyMinutes b)
    (thirtyMinutesToOneHour a + thirtyMinutesToOneHour b)
    (oneHourOrMore a + oneHourOrMore b).

Definition getResponseTimeDistributionTotal
    (participants : list ParticipantData) : Distribution :=
  fold_left (fun distribution participant =>
               addDistribution distribution
                               (getResponseTimeDistribution participant))
            participants (mkDistribution 0 0 0 0 0).

Definition getHourlyDistribution (cd : ChatData)
    (participantName : option jsstring) : list Z :=
  map (fun hour =>
         Z.of_nat (length (getMessagesByHour cd (Z.of_nat hour)
                                             participantName)))
      (seq 0 24).

Definition getDailyDistribution (cd : ChatData)
    (participantName : option jsstring) : list Z :=
  map (fun day =>
         Z.of_nat (length (getMessagesByDay cd (Z.of_nat day)
                                            participantName)))
      (seq 0 7).

(** [l.indexOf(x)] *)
Fixpoint indexOf (x : Z) (l : list Z) : Z :=
  match l with
  | [] => -1
  | y :: l' =>
      if y =? x then 0
      else let i := indexOf x l' in if i <? 0 then -1 else i + 1
  end.

(** [l[i]] on numbers, [None] being [undefined]. *)
Definition at_ (l : list Z) (i : Z) : option Z :=
  if i <? 0 then None else nth_error l (Z.to_nat i).

Record PeakTimes : Type := mkPeakTimes {
  peakHour : Z;
  peakHourCount : option Z;
  peakDay : Z;
  peakDayCount : option Z
}.

(** [Math.max(...l)] of a list that is not empty is [maxZ l]. *)
Definition getPeakActivityTimes (cd : ChatData)
    (participantName : option jsstring) : PeakTimes :=
  let hourlyDist := getHourlyDistribution cd participantName in
  let dailyDist := getDailyDistribution cd participantName in
  let peakHour := indexOf (maxZ hourlyDist) hourlyDist in
  let peakDay := indexOf (maxZ dailyDist) dailyDist in
  mkPeakTimes peakHour (at_ hourlyDist peakHour)
              peakDay (at_ dailyDist peakDay).

(** *** getTotalStatistics, getParticipantStatistics, getStatistics *)

Record TotalStatistics : Type := mkTotalStatistics {
  totalMessageCount : Z;
  totalWordCount : Z;
  totalLetterCount : Z;
  totalEmojiCount : Z;
  participantCount : Z;
  totalAverageResponseTime : jsnum;
  totalConversationsStarted : Z;
  totalTopEmojis : list (jsstring * Z);
  totalResponseTimeDistribution : Distribution;
  totalHourlyDistribution : list Z;
  totalDailyDistribution : list Z;
  totalActivityHeatmap : list (list Z);
  totalDateRange : option Z * option Z
}.

Definition getTotalStatistics (cd : ChatData) : TotalStatistics :=
  let totalStats := getTotalStats cd in
  let participants := getAllParticipants cd in
  let allResponseTimes :=
    fold_left (fun all p => all ++ responseTimes p) participants [] in
  let avgResponseTime :=
    if (0 <? length allResponseTimes)%nat
    then jdiv (ofZ (sumZ allResponseTimes))
              (ofZ (Z.of_nat (length allResponseTimes)))
    else ofZ 0 in
  let totalConversationsStarted :=
    fold_left (fun sum p => sum + conversationsStarted p) participants 0 in
  mkTotalStatistics
    (statsMessageCount totalStats) (statsWordCount totalStats)
    (statsLetterCount totalStats) (statsEmojiCount totalStats)
    (statsParticipantCount totalStats)
    avgResponseTime totalConversationsStarted
    (getTopEmojisOfChat cd 10)
    (getResponseTimeDistributionTotal participants)
    (getHourlyDistribution cd None)
    (getDailyDistribution cd None)
    (getActivityHeatmap cd None)
    (startDate (metadata cd), endDate (metadata cd)).

Record ParticipantStatistics : Type := mkParticipantStatistics {
  statName : jsstring;
  statMessageCount : Z;
  statWordCount : Z;
  statLetterCount : Z;
  statEmojiCount : Z;
  averageResponseTime : jsnum;
  medianResponseTime : jsnum;
  statConversationsStarted : Z;
  statTopEmojis : list (jsstring * Z);
  responseTimeDistribution : Distribution;
  hourlyDistribution : list Z;
  dailyDistribution : list Z;
  activityHeatmap : list (list Z);
  dateRange : option Z * option Z
}.

Definition getParticipantStatistics (participant : ParticipantData)
    (cd : ChatData) : ParticipantStatistics :=
  mkParticipantStatistics
    (name participant) (messageCount participant) (wordCount participant)
    (letterCount participant) (emojiCount participant)
    (getAverageResponseTime participant)
    (getMedianResponseTime participant)
    (conversationsStarted participant)
    (getTopEmojis participant 10)
    (getResponseTimeDistribution participant)
    (getHourlyDistribution cd (Some (name participant)))
    (getDailyDistribution cd (Some (name participant)))
    (getActivityHeatmap cd (Some (name participant)))
    (startDate (metadata cd), endDate (metadata cd)).

Inductive StatisticsObject : Type :=
| OfTotal (s : TotalStatistics)
| OfParticipant (s : ParticipantStatistics).

(** [getStatistics]; the result [None] is [null]. *)
Definition getStatistics (cd : ChatData) (participantName : jsstring)
  : option StatisticsObject :=
  if jsstring_eqb participantName (lit "Total")
  then Some (OfTotal (getTotalStatistics cd))
  else
    match getParticipant cd participantName with
    | Some participant =>
        Some (OfParticipant (getParticipantStatistics participant cd))
    | None => None
    end.

(** *** predictPeakConversationTime *)

Definition cell (matrix : list (list Z)) (day hour : nat) : Z :=
  nth hour (nth day matrix []) 0.

(** The slots in the order of the two nested loops. *)
Definition slots : list (nat * nat) :=
  flat_map (fun day => map (fun hour => (day, hour)) (seq 0 24)) (seq 0 7).

(** The body of the inner loop: [maxCount], [peakDay], [peakHour]. *)
Definition peakStep (matrix : list (list Z)) (st : Z * nat * nat)
    (slot : nat * nat) : Z * nat * nat :=
  let '(maxCount, _, _) := st in
  if cell matrix (fst slot) (snd slot) >? maxCount
  then (cell matrix (fst slot) (snd slot), fst slot, snd slot)
  else st.

Definition days : list jsstring :=
  [ lit "Sunday"; lit "Monday"; lit "Tuesday"; lit "Wednesday";
    lit "Thursday"; lit "Friday"; lit "Saturday" ].

Definition formatHourForPrediction (hour : Z) : jsstring :=
  if hour =? 0 then lit "12am"
  else if hour <? 12 then numToString hour ++ lit "am"
  else if hour =? 12 then lit "12pm"
  else numToString (hour - 12) ++ lit "pm".

Record Prediction : Type := mkPrediction {
  predictedDay : jsstring;
  predictedDayShort : jsstring;
  predictedHour : Z;
  hourFormatted : jsstring;
  confidence : jsnum;
  predictedMessageCount : Z;
  predictedTotalMessages : Z
}.

(** The matrix of day and hour that the first loop fills. *)
Definition slotMatrix (cd : ChatData) : list (list Z) :=
  fold_left (fun matrix msg =>
               incrCell (Z.to_nat (getDay (timestamp msg)))
                        (Z.to_nat (getHours (timestamp msg))) matrix)
            (chatMessages cd) emptyGrid.

Definition predictPeakConversationTime (cd : ChatData) : Prediction :=
  let matrix := slotMatrix cd in
  let '(maxCount, peakDay, peakHour) :=
    fold_left (peakStep matrix) slots (0, 0%nat, 0%nat) in
  let totalMessages := Z.of_nat (length (chatMessages cd)) in
  let avgMessagesPerSlot := jdiv (ofZ totalMessages) (ofZ (7 * 24)) in
  let confidence :=
    if jgt avgMessagesPerSlot (ofZ 0)
    then jmin (jmul (jdiv (ofZ maxCount) avgMessagesPerSlot) (ofZ 20))
              (ofZ 100)
    else ofZ 0 in
  mkPrediction
    (nth peakDay days []) (firstn 3 (nth peakDay days []))
    (Z.of_nat peakHour) (formatHourForPrediction (Z.of_nat peakHour))
    (jround confidence) maxCount totalMessages.

End StatisticsQueries.


(* ================================================================== *)
(** ** Numbers as the engine computes them: IEEE 754 binary64 *)
(* ================================================================== *)

(** The relationship health reports a rounded score and a label read off a
    threshold, so that the last bit of a double can decide what is shown.
    Here the function is embedded over binary64, with the operations of
    [SpecFloat] at precision 53 (round to nearest, ties to even). *)
Module Binary64.
Import JS DataModel Statistics.

Abbreviation double := SpecFloat.spec_float.

Definition prec : Z := 53.
Definition emax : Z := 1024.

(** The double nearest to a whole number; a counter of the index is one. *)
Definition ofZ (z : Z) : double :=
  SpecFloat.binary_normalize prec emax z 0 false.

Definition add : double -> double -> double := SpecFloat.SFadd prec emax.
Definition sub : double -> double -> double := SpecFloat.SFsub prec emax.
Definition mul : double -> double -> double := SpecFloat.SFmul prec emax.
Definition div : double -> double -> double := SpecFloat.SFdiv prec emax.

(** A decimal literal with one digit after the point, such as [0.4]: the
    double nearest to [tenths / 10], which the correctly rounded quotient
    of the two whole numbers is. *)
Definition tenths (n : Z) : double := div (ofZ n) (ofZ 10).

(** [a < b], [a > b] and [a >= b]: false when an operand is [NaN]. *)
Definition lt (a b : double) : bool := SpecFloat.SFltb a b.
Definition gt (a b : double) : bool := SpecFloat.SFltb b a.
Definition ge (a b : double) : bool := SpecFloat.SFleb b a.

Definition isNaN (a : double) : bool :=
  match a with SpecFloat.S754_nan => true | _ => false end.

(** [Math.abs] *)
Definition abs (a : double) : double := SpecFloat.SFabs a.

(** [Math.max(a, b)]: [NaN] when an operand is, and [+0] above [-0]. *)
Definition max (a b : double) : double :=
  if isNaN a || isNaN b then SpecFloat.S754_nan
  else
    match a, b with
    | SpecFloat.S754_zero sa, SpecFloat.S754_zero sb =>
        SpecFloat.S754_zero (sa && sb)
    | _, _ => if lt a b then b else a
    end.

(** [Math.round]: the nearest whole number, halves towards positive
    infinity, computed on the exact value [m * 2 ^ e] of the double; a
    result of zero keeps the sign of the argument. *)
Definition round (a : double) : double :=
  match a with
  | SpecFloat.S754_finite s m e =>
      if 0 <=? e then a
      else
        let n := (2 * (if s then Z.neg m else Z.pos m) + 2 ^ (- e))
                 / 2 ^ (1 - e) in
        if n =? 0 then SpecFloat.S754_zero s else ofZ n
  | _ => a
  end.

(** [a || 0]: [NaN] and the zeros are falsy. *)
Definition orZero (a : double) : double :=
  match a with
  | SpecFloat.S754_nan | SpecFloat.S754_zero _ => ofZ 0
  | _ => a
  end.

(** *** ParticipantData.getAverageResponseTime *)

Definition getAverageResponseTime (p : ParticipantData) : double :=
  if (length (responseTimes p) =? 0)%nat then ofZ 0
  else
    let sum :=
      fold_left (fun a b => add a (ofZ b)) (responseTimes p) (ofZ 0) in
    div sum (ofZ (Z.of_nat (length (responseTimes p)))).

(** *** calculateRelationshipHealth *)

Definition getHealthInterpretation (score : double) : Interpretation :=
  if ge score (ofZ 80) then Excellent
  else if ge score (ofZ 60) then Good
  else if ge score (ofZ 40) then Fair
  else NeedsAttention.

Record HealthDetail : Type := mkHealthDetail {
  detailName : jsstring;
  detailMessageCount : Z;
  messagePercentage : double;
  avgResponseTime : double;
  avgWordCount : double
}.

Record Health : Type := mkHealth {
  overallHealth : double;
  reciprocityScore : double;
  responseScore : double;
  engagementScore : double;
  interpretation : Interpretation;
  detailP1 : HealthDetail;
  detailP2 : HealthDetail
}.

Definition hundred : double := ofZ 100.

Definition calculateRelationshipHealth (cd : ChatData) : option Health :=
  match getAllParticipants cd with
  | [p1; p2] =>
      let totalMessages := add (ofZ (messageCount p1)) (ofZ (messageCount p2)) in
      let idealSplit := div totalMessages (ofZ 2) in
      let deviation := abs (sub (ofZ (messageCount p1)) idealSplit) in
      let reciprocityScore :=
        max (ofZ 0) (sub hundred (mul (div deviation totalMessages) hundred)) in
      let avgResponseTime1 := getAverageResponseTime p1 in
      let avgResponseTime2 := getAverageResponseTime p2 in
      let maxTime := ofZ (24 * 60 * 60 * 1000) in
      let responseScore1 :=
        max (ofZ 0)
            (sub hundred (mul (div avgResponseTime1 maxTime) hundred)) in
      let responseScore2 :=
        max (ofZ 0)
            (sub hundred (mul (div avgResponseTime2 maxTime) hundred)) in
      let responseScore := div (add responseScore1 responseScore2) (ofZ 2) in
      let avgWordCount1 :=
        orZero (div (ofZ (wordCount p1)) (ofZ (messageCount p1))) in
      let avgWordCount2 :=
        orZero (div (ofZ (wordCount p2)) (ofZ (messageCount p2))) in
      let avgWordCount := div (add avgWordCount1 avgWordCount2) (ofZ 2) in
      let wordScore :=
        if lt avgWordCount (ofZ 5)
        then mul (div avgWordCount (ofZ 5)) hundred
        else if gt avgWordCount (ofZ 20)
        then max (ofZ 0)
                 (sub hundred
                      (mul (div (sub avgWordCount (ofZ 20)) (ofZ 30))
                           hundred))
        else hundred in
      let engagementScore := wordScore in
      let overallHealth :=
        add (add (mul reciprocityScore (tenths 4))
                 (mul responseScore (tenths 3)))
            (mul engagementScore (tenths 3)) in
      Some (mkHealth
              (round overallHealth) (round reciprocityScore)
              (round responseScore) (round engagementScore)
              (getHealthInterpretation overallHealth)
              (mkHealthDetail
                 (name p1) (messageCount p1)
                 (mul (div (ofZ (messageCount p1)) totalMessages) hundred)
                 avgResponseTime1 avgWordCount1)
              (mkHealthDetail
                 (name p2) (messageCount p2)
                 (mul (div (ofZ (messageCount p2)) totalMessages) hundred)
                 avgResponseTime2 avgWordCount2))
  | _ => None
  end.

End Binary64.

(* ================================================================== *)
(** ** A host *)
(* ================================================================== *)

(** A host in the UTC time zone whose engine reads date strings back as V8
    does; it serves where [calculateStreaks] is run on an example. *)
Module Hosts.
Import JS DataModel Statistics.

Definition dayNames : list jsstring :=
  map lit ["Sun"; "Mon"; "Tue"; "Wed"; "Thu"; "Fri"; "Sat"]%string.

Definition monthNames : list jsstring :=
  map lit ["Jan"; "Feb"; "Mar"; "Apr"; "May"; "Jun";
           "Jul"; "Aug"; "Sep"; "Oct"; "Nov"; "Dec"]%string.

(** [s.padStart(width, '0')] *)
Definition padZeros (width : nat) (s : jsstring) : jsstring :=
  repeat 48%N (width - length s) ++ s.

(** [toDateString]: the week day, the month, the day in two digits and the
    year in at least four, as in [Thu Jan 01 1970]; a year before 0 has
    its sign. *)
Definition utcDateString (t : Z) : jsstring :=
  let '(y, m, d) := civilFromDays (dayOf t) in
  nth (Z.to_nat (getDay t)) dayNames []
  ++ 32%N :: nth (Z.to_nat (m - 1)) monthNames []
  ++ 32%N :: padZeros 2 (numToString d)
  ++ 32%N :: (if y <? 0 then [45%N] else [])
  ++ padZeros 4 (numToString (Z.abs y)).

Fixpoint indexOfName (x : jsstring) (l : list jsstring) : option Z :=
  match l with
  | [] => None
  | y :: l' =>
      if jsstring_eqb x y then Some 0
      else option_map Z.succ (indexOfName x l')
  end.

(** [new Date(string)] for such a string: the week day is not looked at,
    and a year below 50 is taken in the 2000s, one from 50 to 99 in the
    1900s, also when it is written in four digits.  The result is the
    midnight that starts the day.  What is not of that shape reads as the
    time value 0: no string of [utcDateString] for a year from 0 on is
    such. *)
Definition utcDateOfString (s : jsstring) : Z :=
  match split 32 s with
  | [_; mon; dd; yyyy] =>
      match indexOfName mon monthNames, parseInt dd, parseInt yyyy with
      | Some m, Some d, Some y =>
          let year :=
            if (0 <=? y) && (y <? 50) then 2000 + y
            else if (50 <=? y) && (y <? 100) then 1900 + y
            else y in
          midnightOf (daysFromCivil year (m + 1) d)
      | _, _, _ => 0
      end
  | _ => 0
  end.

Definition utcHost : Host :=
  mkHost utcDateString utcDateOfString (fun t => midnightOf (dayOf t)).

End Hosts.
(* ================================================================== *)
(** ** Notions of the specification *)
(* ================================================================== *)

Module Spec.
Import JS Regex Parser Utils DataModel Statistics.

(** The strings that a pattern matches. *)
Fixpoint lang (r : regex) (w : jsstring) : Prop :=
  match r with
  | Chr c => w = [c]
  | ChrI c => exists x, w = [x] /\ upperUnit x = upperUnit c
  | Cls p => exists x, w = [x] /\ p x = true
  | Cat a b => exists u v, w = u ++ v /\ lang a u /\ lang b v
  | Alt a b => lang a w \/ lang b w
  | Opt a => w = [] \/ lang a w
  | Star p => Forall (fun x => p x = true) w
  | Plus p => w <> [] /\ Forall (fun x => p x = true) w
  | Rep lo hi p =>
      Forall (fun x => p x = true) w /\ (lo <= length w <= hi)%nat
  | Grp _ a => lang a w
  | Bol | Eol => w = []
  end.

(** The strings that group [k] of a pattern can capture. *)
Fixpoint capLang (r : regex) (k : nat) (w : jsstring) : Prop :=
  match r with
  | Cat a b | Alt a b => capLang a k w \/ capLang b k w
  | Opt a => capLang a k w
  | Grp j a => (if Nat.eqb k j then lang a w else False) \/ capLang a k w
  | _ => False
  end.

(** Group [k] takes part in every match of the pattern. *)
Fixpoint defines (r : regex) (k : nat) : bool :=
  match r with
  | Cat a b => defines a k || defines b k
  | Alt a b => defines a k && defines b k
  | Grp j a => Nat.eqb k j || defines a k
  | _ => false
  end.

(** The value of a string of decimal digits. *)
Definition decimal (ds : jsstring) : Z :=
  fold_left (fun acc c => 10 * acc + Z.of_N (c - 48)) ds 0.

Definition isDigits (ds : jsstring) : Prop :=
  ds <> [] /\ Forall (fun c => isDigit c = true) ds.

(** The 12-hour rule: with PM an hour other than 12 gains 12, with AM the
    hour 12 becomes 0. *)
Inductive Meridiem : Type := AM | PM.

Definition hour24 (ap : option Meridiem) (h : Z) : Z :=
  match ap with
  | Some PM => if h =? 12 then h else h + 12
  | Some AM => if h =? 12 then 0 else h
  | None => h
  end.

(** The year, the 1-based month and the day that the three numbers of a
    date stand for: year-month-day in the ISO form, day-month-year (with a
    year below 100 counted from 2000) otherwise. *)
Definition dateFields (formatType : FormatType) (n1 n2 n3 : Z) : Z * Z * Z :=
  match formatType with
  | Iso => (n1, n2, n3)
  | _ => (if n3 <? 100 then n3 + 2000 else n3, n2, n1)
  end.

Definition dateSeparator (formatType : FormatType) : N :=
  match formatType with Iso => 45%N | _ => 47%N end.

(** The text of the optional seconds and of the optional AM/PM suffix. *)
Definition secondsText (ss : option jsstring) : jsstring :=
  match ss with Some s => 58%N :: s | None => [] end.

Definition meridiemText (ap : option (jsstring * Meridiem)) : jsstring :=
  match ap with
  | Some (ws, AM) => ws ++ [65%N; 77%N]
  | Some (ws, PM) => ws ++ [80%N; 77%N]
  | None => []
  end.

(** A code unit of a time of day before its AM/PM suffix, as far as the
    removal of the suffix is concerned: no white space, no A, no P. *)
Definition plainTimeChar (c : N) : Prop :=
  isWhiteSpace c = false /\ upperUnit c <> 65%N /\ upperUnit c <> 80%N.

Definition meridiemOK (ap : option (jsstring * Meridiem)) : Prop :=
  match ap with
  | Some (ws, _) => Forall (fun x => isWhiteSpace x = true) ws
  | None => True
  end.

Definition secondsOK (ss : option jsstring) : Prop :=
  match ss with
  | Some s => isDigits s
  | None => True
  end.

(** A time of day before its AM/PM suffix: hours, minutes, and maybe
    seconds. *)
Definition timeBody (hs ms : jsstring) (ss : option jsstring) : jsstring :=
  hs ++ 58%N :: ms ++ secondsText ss.

(** The text of a date whose three numbers are [d1], [d2], [d3]. *)
Definition dateText (formatType : FormatType) (d1 d2 d3 : jsstring)
  : jsstring :=
  d1 ++ dateSeparator formatType :: d2 ++ dateSeparator formatType :: d3.

(** The [Date] that the rules of the specification give. *)
Definition expectedDate (formatType : FormatType) (d1 d2 d3 hs ms : jsstring)
    (ss : option jsstring) (ap : option (jsstring * Meridiem)) : Date :=
  let '(year, month, day) :=
    dateFields formatType (decimal d1) (decimal d2) (decimal d3) in
  newDate (Some year) (Some (month - 1)) (Some day)
          (Some (hour24 (option_map snd ap) (decimal hs)))
          (Some (decimal ms))
          (Some (match ss with Some s => decimal s | None => 0 end)).

(** A raw line that starts no message: blank, or matching none of the
    three grammars. *)
Definition startsNoMessage (rawLine : jsstring) : Prop :=
  trim rawLine = [] \/ matchLine (trim rawLine) = None.

(** The date of a time value as [calculateStreaks] takes it: the date
    string of the host, read back by the host. *)
Definition dateOf (host : Host) (t : Z) : Z :=
  dateOfString host (toDateString host t).

(** The current streak as the specification words it: the length of the
    final run when the last date with a message is today or yesterday, and
    0 otherwise; [today] and [lastDate] are the midnights that start the
    two days. *)
Definition claimedCurrentStreak (host : Host) (now lastDate finalRun : Z)
  : Z :=
  if (lastDate =? startOfDay host now)
     || (lastDate =? startOfDay host (startOfDay host now - 1))
  then finalRun else 0.

(** [d] is the delay of a response by [name] in the sequence [s]: some
    message [cur] is followed, after messages of the same participant only,
    by a message [nxt] of another participant, who is [name], and [d] is
    the time from [cur] to [nxt]. *)
Definition isResponse (s : list Msg) (name : jsstring) (d : Z) : Prop :=
  exists (pre : list Msg) (cur : Msg) (mid : list Msg) (nxt : Msg)
         (post : list Msg),
    s = pre ++ cur :: mid ++ nxt :: post
    /\ Forall (fun m => participant m = participant cur) mid
    /\ participant nxt <> participant cur
    /\ participant nxt = name
    /\ d = timestamp nxt - timestamp cur.

(** The samples that the scan over [s] hands to [name], in order. *)
Fixpoint responseSamples (s : list Msg) (name : jsstring) : list Z :=
  match s with
  | [] => []
  | cur :: later =>
      match find (fun nxt => negb (jsstring_eqb (participant nxt)
                                                (participant cur))) later with
      | Some nxt =>
          if (timestamp nxt - timestamp cur <? 24 * 60 * 60 * 1000)
             && jsstring_eqb (participant nxt) name
          then [timestamp nxt - timestamp cur] else []
      | None => []
      end ++ responseSamples later name
  end.

(** A gap between consecutive messages is a conversation boundary when it
    exceeds two hours. *)
Definition isBoundary (gap : Z) : bool := 2 * 60 * 60 * 1000 <? gap.

(** For each message of a sequence, whether it starts a conversation: the
    first one does, a later one does when the gap from the message before
    it is a boundary.  [prev] is the timestamp of the message before. *)
Fixpoint startFlags (prev : option Z) (s : list Msg) : list bool :=
  match s with
  | [] => []
  | m :: s' =>
      match prev with
      | None => true
      | Some t => isBoundary (timestamp m - t)
      end :: startFlags (Some (timestamp m)) s'
  end.

(** How many of the flagged messages of [s] are by [name]. *)
Definition countStarts (name : jsstring) (s : list Msg) (flags : list bool)
  : Z :=
  Z.of_nat
    (length (filter (fun mf => snd mf && jsstring_eqb (participant (fst mf)) name)
                    (combine s flags))).

(** The start flags that a cutting into conversations induces: the first
    message of each conversation is flagged, the others are not. *)
Definition convoFlags (convo : list Msg) : list bool :=
  match convo with
  | [] => []
  | _ :: rest => true :: map (fun _ => false) rest
  end.

Definition partitionFlags (conversations : list (list Msg)) : list bool :=
  flat_map convoFlags conversations.

(** The push of the conversation in progress, when it is not empty. *)
Definition closeConvo (conversations : list (list Msg)) (currentConvo : list Msg)
  : list (list Msg) :=
  if (0 <? length currentConvo)%nat
  then conversations ++ [currentConvo] else conversations.

(** A pattern with one slot per hour and per week day, which has counted
    [k] conversation starts. *)
Definition goodPattern (pat : Pattern) (k : Z) : Prop :=
  length (byHour pat) = 24%nat /\ length (byDay pat) = 7%nat
  /\ sumZ (byHour pat) = k /\ sumZ (byDay pat) = k.

(** The messages that the sentiment analyzer is to take into account:
    those of at most 200 code units. *)
Definition notLong (m : Msg) : bool :=
  negb (200 <? length (content m))%nat.

(** Ascending timestamps. *)
Definition inTimeOrder (l : list Msg) : Prop :=
  StronglySorted (fun a b => timestamp a <= timestamp b) l.

End Spec.

(* ================================================================== *)
(** ** Example data *)
(* ================================================================== *)

Module Examples.
Import JS Regex Parser Utils DataModel Statistics.

(** No code point counts as an emoji: enough for examples without emojis. *)
Definition noEmoji : N -> bool := fun _ => false.

Definition msg (t : Z) (who text : string) : Msg :=
  mkMessage t (lit who) (lit text) false false.
Arguments msg t who%_string text%_string.

Definition load (l : list Msg) : ChatData :=
  loadMessages noEmoji newChatData l.

Definition day : Z := 86400000.
Definition hour : Z := 3600000.

(** A message in progress and two continuation lines, the first of which
    carries an attachment marker. *)
Definition inProgress : Message Date :=
  mkMessage (Some 1706781600000) (lit "Alice") (lit "Look at this") false false.

Definition continuationLines : list jsstring :=
  [ lit "IMG-001.jpg <attached: IMG-001.jpg>"; lit ""; lit "  see you soon " ].

(** Two participants, three messages. *)
Definition twoPeopleMessages : list Msg :=
  [ msg 1706781600000 "Alice" "Hello there Bob";
    msg 1706781900000 "Bob" "Hi Alice";
    msg 1706782000000 "Alice" "How are you today" ].

Definition twoPeople : ChatData := load twoPeopleMessages.

Definition alice : ParticipantData :=
  nth 0 (getAllParticipants twoPeople) (newParticipantData []).
Definition bob : ParticipantData :=
  nth 1 (getAllParticipants twoPeople) (newParticipantData []).

(** Messages on 2024-01-01 .. 2024-01-05 and on 2024-01-10 (day numbers
    19723 .. 19727 and 19732), not in date order. *)
Definition januaryChat : ChatData :=
  load [ msg (19723 * day + 10 * hour) "Alice" "one";
         msg (19725 * day + 9 * hour) "Bob" "three";
         msg (19724 * day + 23 * hour) "Bob" "two";
         msg (19724 * day + 1 * hour) "Alice" "two again";
         msg (19732 * day + 12 * hour) "Alice" "ten";
         msg (19726 * day) "Alice" "four";
         msg (19727 * day + 5 * hour) "Bob" "five" ].

(** An export line whose year is written in two digits, 99: the parser
    reads it as 2099-12-31 (day number 47481), 10:00. *)
Definition futureLine : jsstring := lit "[31/12/99, 10:00:00] Alice: Hello".
Definition futureMessage : Msg := msg (47481 * day + 10 * hour) "Alice" "Hello".
Definition futureChat : ChatData := load [ futureMessage ].

(** The evaluation time: 2024-06-01 (day number 19875), 12:00. *)
Definition futureNow : Z := 19875 * day + 12 * hour.

(** A scorer that finds every text mildly positive (raw score 3). *)
Definition mildScorer : option (jsstring -> option Q) :=
  Some (fun _ => Some (3 # 1)%Q).

Definition shortMessage : Msg := msg 1706781600000 "Alice" "good".

(** A message of 201 code units. *)
Definition longMessage : Msg :=
  mkMessage 1706781900000 (lit "Alice") (repeat 97%N 201) false false.

Definition chatWithLong : ChatData := load [shortMessage; longMessage].
Definition chatWithoutLong : ChatData := load [shortMessage].

(** A timestamp line with a two-digit year and a 12-hour time. *)
Definition pmLine : jsstring := lit "[1/2/24, 9:05:07 PM] Alice: Hi".

(** A transcript: a header, two messages, the first of them continued. *)
Definition transcript : jsstring :=
  lit "Chat export" ++ 10%N ::
  lit "[1/2/2024, 10:00:00] Alice: Hello" ++ 10%N ::
  lit "how are you?" ++ 10%N ::
  lit "[1/2/2024, 10:05:00] Bob: Hi Alice".

(** One message, and two messages one hour apart. *)
Definition oneMessage : ChatData := load [ msg 1706781600000 "Alice" "Hello" ].
Definition oneHourApart : ChatData :=
  load [ msg 1706781600000 "Alice" "Hello"; msg 1706785200000 "Bob" "Hi" ].

End Examples.

(* ================================================================== *)
(** ** Notions for the properties of the queries *)
(* ================================================================== *)

Module Notions.
Import JS Regex Parser Utils DataModel Statistics Spec.
Import ParserHelpers UtilsHelpers DataModelGetters StatisticsQueries.

(** The messages that the index keeps: those that are not system
    messages. *)
Definition kept {TS : Type} (msgs : list (Message TS)) : list (Message TS) :=
  filter (fun m => negb (isSystem m)) msgs.

(** The messages of [l] that are by [n]. *)
Definition ownMessages (n : jsstring) (l : list Msg) : list Msg :=
  filter (fun m => jsstring_eqb (participant m) n) l.

(** The sum of the counts of a histogram. *)
Definition sumValues (m : JSMap Z) : Z := sumZ (map snd m).

(** The message falls in the hour [hour] of the day, on the week day
    [day] (0 is Sunday), or in both. *)
Definition inHour (hour : Z) (m : Msg) : bool :=
  getHours (timestamp m) =? hour.

Definition onDay (day : Z) (m : Msg) : bool :=
  getDay (timestamp m) =? day.

Definition inSlot (day hour : Z) (m : Msg) : bool :=
  onDay day m && inHour hour m.

(** How many of the messages fall on week day [day] in the hour [hour]. *)
Definition slotCount (l : list Msg) (day hour : nat) : Z :=
  Z.of_nat (length (filter (inSlot (Z.of_nat day) (Z.of_nat hour)) l)).

(** Seven rows of 24 counts. *)
Definition isGrid (grid : list (list Z)) : Prop :=
  length grid = 7%nat /\ Forall (fun row => length row = 24%nat) grid.

(** The rank of a slot in the scan by week day, then by hour. *)
Definition slotRank (slot : nat * nat) : nat := 24 * fst slot + snd slot.

(** The number [a] is finite and equal to the rational [q]. *)
Definition isQ (a : jsnum) (q : Q) : Prop :=
  exists q', a = Fin q' /\ (q' == q)%Q.

(** A record after the statistics passes: response times appended, and
    the starter and the burst counters increased. *)
Definition addStatistics (p : ParticipantData) (samples : list Z)
    (starts bursts : Z) : ParticipantData :=
  mkParticipantData
    (name p) (messageCount p) (wordCount p) (letterCount p) (emojiCount p)
    (topEmojis p) (responseTimes p ++ samples)
    (conversationsStarted p + starts)
    (messages p) (messageLengths p) (characterLengths p) (questionCount p)
    (exclamationCount p) (allCapsCount p) (burstCount p + bursts).

(** For each message of a sequence, whether it is by the participant of
    the message just before it; [prev] is that participant. *)
Fixpoint repeatFlags (prev : option jsstring) (s : list Msg) : list bool :=
  match s with
  | [] => []
  | m :: s' =>
      match prev with
      | Some p => jsstring_eqb (participant m) p
      | None => false
      end :: repeatFlags (Some (participant m)) s'
  end.

(** A raw line that is not blank, and one that starts a message. *)
Definition nonBlank (rawLine : jsstring) : bool :=
  negb (length (trim rawLine) =? 0)%nat.

Definition startsMessage (rawLine : jsstring) : bool :=
  nonBlank rawLine
  && match matchLine (trim rawLine) with Some _ => true | None => false end.

(** The pattern of a format. *)
Definition regexOf (formatType : FormatType) : regex :=
  match formatType with
  | Ios => iosRegex
  | Android => androidRegex
  | Iso => isoRegex
  end.

(** The bucket of a response time, by its bounds in milliseconds: below
    one minute, below five minutes, below thirty minutes, below one hour,
    and the rest. *)
Definition bucketIndex (ms : Z) : nat :=
  if ms <? 60000 then 0
  else if ms <? 300000 then 1
  else if ms <? 1800000 then 2
  else if ms <? 3600000 then 3
  else 4.

Definition bucketLabels : list jsstring :=
  [ lit "<1m"; lit "1-5m"; lit "5-30m"; lit "30m-1h"; lit "1h+" ].

(** How many of the response times fall in bucket [i]. *)
Definition inBucket (i : nat) (times : list Z) : Z :=
  Z.of_nat (length (filter (fun ms => Nat.eqb (bucketIndex ms) i) times)).

(** The messages that the sentiment analyzer scores: those with text
    that is not blank and has at most 200 code units. *)
Definition scored (m : Msg) : bool :=
  negb ((length (content m) =? 0)%nat
        || (length (trim (content m)) =? 0)%nat)
  && negb (MAX_LENGTH <? length (content m))%nat.

(** The state of the sentiment scan is balanced: the three counts add up
    to the number of scored messages, and the total score is at most that
    number either way. *)
Definition balanced (st : SentimentState) : Prop :=
  positiveCount st + negativeCount st + neutralCount st
  = Z.of_nat (length (scoredMessages st))
  /\ 0 <= positiveCount st /\ 0 <= negativeCount st /\ 0 <= neutralCount st
  /\ (- inject_Z (Z.of_nat (length (scoredMessages st))) <= totalScore st
      <= inject_Z (Z.of_nat (length (scoredMessages st))))%Q.

(** Strings in strictly ascending order of their code units. *)
Fixpoint ascendingStrings (l : list jsstring) : Prop :=
  match l with
  | x :: ((y :: _) as rest) => strCompare x y = Lt /\ ascendingStrings rest
  | _ => True
  end.

(** The sum of a field over the participants of an index. *)
Definition totalOf (f : ParticipantData -> Z) (cd : ChatData) : Z :=
  sumZ (map f (getAllParticipants cd)).

(** What holds of a participant record that only [addMessage] has fed:
    the counters agree with the sequences stored beside them. *)
Definition consistent (p : ParticipantData) : Prop :=
  messageCount p = Z.of_nat (length (messages p))
  /\ wordCount p = sumZ (messageLengths p)
  /\ length (characterLengths p) = length (messageLengths p)
  /\ (length (messageLengths p) <= length (messages p))%nat
  /\ emojiCount p = sumValues (topEmojis p)
  /\ 0 <= questionCount p <= Z.of_nat (length (messageLengths p))
  /\ 0 <= exclamationCount p <= Z.of_nat (length (messageLengths p))
  /\ 0 <= allCapsCount p <= Z.of_nat (length (messageLengths p))
  /\ 0 <= letterCount p <= sumZ (characterLengths p)
  /\ Forall (fun c => 0 < c) (characterLengths p)
  /\ Forall (fun w => 0 <= w) (messageLengths p).

(** A number is finite and lies between two whole numbers. *)
Definition within (lo hi : Z) (a : jsnum) : Prop :=
  exists q, a = Fin q /\ (inject_Z lo <= q)%Q /\ (q <= inject_Z hi)%Q.

End Notions.

(* ================================================================== *)
(** ** Properties *)
(* ================================================================== *)

Import JS Regex Parser Utils DataModel Statistics Spec.

(** *** Participant records: what a media or empty message changes *)

Section AddMessageFrame.
Variable pictographic : N -> bool.

(** C10.  A message whose media flag is set, or whose content is empty,
    only increments the message count and is appended to the stored
    messages of the participant record: the word, letter and emoji counts,
    the emoji histogram, the two per-message length sequences and the
    question, exclamation and all-caps counters are those of the record
    before (and so are the response times, the starter counter and the
    burst counter). *)
Theorem addMessage_media_or_empty_frame :
  forall (p : ParticipantData) (message : Msg),
    isMedia message = true \/ content message = [] ->
    addMessage pictographic p message
    = mkParticipantData
        (name p) (messageCount p + 1)
        (wordCount p) (letterCount p) (emojiCount p) (topEmojis p)
        (responseTimes p) (conversationsStarted p)
        (messages p ++ [message])
        (messageLengths p) (characterLengths p)
        (questionCount p) (exclamationCount p) (allCapsCount p)
        (burstCount p).
Proof.
  intros p message H. unfold addMessage.
  destruct H as [H | H]; rewrite H.
  - rewrite andb_false_r. reflexivity.
  - reflexivity.
Qed.
End AddMessageFrame.

Lemma addMessage_media_or_empty_frame_witness :
  let p := newParticipantData (lit "Alice") in
  let message : Msg :=
    mkMessage 1706781600000 (lit "Alice") (lit "<Media omitted>") false true in
  (isMedia message = true \/ content message = [])
  /\ wordCount (addMessage (fun _ => false) p message) = 0
  /\ messageCount (addMessage (fun _ => false) p message) = 1.
Proof.
  intros p message.
  split; [left; reflexivity |].
  rewrite (addMessage_media_or_empty_frame (fun _ => false) p message
             (or_introl eq_refl)).
  split; reflexivity.
Defined.

(** *** Tokenizer: the media flag under continuation lines *)

Lemma parseLine_continuation :
  forall messages cm rawLine,
    matchLine (trim rawLine) = None ->
    parseLine (messages, Some cm) rawLine
    = Ok (messages,
          Some (if (length (trim rawLine) =? 0)%nat then cm
                else appendLine cm (trim rawLine))).
Proof.
  intros messages cm rawLine H. unfold parseLine.
  destruct (length (trim rawLine) =? 0)%nat; [reflexivity |].
  rewrite H. reflexivity.
Qed.

Lemma isMediaMessage_empty : isMediaMessage [] = false.
Proof. reflexivity. Qed.

(** C5.  While the lines that follow do not start a message, the message
    in progress stays in progress and its media flag only moves from false
    to true: after any sequence of such lines the flag is the flag before
    or-ed with "some line carries a media indicator".  A flag that is true
    stays true, and a false one becomes true exactly when a continuation
    line matches a media indicator.  The timestamp, the participant and the
    system flag are those of the first line. *)
Theorem media_flag_monotone :
  forall (rawLines : list jsstring) (messages : list (Message Date))
         (cm : Message Date),
    Forall (fun l => matchLine (trim l) = None) rawLines ->
    exists cm',
      parseLines (messages, Some cm) rawLines = Ok (messages, Some cm')
      /\ isMedia cm'
         = isMedia cm || existsb (fun l => isMediaMessage (trim l)) rawLines
      /\ timestamp cm' = timestamp cm
      /\ participant cm' = participant cm
      /\ isSystem cm' = isSystem cm.
Proof.
  induction rawLines as [| l rest IH]; intros messages cm H.
  - exists cm. simpl. rewrite orb_false_r. auto.
  - inversion H as [| ? ? Hl Hrest]; subst.
    cbn [parseLines]. rewrite (parseLine_continuation _ _ _ Hl).
    cbn [bind].
    destruct (IH messages
                 (if (length (trim l) =? 0)%nat then cm
                  else appendLine cm (trim l)) Hrest)
      as (cm' & Hrun & Hflag & Hts & Hp & Hs).
    exists cm'. split; [exact Hrun |].
    cbn [existsb].
    destruct (length (trim l) =? 0)%nat eqn:Hlen.
    + apply Nat.eqb_eq in Hlen. apply length_zero_iff_nil in Hlen.
      rewrite Hlen, isMediaMessage_empty, orb_false_l. auto.
    + unfold appendLine in Hflag, Hts, Hp, Hs.
      cbn [isMedia timestamp participant isSystem] in Hflag, Hts, Hp, Hs.
      repeat split; try assumption.
      rewrite Hflag.
      destruct (isMediaMessage (trim l)), (isMedia cm); reflexivity.
Qed.

Lemma media_flag_monotone_witness :
  Forall (fun l => matchLine (trim l) = None) Examples.continuationLines
  /\ exists cm',
       parseLines ([], Some Examples.inProgress) Examples.continuationLines
       = Ok ([], Some cm')
       /\ isMedia cm' = true.
Proof.
  assert (H : Forall (fun l => matchLine (trim l) = None)
                     Examples.continuationLines).
  { repeat (constructor; [vm_compute; reflexivity |]). constructor. }
  split; [exact H |].
  destruct (media_flag_monotone Examples.continuationLines []
                                Examples.inProgress H)
    as (cm' & Hrun & Hflag & _).
  exists cm'. split; [exact Hrun |].
  rewrite Hflag. vm_compute. reflexivity.
Defined.

(** *** Sorting *)

Section SortFacts.
Context {A : Type}.
Variable le : A -> A -> bool.

Lemma In_insertSorted :
  forall (x z : A) (l : list A),
    In z (insertSorted le x l) <-> z = x \/ In z l.
Proof.
  intros x z l. induction l as [| y l IH]; simpl.
  - intuition.
  - destruct (le x y); simpl; intuition.
Qed.

Lemma In_sortBy : forall (z : A) (l : list A), In z (sortBy le l) <-> In z l.
Proof.
  intros z l. induction l as [| x l IH]; simpl.
  - tauto.
  - rewrite In_insertSorted, IH. intuition.
Qed.

Lemma length_insertSorted :
  forall (x : A) (l : list A), length (insertSorted le x l) = S (length l).
Proof.
  intros x l. induction l as [| y l IH]; simpl; [reflexivity |].
  destruct (le x y); simpl; [reflexivity | rewrite IH; reflexivity].
Qed.

Lemma length_sortBy : forall l : list A, length (sortBy le l) = length l.
Proof.
  induction l as [| x l IH]; simpl; [reflexivity |].
  rewrite length_insertSorted, IH. reflexivity.
Qed.
End SortFacts.

(** *** Folding the maximum *)

Lemma fold_max_spec :
  forall (l : list Z) (init : Z),
    init <= fold_left Z.max l init
    /\ (forall x, In x l -> x <= fold_left Z.max l init)
    /\ (fold_left Z.max l init = init \/ In (fold_left Z.max l init) l).
Proof.
  induction l as [| y l IH]; intro init; simpl.
  - repeat split; [lia | tauto | left; reflexivity].
  - destruct (IH (Z.max init y)) as (H1 & H2 & H3).
    repeat split.
    + lia.
    + intros x [Hx | Hx]; [subst; lia | auto].
    + destruct H3 as [H3 | H3]; [| right; right; exact H3].
      rewrite H3. destruct (Z.max_spec init y) as [[_ ->] | [_ ->]].
      * right; left; reflexivity.
      * left; reflexivity.
Qed.

(** *** The participant map *)

Lemma jsstring_eqb_eq : forall a b, jsstring_eqb a b = true <-> a = b.
Proof.
  intros a b. unfold jsstring_eqb.
  destruct (list_eq_dec N.eq_dec a b); split; congruence.
Qed.

Lemma jsstring_eqb_refl : forall a, jsstring_eqb a a = true.
Proof. intro a. apply jsstring_eqb_eq. reflexivity. Qed.

Lemma jsstring_eqb_neq : forall a b, jsstring_eqb a b = false <-> a <> b.
Proof.
  intros a b. unfold jsstring_eqb.
  destruct (list_eq_dec N.eq_dec a b); split; congruence.
Qed.

Lemma mapGet_mapSet :
  forall {V : Type} (k k' : jsstring) (v : V) (m : JSMap V),
    mapGet k (mapSet k' v m)
    = if jsstring_eqb k' k then Some v else mapGet k m.
Proof.
  intros V k k' v m. induction m as [| [k0 v0] m IH]; simpl.
  - reflexivity.
  - destruct (jsstring_eqb k0 k') eqn:E0; simpl.
    + apply jsstring_eqb_eq in E0. subst k0.
      destruct (jsstring_eqb k' k); reflexivity.
    + destruct (jsstring_eqb k0 k) eqn:E1; [| exact IH].
      apply jsstring_eqb_eq in E1. subst k0.
      destruct (jsstring_eqb k' k) eqn:E2; [| reflexivity].
      apply jsstring_eqb_eq in E2. subst k'.
      rewrite jsstring_eqb_refl in E0. discriminate.
Qed.

Lemma getParticipant_update :
  forall cd n f k,
    getParticipant (updateParticipant cd n f) k
    = if jsstring_eqb n k then option_map f (getParticipant cd n)
      else getParticipant cd k.
Proof.
  intros cd n f k. unfold updateParticipant.
  destruct (getParticipant cd n) as [p |] eqn:E.
  - unfold getParticipant at 1. cbn [participants].
    rewrite mapGet_mapSet. reflexivity.
  - destruct (jsstring_eqb n k) eqn:Ek; [| reflexivity].
    apply jsstring_eqb_eq in Ek. subst k. exact E.
Qed.



(** *** Loaded indexes *)

Lemma Forall_mapSet :
  forall {V : Type} (P : V -> Prop) (k : jsstring) (v : V) (m : JSMap V),
    P v -> Forall (fun e => P (snd e)) m ->
    Forall (fun e => P (snd e)) (mapSet k v m).
Proof.
  intros V P k v m Hv H. induction H as [| [k0 v0] m H0 Hm IH]; cbn [mapSet].
  - constructor; [exact Hv | constructor].
  - destruct (jsstring_eqb k0 k); constructor; cbn [snd]; assumption.
Qed.

Lemma mapSet_mapSet :
  forall {V : Type} (k : jsstring) (v1 v2 : V) (m : JSMap V),
    mapSet k v2 (mapSet k v1 m) = mapSet k v2 m.
Proof.
  intros V k v1 v2 m. induction m as [| [k0 v0] m IH]; cbn [mapSet].
  - rewrite jsstring_eqb_refl. reflexivity.
  - destruct (jsstring_eqb k0 k) eqn:E; cbn [mapSet]; rewrite E;
      [reflexivity | rewrite IH; reflexivity].
Qed.

Lemma mapGet_Forall :
  forall {V : Type} (P : V -> Prop) (k : jsstring) (v : V) (m : JSMap V),
    Forall (fun e => P (snd e)) m -> mapGet k m = Some v -> P v.
Proof.
  intros V P k v m H. induction H as [| [k0 v0] m H0 _ IH]; cbn [mapGet].
  - discriminate.
  - destruct (jsstring_eqb k0 k); [| exact IH].
    intro E. injection E as <-. exact H0.
Qed.

Section LoadFacts.
Variable pictographic : N -> bool.

Lemma addMessage_count :
  forall p m, messageCount (addMessage pictographic p m) = messageCount p + 1.
Proof.
  intros p m. unfold addMessage.
  destruct (negb (length (content m) =? 0)%nat && negb (isMedia m));
    reflexivity.
Qed.

Lemma processMessage_counts :
  forall cd m,
    Forall (fun e => 0 < messageCount (snd e)) (participants cd) ->
    Forall (fun e => 0 < messageCount (snd e))
           (participants (processMessage pictographic cd m)).
Proof.
  intros cd m H. unfold processMessage. cbn [participants].
  unfold mapHas. destruct (mapGet (participant m) (participants cd)) as [p |] eqn:E.
  - rewrite E.
    apply (Forall_mapSet (fun p => 0 < messageCount p)); [| exact H].
    rewrite addMessage_count.
    assert (0 < messageCount p)
      by exact (mapGet_Forall (fun p => 0 < messageCount p) _ _ _ H E).
    lia.
  - rewrite mapGet_mapSet, jsstring_eqb_refl, mapSet_mapSet.
    apply (Forall_mapSet (fun p => 0 < messageCount p)); [| exact H].
    rewrite addMessage_count. cbn. lia.
Qed.

Lemma loadMessages_counts :
  forall msgs p,
    In p (getAllParticipants (loadMessages pictographic newChatData msgs)) ->
    0 < messageCount p.
Proof.
  intros msgs p. unfold loadMessages, getAllParticipants. cbn [participants].
  set (kept := filter (fun msg => negb (isSystem msg)) msgs).
  set (cd1 := mkChatData kept _ _ _ _ _).
  assert (H : Forall (fun e => 0 < messageCount (snd e))
                     (participants (fold_left (processMessage pictographic)
                                              kept cd1))).
  { assert (H1 : Forall (fun e => 0 < messageCount (snd e)) (participants cd1))
      by constructor.
    revert H1. generalize cd1. induction kept as [| m l IH]; intros cd H1.
    - exact H1.
    - cbn [fold_left]. apply IH. apply processMessage_counts. exact H1. }
  intro Hin. apply in_map_iff in Hin. destruct Hin as ([k v] & <- & Hin).
  rewrite Forall_forall in H. exact (H _ Hin).
Qed.
End LoadFacts.

(** *** Response times *)

Ltac case_find nxt Ef :=
  match goal with
  | |- context [find ?f ?l] => destruct (find f l) as [nxt |] eqn:Ef
  | H : context [find ?f ?l] |- _ => destruct (find f l) as [nxt |] eqn:Ef
  end.

Lemma find_split :
  forall {A : Type} (f : A -> bool) (l : list A) (x : A),
    find f l = Some x ->
    exists mid post,
      l = mid ++ x :: post
      /\ Forall (fun y => f y = false) mid /\ f x = true.
Proof.
  intros A f l x. induction l as [| y l IH]; simpl; [discriminate |].
  destruct (f y) eqn:E.
  - intro H. injection H as ->. exists [], l. auto.
  - intro H. destruct (IH H) as (mid & post & -> & Hmid & Hx).
    exists (y :: mid), post. repeat split; auto.
Qed.

Lemma find_first :
  forall {A : Type} (f : A -> bool) (mid post : list A) (x : A),
    Forall (fun y => f y = false) mid -> f x = true ->
    find f (mid ++ x :: post) = Some x.
Proof.
  intros A f mid post x Hmid Hx. induction Hmid as [| y mid Hy _ IH]; simpl.
  - rewrite Hx. reflexivity.
  - rewrite Hy. exact IH.
Qed.

Lemma responseSamples_sound :
  forall s name d,
    In d (responseSamples s name) ->
    isResponse s name d /\ d < 24 * 60 * 60 * 1000.
Proof.
  induction s as [| cur later IH]; intros name d H; [destruct H |].
  cbn [responseSamples] in H. apply in_app_or in H. destruct H as [H | H].
  - case_find nxt Ef; [| destruct H].
    destruct (timestamp nxt - timestamp cur <? 24 * 60 * 60 * 1000) eqn:Ev;
      [| destruct H].
    destruct (jsstring_eqb (participant nxt) name) eqn:En; [| destruct H].
    destruct H as [<- | []].
    apply find_split in Ef. destruct Ef as (mid & post & -> & Hmid & Hx).
    apply Z.ltb_lt in Ev. apply jsstring_eqb_eq in En.
    split; [| exact Ev].
    exists [], cur, mid, nxt, post. repeat split; auto.
    + apply Forall_impl with (2 := Hmid). intros m Hm.
      apply negb_false_iff in Hm. apply jsstring_eqb_eq. exact Hm.
    + apply negb_true_iff in Hx. apply jsstring_eqb_neq. exact Hx.
  - destruct (IH name d H) as [(pre & c & mid & nxt & post & -> & Hr) Hd].
    split; [| exact Hd].
    exists (cur :: pre), c, mid, nxt, post. split; [reflexivity | exact Hr].
Qed.

Lemma responseSamples_complete :
  forall s name d,
    isResponse s name d -> d < 24 * 60 * 60 * 1000 ->
    In d (responseSamples s name).
Proof.
  intros s name d (pre & cur & mid & nxt & post & -> & Hmid & Hne & Hn & ->) Hd.
  induction pre as [| a pre IH].
  - cbn [app responseSamples]. apply in_or_app. left.
    rewrite (find_first _ mid post nxt).
    + apply Z.ltb_lt in Hd. rewrite Hd.
      apply jsstring_eqb_eq in Hn. rewrite Hn. left. reflexivity.
    + apply Forall_impl with (2 := Hmid). intros m Hm.
      apply negb_false_iff, jsstring_eqb_eq. exact Hm.
    + apply negb_true_iff, jsstring_eqb_neq. exact Hne.
  - change ((a :: pre) ++ cur :: mid ++ nxt :: post)
      with (a :: (pre ++ cur :: mid ++ nxt :: post)).
    cbn [responseSamples]. apply in_or_app. right. exact IH.
Qed.

Lemma responseLoop_samples :
  forall s cd name,
    option_map responseTimes (getParticipant (responseLoop s cd) name)
    = option_map (fun p => responseTimes p ++ responseSamples s name)
                 (getParticipant cd name).
Proof.
  induction s as [| cur later IH]; intros cd name.
  - cbn [responseLoop responseSamples].
    destruct (getParticipant cd name); simpl; [rewrite app_nil_r |]; reflexivity.
  - cbn [responseLoop responseSamples]. rewrite IH. clear IH.
    case_find nxt Ef;
      [| destruct (getParticipant cd name); reflexivity].
    unfold isValidResponseTime, twentyFourHours.
    destruct (timestamp nxt - timestamp cur <? 24 * 60 * 60 * 1000);
      [| destruct (getParticipant cd name); reflexivity].
    rewrite getParticipant_update. cbn [andb].
    destruct (jsstring_eqb (participant nxt) name) eqn:En.
    + apply jsstring_eqb_eq in En. subst name.
      destruct (getParticipant cd (participant nxt)); simpl;
        [rewrite <- app_assoc |]; reflexivity.
    + destruct (getParticipant cd name); reflexivity.
Qed.

(** C4.  After [calculateResponseTimes], the response times of every
    participant of the index are the ones before followed by the samples
    added, and a delay [d] is added for [name] exactly when, in the
    timestamp-sorted sequence, some message is followed (after messages of
    its own participant only) by a first message of another participant,
    that participant is [name], [d] is the time between the two, and [d] is
    strictly less than 24 hours.  So no sample reaches 24 hours and no
    sample answers a message of the participant who receives it. *)
Theorem response_time_attribution :
  forall (msgs : list Msg) (cd : ChatData) (name : jsstring),
    exists added : list Z,
      option_map responseTimes
                 (getParticipant (calculateResponseTimes msgs cd) name)
      = option_map (fun p => responseTimes p ++ added)
                   (getParticipant cd name)
      /\ (forall d, In d added
                    <-> isResponse (sortMessages msgs) name d
                        /\ d < 24 * 60 * 60 * 1000).
Proof.
  intros msgs cd name. exists (responseSamples (sortMessages msgs) name).
  split.
  - apply responseLoop_samples.
  - intro d. split.
    + apply responseSamples_sound.
    + intros [H1 H2]. apply responseSamples_complete; assumption.
Qed.

(** *** Conversation boundaries *)

Lemma isNewConversation_isBoundary :
  forall gap, isNewConversation gap = isBoundary gap.
Proof.
  intro gap. unfold isNewConversation, isBoundary, twoHours.
  rewrite Z.gtb_ltb. reflexivity.
Qed.

Lemma countStarts_cons :
  forall name m s f flags,
    countStarts name (m :: s) (f :: flags)
    = (if f && jsstring_eqb (participant m) name then 1 else 0)
      + countStarts name s flags.
Proof.
  intros name m s f flags. unfold countStarts. cbn [combine filter fst snd].
  destruct (f && jsstring_eqb (participant m) name); cbn [length]; lia.
Qed.

Lemma countStarts_nil : forall name flags, countStarts name [] flags = 0.
Proof. reflexivity. Qed.

(** Starter detection. *)
Lemma startersLoop_counts :
  forall rest previousMsg cd name,
    option_map conversationsStarted
               (getParticipant (startersLoop previousMsg rest cd) name)
    = option_map
        (fun p => conversationsStarted p
                  + countStarts name rest
                      (startFlags (Some (timestamp previousMsg)) rest))
        (getParticipant cd name).
Proof.
  induction rest as [| m rest IH]; intros previousMsg cd name.
  - cbn [startersLoop startFlags]. rewrite countStarts_nil.
    destruct (getParticipant cd name); simpl; [rewrite Z.add_0_r |]; reflexivity.
  - cbn [startersLoop startFlags]. rewrite IH, countStarts_cons.
    rewrite isNewConversation_isBoundary.
    destruct (isBoundary (timestamp m - timestamp previousMsg)); cbn [andb].
    + rewrite getParticipant_update.
      destruct (jsstring_eqb (participant m) name) eqn:En.
      * apply jsstring_eqb_eq in En. subst name.
        destruct (getParticipant cd (participant m));
          cbn [option_map startConversation conversationsStarted];
          [f_equal; lia | reflexivity].
      * destruct (getParticipant cd name); simpl; reflexivity.
    + destruct (getParticipant cd name); simpl; reflexivity.
Qed.

Lemma starters_counts :
  forall msgs cd name,
    option_map conversationsStarted
               (getParticipant (calculateConversationStarters msgs cd) name)
    = option_map
        (fun p => conversationsStarted p
                  + countStarts name (sortMessages msgs)
                                (startFlags None (sortMessages msgs)))
        (getParticipant cd name).
Proof.
  intros msgs cd name. unfold calculateConversationStarters.
  destruct (sortMessages msgs) as [| first rest].
  - rewrite countStarts_nil.
    destruct (getParticipant cd name); simpl; [rewrite Z.add_0_r |]; reflexivity.
  - rewrite startersLoop_counts, getParticipant_update.
    cbn [startFlags]. rewrite countStarts_cons. cbn [andb].
    destruct (jsstring_eqb (participant first) name) eqn:En.
    + apply jsstring_eqb_eq in En. subst name.
      destruct (getParticipant cd (participant first));
        cbn [option_map startConversation conversationsStarted];
        [f_equal; lia | reflexivity].
    + destruct (getParticipant cd name); simpl; reflexivity.
Qed.

(** Conversation lengths. *)
Lemma closeConvo_facts :
  forall convs cur,
    concat (closeConvo convs cur) = concat convs ++ cur
    /\ partitionFlags (closeConvo convs cur)
       = partitionFlags convs ++ convoFlags cur
    /\ (Forall (fun c => c <> []) convs ->
        Forall (fun c => c <> []) (closeConvo convs cur)).
Proof.
  intros convs cur. unfold closeConvo, partitionFlags.
  destruct cur as [| m cur]; cbn [length Nat.ltb Nat.leb].
  - rewrite !app_nil_r. auto.
  - rewrite concat_app, flat_map_app. simpl. rewrite !app_nil_r.
    repeat split; auto. intro H. apply Forall_app. split; [exact H |].
    constructor; [discriminate | constructor].
Qed.

Lemma convoFlags_snoc :
  forall cur m, cur <> [] -> convoFlags (cur ++ [m]) = convoFlags cur ++ [false].
Proof.
  intros [| x cur] m H; [congruence |].
  simpl. rewrite map_app. reflexivity.
Qed.

Lemma convoStep_cases :
  forall convs cur prev m,
    (match prev with
     | None => true
     | Some t => isBoundary (timestamp m - t)
     end = true
     /\ convoStep (convs, cur, prev) m
        = (closeConvo convs cur, [m], Some (timestamp m)))
    \/ ((prev <> None
         /\ match prev with
            | None => true
            | Some t => isBoundary (timestamp m - t)
            end = false)
        /\ convoStep (convs, cur, prev) m
           = (convs, cur ++ [m], Some (timestamp m))).
Proof.
  intros convs cur prev m. unfold convoStep, closeConvo.
  destruct prev as [t |]; [| left; split; reflexivity].
  rewrite isNewConversation_isBoundary.
  destruct (isBoundary (timestamp m - t)); cbn [negb].
  - left. split; reflexivity.
  - right. split; [split; [discriminate | reflexivity] | reflexivity].
Qed.

Lemma convo_fold :
  forall s convs cur prev,
    (cur = [] <-> prev = None) ->
    concat (closeConvo (fst (fst (fold_left convoStep s (convs, cur, prev))))
                       (snd (fst (fold_left convoStep s (convs, cur, prev)))))
    = concat convs ++ cur ++ s
    /\ partitionFlags
         (closeConvo (fst (fst (fold_left convoStep s (convs, cur, prev))))
                     (snd (fst (fold_left convoStep s (convs, cur, prev)))))
       = partitionFlags convs ++ convoFlags cur ++ startFlags prev s
    /\ (Forall (fun c => c <> []) convs ->
        Forall (fun c => c <> [])
          (closeConvo (fst (fst (fold_left convoStep s (convs, cur, prev))))
                      (snd (fst (fold_left convoStep s (convs, cur, prev)))))).
Proof.
  induction s as [| m s IH]; intros convs cur prev Hcp.
  - cbn [fold_left fst snd startFlags]. rewrite !app_nil_r.
    apply closeConvo_facts.
  - cbn [fold_left startFlags].
    destruct (convoStep_cases convs cur prev m) as [[Hb ->] | [Hb ->]].
    + rewrite Hb.
      destruct (IH (closeConvo convs cur) [m] (Some (timestamp m)))
        as (H1 & H2 & H3); [split; discriminate |].
      destruct (closeConvo_facts convs cur) as (C1 & C2 & C3).
      rewrite H1, H2, C1, C2. rewrite <- !app_assoc.
      repeat split; auto.
    + destruct Hb as [Hprev Hb]. rewrite Hb.
      assert (Hne : cur <> []).
      { intro Hc. apply Hcp in Hc. congruence. }
      destruct (IH convs (cur ++ [m]) (Some (timestamp m)))
        as (H1 & H2 & H3).
      { split; [intro Hc; apply app_eq_nil in Hc; destruct Hc; discriminate
               | discriminate]. }
      rewrite H1, H2, convoFlags_snoc by exact Hne. rewrite <- !app_assoc.
      repeat split; auto.
Qed.

Lemma conversationsOf_flags :
  forall cd,
    concat (conversationsOf cd) = sortMessages (chatMessages cd)
    /\ partitionFlags (conversationsOf cd)
       = startFlags None (sortMessages (chatMessages cd))
    /\ Forall (fun c => c <> []) (conversationsOf cd).
Proof.
  intro cd. unfold conversationsOf.
  destruct (convo_fold (sortMessages (chatMessages cd)) [] [] None)
    as (H1 & H2 & H3); [tauto |].
  destruct (fold_left convoStep (sortMessages (chatMessages cd)) ([], [], None))
    as [[convs cur] last].
  cbn [fst snd] in *. unfold closeConvo in *.
  repeat split; auto.
Qed.

(** Initiator patterns. *)
Lemma sumZ_cons : forall x l, sumZ (x :: l) = x + sumZ l.
Proof.
  intros x l. unfold sumZ. cbn [fold_left].
  assert (H : forall l a b, fold_left Z.add l (a + b) = a + fold_left Z.add l b).
  { clear. induction l as [| y l IH]; intros a b; simpl; [reflexivity |].
    rewrite <- Z.add_assoc. apply IH. }
  rewrite <- (H l x 0). f_equal. lia.
Qed.

Lemma incrAt_length : forall i l, length (incrAt i l) = length l.
Proof.
  intros i l. revert i. induction l as [| x l IH]; intros [| i]; simpl;
    try reflexivity. rewrite IH. reflexivity.
Qed.

Lemma incrAt_sum :
  forall i l, (i < length l)%nat -> sumZ (incrAt i l) = sumZ l + 1.
Proof.
  intros i l. revert i. induction l as [| x l IH]; intros i Hi.
  - simpl in Hi. lia.
  - destruct i as [| i]; cbn [incrAt]; rewrite !sumZ_cons.
    + lia.
    + rewrite IH by (simpl in Hi; lia). lia.
Qed.

Lemma getHours_range : forall t, (Z.to_nat (getHours t) < 24)%nat.
Proof.
  intro t. unfold getHours, msPerDay.
  pose proof (Z.mod_pos_bound t 86400000 ltac:(lia)) as Hm.
  assert (0 <= t mod 86400000 / 3600000 < 24).
  { split; [apply Z.div_pos; lia | apply Z.div_lt_upper_bound; lia]. }
  lia.
Qed.

Lemma getDay_range : forall t, (Z.to_nat (getDay t) < 7)%nat.
Proof.
  intro t. unfold getDay.
  pose proof (Z.mod_pos_bound (dayOf t + 4) 7 ltac:(lia)). lia.
Qed.

Lemma initiatorStep_get :
  forall pats prev m name,
    mapGet name (fst (initiatorStep (pats, prev) m))
    = (if match prev with
          | None => true
          | Some t => isBoundary (timestamp m - t)
          end && jsstring_eqb (participant m) name
       then option_map
              (fun pattern =>
                 mkPattern
                   (incrAt (Z.to_nat (getHours (timestamp m))) (byHour pattern))
                   (incrAt (Z.to_nat (getDay (timestamp m))) (byDay pattern)))
              (mapGet name pats)
       else mapGet name pats)
    /\ snd (initiatorStep (pats, prev) m) = Some (timestamp m).
Proof.
  intros pats prev m name. unfold initiatorStep. cbn [fst snd].
  split; [| reflexivity].
  assert (Hs : match prev with
               | None => true
               | Some t => isNewConversation (timestamp m - t)
               end
               = match prev with
                 | None => true
                 | Some t => isBoundary (timestamp m - t)
                 end).
  { destruct prev; [apply isNewConversation_isBoundary | reflexivity]. }
  rewrite Hs. clear Hs.
  destruct (match prev with None => true | Some t => isBoundary (timestamp m - t) end);
    cbn [andb]; [| reflexivity].
  destruct (jsstring_eqb (participant m) name) eqn:En.
  - apply jsstring_eqb_eq in En. subst name.
    destruct (mapGet (participant m) pats) as [pattern |] eqn:Eg.
    + rewrite mapGet_mapSet, jsstring_eqb_refl. reflexivity.
    + rewrite Eg. reflexivity.
  - destruct (mapGet (participant m) pats) as [pattern |]; [| reflexivity].
    rewrite mapGet_mapSet, En. reflexivity.
Qed.

Lemma initiator_fold :
  forall s pats prev name,
    match mapGet name pats with
    | Some pat =>
        forall k, goodPattern pat k ->
          exists pat',
            mapGet name (fst (fold_left initiatorStep s (pats, prev)))
            = Some pat'
            /\ goodPattern pat' (k + countStarts name s (startFlags prev s))
    | None =>
        mapGet name (fst (fold_left initiatorStep s (pats, prev))) = None
    end.
Proof.
  induction s as [| m s IH]; intros pats prev name.
  - cbn [fold_left fst startFlags]. rewrite countStarts_nil.
    destruct (mapGet name pats) as [pat |]; [| reflexivity].
    intros k Hk. exists pat. rewrite Z.add_0_r. auto.
  - cbn [fold_left startFlags]. rewrite countStarts_cons.
    destruct (initiatorStep_get pats prev m name) as [Hget Hprev].
    destruct (initiatorStep (pats, prev) m) as [pats' prev'].
    cbn [fst snd] in Hget, Hprev. subst prev'.
    specialize (IH pats' (Some (timestamp m)) name).
    rewrite Hget in IH. clear Hget.
    destruct (match prev with None => true | Some t => isBoundary (timestamp m - t) end
              && jsstring_eqb (participant m) name).
    + destruct (mapGet name pats) as [pat |]; cbn [option_map] in IH;
        [| exact IH].
      intros k (H1 & H2 & H3 & H4).
      destruct (IH (k + 1)) as (pat' & Hg & Hgood).
      { unfold goodPattern. cbn [byHour byDay].
        rewrite !incrAt_length, !incrAt_sum.
        - repeat split; auto; lia.
        - rewrite H2. apply getDay_range.
        - rewrite H1. apply getHours_range. }
      exists pat'. split; [exact Hg |].
      replace (k + (1 + countStarts name s (startFlags (Some (timestamp m)) s)))
        with (k + 1 + countStarts name s (startFlags (Some (timestamp m)) s))
        by lia.
      exact Hgood.
    + destruct (mapGet name pats) as [pat |]; [| exact IH].
      intros k Hk. destruct (IH k Hk) as (pat' & Hg & Hgood).
      exists pat'. split; [exact Hg |]. rewrite Z.add_0_l. exact Hgood.
Qed.

Lemma initial_patterns :
  forall (ps : list ParticipantData) (v : Pattern) (m0 : JSMap Pattern)
         (k : jsstring),
    mapGet k (fold_left (fun m p => mapSet (name p) v m) ps m0)
    = if existsb (fun p => jsstring_eqb (name p) k) ps then Some v
      else mapGet k m0.
Proof.
  induction ps as [| p ps IH]; intros v m0 k; cbn [fold_left existsb].
  - reflexivity.
  - rewrite IH, mapGet_mapSet.
    destruct (jsstring_eqb (name p) k); cbn [orb];
      destruct (existsb (fun p0 => jsstring_eqb (name p0) k) ps); reflexivity.
Qed.

Lemma zero_sum : forall n, sumZ (repeat 0 n) = 0.
Proof.
  induction n as [| n IH]; [reflexivity |].
  cbn [repeat]. rewrite sumZ_cons, IH. reflexivity.
Qed.

Lemma initiator_counts :
  forall cd name,
    match mapGet name (getConversationInitiatorPatterns cd) with
    | Some pat =>
        sumZ (byHour pat)
        = countStarts name (sortMessages (chatMessages cd))
                      (startFlags None (sortMessages (chatMessages cd)))
        /\ sumZ (byDay pat) = sumZ (byHour pat)
    | None => ~ In name (map DataModel.name (getAllParticipants cd))
    end.
Proof.
  intros cd name. unfold getConversationInitiatorPatterns.
  pose proof (initiator_fold (sortMessages (chatMessages cd))
                (fold_left
                   (fun m p => mapSet (DataModel.name p)
                                      (mkPattern (repeat 0 24) (repeat 0 7)) m)
                   (getAllParticipants cd) [])
                None name) as H.
  rewrite initial_patterns in H.
  destruct (existsb (fun p => jsstring_eqb (DataModel.name p) name)
                    (getAllParticipants cd)) eqn:Ex.
  - destruct (H 0) as (pat' & Hg & H1 & H2 & H3 & H4).
    { unfold goodPattern. cbn [byHour byDay]. rewrite !repeat_length, !zero_sum.
      auto. }
    rewrite Hg. split; lia.
  - cbn [mapGet] in H. rewrite H. intro Hin.
    apply in_map_iff in Hin. destruct Hin as (p & Hp & Hin).
    assert (existsb (fun p => jsstring_eqb (DataModel.name p) name)
                    (getAllParticipants cd) = true).
    { apply existsb_exists. exists p. split; [exact Hin |].
      apply jsstring_eqb_eq. exact Hp. }
    congruence.
Qed.

(** C3.  The three analyzers test a gap with the one predicate
    [isNewConversation], which holds exactly when the gap exceeds 2 hours
    (a gap of exactly 2 hours is not a boundary in any of them).  Let the
    start flags of the timestamp-sorted sequence mark its first message and
    every message whose gap from the one before exceeds 2 hours.  Then
    starter detection adds to each participant the number of flagged
    messages of that participant; the conversations of the length analyzer
    are non-empty, concatenate to the sorted sequence and begin exactly at
    the flagged messages; and the initiator patterns of each participant
    count, over the hours and over the week days, the flagged messages of
    that participant. *)
Theorem conversation_boundary_shared :
  forall cd : ChatData,
    (forall gap, isNewConversation gap = isBoundary gap)
    /\ (forall gap, isBoundary gap = true <-> 2 * 60 * 60 * 1000 < gap)
    /\ isBoundary (2 * 60 * 60 * 1000) = false
    /\ (forall name,
          option_map conversationsStarted
            (getParticipant
               (calculateConversationStarters (chatMessages cd) cd) name)
          = option_map
              (fun p => conversationsStarted p
                        + countStarts name (sortMessages (chatMessages cd))
                            (startFlags None (sortMessages (chatMessages cd))))
              (getParticipant cd name))
    /\ (concat (conversationsOf cd) = sortMessages (chatMessages cd)
        /\ partitionFlags (conversationsOf cd)
           = startFlags None (sortMessages (chatMessages cd))
        /\ Forall (fun c => c <> []) (conversationsOf cd)
        /\ total (analyzeConversationLengths cd)
           = Z.of_nat (length (conversationsOf cd)))
    /\ (forall name,
          match mapGet name (getConversationInitiatorPatterns cd) with
          | Some pat =>
              sumZ (byHour pat)
              = countStarts name (sortMessages (chatMessages cd))
                  (startFlags None (sortMessages (chatMessages cd)))
              /\ sumZ (byDay pat) = sumZ (byHour pat)
          | None => ~ In name (map DataModel.name (getAllParticipants cd))
          end).
Proof.
  intro cd.
  split; [exact isNewConversation_isBoundary |].
  split; [intro gap; unfold isBoundary; apply Z.ltb_lt |].
  split; [reflexivity |].
  split; [intro name; apply starters_counts |].
  split.
  - destruct (conversationsOf_flags cd) as (H1 & H2 & H3).
    repeat split; assumption.
  - intro name. apply initiator_counts.
Qed.

(** *** Sentiment *)

Lemma insert_at_front :
  forall (x : Msg) (l : list Msg),
    Forall (fun z => timestamp x <= timestamp z) l ->
    insertSorted byTimestamp x l = x :: l.
Proof.
  intros x [| y l] H; [reflexivity |].
  inversion H; subst. cbn [insertSorted]. unfold byTimestamp.
  assert (E : (timestamp x - timestamp y <=? 0) = true) by (apply Z.leb_le; lia).
  rewrite E. reflexivity.
Qed.

Lemma insert_inTimeOrder :
  forall (x : Msg) (l : list Msg),
    inTimeOrder l -> inTimeOrder (insertSorted byTimestamp x l).
Proof.
  intros x l H. induction H as [| y l Hl IH Hy]; cbn [insertSorted].
  - constructor; constructor.
  - unfold byTimestamp at 1.
    destruct (timestamp x - timestamp y <=? 0) eqn:E.
    + apply Z.leb_le in E. constructor; [constructor; assumption |].
      constructor; [lia |].
      apply Forall_impl with (2 := Hy). intros z Hz. lia.
    + apply Z.leb_gt in E. constructor; [exact IH |].
      apply Forall_forall. intros z Hz.
      apply In_insertSorted in Hz. destruct Hz as [-> | Hz]; [lia |].
      rewrite Forall_forall in Hy. apply Hy. exact Hz.
Qed.

Lemma sortMessages_inTimeOrder : forall l, inTimeOrder (sortMessages l).
Proof.
  induction l as [| x l IH]; [constructor |].
  apply insert_inTimeOrder. exact IH.
Qed.

Lemma filter_insert :
  forall (p : Msg -> bool) (x : Msg) (l : list Msg),
    inTimeOrder l ->
    filter p (insertSorted byTimestamp x l)
    = if p x then insertSorted byTimestamp x (filter p l) else filter p l.
Proof.
  intros p x l H. induction H as [| y l Hl IH Hy]; cbn [insertSorted filter].
  - destruct (p x); reflexivity.
  - unfold byTimestamp at 1.
    destruct (timestamp x - timestamp y <=? 0) eqn:E.
    + apply Z.leb_le in E. cbn [filter].
      destruct (p x); [| reflexivity].
      symmetry. apply insert_at_front.
      apply Forall_forall. intros z Hz.
      assert (Hin : In z (y :: l)).
      { destruct (p y); [destruct Hz as [<- | Hz]; [left; reflexivity |] |];
          right; apply filter_In in Hz; tauto. }
      destruct Hin as [<- | Hin]; [lia |].
      rewrite Forall_forall in Hy. specialize (Hy z Hin). lia.
    + cbn [filter]. rewrite IH.
      destruct (p y), (p x); try reflexivity.
      cbn [insertSorted]. unfold byTimestamp at 2. rewrite E. reflexivity.
Qed.

Lemma sortMessages_filter :
  forall (p : Msg -> bool) (l : list Msg),
    sortMessages (filter p l) = filter p (sortMessages l).
Proof.
  intros p l. induction l as [| x l IH]; [reflexivity |].
  change (sortMessages (x :: l))
    with (insertSorted byTimestamp x (sortMessages l)).
  rewrite filter_insert by apply sortMessages_inTimeOrder.
  cbn [filter]. destruct (p x); [| exact IH].
  change (sortMessages (x :: filter p l))
    with (insertSorted byTimestamp x (sortMessages (filter p l))).
  rewrite IH. reflexivity.
Qed.

Section SentimentFacts.
Variable Sentiment : option (jsstring -> option Q).

Lemma sentimentStep_long :
  forall st m, notLong m = false -> sentimentStep Sentiment st m = st.
Proof.
  intros st m H. unfold sentimentStep, MAX_LENGTH. unfold notLong in H.
  apply negb_false_iff in H. rewrite H.
  destruct ((length (content m) =? 0)%nat
            || (length (trim (content m)) =? 0)%nat); reflexivity.
Qed.

Lemma sentiment_fold_filter :
  forall l st,
    fold_left (sentimentStep Sentiment) (filter notLong l) st
    = fold_left (sentimentStep Sentiment) l st.
Proof.
  induction l as [| m l IH]; intro st; [reflexivity |].
  cbn [filter fold_left]. destruct (notLong m) eqn:E.
  - cbn [fold_left]. apply IH.
  - rewrite (sentimentStep_long st m E). apply IH.
Qed.

(** Apart from the overall average, every aggregate is that of the
    messages of at most 200 code units. *)
Lemma sentiment_long_excluded_from_counts :
  forall msgs : list Msg,
    positive (sentimentOf Sentiment msgs)
    = positive (sentimentOf Sentiment (filter notLong msgs))
    /\ negative (sentimentOf Sentiment msgs)
       = negative (sentimentOf Sentiment (filter notLong msgs))
    /\ neutral (sentimentOf Sentiment msgs)
       = neutral (sentimentOf Sentiment (filter notLong msgs))
    /\ sentimentTrend (sentimentOf Sentiment msgs)
       = sentimentTrend (sentimentOf Sentiment (filter notLong msgs))
    /\ topPositive (sentimentOf Sentiment msgs)
       = topPositive (sentimentOf Sentiment (filter notLong msgs))
    /\ topNegative (sentimentOf Sentiment msgs)
       = topNegative (sentimentOf Sentiment (filter notLong msgs)).
Proof.
  intro msgs. unfold sentimentOf.
  cbn [positive negative neutral sentimentTrend topPositive topNegative].
  rewrite sortMessages_filter, sentiment_fold_filter.
  repeat split; reflexivity.
Qed.
End SentimentFacts.

(** C2.  A message of more than 200 code units is left out of the counts,
    of the monthly buckets and of the top lists (the lemma above), but not
    of the overall average, whose divisor is the number of all the messages
    of the participant.  With one scored message of score 0.3 and one
    message of 201 code units, the overall score is 0.15; without the long
    message it is 0.3. *)
Theorem sentiment_overall_counts_long_messages :
  (200 < length (content Examples.longMessage))%nat
  /\ getParticipant Examples.chatWithLong (lit "Alice") <> None
  /\ overall (analyzeSentiment Examples.mildScorer Examples.chatWithLong
                               (lit "Alice")) = (3 # 20)%Q
  /\ overall (analyzeSentiment Examples.mildScorer Examples.chatWithoutLong
                               (lit "Alice")) = (3 # 10)%Q
  /\ positive (analyzeSentiment Examples.mildScorer Examples.chatWithLong
                                (lit "Alice")) = 1.
Proof.
  split; [vm_compute; lia |].
  split; [vm_compute; discriminate |].
  repeat split; vm_compute; reflexivity.
Qed.

(** *** The matcher *)

Lemma classRuns_sound :
  forall p s s',
    In s' (classRuns p s) ->
    exists w, s = w ++ s' /\ Forall (fun x => p x = true) w.
Proof.
  intros p s. induction s as [| c s IH]; intros s' H.
  - destruct H as [<- | []]. exists []. auto.
  - cbn [classRuns] in H. destruct (p c) eqn:Ec.
    + apply in_app_or in H. destruct H as [H | [<- | []]].
      * destruct (IH s' H) as (w & -> & Hw). exists (c :: w). auto.
      * exists []. auto.
    + destruct H as [<- | []]. exists []. auto.
Qed.

Lemma classRuns_last :
  forall p s, exists front, classRuns p s = front ++ [s]
    /\ forall s', In s' front ->
         exists w, w <> [] /\ s = w ++ s' /\ Forall (fun x => p x = true) w.
Proof.
  intros p [| c s].
  - exists []. split; [reflexivity | intros s' []].
  - cbn [classRuns]. destruct (p c) eqn:Ec.
    + exists (classRuns p s). split; [reflexivity |].
      intros s' H. destruct (classRuns_sound p s s' H) as (w & -> & Hw).
      exists (c :: w). repeat split; auto. discriminate.
    + exists []. split; [reflexivity | intros s' []].
Qed.

Lemma plusRuns_sound :
  forall p s s',
    In s' (removelast (classRuns p s)) ->
    exists w, w <> [] /\ s = w ++ s' /\ Forall (fun x => p x = true) w.
Proof.
  intros p s s' H. destruct (classRuns_last p s) as (front & E & Hf).
  rewrite E, removelast_last in H. apply Hf. exact H.
Qed.

Lemma repRuns_sound :
  forall p hi lo s s',
    In s' (repRuns p lo hi s) ->
    exists w, s = w ++ s' /\ Forall (fun x => p x = true) w
              /\ (lo <= length w <= hi)%nat.
Proof.
  intros p hi. induction hi as [| hi IH]; intros lo s s' H.
  - cbn [repRuns] in H. destruct lo; [| destruct H].
    destruct H as [<- | []]. exists []. simpl. auto.
  - cbn [repRuns] in H.
    assert (Hstop : In s' (match lo with O => [s] | S _ => [] end) ->
                    exists w, s = w ++ s' /\ Forall (fun x => p x = true) w
                              /\ (lo <= length w <= S hi)%nat).
    { destruct lo; [| intros []]. intros [<- | []]. exists []. simpl.
      repeat split; auto; lia. }
    destruct s as [| c s]; [auto |].
    destruct (p c) eqn:Ec; [| auto].
    apply in_app_or in H. destruct H as [H | H]; [| auto].
    destruct (IH _ _ _ H) as (w & -> & Hw & Hlen).
    exists (c :: w). simpl. repeat split; auto; lia.
Qed.

Lemma firstn_app_exact :
  forall (w s' : jsstring), firstn (length (w ++ s') - length s') (w ++ s') = w.
Proof.
  intros w s'. rewrite length_app, Nat.add_sub.
  rewrite firstn_app, Nat.sub_diag, firstn_all. simpl. apply app_nil_r.
Qed.

(** Every result of [run] is a way to split the subject into a word of the
    pattern and a remainder; a capture is either left as it was or set to a
    word of the corresponding group. *)
Lemma run_sound :
  forall input r s cs s' cs',
    In (s', cs') (run input r (s, cs)) ->
    (exists w, s = w ++ s' /\ lang r w)
    /\ (forall k, cs' k = cs k
                  \/ exists w, cs' k = Some w /\ capLang r k w)
    /\ (forall k, defines r k = true ->
                  exists w, cs' k = Some w /\ capLang r k w).
Proof.
  intros input r. induction r as
    [c | c | p | a IHa b IHb | a IHa b IHb | a IHa | p | p | lo hi p
     | j a IHa | |]; intros s cs s' cs' H; cbn [run fst snd] in H.
  - (* Chr *)
    destruct s as [| x s]; [destruct H |].
    destruct (x =? c)%N eqn:E; [| destruct H].
    destruct H as [H | []]. injection H as <- <-. apply N.eqb_eq in E. subst x.
    split; [exists [c]; split; reflexivity |].
    split; [intro k; left; reflexivity | intros k Hk; discriminate].
  - (* ChrI *)
    destruct s as [| x s]; [destruct H |].
    destruct (upperUnit x =? upperUnit c)%N eqn:E; [| destruct H].
    destruct H as [H | []]. injection H as <- <-. apply N.eqb_eq in E.
    split; [exists [x]; split; [reflexivity | exists x; auto] |].
    split; [intro k; left; reflexivity | intros k Hk; discriminate].
  - (* Cls *)
    destruct s as [| x s]; [destruct H |].
    destruct (p x) eqn:E; [| destruct H].
    destruct H as [H | []]. injection H as <- <-.
    split; [exists [x]; split; [reflexivity | exists x; auto] |].
    split; [intro k; left; reflexivity | intros k Hk; discriminate].
  - (* Cat *)
    apply in_flat_map in H. destruct H as ([s1 cs1] & H1 & H2).
    destruct (IHa _ _ _ _ H1) as ((u & -> & Hu) & Ca & Da).
    destruct (IHb _ _ _ _ H2) as ((v & -> & Hv) & Cb & Db).
    split; [exists (u ++ v); split; [apply app_assoc | exists u, v; auto] |].
    split.
    + intro k. destruct (Cb k) as [E | (w & E & Hw)].
      * rewrite E. destruct (Ca k) as [E' | (w & E' & Hw)]; [left; exact E' |].
        right. exists w. split; [exact E' | left; exact Hw].
      * right. exists w. split; [exact E | right; exact Hw].
    + intros k Hk. cbn [defines] in Hk. apply orb_true_iff in Hk.
      destruct (Cb k) as [E | (w & E & Hw)].
      * rewrite E. destruct Hk as [Hk | Hk].
        -- destruct (Da k Hk) as (w & E' & Hw). exists w. split; [exact E' | left; exact Hw].
        -- destruct (Db k Hk) as (w & E' & Hw). exists w.
           split; [congruence | right; exact Hw].
      * exists w. split; [exact E | right; exact Hw].
  - (* Alt *)
    apply in_app_or in H. destruct H as [H | H].
    + destruct (IHa _ _ _ _ H) as ((u & -> & Hu) & Ca & Da).
      split; [exists u; split; [reflexivity | left; exact Hu] |].
      split.
      * intro k. destruct (Ca k) as [E | (w & E & Hw)]; [left; exact E |].
        right. exists w. split; [exact E | left; exact Hw].
      * intros k Hk. cbn [defines] in Hk. apply andb_true_iff in Hk.
        destruct (Da k (proj1 Hk)) as (w & E & Hw).
        exists w. split; [exact E | left; exact Hw].
    + destruct (IHb _ _ _ _ H) as ((u & -> & Hu) & Cb & Db).
      split; [exists u; split; [reflexivity | right; exact Hu] |].
      split.
      * intro k. destruct (Cb k) as [E | (w & E & Hw)]; [left; exact E |].
        right. exists w. split; [exact E | right; exact Hw].
      * intros k Hk. cbn [defines] in Hk. apply andb_true_iff in Hk.
        destruct (Db k (proj2 Hk)) as (w & E & Hw).
        exists w. split; [exact E | right; exact Hw].
  - (* Opt *)
    apply in_app_or in H. destruct H as [H | [H | []]].
    + destruct (IHa _ _ _ _ H) as ((u & -> & Hu) & Ca & Da).
      split; [exists u; split; [reflexivity | right; exact Hu] |].
      split; [exact Ca | intros k Hk; discriminate].
    + injection H as <- <-.
      split; [exists []; split; [reflexivity | left; reflexivity] |].
      split; [intro k; left; reflexivity | intros k Hk; discriminate].
  - (* Star *)
    apply in_map_iff in H. destruct H as (s1 & E & H). injection E as <- <-.
    destruct (classRuns_sound _ _ _ H) as (w & -> & Hw).
    split; [exists w; auto |].
    split; [intro k; left; reflexivity | intros k Hk; discriminate].
  - (* Plus *)
    apply in_map_iff in H. destruct H as (s1 & E & H). injection E as <- <-.
    destruct (plusRuns_sound _ _ _ H) as (w & Hne & -> & Hw).
    split; [exists w; split; [reflexivity | split; assumption] |].
    split; [intro k; left; reflexivity | intros k Hk; discriminate].
  - (* Rep *)
    apply in_map_iff in H. destruct H as (s1 & E & H). injection E as <- <-.
    destruct (repRuns_sound _ _ _ _ _ H) as (w & -> & Hw & Hlen).
    split; [exists w; split; [reflexivity | split; assumption] |].
    split; [intro k; left; reflexivity | intros k Hk; discriminate].
  - (* Grp *)
    apply in_map_iff in H. destruct H as ([s1 cs1] & E & H).
    cbn [fst snd] in E. injection E as <- <-.
    destruct (IHa _ _ _ _ H) as ((u & -> & Hu) & Ca & Da).
    rewrite firstn_app_exact.
    split; [exists u; auto |].
    split.
    + intro k. unfold setCap. cbn [capLang].
      destruct (Nat.eqb k j) eqn:Ek.
      * right. exists u. auto.
      * destruct (Ca k) as [E | (w & E & Hw)]; [left; exact E |].
        right. exists w. auto.
    + intros k Hk. unfold setCap. cbn [capLang defines] in *.
      destruct (Nat.eqb k j) eqn:Ek.
      * exists u. auto.
      * cbn [orb] in Hk. destruct (Da k Hk) as (w & E & Hw). exists w. auto.
  - (* Bol *)
    destruct (Nat.eqb (length s) (length input)); [| destruct H].
    destruct H as [H | []]. injection H as <- <-.
    split; [exists []; split; reflexivity |].
    split; [intro k; left; reflexivity | intros k Hk; discriminate].
  - (* Eol *)
    destruct s as [| x s]; [| destruct H].
    destruct H as [H | []]. injection H as <- <-.
    split; [exists []; split; reflexivity |].
    split; [intro k; left; reflexivity | intros k Hk; discriminate].
Qed.

Lemma execFrom_some :
  forall input r s cs,
    execFrom input r s = Some cs ->
    exists s0 s', In (s', cs) (run input r (s0, noCaps)).
Proof.
  intros input r s. induction s as [| c s IH]; intros cs H; cbn [execFrom] in H.
  - destruct (run input r ([], noCaps)) as [| [s' cs'] l] eqn:E;
      [discriminate |].
    cbn [snd] in H. assert (cs' = cs) by congruence. subst cs'.
    exists [], s'. rewrite E. left. reflexivity.
  - destruct (run input r (c :: s, noCaps)) as [| [s' cs'] l] eqn:E.
    + apply IH. exact H.
    + cbn [snd] in H. assert (cs' = cs) by congruence. subst cs'.
      exists (c :: s), s'. rewrite E. left. reflexivity.
Qed.

Lemma exec_defines :
  forall r input cs k,
    exec r input = Some cs -> defines r k = true ->
    exists w, cs k = Some w /\ capLang r k w.
Proof.
  intros r input cs k H Hk. apply execFrom_some in H.
  destruct H as (s0 & s' & H). apply run_sound in H.
  destruct H as (_ & _ & Hd). apply Hd. exact Hk.
Qed.

(** *** Strings *)

(** Facts about character classes, by arithmetic on the code units. *)
Ltac to_prop H :=
  unfold isDigit, isWhiteSpace, isUpperAZ, isLowerAZ, isAorP, notColon,
    isLineTerminator in H;
  rewrite ?negb_true_iff, ?negb_false_iff in H;
  rewrite ?orb_true_iff, ?andb_true_iff, ?N.leb_le, ?N.eqb_eq, ?N.eqb_neq in H.

Ltac is_false :=
  apply not_true_is_false;
  let H := fresh "H" in intro H; to_prop H.

Lemma digit_not_space : forall c, isDigit c = true -> isWhiteSpace c = false.
Proof. intros c H. to_prop H. is_false. lia. Qed.

Lemma digit_upper : forall c, isDigit c = true -> upperUnit c = c.
Proof.
  intros c H. unfold upperUnit. destruct (isLowerAZ c) eqn:E; [| reflexivity].
  to_prop H. to_prop E. lia.
Qed.

Lemma space_upper : forall c, isWhiteSpace c = true -> upperUnit c = c.
Proof.
  intros c H. unfold upperUnit. destruct (isLowerAZ c) eqn:E; [| reflexivity].
  to_prop H. to_prop E. lia.
Qed.

Lemma digit_cases :
  forall c, isDigit c = true ->
            In c [48; 49; 50; 51; 52; 53; 54; 55; 56; 57]%N.
Proof.
  intros c H. unfold isDigit in H. apply andb_true_iff in H.
  destruct H as [H1 H2]. apply N.leb_le in H1, H2. simpl.
  assert (c = 48 \/ c = 49 \/ c = 50 \/ c = 51 \/ c = 52 \/ c = 53 \/ c = 54
          \/ c = 55 \/ c = 56 \/ c = 57)%N by lia.
  intuition.
Qed.

Lemma split_no_sep :
  forall sep u, ~ In sep u -> split sep u = [u].
Proof.
  intros sep u. induction u as [| c u IH]; intro H; [reflexivity |].
  cbn [split]. destruct (N.eqb_spec c sep) as [-> | Hne].
  - exfalso. apply H. left. reflexivity.
  - rewrite IH; [reflexivity |]. intro; apply H; right; assumption.
Qed.

Lemma split_app_sep :
  forall sep u v, ~ In sep u -> split sep (u ++ sep :: v) = u :: split sep v.
Proof.
  intros sep u v. induction u as [| c u IH]; intro H.
  - cbn [app split]. rewrite N.eqb_refl. reflexivity.
  - cbn [app split]. destruct (N.eqb_spec c sep) as [-> | Hne].
    + exfalso. apply H. left. reflexivity.
    + rewrite IH; [reflexivity |]. intro; apply H; right; assumption.
Qed.

Lemma digits_no : forall sep ds,
    isDigit sep = false -> Forall (fun c => isDigit c = true) ds -> ~ In sep ds.
Proof.
  intros sep ds Hsep H Hin. rewrite Forall_forall in H.
  specialize (H sep Hin). congruence.
Qed.

Lemma digitsValue_digits :
  forall ds a,
    Forall (fun c => isDigit c = true) ds ->
    digitsValue (Some a) ds
    = Some (fold_left (fun acc c => 10 * acc + Z.of_N (c - 48)) ds a).
Proof.
  induction ds as [| c ds IH]; intros a H; [reflexivity |].
  inversion H; subst. cbn [digitsValue fold_left].
  match goal with Hc : isDigit c = true |- _ => rewrite Hc end.
  apply IH. assumption.
Qed.

Lemma parseInt_digits :
  forall ds, isDigits ds -> parseInt ds = Some (decimal ds).
Proof.
  intros [| c ds] [Hne H]; [congruence |].
  inversion H as [| ? ? Hc Hds]; subst.
  unfold parseInt. cbn [trimStart]. rewrite (digit_not_space c Hc).
  assert (E : digitsValue None (c :: ds) = Some (decimal (c :: ds))).
  { cbn [digitsValue]. rewrite Hc. unfold decimal. cbn [fold_left].
    apply digitsValue_digits. exact Hds. }
  apply digit_cases in Hc. simpl in Hc.
  repeat (destruct Hc as [<- | Hc]; [exact E |]). destruct Hc.
Qed.

Lemma startsWith_refl : forall s, startsWith s s = true.
Proof.
  induction s as [| c s IH]; [reflexivity |].
  cbn [startsWith]. rewrite N.eqb_refl. exact IH.
Qed.

Lemma includes_suffix : forall a sub, includes (a ++ sub) sub = true.
Proof.
  induction a as [| c a IH]; intro sub.
  - destruct sub; cbn [app includes]; rewrite startsWith_refl; reflexivity.
  - cbn [app includes]. rewrite IH. apply orb_true_r.
Qed.

Lemma includes_absent :
  forall s c sub, ~ In c s -> includes s (c :: sub) = false.
Proof.
  induction s as [| x s IH]; intros c sub H; [reflexivity |].
  cbn [includes startsWith]. destruct (N.eqb_spec x c) as [-> | Hne].
  - exfalso. apply H. left. reflexivity.
  - cbn [andb orb]. apply IH. intro; apply H; right; assumption.
Qed.

Lemma trimStart_id :
  forall c s, isWhiteSpace c = false -> trimStart (c :: s) = c :: s.
Proof. intros c s H. cbn [trimStart]. rewrite H. reflexivity. Qed.

Lemma trim_id :
  forall s a b, isWhiteSpace a = false -> isWhiteSpace b = false ->
                trim (a :: s ++ [b]) = a :: s ++ [b].
Proof.
  intros s a b Ha Hb. unfold trim, trimEnd. rewrite trimStart_id by exact Ha.
  change (a :: s ++ [b]) with ((a :: s) ++ [b]).
  rewrite rev_app_distr. cbn [rev app].
  rewrite trimStart_id by exact Hb.
  change (b :: rev s ++ [a]) with ([b] ++ rev (a :: s)).
  rewrite rev_app_distr, rev_involutive. reflexivity.
Qed.

Lemma toUpperCase_id :
  forall s, Forall (fun c => upperUnit c = c) s -> toUpperCase s = s.
Proof.
  intros s H. unfold toUpperCase. induction H as [| c s Hc _ IH]; [reflexivity |].
  cbn [map]. rewrite Hc, IH. reflexivity.
Qed.

(** *** Removing the AM/PM suffix *)

Lemma removeGo_skip :
  forall input r s k, (length s <= k)%nat -> removeGo input r k s = [].
Proof.
  intros input r s. induction s as [| c s IH]; intros k H; [reflexivity |].
  cbn [length] in H. destruct k as [| k]; [lia |].
  cbn [removeGo]. apply IH. lia.
Qed.

Lemma amPmRegex_units :
  amPmRegex
  = Cat (Star isWhiteSpace)
        (Grp 1 (Alt (Cat (ChrI 65) (ChrI 77))
               (Alt (Cat (ChrI 80) (ChrI 77))
               (Alt (Cat (ChrI 97) (ChrI 109)) (Cat (ChrI 112) (ChrI 109)))))).
Proof. reflexivity. Qed.

Lemma run_amPm_none :
  forall input c rest cs,
    isWhiteSpace c = false -> upperUnit c <> 65%N -> upperUnit c <> 80%N ->
    run input amPmRegex (c :: rest, cs) = [].
Proof.
  intros input c rest cs Hws HA HP. rewrite amPmRegex_units.
  cbn [run fst snd classRuns map flat_map app].
  rewrite Hws. cbn [map flat_map run fst snd app].
  change (upperUnit 65) with 65%N. change (upperUnit 80) with 80%N.
  change (upperUnit 97) with 65%N. change (upperUnit 112) with 80%N.
  apply N.eqb_neq in HA, HP. rewrite HA, HP. reflexivity.
Qed.

Lemma removeGo_keep :
  forall input c s,
    isWhiteSpace c = false -> upperUnit c <> 65%N -> upperUnit c <> 80%N ->
    removeGo input amPmRegex 0 (c :: s) = c :: removeGo input amPmRegex 0 s.
Proof.
  intros input c s Hws HA HP. cbn [removeGo].
  rewrite run_amPm_none by assumption. reflexivity.
Qed.

Lemma classRuns_prefix :
  forall p w x t,
    Forall (fun c => p c = true) w -> p x = false ->
    exists more, classRuns p (w ++ x :: t) = (x :: t) :: more.
Proof.
  intros p w x t Hw Hx. induction Hw as [| c w Hc _ IH].
  - exists []. cbn [app classRuns]. rewrite Hx. reflexivity.
  - destruct IH as (more & E). cbn [app classRuns]. rewrite Hc, E.
    eexists. reflexivity.
Qed.

Lemma run_amPm_match :
  forall input ws c cs,
    Forall (fun x => isWhiteSpace x = true) ws -> c = 65%N \/ c = 80%N ->
    exists res more,
      run input amPmRegex (ws ++ [c; 77%N], cs) = res :: more
      /\ fst res = [].
Proof.
  intros input ws c cs Hws Hc. rewrite amPmRegex_units.
  assert (Hx : isWhiteSpace c = false) by (destruct Hc; subst; reflexivity).
  destruct (classRuns_prefix isWhiteSpace ws c [77%N] Hws Hx) as (more & E).
  cbn [run fst snd]. rewrite E. cbn [map flat_map].
  destruct Hc; subst c; cbn; eexists _, _; split; reflexivity.
Qed.

Lemma removeGo_meridiem :
  forall input ap,
    meridiemOK ap -> removeGo input amPmRegex 0 (meridiemText ap) = [].
Proof.
  intros input [[ws mer] |] Hok; [| reflexivity].
  assert (Hm : exists c, (c = 65%N \/ c = 80%N)
                         /\ meridiemText (Some (ws, mer)) = ws ++ [c; 77%N]).
  { destruct mer; [exists 65%N | exists 80%N]; auto. }
  destruct Hm as (c & Hc & ->).
  destruct (run_amPm_match input ws c noCaps Hok Hc) as (res & more & E & Hres).
  destruct (ws ++ [c; 77%N]) as [| x rest] eqn:Es.
  - reflexivity.
  - cbn [removeGo]. rewrite E, Hres. cbn [length Nat.sub].
    apply removeGo_skip. lia.
Qed.

Lemma removeAll_time :
  forall body ap,
    Forall plainTimeChar body -> meridiemOK ap ->
    removeAll amPmRegex (body ++ meridiemText ap) = body.
Proof.
  intros body ap Hb Hok. unfold removeAll.
  generalize (body ++ meridiemText ap) at 1. intro input.
  induction Hb as [| c body (H1 & H2 & H3) _ IH].
  - apply removeGo_meridiem. exact Hok.
  - cbn [app]. rewrite removeGo_keep by assumption. rewrite IH. reflexivity.
Qed.

(** *** Timestamps *)

Lemma digit_plain : forall c, isDigit c = true -> plainTimeChar c.
Proof.
  intros c H. unfold plainTimeChar. rewrite (digit_upper c H).
  split; [exact (digit_not_space c H) |].
  to_prop H. lia.
Qed.

Lemma colon_plain : plainTimeChar 58%N.
Proof. unfold plainTimeChar. repeat split; discriminate. Qed.

Lemma digits_plain :
  forall ds, Forall (fun c => isDigit c = true) ds -> Forall plainTimeChar ds.
Proof.
  intros ds H. apply Forall_impl with (2 := H). exact digit_plain.
Qed.

Lemma timeBody_Forall :
  forall (P : N -> Prop) hs ms ss,
    (forall c, isDigit c = true -> P c) -> P 58%N ->
    isDigits hs -> isDigits ms -> secondsOK ss ->
    Forall P (timeBody hs ms ss).
Proof.
  intros P hs ms ss HP Hcolon [_ Hh] [_ Hm] Hs. unfold timeBody.
  assert (Hd : forall ds, Forall (fun c => isDigit c = true) ds -> Forall P ds).
  { intros ds H. apply Forall_impl with (2 := H). exact HP. }
  apply Forall_app. split; [apply Hd; exact Hh |].
  constructor; [exact Hcolon |].
  apply Forall_app. split; [apply Hd; exact Hm |].
  destruct ss as [s |]; [| constructor].
  destruct Hs as [_ Hs]. constructor; [exact Hcolon | apply Hd; exact Hs].
Qed.

Lemma timeBody_split :
  forall hs ms ss,
    isDigits hs -> isDigits ms -> secondsOK ss ->
    split 58 (timeBody hs ms ss)
    = hs :: ms :: match ss with Some s => [s] | None => [] end.
Proof.
  intros hs ms ss [_ Hh] [_ Hm] Hs. unfold timeBody.
  rewrite split_app_sep by (apply digits_no; [reflexivity | exact Hh]).
  f_equal. destruct ss as [s |]; cbn [secondsText].
  - destruct Hs as [_ Hs].
    rewrite split_app_sep by (apply digits_no; [reflexivity | exact Hm]).
    f_equal. apply split_no_sep. apply digits_no; [reflexivity | exact Hs].
  - rewrite app_nil_r. apply split_no_sep.
    apply digits_no; [reflexivity | exact Hm].
Qed.

Lemma timeBody_ends :
  forall hs ms ss,
    isDigits hs -> isDigits ms -> secondsOK ss ->
    exists a s b,
      timeBody hs ms ss = a :: s ++ [b]
      /\ isDigit a = true /\ isDigit b = true.
Proof.
  intros hs ms ss [Hhn Hh] [Hmn Hm] Hs. unfold timeBody.
  destruct hs as [| a hs]; [congruence |]. inversion Hh; subst.
  assert (Hlast : exists front b, ms ++ secondsText ss = front ++ [b]
                                  /\ isDigit b = true).
  { destruct ss as [s |]; cbn [secondsText].
    - destruct Hs as [Hsn Hs].
      destruct (exists_last Hsn) as (front & b & ->).
      exists (ms ++ 58%N :: front), b. split.
      + rewrite <- app_assoc. reflexivity.
      + apply Forall_app in Hs. destruct Hs as [_ Hb]. inversion Hb; assumption.
    - rewrite app_nil_r. destruct (exists_last Hmn) as (front & b & ->).
      exists front, b. split; [reflexivity |].
      apply Forall_app in Hm. destruct Hm as [_ Hb]. inversion Hb; assumption. }
  destruct Hlast as (front & b & E & Hb).
  exists a, (hs ++ 58%N :: front), b. split.
  - cbn [app]. f_equal. rewrite <- app_assoc. cbn [app]. rewrite E. reflexivity.
  - split; assumption.
Qed.

Lemma timeBody_trim :
  forall hs ms ss,
    isDigits hs -> isDigits ms -> secondsOK ss ->
    trim (timeBody hs ms ss) = timeBody hs ms ss.
Proof.
  intros hs ms ss Hh Hm Hs.
  destruct (timeBody_ends hs ms ss Hh Hm Hs) as (a & s & b & -> & Ha & Hb).
  apply trim_id; apply digit_not_space; assumption.
Qed.

Lemma meridiem_upper :
  forall ap, meridiemOK ap ->
             Forall (fun c => upperUnit c = c) (meridiemText ap).
Proof.
  intros [[ws mer] |] Hok; [| constructor].
  assert (Hws : Forall (fun c => upperUnit c = c) ws).
  { apply Forall_impl with (2 := Hok). exact space_upper. }
  destruct mer; cbn [meridiemText]; apply Forall_app; split; auto;
    repeat constructor.
Qed.

Lemma time_upper :
  forall hs ms ss ap,
    isDigits hs -> isDigits ms -> secondsOK ss -> meridiemOK ap ->
    toUpperCase (timeBody hs ms ss ++ meridiemText ap)
    = timeBody hs ms ss ++ meridiemText ap.
Proof.
  intros hs ms ss ap Hh Hm Hs Hok. apply toUpperCase_id.
  apply Forall_app. split; [| apply meridiem_upper; exact Hok].
  apply timeBody_Forall; try assumption; [exact digit_upper | reflexivity].
Qed.

Lemma time_removeAll :
  forall hs ms ss ap,
    isDigits hs -> isDigits ms -> secondsOK ss -> meridiemOK ap ->
    removeAll amPmRegex (timeBody hs ms ss ++ meridiemText ap)
    = timeBody hs ms ss.
Proof.
  intros hs ms ss ap Hh Hm Hs Hok. apply removeAll_time; [| exact Hok].
  apply timeBody_Forall; try assumption; [exact digit_plain | exact colon_plain].
Qed.

Lemma time_lacks :
  forall hs ms ss ws c x,
    isDigits hs -> isDigits ms -> secondsOK ss ->
    Forall (fun y => isWhiteSpace y = true) ws ->
    isDigit x = false -> isWhiteSpace x = false ->
    x <> 58%N -> x <> c -> x <> 77%N ->
    ~ In x (timeBody hs ms ss ++ ws ++ [c; 77%N]).
Proof.
  intros hs ms ss ws c x Hh Hm Hs Hws Hxd Hxw Hx1 Hx2 Hx3 Hin.
  apply in_app_or in Hin. destruct Hin as [Hin | Hin].
  - pose proof (timeBody_Forall (fun y => y <> x) hs ms ss) as HF.
    rewrite Forall_forall in HF. apply (HF) with (x := x); auto.
    intros y Hy ->. congruence.
  - apply in_app_or in Hin. destruct Hin as [Hin | Hin].
    + rewrite Forall_forall in Hws. specialize (Hws x Hin). congruence.
    + simpl in Hin. intuition congruence.
Qed.

Lemma time_isPM :
  forall hs ms ss ap,
    isDigits hs -> isDigits ms -> secondsOK ss -> meridiemOK ap ->
    includes (timeBody hs ms ss ++ meridiemText ap) (lit "PM")
    = match ap with Some (_, PM) => true | _ => false end.
Proof.
  intros hs ms ss ap Hh Hm Hs Hok.
  change (lit "PM") with [80%N; 77%N].
  destruct ap as [[ws [|]] |]; cbn [meridiemText].
  - apply includes_absent. apply time_lacks; auto; discriminate.
  - rewrite app_assoc. apply includes_suffix.
  - rewrite app_nil_r. apply includes_absent.
    pose proof (timeBody_Forall (fun y => y <> 80%N) hs ms ss) as HF.
    intro Hin. rewrite Forall_forall in HF. apply (HF) with (x := 80%N); auto.
    + intros y Hy ->. discriminate.
    + discriminate.
Qed.

Lemma time_isAM :
  forall hs ms ss ap,
    isDigits hs -> isDigits ms -> secondsOK ss -> meridiemOK ap ->
    includes (timeBody hs ms ss ++ meridiemText ap) (lit "AM")
    = match ap with Some (_, AM) => true | _ => false end.
Proof.
  intros hs ms ss ap Hh Hm Hs Hok.
  change (lit "AM") with [65%N; 77%N].
  destruct ap as [[ws [|]] |]; cbn [meridiemText].
  - rewrite app_assoc. apply includes_suffix.
  - apply includes_absent. apply time_lacks; auto; discriminate.
  - rewrite app_nil_r. apply includes_absent.
    pose proof (timeBody_Forall (fun y => y <> 65%N) hs ms ss) as HF.
    intro Hin. rewrite Forall_forall in HF. apply (HF) with (x := 65%N); auto.
    + intros y Hy ->. discriminate.
    + discriminate.
Qed.

Lemma dateText_split :
  forall fmt d1 d2 d3,
    isDigits d1 -> isDigits d2 -> isDigits d3 ->
    map parseInt (split (dateSeparator fmt) (dateText fmt d1 d2 d3))
    = [Some (decimal d1); Some (decimal d2); Some (decimal d3)].
Proof.
  intros fmt d1 d2 d3 H1 H2 H3. unfold dateText.
  assert (Hsep : isDigit (dateSeparator fmt) = false)
    by (destruct fmt; reflexivity).
  rewrite split_app_sep by (apply digits_no; [exact Hsep | apply H1]).
  rewrite split_app_sep by (apply digits_no; [exact Hsep | apply H2]).
  rewrite split_no_sep by (apply digits_no; [exact Hsep | apply H3]).
  cbn [map]. rewrite !parseInt_digits by assumption. reflexivity.
Qed.

Lemma slash_no_dash :
  forall d1 d2 d3,
    isDigits d1 -> isDigits d2 -> isDigits d3 ->
    includes (d1 ++ 47%N :: d2 ++ 47%N :: d3) (lit "-") = false.
Proof.
  intros d1 d2 d3 [_ H1] [_ H2] [_ H3]. change (lit "-") with [45%N].
  apply includes_absent. intro Hin.
  assert (HF : Forall (fun c => c <> 45%N) (d1 ++ 47%N :: d2 ++ 47%N :: d3)).
  { assert (Hd : forall ds, Forall (fun c => isDigit c = true) ds ->
                            Forall (fun c => c <> 45%N) ds).
    { intros ds H. apply Forall_impl with (2 := H). intros c Hc ->. discriminate. }
    apply Forall_app. split; [auto |]. constructor; [discriminate |].
    apply Forall_app. split; [auto |]. constructor; [discriminate | auto]. }
  rewrite Forall_forall in HF. apply (HF 45%N Hin). reflexivity.
Qed.

Lemma parseTimestamp_shape :
  forall fmt d1 d2 d3 hs ms ss ap,
    isDigits d1 -> isDigits d2 -> isDigits d3 ->
    isDigits hs -> isDigits ms -> secondsOK ss -> meridiemOK ap ->
    parseTimestamp (dateText fmt d1 d2 d3)
                   (timeBody hs ms ss ++ meridiemText ap) fmt
    = Ok (expectedDate fmt d1 d2 d3 hs ms ss ap).
Proof.
  intros fmt d1 d2 d3 hs ms ss ap H1 H2 H3 Hh Hm Hs Hok.
  unfold parseTimestamp.
  rewrite time_upper, time_isPM, time_isAM, time_removeAll, timeBody_trim,
    timeBody_split by assumption.
  assert (Hdate :
    (if match fmt with Iso => true | _ => false end
        || includes (dateText fmt d1 d2 d3) (lit "-")
     then
       match map parseInt (split 45 (dateText fmt d1 d2 d3)) with
       | [p0; p1; p2] => Ok (p2, nanAdd p1 (-1), p0)
       | _ => Err (InvalidIsoDateFormat (dateText fmt d1 d2 d3))
       end
     else
       match map parseInt (split 47 (dateText fmt d1 d2 d3)) with
       | [p0; p1; p2] =>
           Ok (p0, nanAdd p1 (-1), if nanLt p2 100 then nanAdd p2 2000 else p2)
       | _ => Err (InvalidDateFormat (dateText fmt d1 d2 d3))
       end)
    = Ok (let '(year, month, day) :=
            dateFields fmt (decimal d1) (decimal d2) (decimal d3) in
          (Some day, Some (month - 1), Some year))).
  { destruct fmt.
    - unfold dateText at 1. cbn [dateSeparator orb].
      rewrite slash_no_dash by assumption.
      change 47%N with (dateSeparator Ios).
      rewrite dateText_split by assumption.
      cbn [dateFields nanAdd nanLt option_map].
      destruct (decimal d3 <? 100); reflexivity.
    - unfold dateText at 1. cbn [dateSeparator orb].
      rewrite slash_no_dash by assumption.
      change 47%N with (dateSeparator Android).
      rewrite dateText_split by assumption.
      cbn [dateFields nanAdd nanLt option_map].
      destruct (decimal d3 <? 100); reflexivity.
    - cbn [orb]. change 45%N with (dateSeparator Iso).
      rewrite dateText_split by assumption. reflexivity. }
  rewrite Hdate. clear Hdate. unfold expectedDate.
  destruct (dateFields fmt (decimal d1) (decimal d2) (decimal d3))
    as [[year month] day].
  cbn [bind].
  destruct ss as [s |]; cbn [map length Nat.leb Nat.eqb nth];
    rewrite !parseInt_digits by assumption;
    destruct ap as [[ws [|]] |]; cbn [orb andb negb nanEq nanAdd option_map snd hour24];
    try reflexivity;
    destruct (decimal hs =? 12); reflexivity.
Qed.

(** *** The shapes that the line patterns capture *)

(** Split the conjunctions of a goal, without unfolding. *)
Ltac conjs := repeat match goal with |- _ /\ _ => split end.

Lemma rep_digits :
  forall lo hi w,
    lang (Rep (S lo) hi isDigit) w -> isDigits w /\ (S lo <= length w <= hi)%nat.
Proof.
  intros lo hi w [H Hlen]. split; [| exact Hlen]. split; [| exact H].
  intro E. subst w. simpl in Hlen. lia.
Qed.

Lemma slashDate_shape :
  forall d,
    lang slashDate d ->
    exists d1 d2 d3,
      isDigits d1 /\ isDigits d2 /\ isDigits d3
      /\ (2 <= length d3 <= 4)%nat
      /\ d = dateText Ios d1 d2 d3.
Proof.
  intros d H. unfold slashDate, ch in H. cbn [lang] in H.
  destruct H as (d1 & r1 & -> & H1 & s1 & r2 & -> & -> & d2 & r3 & -> & H2
                 & s2 & d3 & -> & -> & H3).
  apply rep_digits in H1, H2, H3.
  exists d1, d2, d3. conjs; try tauto; reflexivity.
Qed.

Lemma dashDate_shape :
  forall d,
    lang dashDate d ->
    exists d1 d2 d3,
      isDigits d1 /\ isDigits d2 /\ isDigits d3
      /\ length d1 = 4%nat
      /\ d = dateText Iso d1 d2 d3.
Proof.
  intros d H. unfold dashDate, ch in H. cbn [lang] in H.
  destruct H as (d1 & r1 & -> & H1 & s1 & r2 & -> & -> & d2 & r3 & -> & H2
                 & s2 & d3 & -> & -> & H3).
  apply rep_digits in H1, H2, H3.
  exists d1, d2, d3. conjs; try tauto; try reflexivity. lia.
Qed.

Lemma amPm_shape :
  forall w,
    w = [] \/ lang amPm w ->
    exists ap, meridiemOK ap /\ w = meridiemText ap.
Proof.
  intros w [-> | H]; [exists None; split; [exact I | reflexivity] |].
  unfold amPm, ch in H. cbn [lang] in H.
  destruct H as (ws & r & -> & Hws & u & v & -> & (c & -> & Hc) & ->).
  unfold isAorP in Hc. apply orb_true_iff in Hc.
  destruct Hc as [Hc | Hc]; apply N.eqb_eq in Hc; subst c.
  - exists (Some (ws, AM)). split; [exact Hws | reflexivity].
  - exists (Some (ws, PM)). split; [exact Hws | reflexivity].
Qed.

Lemma timeWithSeconds_shape :
  forall t,
    lang timeWithSeconds t ->
    exists hs ms ss ap,
      isDigits hs /\ isDigits ms /\ secondsOK ss /\ meridiemOK ap
      /\ t = timeBody hs ms ss ++ meridiemText ap.
Proof.
  intros t H. unfold timeWithSeconds, ch in H. cbn [lang] in H.
  destruct H as (hs & r1 & -> & Hh & c1 & r2 & -> & -> & ms & r3 & -> & Hm
                 & o1 & o2 & -> & Ho1 & Ho2).
  apply rep_digits in Hh, Hm.
  destruct (amPm_shape o2 Ho2) as (ap & Hap & ->).
  assert (Hsec : exists ss, secondsOK ss /\ o1 = secondsText ss).
  { destruct Ho1 as [-> | (c2 & s & -> & -> & Hs)].
    - exists None. split; [exact I | reflexivity].
    - apply rep_digits in Hs. exists (Some s). split; [apply Hs | reflexivity]. }
  destruct Hsec as (ss & Hss & ->).
  exists hs, ms, ss, ap. conjs; try tauto.
  unfold timeBody. cbn [app]. rewrite <- !app_assoc. cbn [app].
  rewrite <- !app_assoc. reflexivity.
Qed.

Lemma timeNoSeconds_shape :
  forall t,
    lang timeNoSeconds t ->
    exists hs ms ap,
      isDigits hs /\ isDigits ms /\ meridiemOK ap
      /\ t = timeBody hs ms None ++ meridiemText ap.
Proof.
  intros t H. unfold timeNoSeconds, ch in H. cbn [lang] in H.
  destruct H as (hs & r1 & -> & Hh & c1 & r2 & -> & -> & ms & o2 & -> & Hm
                 & Ho2).
  apply rep_digits in Hh, Hm.
  destruct (amPm_shape o2 Ho2) as (ap & Hap & ->).
  exists hs, ms, ap. conjs; try tauto.
  unfold timeBody. cbn [app secondsText]. rewrite app_nil_r, <- !app_assoc.
  cbn [app]. reflexivity.
Qed.

Lemma no_groups_slashDate : forall k w, ~ capLang slashDate k w.
Proof. intros k w. unfold slashDate, ch. cbn [capLang]. tauto. Qed.

Lemma no_groups_dashDate : forall k w, ~ capLang dashDate k w.
Proof. intros k w. unfold dashDate, ch. cbn [capLang]. tauto. Qed.

Lemma no_groups_timeWithSeconds : forall k w, ~ capLang timeWithSeconds k w.
Proof. intros k w. unfold timeWithSeconds, amPm, ch. cbn [capLang]. tauto. Qed.

Lemma no_groups_timeNoSeconds : forall k w, ~ capLang timeNoSeconds k w.
Proof. intros k w. unfold timeNoSeconds, amPm, ch. cbn [capLang]. tauto. Qed.

(** The four groups of a line pattern, given the date and the time
    sub-patterns it is built from. *)
Lemma line_groups :
  forall (r dateR timeR : regex) line m,
    (forall w, capLang r 1 w -> lang dateR w) ->
    (forall w, capLang r 2 w -> lang timeR w) ->
    defines r 1 = true -> defines r 2 = true ->
    defines r 3 = true -> defines r 4 = true ->
    exec r line = Some m ->
    exists d t g3 g4,
      m 1%nat = Some d /\ m 2%nat = Some t
      /\ m 3%nat = Some g3 /\ m 4%nat = Some g4
      /\ lang dateR d /\ lang timeR t.
Proof.
  intros r dateR timeR line m Hd Ht D1 D2 D3 D4 H.
  destruct (exec_defines r line m 1 H D1) as (d & E1 & L1).
  destruct (exec_defines r line m 2 H D2) as (t & E2 & L2).
  destruct (exec_defines r line m 3 H D3) as (g3 & E3 & _).
  destruct (exec_defines r line m 4 H D4) as (g4 & E4 & _).
  exists d, t, g3, g4. conjs; auto.
Qed.

Lemma ios_groups :
  forall line m,
    exec iosRegex line = Some m ->
    exists d t g3 g4,
      m 1%nat = Some d /\ m 2%nat = Some t
      /\ m 3%nat = Some g3 /\ m 4%nat = Some g4
      /\ lang slashDate d /\ lang timeWithSeconds t.
Proof.
  intros line m. apply line_groups; try reflexivity.
  - intros w H. unfold iosRegex, ch in H. cbn [capLang Nat.eqb] in H.
    pose proof (no_groups_slashDate 1 w). pose proof (no_groups_timeWithSeconds 1 w).
    tauto.
  - intros w H. unfold iosRegex, ch in H. cbn [capLang Nat.eqb] in H.
    pose proof (no_groups_slashDate 2 w). pose proof (no_groups_timeWithSeconds 2 w).
    tauto.
Qed.

Lemma android_groups :
  forall line m,
    exec androidRegex line = Some m ->
    exists d t g3 g4,
      m 1%nat = Some d /\ m 2%nat = Some t
      /\ m 3%nat = Some g3 /\ m 4%nat = Some g4
      /\ lang slashDate d /\ lang timeNoSeconds t.
Proof.
  intros line m. apply line_groups; try reflexivity.
  - intros w H. unfold androidRegex, ch in H. cbn [capLang Nat.eqb] in H.
    pose proof (no_groups_slashDate 1 w). pose proof (no_groups_timeNoSeconds 1 w).
    tauto.
  - intros w H. unfold androidRegex, ch in H. cbn [capLang Nat.eqb] in H.
    pose proof (no_groups_slashDate 2 w). pose proof (no_groups_timeNoSeconds 2 w).
    tauto.
Qed.

Lemma iso_groups :
  forall line m,
    exec isoRegex line = Some m ->
    exists d t g3 g4,
      m 1%nat = Some d /\ m 2%nat = Some t
      /\ m 3%nat = Some g3 /\ m 4%nat = Some g4
      /\ lang dashDate d /\ lang timeWithSeconds t.
Proof.
  intros line m. apply line_groups; try reflexivity.
  - intros w H. unfold isoRegex, ch in H. cbn [capLang Nat.eqb] in H.
    pose proof (no_groups_dashDate 1 w). pose proof (no_groups_timeWithSeconds 1 w).
    tauto.
  - intros w H. unfold isoRegex, ch in H. cbn [capLang Nat.eqb] in H.
    pose proof (no_groups_dashDate 2 w). pose proof (no_groups_timeWithSeconds 2 w).
    tauto.
Qed.

(** What a matched timestamp line captures: a date and a time of the
    shapes of its grammar, and two more groups. *)
Lemma matchLine_shape :
  forall line fmt m,
    matchLine line = Some (fmt, m) ->
    exists d1 d2 d3 hs ms ss ap g3 g4,
      isDigits d1 /\ isDigits d2 /\ isDigits d3
      /\ isDigits hs /\ isDigits ms /\ secondsOK ss /\ meridiemOK ap
      /\ (fmt <> Iso -> (2 <= length d3 <= 4)%nat)
      /\ m 1%nat = Some (dateText fmt d1 d2 d3)
      /\ m 2%nat = Some (timeBody hs ms ss ++ meridiemText ap)
      /\ m 3%nat = Some g3 /\ m 4%nat = Some g4.
Proof.
  intros line fmt m H. unfold matchLine in H.
  destruct (exec iosRegex line) as [m1 |] eqn:E1.
  { injection H as <- <-.
    destruct (ios_groups line m1 E1) as (d & t & g3 & g4 & G1 & G2 & G3 & G4 & Ld & Lt).
    destruct (slashDate_shape d Ld) as (d1 & d2 & d3 & H1 & H2 & H3 & Hl & ->).
    destruct (timeWithSeconds_shape t Lt) as (hs & ms & ss & ap & Hh & Hm & Hs & Ha & ->).
    exists d1, d2, d3, hs, ms, ss, ap, g3, g4. conjs; auto. }
  destruct (exec androidRegex line) as [m2 |] eqn:E2.
  { injection H as <- <-.
    destruct (android_groups line m2 E2) as (d & t & g3 & g4 & G1 & G2 & G3 & G4 & Ld & Lt).
    destruct (slashDate_shape d Ld) as (d1 & d2 & d3 & H1 & H2 & H3 & Hl & ->).
    destruct (timeNoSeconds_shape t Lt) as (hs & ms & ap & Hh & Hm & Ha & ->).
    exists d1, d2, d3, hs, ms, None, ap, g3, g4.
    conjs; auto; first [exact I | exact G1]. }
  destruct (exec isoRegex line) as [m3 |] eqn:E3; [| discriminate].
  injection H as <- <-.
  destruct (iso_groups line m3 E3) as (d & t & g3 & g4 & G1 & G2 & G3 & G4 & Ld & Lt).
  destruct (dashDate_shape d Ld) as (d1 & d2 & d3 & H1 & H2 & H3 & Hl & ->).
  destruct (timeWithSeconds_shape t Lt) as (hs & ms & ss & ap & Hh & Hm & Hs & Ha & ->).
  exists d1, d2, d3, hs, ms, ss, ap, g3, g4. conjs; auto; congruence.
Qed.

(** *** Date and time parsing of a matched line *)

Lemma decimal_two_digits :
  forall ds, isDigits ds -> length ds = 2%nat -> 0 <= decimal ds < 100.
Proof.
  intros ds [_ H] Hlen.
  destruct ds as [| a [| b [| c ds]]]; try discriminate.
  inversion H as [| ? ? Ha Hb']; subst. inversion Hb' as [| ? ? Hb _]; subst.
  unfold decimal. cbn [fold_left]. to_prop Ha. to_prop Hb. lia.
Qed.

(** C7.  On every line that matches a grammar, the captured date is three
    digit strings separated by '-' (ISO form: year, month, day) or by '/'
    (day, month, year), the captured time is hours ':' minutes, maybe ':'
    seconds, maybe white space and AM or PM, and [parseTimestamp] returns
    the date built from: the year (a slash-form year below 100, so every
    two-digit year yy, counted as 2000 + yy), the month minus one, the day,
    the hours after the 12-hour rule (PM and hour other than 12: plus 12;
    AM and hour 12: 0), the minutes and the seconds (0 when absent). *)
Theorem parseTimestamp_rules :
  forall (line : jsstring) (fmt : FormatType) (m : caps),
    matchLine line = Some (fmt, m) ->
    exists (d1 d2 d3 hs ms : jsstring) (ss : option jsstring)
           (ap : option (jsstring * Meridiem)),
      isDigits d1 /\ isDigits d2 /\ isDigits d3
      /\ isDigits hs /\ isDigits ms /\ secondsOK ss /\ meridiemOK ap
      /\ m 1%nat = Some (dateText fmt d1 d2 d3)
      /\ m 2%nat = Some (timeBody hs ms ss ++ meridiemText ap)
      /\ parseTimestamp (dateText fmt d1 d2 d3)
                        (timeBody hs ms ss ++ meridiemText ap) fmt
         = Ok (expectedDate fmt d1 d2 d3 hs ms ss ap)
      /\ (fmt <> Iso -> length d3 = 2%nat ->
          fst (fst (dateFields fmt (decimal d1) (decimal d2) (decimal d3)))
          = 2000 + decimal d3).
Proof.
  intros line fmt m H.
  destruct (matchLine_shape line fmt m H)
    as (d1 & d2 & d3 & hs & ms & ss & ap & g3 & g4 & H1 & H2 & H3 & Hh & Hm
        & Hs & Ha & Hl & G1 & G2 & G3 & G4).
  exists d1, d2, d3, hs, ms, ss, ap. conjs; try assumption.
  - apply parseTimestamp_shape; assumption.
  - intros Hfmt Hlen. pose proof (decimal_two_digits d3 H3 Hlen) as Hb.
    assert (E : (decimal d3 <? 100) = true) by (apply Z.ltb_lt; lia).
    destruct fmt; [| | congruence]; cbn [dateFields fst]; rewrite E; lia.
Qed.

Lemma parseTimestamp_rules_witness :
  exists m,
    matchLine Examples.pmLine = Some (Ios, m)
    /\ exists (d1 d2 d3 hs ms : jsstring) (ss : option jsstring)
              (ap : option (jsstring * Meridiem)),
         m 1%nat = Some (dateText Ios d1 d2 d3)
         /\ m 2%nat = Some (timeBody hs ms ss ++ meridiemText ap)
         /\ parseTimestamp (dateText Ios d1 d2 d3)
                           (timeBody hs ms ss ++ meridiemText ap) Ios
            = Ok (expectedDate Ios d1 d2 d3 hs ms ss ap).
Proof.
  eexists. split.
  - vm_compute. reflexivity.
  - match goal with
    | |- exists d1 d2 d3 hs ms ss ap, ?m 1%nat = _ /\ _ =>
        destruct (parseTimestamp_rules Examples.pmLine Ios m
                    ltac:(vm_compute; reflexivity))
          as (d1 & d2 & d3 & hs & ms & ss & ap & _ & _ & _ & _ & _ & _ & _
              & G1 & G2 & P & _)
    end.
    exists d1, d2, d3, hs, ms, ss, ap. conjs; assumption.
Defined.

(** *** The parser as a whole *)

Lemma parseLine_ok :
  forall st rawLine, exists st', parseLine st rawLine = Ok st'.
Proof.
  intros [messages currentMessage] rawLine. unfold parseLine.
  destruct (length (trim rawLine) =? 0)%nat; [eexists; reflexivity |].
  destruct (matchLine (trim rawLine)) as [[fmt m] |] eqn:E.
  - destruct (matchLine_shape _ _ _ E)
      as (d1 & d2 & d3 & hs & ms & ss & ap & g3 & g4 & H1 & H2 & H3 & Hh & Hm
          & Hs & Ha & Hl & G1 & G2 & G3 & G4).
    unfold group. rewrite G1, G2, G3, G4. cbn [bind].
    rewrite parseTimestamp_shape by assumption. cbn [bind].
    eexists. reflexivity.
  - destruct currentMessage; eexists; reflexivity.
Qed.

Lemma parseLines_ok :
  forall lines st, exists st', parseLines st lines = Ok st'.
Proof.
  induction lines as [| l lines IH]; intro st; cbn [parseLines].
  - eexists. reflexivity.
  - destruct (parseLine_ok st l) as (st1 & ->). cbn [bind]. apply IH.
Qed.

Lemma parseLine_keeps_current :
  forall messages cm rawLine st',
    parseLine (messages, Some cm) rawLine = Ok st' -> snd st' <> None.
Proof.
  intros messages cm rawLine st'. unfold parseLine.
  destruct (length (trim rawLine) =? 0)%nat.
  { intro H. injection H as <-. discriminate. }
  destruct (matchLine (trim rawLine)) as [[fmt m] |].
  - unfold bind.
    destruct (group m 1); [| discriminate].
    destruct (group m 2); [| discriminate].
    destruct (group m 3); [| discriminate].
    destruct (group m 4); [| discriminate].
    destruct (parseTimestamp _ _ _); [| discriminate].
    intro H. injection H as <-. discriminate.
  - intro H. injection H as <-. discriminate.
Qed.

Lemma parseLines_keeps_current :
  forall lines messages cm st',
    parseLines (messages, Some cm) lines = Ok st' -> snd st' <> None.
Proof.
  induction lines as [| l lines IH]; intros messages cm st' H;
    cbn [parseLines] in H.
  - injection H as <-. discriminate.
  - destruct (parseLine (messages, Some cm) l) as [[msgs1 cur1] |] eqn:E;
      [| discriminate].
    cbn [bind] in H. pose proof (parseLine_keeps_current _ _ _ _ E) as Hc.
    cbn [snd] in Hc. destruct cur1 as [cm1 |]; [| congruence].
    apply (IH _ _ _ H).
Qed.

Lemma flush_nil : forall st, flush st = [] <-> st = ([], None).
Proof.
  intros [messages [cm |]]; unfold flush; cbn [fst snd]; split; intro H.
  - apply app_eq_nil in H. destruct H; discriminate.
  - discriminate.
  - subst. reflexivity.
  - injection H as ->. reflexivity.
Qed.

Lemma parseLines_no_message :
  forall lines st',
    parseLines ([], None) lines = Ok st' ->
    (flush st' = [] <-> Forall startsNoMessage lines).
Proof.
  induction lines as [| l lines IH]; intros st' H; cbn [parseLines] in H.
  - injection H as <-. split; [constructor | reflexivity].
  - unfold parseLine in H at 1.
    destruct (length (trim l) =? 0)%nat eqn:El.
    + cbn [bind] in H. rewrite (IH st' H).
      apply Nat.eqb_eq, length_zero_iff_nil in El.
      split; intro HF; [constructor; [left; exact El | exact HF]
                       | inversion HF; assumption].
    + apply Nat.eqb_neq in El.
      destruct (matchLine (trim l)) as [[fmt m] |] eqn:Em.
      * assert (Hcur : snd st' <> None).
        { unfold bind in H.
          destruct (group m 1); [| discriminate].
          destruct (group m 2); [| discriminate].
          destruct (group m 3); [| discriminate].
          destruct (group m 4); [| discriminate].
          destruct (parseTimestamp _ _ _); [| discriminate].
          apply (parseLines_keeps_current _ _ _ _ H). }
        split.
        -- intro Hf. apply flush_nil in Hf. subst st'. cbn [snd] in Hcur.
           congruence.
        -- intro HF. inversion HF as [| ? ? [Ht | Ht] _]; subst.
           ++ rewrite Ht in El. simpl in El. congruence.
           ++ congruence.
      * cbn [bind] in H. rewrite (IH st' H).
        split; intro HF; [constructor; [right; exact Em | exact HF]
                         | inversion HF; assumption].
Qed.

(** C6.  The parser raises 'File content is empty' when the input is
    blank.  Otherwise the loop over the lines never raises; it ends in a
    state whose flushed messages are empty exactly when no line starts a
    message, in which case the parser raises 'No valid messages found', and
    else the parser returns exactly the flushed messages, the last of which
    is the message in progress at the end of the input.  A result is either
    an error or the whole sequence. *)
Theorem parse_failure_modes :
  forall fileContent : jsstring,
    (trim fileContent = [] ->
     parseWhatsAppChat fileContent = Err EmptyFileContent)
    /\ (trim fileContent <> [] ->
        exists st,
          parseLines ([], None) (split 10 fileContent) = Ok st
          /\ (flush st = [] <-> Forall startsNoMessage (split 10 fileContent))
          /\ (flush st = [] ->
              parseWhatsAppChat fileContent = Err NoValidMessages)
          /\ (flush st <> [] ->
              parseWhatsAppChat fileContent = Ok (flush st))
          /\ (forall cm, snd st = Some cm -> flush st = fst st ++ [cm])).
Proof.
  intro fileContent. unfold parseWhatsAppChat. split.
  - intro H. rewrite H. cbn [length Nat.eqb]. rewrite orb_true_r. reflexivity.
  - intro H.
    assert (E : ((length fileContent =? 0)%nat
                 || (length (trim fileContent) =? 0)%nat) = false).
    { apply orb_false_iff. split; apply Nat.eqb_neq; intro Hl;
        apply length_zero_iff_nil in Hl; [subst fileContent; apply H |];
        auto. }
    rewrite E.
    destruct (parseLines_ok (split 10 fileContent) ([], None)) as (st & Hst).
    exists st. rewrite Hst. cbn [bind].
    split; [reflexivity |].
    split; [apply parseLines_no_message; exact Hst |].
    split; [intro Hf; rewrite Hf; reflexivity |].
    split.
    + intro Hf. destruct (flush st) as [| x l]; [congruence | reflexivity].
    + intros cm Hcm. unfold flush. rewrite Hcm. reflexivity.
Qed.

Lemma parse_failure_modes_witness :
  trim Examples.transcript <> []
  /\ exists st,
       parseLines ([], None) (split 10 Examples.transcript) = Ok st
       /\ flush st <> []
       /\ parseWhatsAppChat Examples.transcript = Ok (flush st)
       /\ length (flush st) = 2%nat.
Proof.
  assert (H : trim Examples.transcript <> []) by (vm_compute; discriminate).
  split; [exact H |].
  destruct (proj2 (parse_failure_modes Examples.transcript) H)
    as (st & Hst & _ & _ & Hok & _).
  exists st.
  assert (Hlen : length (flush st) = 2%nat).
  { assert (E : option_map (fun s => length (flush s))
                  (match parseLines ([], None) (split 10 Examples.transcript)
                   with Ok s => Some s | Err _ => None end) = Some 2%nat)
      by (vm_compute; reflexivity).
    rewrite Hst in E. cbn [option_map] in E. congruence. }
  assert (Hne : flush st <> []).
  { intro Hf. rewrite Hf in Hlen. discriminate. }
  conjs; auto.
Defined.

(** *** The sign of a whole number *)

Lemma signQ_inject_Z : forall z, z <> 0 -> signQ (inject_Z z) <> Eq.
Proof.
  intros z Hz H. unfold signQ in H. apply Qeq_alt in H.
  unfold Qeq in H. simpl in H. lia.
Qed.

(** *** Activity trend *)

Lemma ceilDays_0 : ceilDays 0 = 0.
Proof. reflexivity. Qed.

(** C1.  The division by the first-period average is not guarded.  For an
    index holding a single message the whole span is 0 days, both periods
    have 1 message over 0 days, both averages are +Infinity, and the
    percentage change that is returned is NaN (with the trend 'stable'). *)
Theorem activity_trend_single_message_nan :
  forall (m : Msg) ps md bh bd bdt,
    let info := analyzeActivityTrend (mkChatData [m] ps md bh bd bdt) in
    percentageChange info = NaN
    /\ trend info = Stable
    /\ exists p1 p2, comparison info = Some (p1, p2)
         /\ periodMessages p1 = 1 /\ periodDays p1 = 0 /\ avgPerDay p1 = PInf.
Proof.
  intros m ps md bh bd bdt. unfold analyzeActivityTrend.
  cbn [chatMessages sortMessages sortBy fold_right insertSorted hd last].
  rewrite Z.sub_diag, ceilDays_0.
  cbn [Z.ltb Z.compare Z.mul].
  rewrite Z.add_0_r, Z.sub_diag, ceilDays_0.
  unfold countBetween. cbn [filter].
  rewrite Z.leb_refl. cbn.
  repeat split. eexists _, _. repeat split.
Qed.

(** The same result for two messages one hour apart: the mid point lies
    after the last message, the second period has 0 messages over 0 days,
    and its average, 0/0, is already NaN. *)
Lemma activity_trend_short_span_nan :
  percentageChange (analyzeActivityTrend Examples.oneHourApart) = NaN
  /\ percentageChange (analyzeActivityTrend Examples.oneMessage) = NaN.
Proof. split; vm_compute; reflexivity. Qed.

Lemma inTimeOrder_hd_last :
  forall (x : Msg) (l : list Msg) (d : Msg),
    inTimeOrder (x :: l) -> timestamp x <= timestamp (last (x :: l) d).
Proof.
  intros x l d H. inversion H as [| ? ? _ Hx]; subst.
  destruct l as [| y l]; [simpl; lia |].
  assert (Hin : In (last (x :: y :: l) d) (y :: l)).
  { change (last (x :: y :: l) d) with (last (y :: l) d).
    destruct (exists_last (l := y :: l) ltac:(discriminate)) as (front & z & E).
    rewrite E, last_last. apply in_or_app. right. left. reflexivity. }
  rewrite Forall_forall in Hx. apply Hx. exact Hin.
Qed.

Lemma ceilDays_nonneg : forall ms, 0 <= ms -> 0 <= ceilDays ms.
Proof.
  intros ms H. unfold ceilDays, msPerDay.
  assert (- ms / 86400000 <= 0).
  { apply Z.div_le_upper_bound; lia. }
  lia.
Qed.

Lemma countBetween_head :
  forall lo hi (x : Msg) (l : list Msg),
    lo <= timestamp x <= hi -> 1 <= countBetween lo hi (x :: l).
Proof.
  intros lo hi x l [H1 H2]. unfold countBetween. cbn [filter].
  apply Z.leb_le in H1, H2. rewrite H1, H2. cbn [andb length]. lia.
Qed.

Lemma ratio_not_zero :
  forall n d, 1 <= n -> ~ (inject_Z d == 0)%Q ->
              ~ (Qred (inject_Z n / inject_Z d) == 0)%Q.
Proof.
  intros n d Hn Hd Hq.
  assert (H0 : (inject_Z n / inject_Z d == 0)%Q).
  { apply Qeq_trans with (2 := Hq). apply Qeq_sym, Qred_correct. }
  assert (Hx : (inject_Z n == 0)%Q).
  { apply Qeq_trans with (inject_Z d * (inject_Z n / inject_Z d))%Q.
    - apply Qeq_sym, Qmult_div_r. exact Hd.
    - rewrite H0. ring. }
  unfold Qeq in Hx. simpl in Hx. lia.
Qed.

Lemma jdiv_count_not_zero :
  forall n d q, 1 <= n -> jdiv (ofZ n) (ofZ d) = Fin q -> ~ (q == 0)%Q.
Proof.
  intros n d q Hn H. unfold jdiv, ofZ in H.
  assert (Hd : signQ (inject_Z d) <> Eq -> ~ (inject_Z d == 0)%Q).
  { intros Hs Hz. unfold signQ in Hs. apply Qeq_alt in Hz. congruence. }
  destruct (signQ (inject_Z d)) eqn:Ed.
  - assert (Hs : signQ (inject_Z n) = Gt).
    { unfold signQ. apply Qgt_alt. unfold Qlt. simpl. lia. }
    rewrite Hs in H. discriminate.
  - injection H as <-. apply ratio_not_zero; [exact Hn |].
    apply Hd. discriminate.
  - injection H as <-. apply ratio_not_zero; [exact Hn |].
    apply Hd. discriminate.
Qed.

(** The first period always holds the first message, so its average is
    never zero; the zero that the trend analyzer divides by is a zero number
    of days. *)
Lemma first_period_average_not_zero :
  forall (cd : ChatData) (p1 p2 : Period),
    comparison (analyzeActivityTrend cd) = Some (p1, p2) ->
    1 <= periodMessages p1
    /\ forall q, avgPerDay p1 = Fin q -> ~ (q == 0)%Q.
Proof.
  intros cd p1 p2. unfold analyzeActivityTrend.
  destruct (chatMessages cd) as [| m ms] eqn:Emsgs; [discriminate |].
  pose proof (sortMessages_inTimeOrder (m :: ms)) as Hsorted.
  assert (Hlen : length (sortMessages (m :: ms)) = S (length ms)).
  { unfold sortMessages. rewrite length_sortBy. reflexivity. }
  destruct (sortMessages (m :: ms)) as [| x l] eqn:Es; [discriminate |].
  cbn [hd].
  pose proof (inTimeOrder_hd_last x l (mkMessage 0 [] [] false false) Hsorted)
    as Hle.
  set (lastDate := timestamp (last (x :: l) (mkMessage 0 [] [] false false))) in *.
  pose proof (ceilDays_nonneg (lastDate - timestamp x) ltac:(lia)) as Hdays.
  set (totalDays := ceilDays (lastDate - timestamp x)) in *.
  assert (Hcount : forall hi, timestamp x <= hi ->
                              1 <= countBetween (timestamp x) hi (x :: l)).
  { intros hi Hhi. apply countBetween_head. lia. }
  destruct (totalDays <? 60); cbn [comparison]; intro H; injection H as <- _;
    cbn [periodMessages avgPerDay].
  - assert (Hc := Hcount (timestamp x + totalDays * (msPerDay / 2))
                         ltac:(unfold msPerDay; change (86400000 / 2) with 43200000; lia)).
    split; [exact Hc |]. intros q Hq.
    apply (jdiv_count_not_zero _ _ _ Hc Hq).
  - assert (Hc := Hcount (timestamp x + 30 * msPerDay)
                         ltac:(unfold msPerDay; lia)).
    split; [exact Hc |]. intros q Hq.
    apply (jdiv_count_not_zero _ _ _ Hc Hq).
Qed.
(* ================================================================== *)
(** ** Further properties: the index that [loadMessages] builds *)
(* ================================================================== *)

Import ParserHelpers UtilsHelpers DataModelGetters StatisticsQueries Notions.

(** *** Maps *)

Lemma jsstring_eqb_sym : forall a b, jsstring_eqb a b = jsstring_eqb b a.
Proof.
  intros a b. destruct (jsstring_eqb b a) eqn:E.
  - apply jsstring_eqb_eq in E. subst. apply jsstring_eqb_refl.
  - apply jsstring_eqb_neq. apply jsstring_eqb_neq in E. congruence.
Qed.

Lemma mapHas_keys :
  forall {V : Type} (k : jsstring) (m : JSMap V),
    existsb (jsstring_eqb k) (map fst m) = mapHas k m.
Proof.
  intros V k m. unfold mapHas. induction m as [| [k0 v0] m IH]; [reflexivity |].
  cbn [map fst existsb mapGet]. rewrite (jsstring_eqb_sym k k0).
  destruct (jsstring_eqb k0 k); [reflexivity | exact IH].
Qed.

Lemma mapSet_keys :
  forall {V : Type} (k : jsstring) (v : V) (m : JSMap V),
    map fst (mapSet k v m) = setAddString (map fst m) k.
Proof.
  intros V k v m. unfold setAddString. rewrite mapHas_keys. unfold mapHas.
  induction m as [| [k0 v0] m IH]; [reflexivity |].
  cbn [mapSet mapGet map fst].
  destruct (jsstring_eqb k0 k) eqn:E; [reflexivity |].
  cbn [map fst]. rewrite IH.
  destruct (mapGet k m); reflexivity.
Qed.

Lemma setAddString_idem :
  forall s k, setAddString (setAddString s k) k = setAddString s k.
Proof.
  intros s k. unfold setAddString.
  destruct (existsb (jsstring_eqb k) s) eqn:E; [rewrite E; reflexivity |].
  rewrite existsb_app. cbn [existsb]. rewrite jsstring_eqb_refl, orb_true_r.
  reflexivity.
Qed.

Lemma In_setAddString :
  forall s k z, In z (setAddString s k) <-> In z s \/ z = k.
Proof.
  intros s k z. unfold setAddString.
  destruct (existsb (jsstring_eqb k) s) eqn:E.
  - apply existsb_exists in E. destruct E as (y & Hy & E).
    apply jsstring_eqb_eq in E. subst y. intuition (subst; assumption).
  - rewrite in_app_iff. simpl. intuition.
Qed.

Lemma NoDup_setAddString :
  forall s k, NoDup s -> NoDup (setAddString s k).
Proof.
  intros s k H. unfold setAddString.
  destruct (existsb (jsstring_eqb k) s) eqn:E; [exact H |].
  assert (Hn : ~ In k s).
  { intro Hin. assert (existsb (jsstring_eqb k) s = true); [| congruence].
    apply existsb_exists. exists k. split; [exact Hin | apply jsstring_eqb_refl]. }
  clear E. induction s as [| x s IH]; simpl.
  - constructor; [tauto | constructor].
  - inversion H; subst. constructor.
    + rewrite in_app_iff. simpl. intros [Hx | [Hx | []]]; [tauto |].
      subst. apply Hn. left. reflexivity.
    + apply IH; [assumption |]. intro; apply Hn; right; assumption.
Qed.

Lemma mapGet_In :
  forall {V : Type} (k : jsstring) (v : V) (m : JSMap V),
    NoDup (map fst m) -> In (k, v) m -> mapGet k m = Some v.
Proof.
  intros V k v m. induction m as [| [k0 v0] m IH]; intros Hnd Hin;
    [destruct Hin |].
  cbn [map fst] in Hnd. inversion Hnd as [| ? ? Hk0 Hnd']; subst.
  cbn [mapGet]. destruct Hin as [E | Hin].
  - injection E as -> ->. rewrite jsstring_eqb_refl. reflexivity.
  - destruct (jsstring_eqb k0 k) eqn:E.
    + apply jsstring_eqb_eq in E. subst k0. exfalso. apply Hk0.
      apply in_map_iff. exists (k, v). split; [reflexivity | exact Hin].
    + apply IH; assumption.
Qed.

Lemma mapGet_Some_In :
  forall {V : Type} (k : jsstring) (v : V) (m : JSMap V),
    mapGet k m = Some v -> In (k, v) m.
Proof.
  intros V k v m. induction m as [| [k0 v0] m IH]; cbn [mapGet];
    [discriminate |].
  destruct (jsstring_eqb k0 k) eqn:E.
  - apply jsstring_eqb_eq in E. subst k0. intro H. injection H as ->.
    left. reflexivity.
  - intro H. right. apply IH. exact H.
Qed.

Lemma sumZ_app : forall a b, sumZ (a ++ b) = sumZ a + sumZ b.
Proof.
  induction a as [| x a IH]; intro b; [reflexivity |].
  cbn [app]. rewrite !sumZ_cons, IH. lia.
Qed.

Lemma sum_mapSet :
  forall {V : Type} (f : V -> Z) (k : jsstring) (v : V) (m : JSMap V),
    sumZ (map (fun e => f (snd e)) (mapSet k v m))
    = sumZ (map (fun e => f (snd e)) m)
      - match mapGet k m with Some o => f o | None => 0 end
      + f v.
Proof.
  intros V f k v m. induction m as [| [k0 v0] m IH].
  - cbn. lia.
  - cbn [mapSet mapGet]. destruct (jsstring_eqb k0 k).
    + cbn [map snd]. rewrite !sumZ_cons. cbn [snd]. lia.
    + cbn [map snd]. rewrite !sumZ_cons, IH. cbn [snd]. lia.
Qed.

(** *** Participant records *)

Section IndexFacts.
Variable pictographic : N -> bool.

Lemma addMessage_name :
  forall p m, name (addMessage pictographic p m) = name p.
Proof.
  intros p m. unfold addMessage.
  destruct (negb (length (content m) =? 0)%nat && negb (isMedia m));
    reflexivity.
Qed.

Lemma addMessage_messages :
  forall p m, messages (addMessage pictographic p m) = messages p ++ [m].
Proof.
  intros p m. unfold addMessage.
  destruct (negb (length (content m) =? 0)%nat && negb (isMedia m));
    reflexivity.
Qed.

Lemma fold_addMessage_messages :
  forall l p,
    messages (fold_left (addMessage pictographic) l p) = messages p ++ l.
Proof.
  induction l as [| m l IH]; intro p; cbn [fold_left].
  - rewrite app_nil_r. reflexivity.
  - rewrite IH, addMessage_messages, <- app_assoc. reflexivity.
Qed.

Lemma fold_addMessage_name :
  forall l p, name (fold_left (addMessage pictographic) l p) = name p.
Proof.
  induction l as [| m l IH]; intro p; cbn [fold_left]; [reflexivity |].
  rewrite IH. apply addMessage_name.
Qed.

Lemma processMessage_get :
  forall cd m k,
    getParticipant (processMessage pictographic cd m) k
    = if jsstring_eqb (participant m) k
      then Some (addMessage pictographic
                   (match getParticipant cd k with
                    | Some p => p
                    | None => newParticipantData k
                    end) m)
      else getParticipant cd k.
Proof.
  intros cd m k. unfold processMessage, getParticipant. cbn [participants].
  unfold mapHas.
  destruct (jsstring_eqb (participant m) k) eqn:Ek.
  - apply jsstring_eqb_eq in Ek. subst k.
    destruct (mapGet (participant m) (participants cd)) as [p |] eqn:E.
    + rewrite E, mapGet_mapSet, jsstring_eqb_refl. reflexivity.
    + rewrite mapGet_mapSet, jsstring_eqb_refl, mapGet_mapSet,
        jsstring_eqb_refl. reflexivity.
  - destruct (mapGet (participant m) (participants cd)) as [p |] eqn:E.
    + rewrite E, mapGet_mapSet, Ek. reflexivity.
    + rewrite mapGet_mapSet, jsstring_eqb_refl, !mapGet_mapSet, Ek.
      reflexivity.
Qed.

Lemma fold_processMessage_get :
  forall l cd k,
    getParticipant (fold_left (processMessage pictographic) l cd) k
    = match ownMessages k l with
      | [] => getParticipant cd k
      | _ :: _ =>
          Some (fold_left (addMessage pictographic) (ownMessages k l)
                  (match getParticipant cd k with
                   | Some p => p
                   | None => newParticipantData k
                   end))
      end.
Proof.
  induction l as [| m l IH]; intros cd k; [reflexivity |].
  cbn [fold_left]. rewrite IH, processMessage_get. unfold ownMessages.
  cbn [filter]. destruct (jsstring_eqb (participant m) k) eqn:Ek.
  - cbn [fold_left]. destruct (filter _ l); reflexivity.
  - reflexivity.
Qed.

Lemma fold_processMessage_chatMessages :
  forall l cd,
    chatMessages (fold_left (processMessage pictographic) l cd)
    = chatMessages cd.
Proof.
  induction l as [| m l IH]; intro cd; [reflexivity |].
  cbn [fold_left]. rewrite IH. reflexivity.
Qed.

Lemma loadMessages_chatMessages :
  forall cd msgs,
    chatMessages (loadMessages pictographic cd msgs) = kept msgs.
Proof.
  intros cd msgs. unfold loadMessages. cbn [chatMessages].
  rewrite fold_processMessage_chatMessages. reflexivity.
Qed.

Lemma loadMessages_get :
  forall cd msgs k,
    getParticipant (loadMessages pictographic cd msgs) k
    = match ownMessages k (kept msgs) with
      | [] => getParticipant cd k
      | _ :: _ =>
          Some (fold_left (addMessage pictographic) (ownMessages k (kept msgs))
                  (match getParticipant cd k with
                   | Some p => p
                   | None => newParticipantData k
                   end))
      end.
Proof.
  intros cd msgs k. unfold loadMessages. fold (kept msgs).
  match goal with
  | |- context [fold_left _ _ ?c] => set (cd1 := c)
  end.
  pose proof (fold_processMessage_get (kept msgs) cd1 k) as H.
  unfold getParticipant in *. cbn [participants] in *. exact H.
Qed.

(* The record of a name in a freshly loaded index. *)
Lemma loaded_record :
  forall (msgs : list Msg) (n : jsstring),
    getParticipant (loadMessages pictographic newChatData msgs) n
    = match ownMessages n (kept msgs) with
      | [] => None
      | _ :: _ =>
          Some (fold_left (addMessage pictographic)
                          (ownMessages n (kept msgs))
                          (newParticipantData n))
      end.
Proof.
  intros msgs n. rewrite loadMessages_get. reflexivity.
Qed.

(** X1.  After [loadMessages] on a fresh index there is a record under a
    name exactly when some message that is not a system message is by that
    participant, and the record is then the one that [addMessage] builds,
    from a new record, out of that participant's non-system messages in
    their order in the input, and out of nothing else. *)
Theorem loaded_participant_record :
  forall (msgs : list Msg) (n : jsstring),
    getParticipant (loadMessages pictographic newChatData msgs) n
    = match ownMessages n (kept msgs) with
      | [] => None
      | _ :: _ =>
          Some (fold_left (addMessage pictographic)
                          (ownMessages n (kept msgs))
                          (newParticipantData n))
      end.
Proof.
  intros msgs n. rewrite loadMessages_get. reflexivity.
Qed.

Lemma filter_own_kept :
  forall (msgs : list Msg) (n : jsstring),
    filter (fun msg => jsstring_eqb (participant msg) n && negb (isSystem msg))
           msgs
    = ownMessages n (kept msgs).
Proof.
  intros msgs n. unfold ownMessages, kept.
  induction msgs as [| m msgs IH]; [reflexivity |].
  cbn [filter]. destruct (isSystem m); cbn [negb].
  - rewrite andb_false_r. exact IH.
  - rewrite andb_true_r. cbn [filter].
    destruct (jsstring_eqb (participant m) n); rewrite IH; reflexivity.
Qed.

(* The messages handed out for a filter value. *)
Lemma getMessages_loaded :
  forall (msgs : list Msg) (participantName : option jsstring),
    getMessages (loadMessages pictographic newChatData msgs) participantName
    = filterMessagesByParticipant msgs participantName.
Proof.
  intros msgs [n |]; unfold getMessages, filterMessagesByParticipant;
    rewrite loadMessages_chatMessages; [| reflexivity].
  destruct (selectsAll (Some n)); [reflexivity |].
  rewrite loaded_record, filter_own_kept.
  destruct (ownMessages n (kept msgs)) as [| m l] eqn:E; [reflexivity |].
  rewrite fold_addMessage_messages. reflexivity.
Qed.

(** X2.  The messages that the index hands out for a filter value are
    those that [filterMessagesByParticipant] selects from the parsed
    messages: for [null], the empty string and 'Total' all the messages
    that are not system messages, for a name the non-system messages of
    that participant in input order, and none for a name that wrote
    nothing. *)
Theorem getMessages_is_filterMessagesByParticipant :
  forall (msgs : list Msg) (participantName : option jsstring),
    getMessages (loadMessages pictographic newChatData msgs) participantName
    = filterMessagesByParticipant msgs participantName.
Proof.
  intros msgs [n |]; unfold getMessages, filterMessagesByParticipant;
    rewrite loadMessages_chatMessages; [| reflexivity].
  destruct (selectsAll (Some n)); [reflexivity |].
  rewrite loaded_record, filter_own_kept.
  destruct (ownMessages n (kept msgs)) as [| m l] eqn:E; [reflexivity |].
  rewrite fold_addMessage_messages. reflexivity.
Qed.

(** *** The participants of the index *)

Lemma processMessage_keys :
  forall cd m,
    map fst (participants (processMessage pictographic cd m))
    = setAddString (map fst (participants cd)) (participant m).
Proof.
  intros cd m. unfold processMessage. cbn [participants]. unfold mapHas.
  destruct (mapGet (participant m) (participants cd)) as [p |] eqn:E.
  - rewrite E. apply mapSet_keys.
  - rewrite mapGet_mapSet, jsstring_eqb_refl, !mapSet_keys.
    apply setAddString_idem.
Qed.

Lemma processMessage_names :
  forall cd m,
    Forall (fun e => name (snd e) = fst e) (participants cd) ->
    Forall (fun e => name (snd e) = fst e)
           (participants (processMessage pictographic cd m)).
Proof.
  intros cd m H.
  assert (Hset : forall k v (ps : JSMap ParticipantData),
             name v = k ->
             Forall (fun e => name (snd e) = fst e) ps ->
             Forall (fun e => name (snd e) = fst e) (mapSet k v ps)).
  { intros k v ps Hv Hps. induction Hps as [| [k0 v0] ps H0 Hps IH];
      cbn [mapSet].
    - constructor; [exact Hv | constructor].
    - destruct (jsstring_eqb k0 k) eqn:E.
      + apply jsstring_eqb_eq in E. subst k0.
        constructor; [exact Hv | assumption].
      + constructor; assumption. }
  unfold processMessage. cbn [participants]. unfold mapHas.
  destruct (mapGet (participant m) (participants cd)) as [p |] eqn:E.
  - rewrite E. apply Hset; [| exact H]. rewrite addMessage_name.
    apply mapGet_Some_In in E. rewrite Forall_forall in H.
    exact (H _ E).
  - rewrite mapGet_mapSet, jsstring_eqb_refl. apply Hset.
    + rewrite addMessage_name. reflexivity.
    + apply Hset; [reflexivity | exact H].
Qed.

Lemma participantSet_kept :
  forall {TS : Type} (msgs : list (Message TS)) (acc : list jsstring),
    fold_left (fun s msg =>
                 if isSystem msg then s else setAddString s (participant msg))
              msgs acc
    = fold_left setAddString (map participant (kept msgs)) acc.
Proof.
  intros TS msgs. induction msgs as [| m msgs IH]; intro acc; [reflexivity |].
  cbn [fold_left kept filter]. destruct (isSystem m); cbn [negb].
  - apply IH.
  - cbn [map fold_left]. apply IH.
Qed.

Lemma fold_processMessage_keys :
  forall l cd,
    map fst (participants (fold_left (processMessage pictographic) l cd))
    = fold_left setAddString (map participant l) (map fst (participants cd))
    /\ (Forall (fun e => name (snd e) = fst e) (participants cd) ->
        Forall (fun e => name (snd e) = fst e)
               (participants (fold_left (processMessage pictographic) l cd))).
Proof.
  induction l as [| m l IH]; intro cd; cbn [fold_left map].
  - auto.
  - destruct (IH (processMessage pictographic cd m)) as [IH1 IH2].
    rewrite IH1, processMessage_keys. split; [reflexivity |].
    intro H. apply IH2, processMessage_names, H.
Qed.

Lemma loadMessages_participants :
  forall msgs,
    map fst (participants (loadMessages pictographic newChatData msgs))
    = participantSet msgs
    /\ Forall (fun e => name (snd e) = fst e)
              (participants (loadMessages pictographic newChatData msgs)).
Proof.
  intro msgs. unfold loadMessages. cbn [participants]. fold (kept msgs).
  match goal with
  | |- context [fold_left _ _ ?c] => set (cd1 := c)
  end.
  destruct (fold_processMessage_keys (kept msgs) cd1) as [H1 H2].
  split.
  - rewrite H1. unfold participantSet. rewrite participantSet_kept.
    reflexivity.
  - apply H2. constructor.
Qed.

Lemma NoDup_fold_setAddString :
  forall l acc, NoDup acc -> NoDup (fold_left setAddString l acc).
Proof.
  induction l as [| x l IH]; intros acc H; cbn [fold_left]; [exact H |].
  apply IH, NoDup_setAddString, H.
Qed.

Lemma In_fold_setAddString :
  forall l acc z,
    In z (fold_left setAddString l acc) <-> In z acc \/ In z l.
Proof.
  induction l as [| x l IH]; intros acc z; cbn [fold_left].
  - simpl. tauto.
  - rewrite IH, In_setAddString. simpl. intuition.
Qed.

Lemma NoDup_participantSet :
  forall {TS : Type} (msgs : list (Message TS)), NoDup (participantSet msgs).
Proof.
  intros TS msgs. unfold participantSet. rewrite participantSet_kept.
  apply NoDup_fold_setAddString. constructor.
Qed.

Lemma In_participantSet :
  forall {TS : Type} (msgs : list (Message TS)) (n : jsstring),
    In n (participantSet msgs)
    <-> exists m, In m msgs /\ isSystem m = false /\ participant m = n.
Proof.
  intros TS msgs n. unfold participantSet.
  rewrite participantSet_kept, In_fold_setAddString, in_map_iff.
  unfold kept. split.
  - intros [[] | (m & <- & Hm)]. apply filter_In in Hm.
    exists m. destruct Hm as [Hm Hs]. apply negb_true_iff in Hs. auto.
  - intros (m & Hm & Hs & <-). right. exists m. split; [reflexivity |].
    apply filter_In. split; [exact Hm |]. rewrite Hs. reflexivity.
Qed.

(** The record found in the list of participants is the one stored under
    its name. *)
Lemma loaded_participant_lookup :
  forall msgs p,
    In p (getAllParticipants (loadMessages pictographic newChatData msgs)) ->
    getParticipant (loadMessages pictographic newChatData msgs) (name p)
    = Some p.
Proof.
  intros msgs p Hin. destruct (loadMessages_participants msgs) as [Hk Hn].
  unfold getAllParticipants in Hin. apply in_map_iff in Hin.
  destruct Hin as ([k v] & <- & Hin). cbn [snd].
  rewrite Forall_forall in Hn. pose proof (Hn _ Hin) as E. cbn [fst snd] in E.
  unfold getParticipant. apply mapGet_In.
  - rewrite Hk. apply NoDup_participantSet.
  - rewrite E. exact Hin.
Qed.

(** X3.  The index lists its participants in the order of their first
    message that is not a system message, each once and under its own
    name; [getParticipants] of the parser returns the same names sorted,
    and the participant count of the metadata is their number. *)
Theorem loaded_participants_in_order_of_first_message :
  forall msgs : list Msg,
    let cd := loadMessages pictographic newChatData msgs in
    map name (getAllParticipants cd) = participantSet msgs
    /\ NoDup (map name (getAllParticipants cd))
    /\ getParticipants msgs
       = sortBy byCodeUnits (map name (getAllParticipants cd))
    /\ totalParticipants (metadata cd)
       = Z.of_nat (length (getParticipants msgs)).
Proof.
  intros msgs cd. destruct (loadMessages_participants msgs) as [Hk Hn].
  assert (E : map name (getAllParticipants cd) = participantSet msgs).
  { rewrite <- Hk. unfold getAllParticipants. rewrite map_map.
    apply map_ext_in. intros e He. rewrite Forall_forall in Hn.
    exact (Hn e He). }
  split; [exact E |]. rewrite E.
  split; [apply NoDup_participantSet |].
  split; [reflexivity |].
  unfold getParticipants. rewrite length_sortBy, <- Hk, length_map.
  reflexivity.
Qed.

End IndexFacts.
(** *** [getParticipants] of the parser *)

Lemma strCompare_eq : forall a b, strCompare a b = Eq -> a = b.
Proof.
  induction a as [| x a IH]; intros [| y b] H; cbn [strCompare] in H;
    try discriminate; [reflexivity |].
  destruct (N.compare x y) eqn:E; try discriminate.
  apply N.compare_eq in E. subst y. f_equal. apply IH. exact H.
Qed.

Lemma strCompare_antisym :
  forall a b, strCompare a b = Gt -> strCompare b a = Lt.
Proof.
  induction a as [| x a IH]; intros [| y b] H; cbn [strCompare] in *;
    try discriminate; [reflexivity |].
  rewrite (N.compare_antisym x y).
  destruct (N.compare x y) eqn:E; cbn [CompOpp]; try discriminate.
  - apply IH. exact H.
  - reflexivity.
Qed.

Lemma ascendingStrings_tail :
  forall x l, ascendingStrings (x :: l) -> ascendingStrings l.
Proof. intros x [| y l]; simpl; tauto. Qed.

Lemma byCodeUnits_cases :
  forall x y,
    x <> y ->
    (byCodeUnits x y = true /\ strCompare x y = Lt)
    \/ (byCodeUnits x y = false /\ strCompare y x = Lt).
Proof.
  intros x y Hne. unfold byCodeUnits.
  destruct (strCompare x y) eqn:E.
  - apply strCompare_eq in E. contradiction.
  - left. auto.
  - right. split; [reflexivity | apply strCompare_antisym; exact E].
Qed.

Lemma ascendingStrings_insert :
  forall x l,
    ascendingStrings l -> ~ In x l ->
    ascendingStrings (insertSorted byCodeUnits x l).
Proof.
  intros x l. induction l as [| y l IH]; intros Hasc Hnot.
  - exact I.
  - cbn [insertSorted].
    assert (Hxy : x <> y) by (intro; subst; apply Hnot; left; reflexivity).
    destruct (byCodeUnits_cases x y Hxy) as [[E L] | [E L]]; rewrite E.
    + split; assumption.
    + assert (Hl : ascendingStrings (insertSorted byCodeUnits x l)).
      { apply IH; [exact (ascendingStrings_tail _ _ Hasc) |].
        intro; apply Hnot; right; assumption. }
      destruct l as [| z l'].
      * simpl. split; [exact L | exact I].
      * cbn [insertSorted] in *. destruct Hasc as [Hyz Hasc].
        destruct (byCodeUnits x z); split; assumption.
Qed.

Lemma ascendingStrings_sortBy :
  forall l, NoDup l -> ascendingStrings (sortBy byCodeUnits l).
Proof.
  induction l as [| x l IH]; intro Hnd; [exact I |].
  inversion Hnd; subst. simpl. apply ascendingStrings_insert; [auto |].
  rewrite In_sortBy. assumption.
Qed.

Lemma NoDup_sortBy :
  forall {A : Type} (le : A -> A -> bool) (l : list A),
    NoDup l -> NoDup (sortBy le l).
Proof.
  intros A le l H. induction H as [| x l Hx Hl IH]; [constructor |].
  cbn [sortBy fold_right]. fold (sortBy le l).
  assert (Hx' : ~ In x (sortBy le l)) by (rewrite In_sortBy; exact Hx).
  revert IH Hx'. generalize (sortBy le l) as s. clear.
  induction s as [| y s IHs]; intros Hnd Hx; cbn [insertSorted].
  - constructor; [exact Hx | constructor].
  - destruct (le x y).
    + constructor; assumption.
    + inversion Hnd; subst. constructor.
      * rewrite In_insertSorted. intros [-> | Hin]; [| contradiction].
        apply Hx. left. reflexivity.
      * apply IHs; [assumption |]. intro; apply Hx; right; assumption.
Qed.

(** X4.  [getParticipants] returns the names of the participants who wrote
    a message that is not a system message, and only those, each once, in
    strictly ascending order of their code units; a participant of system
    messages only is left out. *)
Theorem getParticipants_sorted_unique :
  forall (TS : Type) (messages : list (Message TS)),
    ascendingStrings (getParticipants messages)
    /\ NoDup (getParticipants messages)
    /\ forall n,
         In n (getParticipants messages)
         <-> exists m, In m messages /\ isSystem m = false
                       /\ participant m = n.
Proof.
  intros TS messages. unfold getParticipants.
  split; [apply ascendingStrings_sortBy, NoDup_participantSet |].
  split; [apply NoDup_sortBy, NoDup_participantSet |].
  intro n. rewrite In_sortBy. apply In_participantSet.
Qed.

(** *** The counters of a participant record *)

Section RecordFacts.
Variable pictographic : N -> bool.

Lemma countEmoji_sum :
  forall m emoji, sumValues (countEmoji m emoji) = sumValues m + 1.
Proof.
  intros m emoji. unfold countEmoji, sumValues.
  pose proof (sum_mapSet (fun z : Z => z) emoji
                (match mapGet emoji m with Some c => c | None => 0 end + 1) m)
    as H.
  cbv beta in H.
  assert (E1 : sumZ (map (fun e : jsstring * Z => snd e) m)
               = sumZ (map snd m)) by reflexivity.
  assert (E2 : forall l : JSMap Z,
             sumZ (map (fun e : jsstring * Z => snd e) l) = sumZ (map snd l))
    by reflexivity.
  rewrite E2 in H. rewrite H. destruct (mapGet emoji m); lia.
Qed.

Lemma fold_countEmoji_sum :
  forall emojis m,
    sumValues (fold_left countEmoji emojis m)
    = sumValues m + Z.of_nat (length emojis).
Proof.
  induction emojis as [| e emojis IH]; intro m; cbn [fold_left length].
  - lia.
  - rewrite IH, countEmoji_sum. lia.
Qed.

Lemma countWords_nonneg : forall text, 0 <= countWords text.
Proof. intro text. unfold countWords. destruct text; lia. Qed.

Lemma countLetters_bounds :
  forall text, 0 <= countLetters text <= Z.of_nat (length text).
Proof.
  intro text. unfold countLetters. destruct text as [| c text]; [simpl; lia |].
  pose proof (filter_length_le isAlphaAZ (c :: text)). lia.
Qed.

Lemma sumZ_snoc : forall l x, sumZ (l ++ [x]) = sumZ l + x.
Proof.
  intros l x. rewrite sumZ_app, sumZ_cons. cbn. lia.
Qed.

Lemma consistent_new : forall n, consistent (newParticipantData n).
Proof.
  intro n. unfold consistent, newParticipantData. cbn.
  repeat split; try lia; constructor.
Qed.

Lemma addMessage_consistent :
  forall p m, consistent p -> consistent (addMessage pictographic p m).
Proof.
  intros p m (Hc & Hw & Hl & Hle & He & Hq & Hx & Ha & Hlet & Hpos & Hnn).
  unfold addMessage.
  destruct (negb (length (content m) =? 0)%nat && negb (isMedia m)) eqn:E;
    unfold consistent;
    cbn [messageCount messages wordCount messageLengths characterLengths
         emojiCount topEmojis questionCount exclamationCount allCapsCount
         letterCount].
  - apply andb_true_iff in E. destruct E as [E _].
    apply negb_true_iff, Nat.eqb_neq in E.
    pose proof (countWords_nonneg (content m)) as Hcw.
    pose proof (countLetters_bounds (content m)) as Hcl.
    rewrite !length_app, !sumZ_snoc, fold_countEmoji_sum. cbn [length].
    conjs; try lia.
    + destruct (includes (content m) (lit "?")); lia.
    + destruct (includes (content m) (lit "?")); lia.
    + destruct (includes (content m) (lit "!")); lia.
    + destruct (includes (content m) (lit "!")); lia.
    + destruct (5 <=? length (filter isAlphaAZ (content m)))%nat; [| lia].
      match goal with |- context [if ?c then _ else _] => destruct c end; lia.
    + destruct (5 <=? length (filter isAlphaAZ (content m)))%nat; [| lia].
      match goal with |- context [if ?c then _ else _] => destruct c end; lia.
    + apply Forall_app. split; [exact Hpos |]. constructor; [lia | constructor].
    + apply Forall_app. split; [exact Hnn |]. constructor; [lia | constructor].
  - rewrite length_app. cbn [length]. conjs; try assumption; try lia.
Qed.

Lemma fold_addMessage_consistent :
  forall l p,
    consistent p -> consistent (fold_left (addMessage pictographic) l p).
Proof.
  induction l as [| m l IH]; intros p H; cbn [fold_left]; [exact H |].
  apply IH, addMessage_consistent, H.
Qed.

Lemma addMessage_statistics :
  forall p m,
    responseTimes (addMessage pictographic p m) = responseTimes p
    /\ conversationsStarted (addMessage pictographic p m)
       = conversationsStarted p
    /\ burstCount (addMessage pictographic p m) = burstCount p.
Proof.
  intros p m. unfold addMessage.
  destruct (negb (length (content m) =? 0)%nat && negb (isMedia m));
    repeat split.
Qed.

Lemma fold_addMessage_statistics :
  forall l p,
    responseTimes (fold_left (addMessage pictographic) l p) = responseTimes p
    /\ conversationsStarted (fold_left (addMessage pictographic) l p)
       = conversationsStarted p
    /\ burstCount (fold_left (addMessage pictographic) l p) = burstCount p.
Proof.
  induction l as [| m l IH]; intro p; cbn [fold_left]; [auto |].
  destruct (IH (addMessage pictographic p m)) as (H1 & H2 & H3).
  destruct (addMessage_statistics p m) as (G1 & G2 & G3).
  rewrite H1, H2, H3. auto.
Qed.

(** X5.  In a freshly loaded index every participant record is
    consistent: the message count is the number of stored messages and is
    positive, the stored messages are the non-system messages of that
    participant, the word count is the sum of the per-message word
    lengths, the two length sequences have one entry per counted message
    (a message with text that is not media), the emoji count is the sum of
    the emoji histogram, the question, exclamation and all-caps counters
    are between 0 and the number of counted messages, the letter count is
    at most the sum of the character lengths; and the response times, the
    starter counter and the burst counter are still empty or zero. *)
Theorem loaded_records_consistent :
  forall (msgs : list Msg) (p : ParticipantData),
    In p (getAllParticipants (loadMessages pictographic newChatData msgs)) ->
    consistent p
    /\ 0 < messageCount p
    /\ messages p = ownMessages (name p) (kept msgs)
    /\ responseTimes p = []
    /\ conversationsStarted p = 0
    /\ burstCount p = 0.
Proof.
  intros msgs p Hin. apply loaded_participant_lookup in Hin.
  rewrite loaded_record in Hin.
  destruct (ownMessages (name p) (kept msgs)) as [| m l] eqn:E;
    [discriminate |].
  injection Hin as Hp.
  change (fold_left (addMessage pictographic) (m :: l)
                    (newParticipantData (name p)) = p) in Hp.
  assert (Hc : consistent p).
  { rewrite <- Hp. apply fold_addMessage_consistent, consistent_new. }
  assert (Hm : messages p = m :: l).
  { rewrite <- Hp at 1. rewrite fold_addMessage_messages. reflexivity. }
  destruct (fold_addMessage_statistics (m :: l) (newParticipantData (name p)))
    as (H1 & H2 & H3).
  rewrite Hp in H1, H2, H3.
  conjs; try assumption.
  destruct Hc as (Hc & _). rewrite Hc, Hm. cbn [length]. lia.
Qed.

End RecordFacts.

Lemma loaded_records_consistent_witness :
  In Examples.alice (getAllParticipants Examples.twoPeople)
  /\ wordCount Examples.alice = sumZ (messageLengths Examples.alice)
  /\ messageCount Examples.alice = 2.
Proof.
  assert (H : In Examples.alice (getAllParticipants Examples.twoPeople))
    by (vm_compute; left; reflexivity).
  split; [exact H |].
  destruct (loaded_records_consistent Examples.noEmoji
              Examples.twoPeopleMessages Examples.alice H)
    as ((Hc & Hw & _) & _ & Hm & _).
  split; [exact Hw |]. rewrite Hc, Hm. reflexivity.
Defined.

(** *** Totals and the date range *)

Section TotalFacts.
Variable pictographic : N -> bool.

Lemma processMessage_total :
  forall cd m,
    sumZ (map (fun e => messageCount (snd e))
              (participants (processMessage pictographic cd m)))
    = sumZ (map (fun e => messageCount (snd e)) (participants cd)) + 1.
Proof.
  intros cd m. unfold processMessage. cbn [participants]. unfold mapHas.
  destruct (mapGet (participant m) (participants cd)) as [p |] eqn:E.
  - rewrite E, (sum_mapSet messageCount), E, addMessage_count. lia.
  - rewrite mapGet_mapSet, jsstring_eqb_refl.
    rewrite (sum_mapSet messageCount), mapGet_mapSet, jsstring_eqb_refl.
    rewrite (sum_mapSet messageCount), E, addMessage_count. cbn. lia.
Qed.

Lemma fold_processMessage_total :
  forall l cd,
    sumZ (map (fun e => messageCount (snd e))
              (participants (fold_left (processMessage pictographic) l cd)))
    = sumZ (map (fun e => messageCount (snd e)) (participants cd))
      + Z.of_nat (length l).
Proof.
  induction l as [| m l IH]; intro cd; cbn [fold_left length].
  - lia.
  - rewrite IH, processMessage_total. lia.
Qed.

Lemma fold_processMessage_metadata :
  forall l cd,
    metadata (fold_left (processMessage pictographic) l cd) = metadata cd.
Proof.
  induction l as [| m l IH]; intro cd; [reflexivity |].
  cbn [fold_left]. rewrite IH. reflexivity.
Qed.

Lemma getTotalStats_sums :
  forall cd,
    statsMessageCount (getTotalStats cd) = totalMessages (metadata cd)
    /\ statsWordCount (getTotalStats cd) = totalOf wordCount cd
    /\ statsLetterCount (getTotalStats cd) = totalOf letterCount cd
    /\ statsEmojiCount (getTotalStats cd) = totalOf emojiCount cd
    /\ statsParticipantCount (getTotalStats cd)
       = totalParticipants (metadata cd).
Proof.
  intro cd. unfold getTotalStats, totalOf.
  generalize (totalMessages (metadata cd)) as mc.
  generalize (totalParticipants (metadata cd)) as pc.
  assert (H : forall ps mc w l e pc,
             let r :=
               fold_left
                 (fun stats participant =>
                    mkTotalStats (statsMessageCount stats)
                      (statsWordCount stats + wordCount participant)
                      (statsLetterCount stats + letterCount participant)
                      (statsEmojiCount stats + emojiCount participant)
                      (statsParticipantCount stats))
                 ps (mkTotalStats mc w l e pc) in
             statsMessageCount r = mc
             /\ statsWordCount r = w + sumZ (map wordCount ps)
             /\ statsLetterCount r = l + sumZ (map letterCount ps)
             /\ statsEmojiCount r = e + sumZ (map emojiCount ps)
             /\ statsParticipantCount r = pc).
  { induction ps as [| p ps IH]; intros mc w l e pc; cbn [fold_left map].
    - cbn. repeat split; lia.
    - cbn [statsMessageCount statsWordCount statsLetterCount statsEmojiCount
           statsParticipantCount].
      destruct (IH mc (w + wordCount p) (l + letterCount p)
                   (e + emojiCount p) pc) as (H1 & H2 & H3 & H4 & H5).
      rewrite !sumZ_cons. cbv zeta in *. repeat split; lia. }
  intros pc mc. destruct (H (getAllParticipants cd) mc 0 0 0 pc)
    as (H1 & H2 & H3 & H4 & H5).
  cbv zeta in *. repeat split; lia.
Qed.

(** X6.  In a freshly loaded index the message total of the metadata is
    the number of messages kept, and it is the sum of the message counts
    of the participants: every kept message is counted for exactly one
    participant.  [getTotalStats] reports that total, the sums of the word,
    letter and emoji counts over the participants, and the number of
    participants. *)
Theorem loaded_totals :
  forall msgs : list Msg,
    let cd := loadMessages pictographic newChatData msgs in
    chatMessages cd = kept msgs
    /\ totalMessages (metadata cd) = Z.of_nat (length (chatMessages cd))
    /\ totalOf messageCount cd = totalMessages (metadata cd)
    /\ statsMessageCount (getTotalStats cd) = totalOf messageCount cd
    /\ statsWordCount (getTotalStats cd) = totalOf wordCount cd
    /\ statsLetterCount (getTotalStats cd) = totalOf letterCount cd
    /\ statsEmojiCount (getTotalStats cd) = totalOf emojiCount cd
    /\ statsParticipantCount (getTotalStats cd)
       = Z.of_nat (length (getAllParticipants cd)).
Proof.
  intros msgs cd.
  assert (Hm : chatMessages cd = kept msgs)
    by apply loadMessages_chatMessages.
  assert (Ht : totalMessages (metadata cd) = Z.of_nat (length (kept msgs))).
  { unfold cd, loadMessages. cbn [metadata totalMessages].
    rewrite fold_processMessage_metadata. cbn [metadata]. fold (kept msgs).
    destruct (kept msgs); reflexivity. }
  assert (Hs : totalOf messageCount cd = Z.of_nat (length (kept msgs))).
  { unfold totalOf, getAllParticipants. rewrite map_map.
    unfold cd, loadMessages. cbn [participants]. fold (kept msgs).
    rewrite fold_processMessage_total. cbn. lia. }
  assert (Hp : totalParticipants (metadata cd)
               = Z.of_nat (length (getAllParticipants cd))).
  { unfold cd, loadMessages, getAllParticipants.
    cbn [metadata totalParticipants participants].
    rewrite length_map. reflexivity. }
  destruct (getTotalStats_sums cd) as (H1 & H2 & H3 & H4 & H5).
  rewrite Hm. conjs; try assumption; congruence.
Qed.

End TotalFacts.

Lemma fold_min_spec :
  forall (l : list Z) (init : Z),
    fold_left Z.min l init <= init
    /\ (forall x, In x l -> fold_left Z.min l init <= x)
    /\ (fold_left Z.min l init = init \/ In (fold_left Z.min l init) l).
Proof.
  induction l as [| y l IH]; intro init; simpl.
  - repeat split; [lia | tauto | left; reflexivity].
  - destruct (IH (Z.min init y)) as (H1 & H2 & H3).
    repeat split.
    + lia.
    + intros x [Hx | Hx]; [subst; lia | auto].
    + destruct H3 as [H3 | H3]; [| right; right; exact H3].
      rewrite H3. destruct (Z.min_spec init y) as [[_ ->] | [_ ->]].
      * left; reflexivity.
      * right; left; reflexivity.
Qed.

Lemma minZ_spec :
  forall l, l <> [] -> In (minZ l) l /\ forall x, In x l -> minZ l <= x.
Proof.
  intros [| y l] H; [congruence |]. unfold minZ.
  destruct (fold_min_spec l y) as (H1 & H2 & H3). split.
  - destruct H3 as [-> | H3]; [left; reflexivity | right; exact H3].
  - intros x [<- | Hx]; [exact H1 | exact (H2 x Hx)].
Qed.

Lemma maxZ_spec :
  forall l, l <> [] -> In (maxZ l) l /\ forall x, In x l -> x <= maxZ l.
Proof.
  intros [| y l] H; [congruence |]. unfold maxZ.
  destruct (fold_max_spec l y) as (H1 & H2 & H3). split.
  - destruct H3 as [-> | H3]; [left; reflexivity | right; exact H3].
  - intros x [<- | Hx]; [exact H1 | exact (H2 x Hx)].
Qed.

Lemma inTimeOrder_hd_least :
  forall (x : Msg) (l : list Msg) (m : Msg),
    inTimeOrder (x :: l) -> In m (x :: l) -> timestamp x <= timestamp m.
Proof.
  intros x l m H Hin. inversion H as [| ? ? _ Hx]; subst.
  destruct Hin as [<- | Hin]; [lia |].
  rewrite Forall_forall in Hx. exact (Hx m Hin).
Qed.

Lemma inTimeOrder_last_greatest :
  forall (l : list Msg) (d m : Msg),
    inTimeOrder l -> In m l -> timestamp m <= timestamp (last l d).
Proof.
  intros l d m H. revert m. induction H as [| x l Hl IH Hx]; intros m Hin;
    [destruct Hin |].
  destruct l as [| y l].
  - destruct Hin as [<- | []]. simpl. lia.
  - change (last (x :: y :: l) d) with (last (y :: l) d).
    destruct Hin as [<- | Hin]; [| exact (IH m Hin)].
    rewrite Forall_forall in Hx.
    assert (Hy : timestamp x <= timestamp y) by (apply Hx; left; reflexivity).
    assert (timestamp y <= timestamp (last (y :: l) d))
      by (apply IH; left; reflexivity).
    lia.
Qed.

(** X7.  For messages that are not empty [getDateRange] returns the least
    and the greatest timestamp: both are timestamps of messages and every
    timestamp lies between them; they are the timestamps of the first and
    of the last message of the sequence sorted by time, the dates that
    [analyzeActivityTrend] starts from. *)
Theorem getDateRange_bounds :
  forall (nowStart nowEnd : Z) (messages : list Msg) (d : Msg),
    messages <> [] ->
    let range := getDateRange nowStart nowEnd messages in
    In (fst range) (map timestamp messages)
    /\ In (snd range) (map timestamp messages)
    /\ (forall m, In m messages -> fst range <= timestamp m <= snd range)
    /\ fst range = timestamp (hd d (sortMessages messages))
    /\ snd range = timestamp (last (sortMessages messages) d).
Proof.
  intros nowStart nowEnd messages d Hne range.
  assert (Hr : range = (minZ (map timestamp messages),
                        maxZ (map timestamp messages))).
  { unfold range, getDateRange. destruct messages; [congruence | reflexivity]. }
  rewrite Hr. cbn [fst snd].
  assert (Hne' : map timestamp messages <> []).
  { destruct messages; [congruence | discriminate]. }
  destruct (minZ_spec _ Hne') as [Hmin1 Hmin2].
  destruct (maxZ_spec _ Hne') as [Hmax1 Hmax2].
  assert (Hb : forall m, In m messages ->
                 minZ (map timestamp messages) <= timestamp m
                 <= maxZ (map timestamp messages)).
  { intros m Hm. split; [apply Hmin2 | apply Hmax2]; apply in_map, Hm. }
  conjs; try assumption.
  - pose proof (sortMessages_inTimeOrder messages) as Hs.
    destruct (sortMessages messages) as [| x s] eqn:E.
    { assert (Hl : length (sortMessages messages) = length messages)
        by apply length_sortBy.
      rewrite E in Hl. destruct messages; [congruence | discriminate]. }
    cbn [hd].
    assert (Hx : In x messages).
    { apply (In_sortBy byTimestamp). fold (sortMessages messages).
      rewrite E. left. reflexivity. }
    apply in_map_iff in Hmin1. destruct Hmin1 as (m & Em & Hm).
    assert (Hm' : In m (x :: s)).
    { rewrite <- E. apply In_sortBy. exact Hm. }
    pose proof (inTimeOrder_hd_least x s m Hs Hm').
    pose proof (Hb x Hx). lia.
  - pose proof (sortMessages_inTimeOrder messages) as Hs.
    assert (Hne2 : sortMessages messages <> []).
    { intro E.
      assert (Hl : length (sortMessages messages) = length messages)
        by apply length_sortBy.
      rewrite E in Hl. destruct messages; [congruence | discriminate]. }
    assert (Hlast : In (last (sortMessages messages) d) messages).
    { apply (In_sortBy byTimestamp). fold (sortMessages messages).
      destruct (exists_last Hne2) as (front & z & E). rewrite E.
      rewrite last_last. apply in_or_app. right. left. reflexivity. }
    apply in_map_iff in Hmax1. destruct Hmax1 as (m & Em & Hm).
    assert (Hm' : In m (sortMessages messages)) by (apply In_sortBy; exact Hm).
    pose proof (inTimeOrder_last_greatest _ d m Hs Hm').
    pose proof (Hb _ Hlast). lia.
Qed.

Lemma getDateRange_bounds_witness :
  Examples.twoPeopleMessages <> []
  /\ getDateRange 0 0 Examples.twoPeopleMessages
     = (1706781600000, 1706782000000).
Proof.
  assert (H : Examples.twoPeopleMessages <> []) by discriminate.
  split; [exact H |].
  destruct (getDateRange_bounds 0 0 Examples.twoPeopleMessages
              (Examples.msg 0 "" "") H) as (_ & _ & _ & H1 & H2).
  rewrite (surjective_pairing (getDateRange 0 0 Examples.twoPeopleMessages)).
  rewrite H1, H2. reflexivity.
Defined.

(** *** The tables by hour and by week day, and the heatmap *)

Lemma getHours_bounds : forall t, 0 <= getHours t < 24.
Proof.
  intro t. unfold getHours, msPerDay.
  pose proof (Z.mod_pos_bound t 86400000 ltac:(lia)) as Hm.
  split; [apply Z.div_pos; lia | apply Z.div_lt_upper_bound; lia].
Qed.

Lemma getDay_bounds : forall t, 0 <= getDay t < 7.
Proof.
  intro t. unfold getDay. apply Z.mod_pos_bound. lia.
Qed.

Lemma pushAt_length :
  forall {A : Type} (i : nat) (x : A) (l : list (list A)),
    length (pushAt i x l) = length l.
Proof.
  intros A i x l. revert i. induction l as [| b l IH]; intros [| i];
    cbn [pushAt length]; try reflexivity.
  rewrite IH. reflexivity.
Qed.

Lemma nth_pushAt :
  forall {A : Type} (i j : nat) (x : A) (l : list (list A)),
    (i < length l)%nat ->
    nth j (pushAt i x l) []
    = if Nat.eqb i j then nth j l [] ++ [x] else nth j l [].
Proof.
  intros A i j x l. revert i j. induction l as [| b l IH]; intros i j Hi;
    [simpl in Hi; lia |].
  destruct i as [| i], j as [| j]; cbn [pushAt nth Nat.eqb]; try reflexivity.
  apply IH. simpl in Hi. lia.
Qed.

Lemma fold_pushAt :
  forall (key : Msg -> nat) (l : list Msg) (table : list (list Msg)),
    (forall m, (key m < length table)%nat) ->
    forall h,
      nth h (fold_left (fun t m => pushAt (key m) m t) l table) []
      = nth h table [] ++ filter (fun m => Nat.eqb (key m) h) l.
Proof.
  intros key l. induction l as [| m l IH]; intros table Hk h;
    cbn [fold_left filter].
  - rewrite app_nil_r. reflexivity.
  - rewrite IH by (intro m'; rewrite pushAt_length; apply Hk).
    rewrite nth_pushAt by apply Hk.
    destruct (Nat.eqb (key m) h); [rewrite <- app_assoc |]; reflexivity.
Qed.

Lemma filter_comm :
  forall {A : Type} (f g : A -> bool) (l : list A),
    filter f (filter g l) = filter g (filter f l).
Proof.
  intros A f g l. induction l as [| x l IH]; [reflexivity |].
  cbn [filter]. destruct (f x) eqn:Ef, (g x) eqn:Eg; cbn [filter];
    rewrite ?Ef, ?Eg, IH; reflexivity.
Qed.

Lemma filter_none :
  forall {A : Type} (f : A -> bool) (l : list A),
    (forall x, f x = false) -> filter f l = [].
Proof.
  intros A f l H. induction l as [| x l IH]; [reflexivity |].
  cbn [filter]. rewrite H. exact IH.
Qed.

Lemma sumZ_map_add :
  forall {A : Type} (f g : A -> Z) (l : list A),
    sumZ (map (fun i => f i + g i) l) = sumZ (map f l) + sumZ (map g l).
Proof.
  intros A f g l. induction l as [| x l IH]; [reflexivity |].
  cbn [map]. rewrite !sumZ_cons, IH. lia.
Qed.

Ltac nat_cases :=
  repeat match goal with
         | |- context [(?a <=? ?b)%nat] => destruct (Nat.leb_spec a b)
         | |- context [(?a <? ?b)%nat] => destruct (Nat.ltb_spec a b)
         | |- context [Nat.eqb ?a ?b] => destruct (Nat.eqb_spec a b)
         end;
  cbn [andb]; try lia.

Lemma indicator_sum :
  forall (k n start : nat),
    sumZ (map (fun i => if Nat.eqb k i then 1 else 0) (seq start n))
    = if (start <=? k)%nat && (k <? start + n)%nat then 1 else 0.
Proof.
  intros k n. induction n as [| n IH]; intro start; cbn [seq map].
  - change (sumZ []) with 0. nat_cases.
  - rewrite sumZ_cons, IH. nat_cases.
Qed.

(** Counting by a key below [n] counts every element once. *)
Lemma count_by_key :
  forall {A : Type} (key : A -> nat) (n : nat) (l : list A),
    (forall x, (key x < n)%nat) ->
    sumZ (map (fun i =>
                 Z.of_nat (length (filter (fun x => Nat.eqb (key x) i) l)))
              (seq 0 n))
    = Z.of_nat (length l).
Proof.
  intros A key n l Hk. induction l as [| x l IH].
  - cbn [filter length]. induction (seq 0 n) as [| i s IHs]; [reflexivity |].
    cbn [map]. rewrite sumZ_cons, IHs. reflexivity.
  - rewrite (map_ext
               (fun i => Z.of_nat
                           (length (filter (fun y => Nat.eqb (key y) i) (x :: l))))
               (fun i => (if Nat.eqb (key x) i then 1 else 0)
                         + Z.of_nat
                             (length (filter (fun y => Nat.eqb (key y) i) l)))).
    + rewrite sumZ_map_add, IH, indicator_sum.
      assert (E : (key x <? 0 + n)%nat = true)
        by (apply Nat.ltb_lt; specialize (Hk x); lia).
      rewrite E. cbn [Nat.leb andb length]. lia.
    + intro i. cbn [filter]. destruct (Nat.eqb (key x) i); cbn [length]; lia.
Qed.

Section BucketFacts.
Variable pictographic : N -> bool.

Lemma fold_processMessage_tables :
  forall l cd,
    messagesByHour (fold_left (processMessage pictographic) l cd)
    = fold_left (fun t m => pushAt (Z.to_nat (getHours (timestamp m))) m t)
                l (messagesByHour cd)
    /\ messagesByDay (fold_left (processMessage pictographic) l cd)
       = fold_left (fun t m => pushAt (Z.to_nat (getDay (timestamp m))) m t)
                   l (messagesByDay cd).
Proof.
  induction l as [| m l IH]; intro cd; cbn [fold_left]; [auto |].
  destruct (IH (processMessage pictographic cd m)) as [H1 H2].
  rewrite H1, H2. split; reflexivity.
Qed.

Lemma loaded_tables :
  forall msgs key,
    let cd := loadMessages pictographic newChatData msgs in
    bucketOf (messagesByHour cd) key = filter (inHour key) (kept msgs)
    /\ bucketOf (messagesByDay cd) key = filter (onDay key) (kept msgs).
Proof.
  intros msgs key cd. unfold cd, loadMessages.
  cbn [messagesByHour messagesByDay]. fold (kept msgs).
  match goal with
  | |- context [fold_left _ _ ?c] => set (cd1 := c)
  end.
  destruct (fold_processMessage_tables (kept msgs) cd1) as [H1 H2].
  rewrite H1, H2. unfold cd1. cbn [messagesByHour messagesByDay newChatData].
  unfold bucketOf. destruct (key <? 0) eqn:Ek.
  - apply Z.ltb_lt in Ek. split; symmetry; apply filter_none; intro m.
    + unfold inHour. pose proof (getHours_bounds (timestamp m)).
      apply Z.eqb_neq. lia.
    + unfold onDay. pose proof (getDay_bounds (timestamp m)).
      apply Z.eqb_neq. lia.
  - apply Z.ltb_ge in Ek. split.
    + rewrite fold_pushAt.
      * rewrite nth_repeat. cbn [app]. apply filter_ext. intro m.
        unfold inHour. pose proof (getHours_bounds (timestamp m)).
        destruct (getHours (timestamp m) =? key) eqn:E.
        -- apply Z.eqb_eq in E. apply Nat.eqb_eq. lia.
        -- apply Z.eqb_neq in E. apply Nat.eqb_neq. lia.
      * intro m. rewrite repeat_length. apply getHours_range.
    + rewrite fold_pushAt.
      * rewrite nth_repeat. cbn [app]. apply filter_ext. intro m.
        unfold onDay. pose proof (getDay_bounds (timestamp m)).
        destruct (getDay (timestamp m) =? key) eqn:E.
        -- apply Z.eqb_eq in E. apply Nat.eqb_eq. lia.
        -- apply Z.eqb_neq in E. apply Nat.eqb_neq. lia.
      * intro m. rewrite repeat_length. apply getDay_range.
Qed.

Lemma filterByName_getMessages :
  forall msgs f participantName,
    filterByName (filter f (kept msgs)) participantName
    = filter f (getMessages (loadMessages pictographic newChatData msgs)
                            participantName).
Proof.
  intros msgs f participantName.
  rewrite getMessages_loaded.
  destruct participantName as [n |];
    unfold filterByName, filterMessagesByParticipant; [| reflexivity].
  destruct (selectsAll (Some n)); [reflexivity |].
  rewrite filter_own_kept. unfold ownMessages. apply filter_comm.
Qed.

Lemma hourly_sum :
  forall (l : list Msg),
    sumZ (map (fun hour => Z.of_nat (length (filter (inHour (Z.of_nat hour)) l)))
              (seq 0 24))
    = Z.of_nat (length l).
Proof.
  intro l.
  rewrite <- (count_by_key (fun m => Z.to_nat (getHours (timestamp m))) 24 l)
    by (intro m; apply getHours_range).
  f_equal. apply map_ext. intro h. do 2 f_equal. apply filter_ext. intro m.
  unfold inHour. pose proof (getHours_bounds (timestamp m)).
  destruct (getHours (timestamp m) =? Z.of_nat h) eqn:E.
  - apply Z.eqb_eq in E. symmetry. apply Nat.eqb_eq. lia.
  - apply Z.eqb_neq in E. symmetry. apply Nat.eqb_neq. lia.
Qed.

Lemma daily_sum :
  forall (l : list Msg),
    sumZ (map (fun day => Z.of_nat (length (filter (onDay (Z.of_nat day)) l)))
              (seq 0 7))
    = Z.of_nat (length l).
Proof.
  intro l.
  rewrite <- (count_by_key (fun m => Z.to_nat (getDay (timestamp m))) 7 l)
    by (intro m; apply getDay_range).
  f_equal. apply map_ext. intro h. do 2 f_equal. apply filter_ext. intro m.
  unfold onDay. pose proof (getDay_bounds (timestamp m)).
  destruct (getDay (timestamp m) =? Z.of_nat h) eqn:E.
  - apply Z.eqb_eq in E. symmetry. apply Nat.eqb_eq. lia.
  - apply Z.eqb_neq in E. symmetry. apply Nat.eqb_neq. lia.
Qed.

(** X8.  In a freshly loaded index the table by hour and the table by week
    day cut the messages of any filter value: the bucket of an hour holds
    the messages of that filter sent in that hour, in input order, and is
    empty for a number that is no hour; likewise for the week days.  So
    the 24 counts of the hourly distribution, and the 7 counts of the daily
    distribution, add up to the number of messages of the filter. *)
Theorem loaded_tables_cut_the_messages :
  forall (msgs : list Msg) (participantName : option jsstring),
    let cd := loadMessages pictographic newChatData msgs in
    (forall hour,
       getMessagesByHour cd hour participantName
       = filter (inHour hour) (getMessages cd participantName))
    /\ (forall day,
          getMessagesByDay cd day participantName
          = filter (onDay day) (getMessages cd participantName))
    /\ sumZ (getHourlyDistribution cd participantName)
       = Z.of_nat (length (getMessages cd participantName))
    /\ sumZ (getDailyDistribution cd participantName)
       = Z.of_nat (length (getMessages cd participantName)).
Proof.
  intros msgs participantName cd.
  assert (Hh : forall hour,
             getMessagesByHour cd hour participantName
             = filter (inHour hour) (getMessages cd participantName)).
  { intro hour. unfold getMessagesByHour, cd.
    rewrite (proj1 (loaded_tables msgs hour)).
    apply filterByName_getMessages. }
  assert (Hd : forall day,
             getMessagesByDay cd day participantName
             = filter (onDay day) (getMessages cd participantName)).
  { intro day. unfold getMessagesByDay, cd.
    rewrite (proj2 (loaded_tables msgs day)).
    apply filterByName_getMessages. }
  conjs; try assumption.
  - unfold getHourlyDistribution.
    rewrite (map_ext _ (fun hour =>
               Z.of_nat (length (filter (inHour (Z.of_nat hour))
                                        (getMessages cd participantName))))).
    + apply hourly_sum.
    + intro h. rewrite Hh. reflexivity.
  - unfold getDailyDistribution.
    rewrite (map_ext _ (fun day =>
               Z.of_nat (length (filter (onDay (Z.of_nat day))
                                        (getMessages cd participantName))))).
    + apply daily_sum.
    + intro h. rewrite Hd. reflexivity.
Qed.

End BucketFacts.

(** *** The grid of week day and hour *)

Lemma nth_repeat_any :
  forall {A : Type} (a d : A) (n i : nat),
    nth i (repeat a n) d = if (i <? n)%nat then a else d.
Proof.
  intros A a d n. induction n as [| n IH]; intro i; cbn [repeat].
  - destruct i; reflexivity.
  - destruct i as [| i]; [reflexivity |]. cbn [nth]. rewrite IH.
    reflexivity.
Qed.

Lemma cell_emptyGrid : forall day hour, cell emptyGrid day hour = 0.
Proof.
  intros day hour. unfold cell, emptyGrid. rewrite nth_repeat_any.
  destruct (day <? 7)%nat.
  - rewrite nth_repeat_any. destruct (hour <? 24)%nat; reflexivity.
  - destruct hour; reflexivity.
Qed.

Lemma incrAt_nth :
  forall i j l,
    nth j (incrAt i l) 0
    = nth j l 0 + (if Nat.eqb i j && (i <? length l)%nat then 1 else 0).
Proof.
  intros i j l. revert i j. induction l as [| x l IH]; intros i j.
  - replace (i <? length (@nil Z))%nat with false
      by (symmetry; apply Nat.ltb_ge; simpl; lia).
    rewrite andb_false_r. destruct i, j; cbn; lia.
  - destruct i as [| i], j as [| j]; cbn [incrAt nth Nat.eqb andb length].
    + change (0 <? S (length l))%nat with true. reflexivity.
    + lia.
    + lia.
    + rewrite IH. change (S i <? S (length l))%nat with (i <? length l)%nat.
      reflexivity.
Qed.

Lemma applyAt_length :
  forall {A : Type} (i : nat) (f : A -> A) (l : list A),
    length (applyAt i f l) = length l.
Proof.
  intros A i f l. revert i. induction l as [| x l IH]; intros [| i];
    cbn [applyAt length]; try reflexivity.
  rewrite IH. reflexivity.
Qed.

Lemma nth_applyAt :
  forall {A : Type} (i j : nat) (f : A -> A) (l : list A) (d : A),
    nth j (applyAt i f l) d
    = if Nat.eqb i j && (i <? length l)%nat then f (nth j l d) else nth j l d.
Proof.
  intros A i j f l d. revert i j. induction l as [| x l IH]; intros i j.
  - replace (i <? length (@nil A))%nat with false
      by (symmetry; apply Nat.ltb_ge; simpl; lia).
    rewrite andb_false_r. destruct i; reflexivity.
  - destruct i as [| i], j as [| j]; cbn [applyAt nth Nat.eqb andb length].
    + change (0 <? S (length l))%nat with true. reflexivity.
    + reflexivity.
    + reflexivity.
    + rewrite IH. change (S i <? S (length l))%nat with (i <? length l)%nat.
      reflexivity.
Qed.

Lemma isGrid_empty : isGrid emptyGrid.
Proof.
  split; [reflexivity |]. unfold emptyGrid. cbn [repeat].
  repeat constructor.
Qed.

Lemma isGrid_incrCell :
  forall day hour grid, isGrid grid -> isGrid (incrCell day hour grid).
Proof.
  intros day hour grid [Hl Hrows]. unfold incrCell. split.
  - rewrite applyAt_length. exact Hl.
  - clear Hl. revert day. induction Hrows as [| row grid Hrow Hrows IH];
      intros [| day]; cbn [applyAt]; constructor; auto.
    rewrite incrAt_length. exact Hrow.
Qed.

Lemma cell_incrCell :
  forall day hour grid d h,
    isGrid grid -> (day < 7)%nat -> (hour < 24)%nat ->
    cell (incrCell day hour grid) d h
    = cell grid d h + (if Nat.eqb day d && Nat.eqb hour h then 1 else 0).
Proof.
  intros day hour grid d h [Hl Hrows] Hd Hh. unfold cell, incrCell.
  rewrite nth_applyAt, Hl.
  assert (E : (day <? 7)%nat = true) by (apply Nat.ltb_lt; exact Hd).
  rewrite E, andb_true_r.
  destruct (Nat.eqb day d) eqn:Ed; cbn [andb]; [| lia].
  apply Nat.eqb_eq in Ed. subst d. rewrite incrAt_nth.
  assert (Hrow : length (nth day grid []) = 24%nat).
  { rewrite Forall_forall in Hrows. apply Hrows, nth_In. lia. }
  rewrite Hrow.
  assert (E' : (hour <? 24)%nat = true) by (apply Nat.ltb_lt; exact Hh).
  rewrite E', andb_true_r. reflexivity.
Qed.

Lemma grid_fold :
  forall (sel : Msg -> bool) (l : list Msg) (grid : list (list Z)) (d h : nat),
    isGrid grid ->
    cell (fold_left
            (fun g m =>
               if sel m
               then incrCell (Z.to_nat (getDay (timestamp m)))
                             (Z.to_nat (getHours (timestamp m))) g
               else g)
            l grid) d h
    = cell grid d h
      + Z.of_nat (length (filter (inSlot (Z.of_nat d) (Z.of_nat h))
                                 (filter sel l))).
Proof.
  intros sel l. induction l as [| m l IH]; intros grid d h Hg;
    cbn [fold_left filter].
  - cbn. lia.
  - destruct (sel m) eqn:Es.
    + rewrite IH by (apply isGrid_incrCell; exact Hg).
      rewrite cell_incrCell
        by first [exact Hg | apply getDay_range | apply getHours_range].
      cbn [filter]. unfold inSlot at 2, onDay, inHour.
      pose proof (getDay_bounds (timestamp m)).
      pose proof (getHours_bounds (timestamp m)).
      destruct (Nat.eqb_spec (Z.to_nat (getDay (timestamp m))) d);
        destruct (Nat.eqb_spec (Z.to_nat (getHours (timestamp m))) h);
        destruct (Z.eqb_spec (getDay (timestamp m)) (Z.of_nat d));
        destruct (Z.eqb_spec (getHours (timestamp m)) (Z.of_nat h));
        cbn [andb length]; lia.
    + apply IH. exact Hg.
Qed.

Lemma fold_left_pointwise :
  forall {A B : Type} (f g : A -> B -> A),
    (forall a b, f a b = g a b) ->
    forall l a, fold_left f l a = fold_left g l a.
Proof.
  intros A B f g H l. induction l as [| b l IH]; intro a; [reflexivity |].
  cbn [fold_left]. rewrite H. apply IH.
Qed.

Lemma filter_all :
  forall {A : Type} (f : A -> bool) (l : list A),
    (forall x, f x = true) -> filter f l = l.
Proof.
  intros A f l H. induction l as [| x l IH]; [reflexivity |].
  cbn [filter]. rewrite H, IH. reflexivity.
Qed.

Section HeatmapFacts.
Variable pictographic : N -> bool.

(** X9.  In a freshly loaded index the cell of the activity heatmap for a
    week day and an hour is the number of messages of the filter sent on
    that week day in that hour; every other cell that is asked for is 0.
    The matrix that [predictPeakConversationTime] fills is the heatmap of
    all messages. *)
Theorem heatmap_counts_slots :
  forall (msgs : list Msg) (participantName : option jsstring)
         (day hour : nat),
    let cd := loadMessages pictographic newChatData msgs in
    cell (getActivityHeatmap cd participantName) day hour
    = slotCount (getMessages cd participantName) day hour
    /\ slotMatrix cd = getActivityHeatmap cd None.
Proof.
  intros msgs participantName day hour cd. split; [| reflexivity].
  unfold getActivityHeatmap, slotCount.
  pose (sel := fun m : Msg =>
                 negb (negb (selectsAll participantName)
                       && negb (match participantName with
                                | Some n => jsstring_eqb (participant m) n
                                | None => true
                                end))).
  rewrite (fold_left_pointwise _
             (fun g m =>
                if sel m
                then incrCell (Z.to_nat (getDay (timestamp m)))
                              (Z.to_nat (getHours (timestamp m))) g
                else g)).
  - rewrite grid_fold by apply isGrid_empty. rewrite cell_emptyGrid.
    unfold cd. rewrite loadMessages_chatMessages.
    rewrite getMessages_loaded.
    replace (filter sel (kept msgs))
      with (filterMessagesByParticipant msgs participantName); [lia |].
    unfold filterMessagesByParticipant, sel.
    destruct participantName as [n |].
    + destruct (selectsAll (Some n)); cbn [negb andb].
      * fold (kept msgs). symmetry. apply filter_all. reflexivity.
      * rewrite filter_own_kept. unfold ownMessages. apply filter_ext.
        intro m. rewrite negb_involutive. reflexivity.
    + cbn [selectsAll negb andb]. fold (kept msgs).
      symmetry. apply filter_all. reflexivity.
  - intros g m. unfold sel.
    destruct (negb (selectsAll participantName)
              && negb match participantName with
                      | Some n => jsstring_eqb (participant m) n
                      | None => true
                      end); reflexivity.
Qed.

End HeatmapFacts.

(** *** The predicted peak *)

Lemma seq_split_order :
  forall (n a : nat) (pre post : list nat) (k : nat),
    seq a n = pre ++ k :: post ->
    (forall i, In i pre -> (i < k)%nat) /\ (forall i, In i post -> (k < i)%nat).
Proof.
  induction n as [| n IH]; intros a pre post k H; cbn [seq] in H.
  - destruct pre; discriminate.
  - destruct pre as [| x pre]; cbn [app] in H; injection H as <- H.
    + split; [intros i [] |]. intros i Hi. rewrite <- H in Hi.
      apply in_seq in Hi. lia.
    + destruct (IH _ _ _ _ H) as [H1 H2]. split; [| exact H2].
      intros i [<- | Hi]; [| exact (H1 i Hi)].
      assert (Hk : In k (seq (S a) n)).
      { rewrite H. apply in_or_app. right. left. reflexivity. }
      apply in_seq in Hk. lia.
Qed.

Lemma slot_ranks : map slotRank slots = seq 0 168.
Proof. vm_compute. reflexivity. Qed.

Lemma In_slots :
  forall d h, In (d, h) slots <-> (d < 7)%nat /\ (h < 24)%nat.
Proof.
  intros d h. unfold slots. rewrite in_flat_map. split.
  - intros (day & Hday & Hin). apply in_map_iff in Hin.
    destruct Hin as (hour & E & Hhour). injection E as <- <-.
    apply in_seq in Hday, Hhour. lia.
  - intros [Hd Hh]. exists d. split; [apply in_seq; lia |].
    apply in_map_iff. exists h. split; [reflexivity | apply in_seq; lia].
Qed.

Lemma peakStep_cases :
  forall matrix mx pd ph s,
    (mx < cell matrix (fst s) (snd s)
     /\ peakStep matrix (mx, pd, ph) s
        = (cell matrix (fst s) (snd s), fst s, snd s))
    \/ (cell matrix (fst s) (snd s) <= mx
        /\ peakStep matrix (mx, pd, ph) s = (mx, pd, ph)).
Proof.
  intros matrix mx pd ph s. unfold peakStep.
  destruct (cell matrix (fst s) (snd s) >? mx) eqn:E.
  - left. split; [lia | reflexivity].
  - right. split; [lia | reflexivity].
Qed.

(** The scan keeps the first slot with the greatest count above the
    count it starts from. *)
Lemma peak_fold :
  forall (matrix : list (list Z)) (ss : list (nat * nat)) (st : Z * nat * nat),
    (forall s, In s ss ->
               cell matrix (fst s) (snd s)
               <= fst (fst (fold_left (peakStep matrix) ss st)))
    /\ fst (fst st) <= fst (fst (fold_left (peakStep matrix) ss st))
    /\ ((fold_left (peakStep matrix) ss st = st)
        \/ exists pre post d h,
             ss = pre ++ (d, h) :: post
             /\ fold_left (peakStep matrix) ss st = (cell matrix d h, d, h)
             /\ fst (fst st) < cell matrix d h
             /\ forall s, In s pre ->
                          cell matrix (fst s) (snd s) < cell matrix d h).
Proof.
  intros matrix ss. induction ss as [| s ss IH]; intros [[mx pd] ph];
    cbn [fold_left].
  - split; [intros s [] |]. split; [lia | left; reflexivity].
  - destruct (IH (peakStep matrix (mx, pd, ph) s)) as (IH1 & IH2 & IH3).
    cbn [fst].
    destruct (peakStep_cases matrix mx pd ph s) as [[Hlt Hs] | [Hle Hs]];
      rewrite Hs in *; cbn [fst] in IH2.
    + split; [intros s' [<- | Hs']; [lia | exact (IH1 s' Hs')] |].
      split; [lia |]. right.
      destruct IH3 as [E | (pre & post & d & h & E1 & E2 & Hlt' & Hpre)].
      * exists [], ss, (fst s), (snd s). cbn [app].
        rewrite <- surjective_pairing.
        repeat split; [exact E | exact Hlt | intros s' []].
      * cbn [fst] in Hlt'. exists (s :: pre), post, d, h.
        rewrite E1. cbn [app]. repeat split; [rewrite <- E1; exact E2 | lia |].
        intros s' [<- | Hs']; [lia | exact (Hpre s' Hs')].
    + split; [intros s' [<- | Hs']; [lia | exact (IH1 s' Hs')] |].
      split; [lia |].
      destruct IH3 as [E | (pre & post & d & h & E1 & E2 & Hlt' & Hpre)];
        [left; exact E |].
      right. cbn [fst] in Hlt'. exists (s :: pre), post, d, h.
      rewrite E1. cbn [app]. repeat split; [rewrite <- E1; exact E2 | lia |].
      intros s' [<- | Hs']; [lia | exact (Hpre s' Hs')].
Qed.

Lemma cell_slotMatrix :
  forall cd d h, cell (slotMatrix cd) d h = slotCount (chatMessages cd) d h.
Proof.
  intros cd d h. unfold slotMatrix, slotCount.
  pose proof (grid_fold (fun _ => true) (chatMessages cd) emptyGrid d h
                        isGrid_empty) as H.
  cbv beta iota in H. rewrite cell_emptyGrid in H.
  rewrite (filter_all (fun _ => true)) in H by reflexivity.
  rewrite H. lia.
Qed.

Lemma slotCount_out_of_range :
  forall l d h, ~ ((d < 7)%nat /\ (h < 24)%nat) -> slotCount l d h = 0.
Proof.
  intros l d h H. unfold slotCount. rewrite filter_none; [reflexivity |].
  intro m. unfold inSlot, onDay, inHour.
  pose proof (getDay_bounds (timestamp m)).
  pose proof (getHours_bounds (timestamp m)).
  destruct (Z.eqb_spec (getDay (timestamp m)) (Z.of_nat d));
    destruct (Z.eqb_spec (getHours (timestamp m)) (Z.of_nat h));
    cbn [andb]; try reflexivity.
  exfalso. apply H. lia.
Qed.

Lemma slotCount_nonneg : forall l d h, 0 <= slotCount l d h.
Proof. intros l d h. unfold slotCount. lia. Qed.

(** X10.  [predictPeakConversationTime] reports a week day and an hour
    whose number of messages is the greatest over all the slots of week
    day and hour, that number as its message count, and, when several slots
    hold the greatest number, the first of them in the order of the week
    days from Sunday and then of the hours; for an index without messages
    it reports Sunday, hour 0 and the count 0. *)
Theorem predicted_peak_is_first_maximum :
  forall cd : ChatData,
    let r := predictPeakConversationTime cd in
    exists day hour : nat,
      (day < 7)%nat /\ (hour < 24)%nat
      /\ predictedDay r = nth day days []
      /\ predictedDayShort r = firstn 3 (nth day days [])
      /\ predictedHour r = Z.of_nat hour
      /\ predictedMessageCount r = slotCount (chatMessages cd) day hour
      /\ predictedTotalMessages r = Z.of_nat (length (chatMessages cd))
      /\ (forall d h,
            slotCount (chatMessages cd) d h <= predictedMessageCount r)
      /\ (forall d h,
            (d < day)%nat \/ (d = day /\ (h < hour)%nat) ->
            slotCount (chatMessages cd) d h < predictedMessageCount r).
Proof.
  intros cd r. unfold r, predictPeakConversationTime.
  destruct (peak_fold (slotMatrix cd) slots (0, 0%nat, 0%nat))
    as (H1 & _ & H2).
  destruct (fold_left (peakStep (slotMatrix cd)) slots (0, 0%nat, 0%nat))
    as [[maxCount peakDay] peakHour] eqn:E.
  cbn [fst snd] in H1.
  cbn [predictedDay predictedDayShort predictedHour predictedMessageCount
       predictedTotalMessages].
  assert (Hall : forall d h, slotCount (chatMessages cd) d h <= maxCount
                             \/ (slotCount (chatMessages cd) d h = 0)).
  { intros d h.
    destruct (Nat.ltb_spec d 7); destruct (Nat.ltb_spec h 24);
      try (right; apply slotCount_out_of_range; lia).
    left. rewrite <- cell_slotMatrix.
    apply (H1 (d, h)). apply In_slots. lia. }
  destruct H2 as [H2 | (pre & post & d & h & Hs & H2 & Hlt & Hpre)].
  - injection H2 as -> -> ->. exists 0%nat, 0%nat.
    assert (Hz : forall d h, slotCount (chatMessages cd) d h = 0).
    { intros d h. pose proof (slotCount_nonneg (chatMessages cd) d h).
      destruct (Hall d h); lia. }
    conjs; try reflexivity; try lia;
      try (rewrite Hz; reflexivity);
      try (intros d h; rewrite Hz; lia);
      try (intros d h [Hd | [_ Hh]]; lia).
  - injection H2 as -> -> ->. cbn [fst] in Hlt.
    assert (Hin : In (d, h) slots).
    { rewrite Hs. apply in_or_app. right. left. reflexivity. }
    apply In_slots in Hin. destruct Hin as [Hd Hh].
    exists d, h. rewrite <- cell_slotMatrix.
    conjs; try reflexivity; try assumption.
    + intros d' h'.
      destruct (Hall d' h') as [Hle | Hz]; [exact Hle | rewrite Hz; lia].
    + intros d' h' Hbefore.
      destruct (Nat.ltb_spec h' 24) as [Hh' | Hh'];
        [| rewrite slotCount_out_of_range by lia; lia].
      rewrite <- cell_slotMatrix. apply (Hpre (d', h')).
      assert (Hin' : In (d', h') slots) by (apply In_slots; lia).
      pose proof slot_ranks as Hr. rewrite Hs, map_app in Hr.
      cbn [map] in Hr. symmetry in Hr.
      destruct (seq_split_order _ _ _ _ _ Hr) as [_ Hpost].
      rewrite Hs in Hin'. apply in_app_or in Hin'.
      destruct Hin' as [Hin' | [Heq | Hin']]; [exact Hin' | |].
      * injection Heq as -> ->. lia.
      * exfalso. specialize (Hpost (slotRank (d', h')) (in_map _ _ _ Hin')).
        unfold slotRank in Hpost. cbn [fst snd] in Hpost. lia.
Qed.

(** *** Finite numbers and their values *)

Lemma isQ_Fin : forall q, isQ (Fin q) q.
Proof. intro q. exists q. split; [reflexivity | apply Qeq_refl]. Qed.

Lemma isQ_ofZ : forall z, isQ (ofZ z) (inject_Z z).
Proof. intro z. apply isQ_Fin. Qed.

Lemma isQ_eq : forall a x y, isQ a x -> (x == y)%Q -> isQ a y.
Proof.
  intros a x y (q & -> & E) H. exists q. split; [reflexivity |].
  exact (Qeq_trans _ _ _ E H).
Qed.

Lemma isQ_jadd :
  forall a b x y, isQ a x -> isQ b y -> isQ (jadd a b) (x + y)%Q.
Proof.
  intros a b x y (x' & -> & Ex) (y' & -> & Ey). eexists.
  split; [reflexivity |].
  apply (Qeq_trans _ _ _ (Qred_correct _)). rewrite Ex, Ey. apply Qeq_refl.
Qed.

Lemma isQ_jneg : forall a x, isQ a x -> isQ (jneg a) (- x)%Q.
Proof.
  intros a x (x' & -> & Ex). eexists. split; [reflexivity |].
  rewrite Ex. apply Qeq_refl.
Qed.

Lemma isQ_jsub :
  forall a b x y, isQ a x -> isQ b y -> isQ (jsub a b) (x - y)%Q.
Proof.
  intros a b x y Ha Hb. unfold jsub. apply isQ_jadd; [exact Ha |].
  apply isQ_jneg. exact Hb.
Qed.

Lemma isQ_jmul :
  forall a b x y, isQ a x -> isQ b y -> isQ (jmul a b) (x * y)%Q.
Proof.
  intros a b x y (x' & -> & Ex) (y' & -> & Ey). eexists.
  split; [reflexivity |].
  apply (Qeq_trans _ _ _ (Qred_correct _)). rewrite Ex, Ey. apply Qeq_refl.
Qed.

Lemma isQ_jdiv :
  forall a b x y,
    isQ a x -> isQ b y -> ~ (y == 0)%Q -> isQ (jdiv a b) (x / y)%Q.
Proof.
  intros a b x y (x' & -> & Ex) (y' & -> & Ey) Hy. unfold jdiv, signQ.
  destruct (Qcompare_spec y' (0 # 1)) as [E | E | E].
  - exfalso. apply Hy. rewrite <- Ey. exact E.
  - eexists. split; [reflexivity |].
    apply (Qeq_trans _ _ _ (Qred_correct _)). rewrite Ex, Ey. apply Qeq_refl.
  - eexists. split; [reflexivity |].
    apply (Qeq_trans _ _ _ (Qred_correct _)). rewrite Ex, Ey. apply Qeq_refl.
Qed.

Lemma isQ_jabs : forall a x, isQ a x -> isQ (jabs a) (Qabs x).
Proof.
  intros a x (x' & -> & Ex). eexists. split; [reflexivity |].
  rewrite Ex. apply Qeq_refl.
Qed.

Lemma isQ_jlt :
  forall a b x y,
    isQ a x -> isQ b y -> jlt a b = true <-> (x < y)%Q.
Proof.
  intros a b x y (x' & -> & Ex) (y' & -> & Ey). unfold jlt.
  rewrite <- Ex, <- Ey.
  destruct (Qcompare_spec x' y') as [E | E | E]; split; intro H;
    try reflexivity; try discriminate; try exact E.
  - rewrite E in H. exfalso. exact (Qlt_irrefl _ H).
  - exfalso. exact (Qlt_irrefl _ (Qlt_trans _ _ _ H E)).
Qed.

Lemma isQ_jlt_false :
  forall a b x y,
    isQ a x -> isQ b y -> jlt a b = false <-> (y <= x)%Q.
Proof.
  intros a b x y Ha Hb. pose proof (isQ_jlt a b x y Ha Hb) as H.
  destruct (jlt a b); split; intro G; try reflexivity; try discriminate.
  - exfalso. apply (Qlt_not_le x y); [apply H; reflexivity | exact G].
  - apply Qnot_lt_le. intro L. apply H in L. discriminate.
Qed.

Lemma isQ_jmax :
  forall a b x y,
    isQ a x -> isQ b y -> isQ (jmax a b) (if Qlt_le_dec x y then y else x).
Proof.
  intros a b x y Ha Hb. unfold jmax.
  destruct Ha as (x' & -> & Ex). destruct Hb as (y' & -> & Ey).
  destruct (jlt (Fin x') (Fin y')) eqn:E.
  - apply (isQ_jlt _ _ x y) in E; [| exists x'; auto | exists y'; auto].
    destruct (Qlt_le_dec x y) as [L | L]; [exists y'; auto |].
    exfalso. exact (Qlt_not_le _ _ E L).
  - apply (isQ_jlt_false _ _ x y) in E; [| exists x'; auto | exists y'; auto].
    destruct (Qlt_le_dec x y) as [L | L]; [| exists x'; auto].
    exfalso. exact (Qlt_not_le _ _ L E).
Qed.

Lemma isQ_jmin :
  forall a b x y,
    isQ a x -> isQ b y -> isQ (jmin a b) (if Qlt_le_dec y x then y else x).
Proof.
  intros a b x y Ha Hb. unfold jmin.
  destruct Ha as (x' & -> & Ex). destruct Hb as (y' & -> & Ey).
  destruct (jlt (Fin y') (Fin x')) eqn:E.
  - apply (isQ_jlt _ _ y x) in E; [| exists y'; auto | exists x'; auto].
    destruct (Qlt_le_dec y x) as [L | L]; [exists y'; auto |].
    exfalso. exact (Qlt_not_le _ _ E L).
  - apply (isQ_jlt_false _ _ y x) in E; [| exists y'; auto | exists x'; auto].
    destruct (Qlt_le_dec y x) as [L | L]; [| exists x'; auto].
    exfalso. exact (Qlt_not_le _ _ L E).
Qed.

Lemma isQ_jround :
  forall a x, isQ a x -> jround a = ofZ (Qround_half_up x).
Proof.
  intros a x (x' & -> & Ex). unfold jround, Qround_half_up.
  rewrite Ex. reflexivity.
Qed.

(** Rounding keeps a number between two whole numbers there. *)
Lemma Qround_half_up_bounds :
  forall (lo hi : Z) (x : Q),
    (inject_Z lo <= x)%Q -> (x <= inject_Z hi)%Q ->
    lo <= Qround_half_up x <= hi.
Proof.
  intros lo hi x Hlo Hhi. unfold Qround_half_up. split.
  - rewrite <- (Qfloor_Z lo). apply Qfloor_resp_le.
    apply Qle_trans with (1 := Hlo).
    rewrite <- (Qplus_0_r x) at 1. apply Qplus_le_r. discriminate.
  - assert (H : (x + (1 # 2) < inject_Z (hi + 1))%Q).
    { rewrite inject_Z_plus, (Qplus_comm x), (Qplus_comm (inject_Z hi)).
      apply Qplus_lt_le_compat; [reflexivity | exact Hhi]. }
    pose proof (Qfloor_le (x + (1 # 2))) as Hf.
    pose proof (Qle_lt_trans _ _ _ Hf H) as Hlt.
    rewrite <- Zlt_Qlt in Hlt. lia.
Qed.

(** *** The confidence of the predicted peak *)

Lemma sumZ_bound :
  forall {A : Type} (f : A -> Z) (b : Z) (l : list A),
    (forall x, In x l -> f x <= b) ->
    sumZ (map f l) <= Z.of_nat (length l) * b.
Proof.
  intros A f b l. induction l as [| x l IH]; intro H.
  - cbn. lia.
  - cbn [map length]. rewrite sumZ_cons.
    assert (f x <= b) by (apply H; left; reflexivity).
    assert (sumZ (map f l) <= Z.of_nat (length l) * b)
      by (apply IH; intros y Hy; apply H; right; exact Hy).
    lia.
Qed.

(** Every message falls in exactly one slot. *)
Lemma slots_sum :
  forall l : list Msg,
    sumZ (map (fun s => slotCount l (fst s) (snd s)) slots)
    = Z.of_nat (length l).
Proof.
  intro l.
  rewrite <- (count_by_key
                (fun m => slotRank (Z.to_nat (getDay (timestamp m)),
                                    Z.to_nat (getHours (timestamp m))))
                168 l).
  - rewrite <- slot_ranks, map_map. f_equal. apply map_ext_in.
    intros [d h] Hs. apply In_slots in Hs. cbn [fst snd].
    unfold slotCount. do 2 f_equal. apply filter_ext. intro m.
    unfold inSlot, onDay, inHour, slotRank. cbn [fst snd].
    pose proof (getDay_bounds (timestamp m)).
    pose proof (getHours_bounds (timestamp m)).
    destruct (Z.eqb_spec (getDay (timestamp m)) (Z.of_nat d));
      destruct (Z.eqb_spec (getHours (timestamp m)) (Z.of_nat h));
      cbn [andb]; symmetry;
      first [apply Nat.eqb_eq | apply Nat.eqb_neq]; lia.
  - intro m. unfold slotRank. cbn [fst snd].
    pose proof (getDay_range (timestamp m)).
    pose proof (getHours_range (timestamp m)). lia.
Qed.

Lemma peak_at_least_average :
  forall cd maxCount peakDay peakHour,
    fold_left (peakStep (slotMatrix cd)) slots (0, 0%nat, 0%nat)
    = (maxCount, peakDay, peakHour) ->
    0 <= maxCount
    /\ Z.of_nat (length (chatMessages cd)) <= 168 * maxCount.
Proof.
  intros cd maxCount peakDay peakHour E.
  destruct (peak_fold (slotMatrix cd) slots (0, 0%nat, 0%nat))
    as (H1 & H2 & _).
  rewrite E in H1, H2. cbn [fst] in H1, H2. split; [exact H2 |].
  rewrite <- (slots_sum (chatMessages cd)).
  change 168 with (Z.of_nat (length slots)).
  apply sumZ_bound. intros s Hs. rewrite <- cell_slotMatrix.
  exact (H1 s Hs).
Qed.

(** X11.  The confidence of the predicted peak is a whole number: 0 for
    an index without messages, and otherwise between 20 and 100, since the
    fullest slot holds at least the average number of messages per slot. *)
Theorem predicted_confidence_range :
  forall cd : ChatData,
    exists z : Z,
      confidence (predictPeakConversationTime cd) = ofZ z
      /\ match chatMessages cd with
         | [] => z = 0
         | _ :: _ => 20 <= z <= 100
         end.
Proof.
  intro cd. unfold predictPeakConversationTime.
  destruct (fold_left (peakStep (slotMatrix cd)) slots (0, 0%nat, 0%nat))
    as [[maxCount peakDay] peakHour] eqn:E.
  destruct (peak_at_least_average cd _ _ _ E) as [Hm Havg].
  cbn [confidence].
  destruct (chatMessages cd) as [| m l] eqn:Hl.
  - exists 0. split; reflexivity.
  - set (T := Z.of_nat (length (m :: l))) in *.
    assert (HT : 0 < T) by (unfold T; cbn [length]; lia).
    assert (HTq : (0 < inject_Z T)%Q).
    { change (inject_Z 0 < inject_Z T)%Q. rewrite <- Zlt_Qlt. exact HT. }
    assert (Havgq : (0 < inject_Z T / inject_Z (7 * 24))%Q).
    { apply Qlt_shift_div_l; [reflexivity |]. rewrite Qmult_0_l. exact HTq. }
    assert (Ha : isQ (jdiv (ofZ T) (ofZ (7 * 24)))
                     (inject_Z T / inject_Z (7 * 24))).
    { apply isQ_jdiv; [apply isQ_ofZ | apply isQ_ofZ | discriminate]. }
    assert (Hgt : jgt (jdiv (ofZ T) (ofZ (7 * 24))) (ofZ 0) = true).
    { unfold jgt. apply (isQ_jlt _ _ _ _ (isQ_ofZ 0) Ha). exact Havgq. }
    rewrite Hgt.
    set (v := (inject_Z maxCount / (inject_Z T / inject_Z (7 * 24))
               * inject_Z 20)%Q).
    assert (Hx : isQ (jmul (jdiv (ofZ maxCount) (jdiv (ofZ T) (ofZ (7 * 24))))
                           (ofZ 20)) v).
    { apply isQ_jmul; [| apply isQ_ofZ].
      apply isQ_jdiv; [apply isQ_ofZ | exact Ha |].
      intro H0. rewrite H0 in Havgq. exact (Qlt_irrefl _ Havgq). }
    pose proof (isQ_jmin _ _ _ _ Hx (isQ_ofZ 100)) as Hmin.
    rewrite (isQ_jround _ _ Hmin). eexists. split; [reflexivity |].
    apply Qround_half_up_bounds.
    + assert (Hv : (inject_Z 20 <= v)%Q).
      { unfold v. rewrite <- (Qmult_1_l (inject_Z 20)) at 1.
        apply Qmult_le_compat_r; [| discriminate].
        apply Qle_shift_div_l; [exact Havgq |]. rewrite Qmult_1_l.
        apply Qle_shift_div_r; [reflexivity |].
        rewrite <- inject_Z_mult, <- Zle_Qle. lia. }
      destruct (Qlt_le_dec (inject_Z 100) v); [discriminate | exact Hv].
    + destruct (Qlt_le_dec (inject_Z 100) v) as [L | L];
        [apply Qle_refl | exact L].
Qed.

(** *** The three statistics passes *)

Ltac record_eq :=
  unfold addStatistics, addResponseTime, startConversation, addBurst;
  cbn [name messageCount wordCount letterCount emojiCount topEmojis
       responseTimes conversationsStarted messages messageLengths
       characterLengths questionCount exclamationCount allCapsCount
       burstCount];
  f_equal; rewrite ?app_nil_r, <- ?app_assoc; try reflexivity; try lia.

Lemma addStatistics_zero : forall p, addStatistics p [] 0 0 = p.
Proof. intros []. record_eq. Qed.

Lemma addStatistics_twice :
  forall p s1 a1 b1 s2 a2 b2,
    addStatistics (addStatistics p s1 a1 b1) s2 a2 b2
    = addStatistics p (s1 ++ s2) (a1 + a2) (b1 + b2).
Proof. intros. record_eq. Qed.

Lemma option_map_addStatistics :
  forall (o : option ParticipantData) s1 a1 b1 s2 a2 b2,
    option_map (fun p => addStatistics p s2 a2 b2)
               (option_map (fun p => addStatistics p s1 a1 b1) o)
    = option_map (fun p => addStatistics p (s1 ++ s2) (a1 + a2) (b1 + b2)) o.
Proof.
  intros [p |] s1 a1 b1 s2 a2 b2; cbn [option_map]; [| reflexivity].
  rewrite addStatistics_twice. reflexivity.
Qed.

Lemma option_map_unchanged :
  forall (o : option ParticipantData),
    option_map (fun p => addStatistics p [] 0 0) o = o.
Proof.
  intros [p |]; cbn [option_map]; [rewrite addStatistics_zero |]; reflexivity.
Qed.

Lemma updateParticipant_frame :
  forall cd n f,
    chatMessages (updateParticipant cd n f) = chatMessages cd
    /\ metadata (updateParticipant cd n f) = metadata cd
    /\ messagesByHour (updateParticipant cd n f) = messagesByHour cd
    /\ messagesByDay (updateParticipant cd n f) = messagesByDay cd.
Proof.
  intros cd n f. unfold updateParticipant.
  destruct (getParticipant cd n); repeat split.
Qed.

Lemma responseLoop_records :
  forall s cd n,
    getParticipant (responseLoop s cd) n
    = option_map (fun p => addStatistics p (responseSamples s n) 0 0)
                 (getParticipant cd n).
Proof.
  induction s as [| cur later IH]; intros cd n.
  - cbn [responseLoop responseSamples]. rewrite option_map_unchanged.
    reflexivity.
  - cbn [responseLoop responseSamples]. rewrite IH. clear IH.
    case_find nxt Ef; [| reflexivity].
    unfold isValidResponseTime, twentyFourHours.
    destruct (timestamp nxt - timestamp cur <? 24 * 60 * 60 * 1000);
      [| reflexivity].
    rewrite getParticipant_update. cbn [andb].
    destruct (jsstring_eqb (participant nxt) n) eqn:En; [| reflexivity].
    apply jsstring_eqb_eq in En. subst n.
    destruct (getParticipant cd (participant nxt)); cbn [option_map];
      [| reflexivity].
    f_equal. record_eq.
Qed.

Lemma responseLoop_frame :
  forall s cd,
    chatMessages (responseLoop s cd) = chatMessages cd
    /\ metadata (responseLoop s cd) = metadata cd.
Proof.
  induction s as [| cur later IH]; intro cd; cbn [responseLoop]; [auto |].
  match goal with
  | |- context [responseLoop later ?c] =>
      destruct (IH c) as [H1 H2]; rewrite H1, H2;
      assert (E : chatMessages c = chatMessages cd
                  /\ metadata c = metadata cd)
  end.
  { case_find nxt Ef; [| auto].
    destruct (isValidResponseTime _); [| auto].
    destruct (updateParticipant_frame cd (participant nxt)
                (fun responder =>
                   addResponseTime responder
                     (timestamp nxt - timestamp cur))) as (G1 & G2 & _).
    auto. }
  exact E.
Qed.

Lemma startersLoop_records :
  forall rest previousMsg cd n,
    getParticipant (startersLoop previousMsg rest cd) n
    = option_map
        (fun p => addStatistics p []
                    (countStarts n rest
                       (startFlags (Some (timestamp previousMsg)) rest)) 0)
        (getParticipant cd n).
Proof.
  induction rest as [| m rest IH]; intros previousMsg cd n.
  - cbn [startersLoop startFlags]. rewrite countStarts_nil.
    rewrite option_map_unchanged. reflexivity.
  - cbn [startersLoop startFlags]. rewrite IH, countStarts_cons.
    rewrite isNewConversation_isBoundary.
    destruct (isBoundary (timestamp m - timestamp previousMsg)); cbn [andb];
      [| reflexivity].
    rewrite getParticipant_update.
    destruct (jsstring_eqb (participant m) n) eqn:En; [| reflexivity].
    apply jsstring_eqb_eq in En. subst n.
    destruct (getParticipant cd (participant m)); cbn [option_map];
      [| reflexivity].
    f_equal. record_eq.
Qed.

Lemma starters_records :
  forall msgs cd n,
    getParticipant (calculateConversationStarters msgs cd) n
    = option_map
        (fun p => addStatistics p []
                    (countStarts n (sortMessages msgs)
                       (startFlags None (sortMessages msgs))) 0)
        (getParticipant cd n).
Proof.
  intros msgs cd n. unfold calculateConversationStarters.
  destruct (sortMessages msgs) as [| first rest].
  - rewrite countStarts_nil, option_map_unchanged. reflexivity.
  - rewrite startersLoop_records, getParticipant_update.
    cbn [startFlags]. rewrite countStarts_cons. cbn [andb].
    destruct (jsstring_eqb (participant first) n) eqn:En; [| reflexivity].
    apply jsstring_eqb_eq in En. subst n.
    destruct (getParticipant cd (participant first)); cbn [option_map];
      [| reflexivity].
    f_equal. record_eq.
Qed.

Lemma startersLoop_frame :
  forall rest previousMsg cd,
    chatMessages (startersLoop previousMsg rest cd) = chatMessages cd
    /\ metadata (startersLoop previousMsg rest cd) = metadata cd.
Proof.
  induction rest as [| m rest IH]; intros previousMsg cd;
    cbn [startersLoop]; [auto |].
  match goal with
  | |- context [startersLoop m rest ?c] =>
      destruct (IH m c) as [H1 H2]; rewrite H1, H2
  end.
  destruct (isNewConversation _); [| auto].
  destruct (updateParticipant_frame cd (participant m) startConversation)
    as (G1 & G2 & _).
  auto.
Qed.

Lemma starters_frame :
  forall msgs cd,
    chatMessages (calculateConversationStarters msgs cd) = chatMessages cd
    /\ metadata (calculateConversationStarters msgs cd) = metadata cd.
Proof.
  intros msgs cd. unfold calculateConversationStarters.
  destruct (sortMessages msgs) as [| first rest]; [auto |].
  destruct (startersLoop_frame rest first
              (updateParticipant cd (participant first) startConversation))
    as [H1 H2].
  destruct (updateParticipant_frame cd (participant first) startConversation)
    as (G1 & G2 & _).
  rewrite H1, H2. auto.
Qed.

Lemma burst_fold :
  forall s cd cur bc n,
    0 <= bc ->
    let r := fold_left burstStep s (cd, cur, bc) in
    getParticipant (fst (fst r)) n
    = option_map
        (fun p => addStatistics p [] 0 (countStarts n s (repeatFlags cur s)))
        (getParticipant cd n)
    /\ chatMessages (fst (fst r)) = chatMessages cd
    /\ metadata (fst (fst r)) = metadata cd.
Proof.
  induction s as [| m s IH]; intros cd cur bc n Hbc; cbv zeta.
  - cbn [fold_left fst repeatFlags]. rewrite countStarts_nil.
    rewrite option_map_unchanged. auto.
  - cbn [fold_left repeatFlags]. rewrite countStarts_cons.
    unfold burstStep at 2 4 6.
    set (same := match cur with
                 | Some c => jsstring_eqb (participant m) c
                 | None => false
                 end).
    assert (Hone : (1 <=? (if same then bc + 1 else 0)) = same).
    { destruct same; [apply Z.leb_le; lia | reflexivity]. }
    rewrite Hone.
    assert (Hnn : 0 <= (if same then bc + 1 else 0))
      by (destruct same; lia).
    specialize (IH (if same
                    then updateParticipant cd (participant m) addBurst
                    else cd)
                   (if same then cur else Some (participant m))
                   (if same then bc + 1 else 0) n Hnn).
    cbv zeta in IH. destruct IH as (IH1 & IH2 & IH3).
    assert (Hcur : repeatFlags (if same then cur else Some (participant m)) s
                   = repeatFlags (Some (participant m)) s).
    { destruct same eqn:Es; [| reflexivity]. unfold same in Es.
      destruct cur as [c |]; [| discriminate].
      apply jsstring_eqb_eq in Es. rewrite Es. reflexivity. }
    rewrite Hcur in IH1. rewrite IH1, IH2, IH3.
    destruct same; cbn [andb].
    + destruct (updateParticipant_frame cd (participant m) addBurst)
        as (G1 & G2 & _).
      split; [| auto].
      rewrite getParticipant_update.
      destruct (jsstring_eqb (participant m) n) eqn:En; [| reflexivity].
      apply jsstring_eqb_eq in En. subst n.
      destruct (getParticipant cd (participant m)); cbn [option_map];
        [| reflexivity].
      f_equal. record_eq.
    + auto.
Qed.

(** X12.  [calculateMessageBursts] adds to the burst counter of each
    participant of the index the number of that participant's messages
    that, in the sequence sorted by time, come directly after a message of
    the same participant; the first message of the sequence never counts.
    Nothing else in the records changes, and no record is created. *)
Theorem bursts_count_repeated_senders :
  forall (msgs : list Msg) (cd : ChatData) (n : jsstring),
    getParticipant (calculateMessageBursts msgs cd) n
    = option_map
        (fun p => addStatistics p [] 0
                    (countStarts n (sortMessages msgs)
                       (repeatFlags None (sortMessages msgs))))
        (getParticipant cd n)
    /\ hd false (repeatFlags None (sortMessages msgs)) = false.
Proof.
  intros msgs cd n. split.
  - unfold calculateMessageBursts.
    exact (proj1 (burst_fold (sortMessages msgs) cd None 0 n (Z.le_refl 0))).
  - destruct (sortMessages msgs); reflexivity.
Qed.

(* The three passes, one after the other, on any index. *)
Lemma passes_compose :
  forall (cd : ChatData) (n : jsstring),
    let s := sortMessages (chatMessages cd) in
    getParticipant (calculateAllStatistics cd) n
    = option_map
        (fun p => addStatistics p
                    (responseSamples s n)
                    (countStarts n s (startFlags None s))
                    (countStarts n s (repeatFlags None s)))
        (getParticipant cd n)
    /\ chatMessages (calculateAllStatistics cd) = chatMessages cd
    /\ metadata (calculateAllStatistics cd) = metadata cd.
Proof.
  intros cd n s. unfold calculateAllStatistics, calculateResponseTimes.
  destruct (responseLoop_frame (sortMessages (chatMessages cd)) cd)
    as [R1 R2].
  fold s in R1, R2 |- *.
  set (cd1 := responseLoop s cd) in *. rewrite R1.
  destruct (starters_frame (chatMessages cd) cd1) as [S1 S2].
  set (cd2 := calculateConversationStarters (chatMessages cd) cd1) in *.
  rewrite S1, R1. unfold calculateMessageBursts. fold s.
  destruct (burst_fold s cd2 None 0 n (Z.le_refl 0)) as (B1 & B2 & B3).
  cbv zeta in B1, B2, B3. rewrite B1, B2, B3, S1, S2, R1, R2.
  split; [| auto].
  unfold cd2. rewrite starters_records. fold s. unfold cd1.
  rewrite responseLoop_records, !option_map_addStatistics.
  destruct (getParticipant cd n); cbn [option_map]; [| reflexivity].
  f_equal. record_eq.
Qed.

(** X13.  [calculateAllStatistics] runs the three passes over the messages
    of the index, and they do not disturb one another: each participant
    record ends with its response times extended by its response samples,
    its starter counter increased by the conversations it started and its
    burst counter increased by its repeated messages, every other field as
    it was; the messages and the metadata of the index are unchanged and
    no record is created. *)
Theorem calculateAllStatistics_composes :
  forall (cd : ChatData) (n : jsstring),
    let s := sortMessages (chatMessages cd) in
    getParticipant (calculateAllStatistics cd) n
    = option_map
        (fun p => addStatistics p
                    (responseSamples s n)
                    (countStarts n s (startFlags None s))
                    (countStarts n s (repeatFlags None s)))
        (getParticipant cd n)
    /\ chatMessages (calculateAllStatistics cd) = chatMessages cd
    /\ metadata (calculateAllStatistics cd) = metadata cd.
Proof.
  intros cd n s. unfold calculateAllStatistics, calculateResponseTimes.
  destruct (responseLoop_frame (sortMessages (chatMessages cd)) cd)
    as [R1 R2].
  fold s in R1, R2 |- *.
  set (cd1 := responseLoop s cd) in *. rewrite R1.
  destruct (starters_frame (chatMessages cd) cd1) as [S1 S2].
  set (cd2 := calculateConversationStarters (chatMessages cd) cd1) in *.
  rewrite S1, R1. unfold calculateMessageBursts. fold s.
  destruct (burst_fold s cd2 None 0 n (Z.le_refl 0)) as (B1 & B2 & B3).
  cbv zeta in B1, B2, B3. rewrite B1, B2, B3, S1, S2, R1, R2.
  split; [| auto].
  unfold cd2. rewrite starters_records. fold s. unfold cd1.
  rewrite responseLoop_records, !option_map_addStatistics.
  destruct (getParticipant cd n); cbn [option_map]; [| reflexivity].
  f_equal. record_eq.
Qed.

(** *** Conversation lengths *)

Lemma turnStep_cases :
  forall turns lastParticipant m,
    turns <= fst (turnStep (turns, lastParticipant) m) <= turns + 1
    /\ (lastParticipant = None ->
        fst (turnStep (turns, lastParticipant) m) = turns + 1).
Proof.
  intros turns [p |] m; unfold turnStep.
  - destruct (jsstring_eqb (participant m) p); cbn [fst];
      split; try lia; discriminate.
  - cbn [fst]. split; [lia | reflexivity].
Qed.

Lemma turn_fold :
  forall (convo : list Msg) (st : Z * option jsstring),
    fst st <= fst (fold_left turnStep convo st)
    <= fst st + Z.of_nat (length convo)
    /\ (snd st = None -> convo <> [] ->
        fst st + 1 <= fst (fold_left turnStep convo st)).
Proof.
  induction convo as [| m convo IH]; intros [turns lastParticipant];
    cbn [fold_left fst snd length].
  - split; [lia | intros _ H; congruence].
  - destruct (IH (turnStep (turns, lastParticipant) m)) as [H _].
    destruct (turnStep_cases turns lastParticipant m) as [H1 H2].
    split; [lia |]. intros E _. specialize (H2 E). lia.
Qed.

Lemma turnsOf_bounds :
  forall convo,
    0 <= turnsOf convo <= Z.of_nat (length convo)
    /\ (convo <> [] -> 1 <= turnsOf convo).
Proof.
  intro convo. unfold turnsOf.
  destruct (turn_fold convo (0, None)) as [H1 H2]. cbn [fst snd] in H1, H2.
  split; [lia |]. intro H. specialize (H2 eq_refl H). lia.
Qed.

Lemma countIf_partition :
  forall l,
    countIf (fun x => x <=? 5) l
    + countIf (fun x => (x >? 5) && (x <=? 15)) l
    + countIf (fun x => x >? 15) l
    = Z.of_nat (length l).
Proof.
  intro l. unfold countIf. induction l as [| x l IH]; [reflexivity |].
  cbn [filter]. rewrite !Z.gtb_ltb.
  destruct (Z.leb_spec x 5); destruct (Z.leb_spec x 15);
    destruct (Z.ltb_spec 5 x); destruct (Z.ltb_spec 15 x);
    cbn [andb length]; lia.
Qed.

Lemma no_flags :
  forall {A : Type} (l : list A),
    filter (fun b : bool => b) (map (fun _ => false) l) = [].
Proof.
  intros A l. induction l as [| x l IH]; [reflexivity | exact IH].
Qed.

Lemma partitionFlags_count :
  forall convs : list (list Msg),
    Forall (fun c => c <> []) convs ->
    length (filter (fun b : bool => b) (partitionFlags convs)) = length convs.
Proof.
  intros convs H. induction H as [| c convs Hc _ IH]; [reflexivity |].
  unfold partitionFlags in *. cbn [flat_map].
  rewrite filter_app, length_app, IH.
  destruct c as [| m c]; [congruence |]. cbn [convoFlags filter length].
  rewrite no_flags. reflexivity.
Qed.

Lemma turns_sum :
  forall convs : list (list Msg),
    sumZ (map turnsOf convs) <= Z.of_nat (length (concat convs)).
Proof.
  induction convs as [| c convs IH]; [cbn; lia |].
  cbn [map concat]. rewrite sumZ_cons, length_app.
  destruct (turnsOf_bounds c) as [H _]. lia.
Qed.

(** X14.  [analyzeConversationLengths] cuts the messages into as many
    conversations as there are conversation starts (the first message, and
    every message more than two hours after the one before it).  Each
    conversation has at least one turn and at most the longest number of
    turns reported; the short, the medium and the long conversations
    together are all of them; and the turns of all the conversations are
    no more than the messages. *)
Theorem conversation_lengths_cut :
  forall cd : ChatData,
    let r := analyzeConversationLengths cd in
    let flags := startFlags None (sortMessages (chatMessages cd)) in
    total r = Z.of_nat (length (lengths r))
    /\ total r = Z.of_nat (length (filter (fun b : bool => b) flags))
    /\ distShort r + distMedium r + distLong r = total r
    /\ Forall (fun l => 1 <= l <= longest r) (lengths r)
    /\ sumZ (lengths r) <= Z.of_nat (length (chatMessages cd)).
Proof.
  intros cd r flags. unfold r, analyzeConversationLengths.
  cbn [total lengths distShort distMedium distLong longest].
  destruct (conversationsOf_flags cd) as (Hcat & Hflags & Hne).
  rewrite countIf_partition, !length_map.
  split; [reflexivity |].
  split; [unfold flags; rewrite <- Hflags, partitionFlags_count by exact Hne;
          reflexivity |].
  split; [reflexivity |].
  split.
  - apply Forall_forall. intros l Hl.
    assert (Hl' := Hl). apply in_map_iff in Hl'.
    destruct Hl' as (c & <- & Hc).
    rewrite Forall_forall in Hne.
    destruct (turnsOf_bounds c) as [_ H1]. specialize (H1 (Hne c Hc)).
    split; [exact H1 |].
    destruct (conversationsOf cd) as [| c0 convs] eqn:E; [destruct Hc |].
    cbn [length Nat.ltb Nat.leb].
    apply maxZ_spec; [discriminate | exact Hl].
  - apply Z.le_trans with (1 := turns_sum (conversationsOf cd)).
    rewrite Hcat. unfold sortMessages. rewrite length_sortBy. lia.
Qed.

(** *** Streak lengths *)

Lemma Forall_streaks_weaken :
  forall (l : list Streak) (a b : Z),
    a <= b ->
    Forall (fun k => 2 <= streakLength k <= a) l ->
    Forall (fun k => 2 <= streakLength k <= b) l.
Proof.
  intros l a b Hab H. apply Forall_impl with (2 := H). intros k Hk. lia.
Qed.

Lemma closeStreak_bounds :
  forall st,
    Forall (fun k => 2 <= streakLength k
                     <= Z.max (stLongest st) (stCurrent st)) (stStreaks st) ->
    Forall (fun k => 2 <= streakLength k
                     <= Z.max (stLongest st) (stCurrent st)) (closeStreak st).
Proof.
  intros st H. unfold closeStreak.
  destruct (Z.leb_spec 2 (stCurrent st)); [| exact H].
  apply Forall_app. split; [exact H |].
  constructor; [cbn [streakLength]; lia | constructor].
Qed.

Lemma streakLoop_bounds :
  forall (rest : list Z) (prevDate : Z) (st : StreakState) (n : Z),
    1 <= stCurrent st -> 1 <= stLongest st ->
    Z.max (stLongest st) (stCurrent st) <= n ->
    Forall (fun k => 2 <= streakLength k
                     <= Z.max (stLongest st) (stCurrent st)) (stStreaks st) ->
    let st' := streakLoop prevDate rest st in
    1 <= stCurrent st' /\ 1 <= stLongest st'
    /\ Z.max (stLongest st') (stCurrent st') <= n + Z.of_nat (length rest)
    /\ Forall (fun k => 2 <= streakLength k
                       <= Z.max (stLongest st') (stCurrent st'))
              (stStreaks st').
Proof.
  induction rest as [| currDate rest IH]; intros prevDate st n Hc Hl Hn Hs;
    cbv zeta; cbn [streakLoop length].
  - rewrite Z.add_0_r. auto.
  - destruct ((currDate - prevDate) / msPerDay =? 1).
    + specialize (IH currDate
                     (mkStreakState (stCurrent st + 1) (stLongest st)
                                    (stDays st ++ [currDate]) (stStreaks st))
                     (n + 1)).
      cbn [stCurrent stLongest stStreaks] in IH. cbv zeta in IH.
      destruct IH as (H1 & H2 & H3 & H4); try lia.
      * apply Forall_streaks_weaken with (2 := Hs). lia.
      * repeat split; try assumption. lia.
    + specialize (IH currDate
                     (mkStreakState 1 (Z.max (stLongest st) (stCurrent st))
                                    [currDate] (closeStreak st))
                     (n + 1)).
      cbn [stCurrent stLongest stStreaks] in IH. cbv zeta in IH.
      destruct IH as (H1 & H2 & H3 & H4); try lia.
      * apply Forall_streaks_weaken with (2 := closeStreak_bounds st Hs). lia.
      * repeat split; try assumption. lia.
Qed.

(** X15.  In every host, [calculateStreaks] never reports a current streak
    above the longest streak, nor a longest streak above the number of
    days with messages; with messages the longest streak is at least 1,
    and every streak entry is between 2 days and the longest streak long.
    Without messages every number is 0 and the number of days is
    [null]. *)
Theorem streak_lengths_bounded :
  forall (host : Host) (now : Z) (cd : ChatData),
    let r := calculateStreaks host now cd in
    0 <= currentStreak r <= longestStreak r
    /\ Forall (fun k => 2 <= streakLength k <= longestStreak r) (streaks r)
    /\ match totalDaysWithMessages r with
       | Some days => 1 <= longestStreak r <= days
       | None => longestStreak r = 0 /\ chatMessages cd = []
       end.
Proof.
  intros host now cd r. unfold r, calculateStreaks.
  destruct (chatMessages cd) as [| m ms] eqn:E.
  - cbn. repeat split; try lia. constructor.
  - cbn [currentStreak longestStreak streaks totalDaysWithMessages].
    set (add := fun s (msg : Msg) =>
                  setAddString s (toDateString host (timestamp msg))).
    set (dates := sortBy (fun a b => a - b <=? 0)
                         (map (dateOfString host)
                              (fold_left add (m :: ms) []))).
    assert (Hlen : (1 <= length dates)%nat).
    { unfold dates. rewrite length_sortBy, length_map.
      assert (H : forall (l : list Msg) acc,
                 (length acc <= length (fold_left add l acc))%nat).
      { induction l as [| x l IH]; intro acc; cbn [fold_left]; [lia |].
        apply Nat.le_trans with (2 := IH _). unfold add, setAddString.
        destruct (existsb _ acc); [lia |]. rewrite length_app. lia. }
      cbn [fold_left]. apply Nat.le_trans with (2 := H _ _).
      unfold add, setAddString. cbn. lia. }
    destruct dates as [| first rest] eqn:Ed; [simpl in Hlen; lia |].
    cbn [hd tl].
    destruct (streakLoop_bounds rest first (mkStreakState 1 1 [first] []) 1)
      as (H1 & H2 & H3 & H4);
      cbn [stCurrent stLongest stStreaks]; try lia; [constructor |].
    cbv zeta in H1, H2, H3, H4.
    set (st := streakLoop first rest (mkStreakState 1 1 [first] [])) in *.
    split.
    + destruct (_ <=? 1); lia.
    + split; [apply closeStreak_bounds; exact H4 |].
      cbn [length]. lia.
Qed.

(** *** Response samples *)

Lemma inTimeOrder_split :
  forall (pre : list Msg) (cur : Msg) (mid : list Msg) (nxt : Msg)
         (post : list Msg),
    inTimeOrder (pre ++ cur :: mid ++ nxt :: post) ->
    timestamp cur <= timestamp nxt.
Proof.
  induction pre as [| a pre IH]; intros cur mid nxt post H; cbn [app] in H.
  - inversion H as [| ? ? _ Hc]; subst. rewrite Forall_forall in Hc.
    apply Hc. apply in_or_app. right. left. reflexivity.
  - inversion H; subst. eapply IH. eassumption.
Qed.

Lemma responseSamples_count :
  forall (s : list Msg) (n : jsstring),
    (length (responseSamples s n)
     <= length (filter (fun m => negb (jsstring_eqb (participant m) n)) s))%nat.
Proof.
  induction s as [| cur later IH]; intro n; [simpl; lia |].
  cbn [responseSamples filter]. rewrite length_app. specialize (IH n).
  case_find nxt Ef.
  - apply find_some in Ef. destruct Ef as [_ Ene].
    destruct ((timestamp nxt - timestamp cur <? 24 * 60 * 60 * 1000)
              && jsstring_eqb (participant nxt) n) eqn:E.
    + apply andb_true_iff in E. destruct E as [_ En].
      apply jsstring_eqb_eq in En. subst n.
      rewrite jsstring_eqb_sym, Ene. cbn [length]. lia.
    + destruct (negb (jsstring_eqb (participant cur) n)); cbn [length]; lia.
  - destruct (negb (jsstring_eqb (participant cur) n)); cbn [length]; lia.
Qed.

Lemma filter_length_insertSorted :
  forall {A : Type} (le : A -> A -> bool) (f : A -> bool) (x : A)
         (s : list A),
    length (filter f (insertSorted le x s)) = length (filter f (x :: s)).
Proof.
  intros A le f x s. induction s as [| y s IHs]; [reflexivity |].
  cbn [insertSorted]. destruct (le x y); [reflexivity |].
  cbn [filter] in *. destruct (f y), (f x); cbn [length] in *;
    rewrite IHs; reflexivity.
Qed.

Lemma filter_length_sortBy :
  forall {A : Type} (le : A -> A -> bool) (f : A -> bool) (l : list A),
    length (filter f (sortBy le l)) = length (filter f l).
Proof.
  intros A le f l. induction l as [| x l IH]; [reflexivity |].
  cbn [sortBy fold_right]. fold (sortBy le l).
  rewrite filter_length_insertSorted. cbn [filter].
  destruct (f x); cbn [length]; rewrite IH; reflexivity.
Qed.

(** X16.  [calculateResponseTimes] leaves every field of a participant
    record as it was, except that it appends samples to the response
    times.  Every sample is at least 0 and below 24 hours, since the
    messages are scanned in time order; and a participant receives at most
    one sample for each message written by somebody else. *)
Theorem response_samples_in_range :
  forall (msgs : list Msg) (cd : ChatData) (n : jsstring),
    exists added : list Z,
      getParticipant (calculateResponseTimes msgs cd) n
      = option_map (fun p => addStatistics p added 0 0) (getParticipant cd n)
      /\ Forall (fun d => 0 <= d < 24 * 60 * 60 * 1000) added
      /\ (length added
          <= length (filter (fun m => negb (jsstring_eqb (participant m) n))
                            msgs))%nat.
Proof.
  intros msgs cd n. exists (responseSamples (sortMessages msgs) n).
  split; [apply responseLoop_records |]. split.
  - apply Forall_forall. intros d Hd.
    apply responseSamples_sound in Hd.
    destruct Hd as [(pre & cur & mid & nxt & post & Es & _ & _ & _ & ->) Hlt].
    split; [| exact Hlt].
    pose proof (sortMessages_inTimeOrder msgs) as Hs. rewrite Es in Hs.
    apply inTimeOrder_split in Hs. lia.
  - apply Nat.le_trans with (1 := responseSamples_count _ _).
    unfold sortMessages. rewrite filter_length_sortBy. lia.
Qed.

(** *** When the activity trend is a number *)

Lemma ceilDays_spec :
  forall ms,
    86400000 * (ceilDays ms - 1) < ms <= 86400000 * ceilDays ms.
Proof.
  intro ms. unfold ceilDays, msPerDay.
  pose proof (Z.div_mod (- ms) 86400000 ltac:(lia)).
  pose proof (Z.mod_pos_bound (- ms) 86400000 ltac:(lia)). lia.
Qed.

Lemma ceilDays_unique :
  forall ms k, 86400000 * (k - 1) < ms <= 86400000 * k -> ceilDays ms = k.
Proof.
  intros ms k H. pose proof (ceilDays_spec ms). lia.
Qed.

Lemma countBetween_In :
  forall lo hi (z : Msg) (l : list Msg),
    In z l -> lo <= timestamp z <= hi -> 1 <= countBetween lo hi l.
Proof.
  intros lo hi z l Hin [H1 H2]. unfold countBetween.
  assert (Hf : In z (filter (fun m => (lo <=? timestamp m)
                                      && (timestamp m <=? hi)) l)).
  { apply filter_In. split; [exact Hin |].
    apply andb_true_iff. split; apply Z.leb_le; assumption. }
  destruct (filter _ l); [destruct Hf | cbn [length]; lia].
Qed.

Lemma isFinite_isQ : forall a q, isQ a q -> isFinite a = true.
Proof. intros a q (q' & -> & _). reflexivity. Qed.

(** A number that is not finite stays so through the formula of the
    percentage change. *)
Lemma not_finite_change :
  forall a b c,
    isFinite a = false ->
    isFinite (jmul (jdiv (jsub a b) b) c) = false.
Proof.
  intros a b c H.
  assert (H1 : isFinite (jsub a b) = false).
  { destruct a as [q | | |]; [discriminate | | |];
      destruct b as [q | | |]; reflexivity. }
  assert (H2 : isFinite (jdiv (jsub a b) b) = false).
  { destruct (jsub a b) as [q | | |]; [discriminate | | |];
      destruct b as [q | | |]; try reflexivity;
      cbn [jdiv]; destruct (signQ q); reflexivity. }
  destruct (jdiv (jsub a b) b) as [q | | |]; [discriminate | | |];
    destruct c as [q | | |]; try reflexivity;
    cbn [jmul]; destruct (signQ q); reflexivity.
Qed.

Lemma jdiv_by_zero :
  forall n, isFinite (jdiv (ofZ n) (ofZ 0)) = false.
Proof.
  intro n. unfold jdiv, ofZ. change (signQ (inject_Z 0)) with Eq.
  destruct (signQ (inject_Z n)); reflexivity.
Qed.

Lemma isQ_change :
  forall c1 d1 c2 d2,
    1 <= c1 -> 1 <= d1 -> 1 <= d2 ->
    isFinite (jmul (jdiv (jsub (jdiv (ofZ c2) (ofZ d2))
                               (jdiv (ofZ c1) (ofZ d1)))
                         (jdiv (ofZ c1) (ofZ d1)))
                   (ofZ 100)) = true.
Proof.
  intros c1 d1 c2 d2 Hc1 Hd1 Hd2.
  assert (Hnz : forall d, 1 <= d -> ~ (inject_Z d == 0)%Q).
  { intros d Hd H. unfold Qeq in H. simpl in H. lia. }
  assert (H1 : isQ (jdiv (ofZ c1) (ofZ d1)) (inject_Z c1 / inject_Z d1))
    by (apply isQ_jdiv; [apply isQ_ofZ | apply isQ_ofZ | apply Hnz, Hd1]).
  assert (H2 : isQ (jdiv (ofZ c2) (ofZ d2)) (inject_Z c2 / inject_Z d2))
    by (apply isQ_jdiv; [apply isQ_ofZ | apply isQ_ofZ | apply Hnz, Hd2]).
  eapply isFinite_isQ. apply isQ_jmul; [| apply isQ_ofZ].
  apply isQ_jdiv; [apply isQ_jsub; eassumption | exact H1 |].
  intro H0.
  assert (Hx : (inject_Z c1 == 0)%Q).
  { apply Qeq_trans with (inject_Z d1 * (inject_Z c1 / inject_Z d1))%Q.
    - apply Qeq_sym, Qmult_div_r. apply Hnz, Hd1.
    - rewrite H0. ring. }
  unfold Qeq in Hx. simpl in Hx. lia.
Qed.

(** X17.  For an index with messages the percentage change of the activity
    trend is a finite number exactly when the last message is more than 12
    hours after the first one; up to 12 hours the second period has zero
    days and the result is [NaN] or an infinity.  Without messages the
    result is the neutral one. *)
Theorem activity_trend_finite_iff :
  forall cd : ChatData,
    let sorted := sortMessages (chatMessages cd) in
    let d := mkMessage 0 [] [] false false in
    match chatMessages cd with
    | [] => analyzeActivityTrend cd = mkTrendInfo Neutral (ofZ 0) None
    | _ :: _ =>
        isFinite (percentageChange (analyzeActivityTrend cd)) = true
        <-> 12 * 60 * 60 * 1000
            < timestamp (last sorted d) - timestamp (hd d sorted)
    end.
Proof.
  intros cd sorted d. unfold analyzeActivityTrend. subst sorted.
  destruct (chatMessages cd) as [| m ms] eqn:Emsgs; [reflexivity |].
  pose proof (sortMessages_inTimeOrder (m :: ms)) as Hsorted.
  assert (Hlen : length (sortMessages (m :: ms)) = S (length ms)).
  { unfold sortMessages. rewrite length_sortBy. reflexivity. }
  destruct (sortMessages (m :: ms)) as [| x l] eqn:Es; [discriminate |].
  cbn [hd]. fold d.
  pose proof (inTimeOrder_hd_last x l d Hsorted) as Hle.
  assert (Hlast : In (last (x :: l) d) (x :: l)).
  { destruct (exists_last (l := x :: l) ltac:(discriminate))
      as (front & z & E).
    rewrite E, last_last. apply in_or_app. right. left. reflexivity. }
  set (L := timestamp (last (x :: l) d)) in *.
  set (F := timestamp x) in *.
  pose proof (ceilDays_spec (L - F)) as Htd.
  set (td := ceilDays (L - F)) in *.
  change (msPerDay / 2) with 43200000. unfold msPerDay.
  destruct (Z.ltb_spec td 60) as [Hlt | Hge];
    cbn [percentageChange].
  - pose proof (ceilDays_spec (F + td * 43200000 - F)) as Hd1.
    set (d1 := ceilDays (F + td * 43200000 - F)) in *.
    pose proof (ceilDays_spec (L - (F + td * 43200000))) as Hd2.
    set (d2 := ceilDays (L - (F + td * 43200000))) in *.
    assert (Hc1 : 1 <= countBetween F (F + td * 43200000) (x :: l)).
    { apply countBetween_head. fold F. lia. }
    split.
    + intro Hfin. destruct (Z.le_gt_cases (L - F) (12 * 60 * 60 * 1000))
        as [Hspan | Hspan]; [| lia].
      exfalso. assert (Hz : d2 = 0) by lia. rewrite Hz in Hfin.
      rewrite not_finite_change in Hfin by apply jdiv_by_zero.
      discriminate.
    + intro Hspan. apply isQ_change; [exact Hc1 | lia | lia].
  - split; [intros _; lia |]. intros _.
    replace (F + 30 * 86400000 - F) with (30 * 86400000) by lia.
    replace (L - (L - 30 * 86400000)) with (30 * 86400000) by lia.
    change (ceilDays (30 * 86400000)) with 30.
    apply isQ_change; [| lia | lia].
    apply countBetween_head. fold F. lia.
Qed.

(* ================================================================== *)
(** ** Further properties: the parser *)
(* ================================================================== *)

Lemma parseLine_blank :
  forall st rawLine, nonBlank rawLine = false -> parseLine st rawLine = Ok st.
Proof.
  intros [messages currentMessage] rawLine H. unfold parseLine.
  unfold nonBlank in H. apply negb_false_iff in H. rewrite H. reflexivity.
Qed.

Lemma parseLines_nonBlank :
  forall lines st,
    parseLines st (filter nonBlank lines) = parseLines st lines.
Proof.
  induction lines as [| l lines IH]; intro st; [reflexivity |].
  cbn [filter parseLines]. destruct (nonBlank l) eqn:E.
  - cbn [parseLines]. destruct (parseLine st l); cbn [bind];
      [apply IH | reflexivity].
  - rewrite (parseLine_blank st l E). cbn [bind]. apply IH.
Qed.

(** X18.  Blank lines do not matter: two files that are not blank and have
    the same lines once the lines of white space are left out parse to
    the same result, messages or error. *)
Theorem blank_lines_are_ignored :
  forall f1 f2 : jsstring,
    trim f1 <> [] -> trim f2 <> [] ->
    filter nonBlank (split 10 f1) = filter nonBlank (split 10 f2) ->
    parseWhatsAppChat f1 = parseWhatsAppChat f2.
Proof.
  intros f1 f2 H1 H2 H. unfold parseWhatsAppChat.
  assert (E : forall f, trim f <> [] ->
                ((length f =? 0)%nat || (length (trim f) =? 0)%nat) = false).
  { intros f Hf. apply orb_false_iff. split; apply Nat.eqb_neq; intro Hl;
      apply length_zero_iff_nil in Hl; [subst f; apply Hf |]; auto. }
  rewrite (E f1 H1), (E f2 H2).
  rewrite <- (parseLines_nonBlank (split 10 f1)),
          <- (parseLines_nonBlank (split 10 f2)), H.
  reflexivity.
Qed.

Lemma blank_lines_are_ignored_witness :
  let spaced :=
    lit "[1/2/2024, 10:00:00] Alice: Hello" ++ 10%N :: lit "   " ++ 10%N ::
    10%N :: lit "[1/2/2024, 10:05:00] Bob: Hi" in
  let dense :=
    lit "[1/2/2024, 10:00:00] Alice: Hello" ++ 10%N ::
    lit "[1/2/2024, 10:05:00] Bob: Hi" in
  trim spaced <> [] /\ trim dense <> []
  /\ parseWhatsAppChat spaced = parseWhatsAppChat dense.
Proof.
  intros spaced dense.
  assert (H1 : trim spaced <> []) by (vm_compute; discriminate).
  assert (H2 : trim dense <> []) by (vm_compute; discriminate).
  split; [exact H1 |]. split; [exact H2 |].
  apply (blank_lines_are_ignored spaced dense H1 H2).
  vm_compute. reflexivity.
Defined.

Lemma parseLine_count :
  forall st rawLine st',
    parseLine st rawLine = Ok st' ->
    length (flush st')
    = (length (flush st) + if startsMessage rawLine then 1 else 0)%nat.
Proof.
  intros [messages currentMessage] rawLine st'. unfold parseLine, startsMessage,
    nonBlank.
  destruct (length (trim rawLine) =? 0)%nat; cbn [negb andb].
  { intro H. injection H as <-. lia. }
  destruct (matchLine (trim rawLine)) as [[fmt m] |].
  - unfold bind.
    destruct (group m 1); [| discriminate].
    destruct (group m 2); [| discriminate].
    destruct (group m 3); [| discriminate].
    destruct (group m 4); [| discriminate].
    destruct (parseTimestamp _ _ _); [| discriminate].
    intro H. injection H as <-. unfold flush. cbn [fst snd].
    destruct currentMessage; rewrite !length_app; cbn [length]; lia.
  - destruct currentMessage; intro H; injection H as <-; unfold flush;
      cbn [fst snd]; rewrite ?length_app; cbn [length]; lia.
Qed.

Lemma parseLines_count :
  forall lines st st',
    parseLines st lines = Ok st' ->
    length (flush st')
    = (length (flush st) + length (filter startsMessage lines))%nat.
Proof.
  induction lines as [| l lines IH]; intros st st' H; cbn [parseLines] in H.
  - injection H as <-. cbn. lia.
  - destruct (parseLine st l) as [st1 |] eqn:E; [| discriminate].
    cbn [bind] in H. rewrite (IH _ _ H), (parseLine_count _ _ _ E).
    cbn [filter]. destruct (startsMessage l); cbn [length]; lia.
Qed.

(** X19.  The parser returns one message for each line that starts a
    message, that is, for each line that is not blank and matches one of
    the three grammars: a continuation line never makes a message, and no
    timestamp line is lost. *)
Theorem one_message_per_timestamp_line :
  forall (fileContent : jsstring) (messages : list (Message Date)),
    parseWhatsAppChat fileContent = Ok messages ->
    length messages
    = length (filter startsMessage (split 10 fileContent)).
Proof.
  intros fileContent messages. unfold parseWhatsAppChat.
  destruct ((length fileContent =? 0)%nat
            || (length (trim fileContent) =? 0)%nat); [discriminate |].
  destruct (parseLines ([], None) (split 10 fileContent)) as [st |] eqn:E;
    [| discriminate].
  cbn [bind]. destruct (length (flush st) =? 0)%nat; [discriminate |].
  intro H. injection H as <-. rewrite (parseLines_count _ _ _ E).
  reflexivity.
Qed.

Lemma one_message_per_timestamp_line_witness :
  exists messages,
    parseWhatsAppChat Examples.transcript = Ok messages
    /\ length messages = 2%nat.
Proof.
  destruct (parseWhatsAppChat Examples.transcript) as [messages | e] eqn:E.
  - exists messages. split; [reflexivity |].
    rewrite (one_message_per_timestamp_line Examples.transcript messages E).
    vm_compute. reflexivity.
  - exfalso. revert E. vm_compute. discriminate.
Defined.

(** *** The three grammars exclude one another *)

Lemma execFrom_anchored :
  forall (input : jsstring) (r : regex) (s : jsstring),
    (length s < length input)%nat -> execFrom input (Cat Bol r) s = None.
Proof.
  intros input r s. induction s as [| c s IH]; intro H.
  - cbn [execFrom run fst snd length].
    destruct (Nat.eqb_spec 0 (length input)) as [E | E]; [simpl in H; lia |].
    reflexivity.
  - cbn [execFrom run fst snd].
    destruct (Nat.eqb_spec (length (c :: s)) (length input)) as [E | E];
      [lia |].
    cbn [flat_map]. apply IH. simpl in H. lia.
Qed.

Lemma exec_anchored :
  forall (r : regex) (line : jsstring) (m : caps),
    exec (Cat Bol r) line = Some m ->
    exists w s', line = w ++ s' /\ lang r w.
Proof.
  intros r line m H. unfold exec in H.
  assert (Hrun : exists res rest,
             run line (Cat Bol r) (line, noCaps) = res :: rest).
  { destruct (run line (Cat Bol r) (line, noCaps)) as [| res rest] eqn:E;
      [| eauto].
    exfalso. destruct line as [| c s]; cbn [execFrom] in H; rewrite E in H;
      [discriminate |].
    rewrite execFrom_anchored in H by (simpl; lia). discriminate. }
  destruct Hrun as ([s' cs'] & rest & E).
  assert (Hin : In (s', cs') (run line (Cat Bol r) (line, noCaps)))
    by (rewrite E; left; reflexivity).
  apply run_sound in Hin. destruct Hin as ((w & Hw & Hl) & _).
  cbn [lang] in Hl. destruct Hl as (u & v & -> & -> & Hv).
  exists v, s'. auto.
Qed.

Lemma digits_prefix_unique :
  forall (ds es : jsstring) (c c' : N) (X Y : jsstring),
    Forall (fun x => isDigit x = true) ds ->
    Forall (fun x => isDigit x = true) es ->
    isDigit c = false -> isDigit c' = false ->
    ds ++ c :: X = es ++ c' :: Y -> c = c'.
Proof.
  induction ds as [| d ds IH]; intros es c c' X Y Hd He Hc Hc' E.
  - destruct es as [| e es]; cbn [app] in E.
    + congruence.
    + injection E as -> _. inversion He; subst. congruence.
  - destruct es as [| e es]; cbn [app] in E.
    + injection E as -> _. inversion Hd; subst. congruence.
    + injection E as _ E. inversion Hd; inversion He; subst.
      eapply IH; eassumption.
Qed.

(** How a line that matches each pattern begins. *)
Lemma ios_begins :
  forall line m,
    exec iosRegex line = Some m ->
    exists ds X,
      Forall (fun x => isDigit x = true) ds /\ line = 91%N :: ds ++ 47%N :: X.
Proof.
  intros line m H. apply exec_anchored in H.
  destruct H as (w & s' & -> & Hl). unfold slashDate, ch in Hl.
  cbn [lang] in Hl.
  destruct Hl as (b & r1 & -> & -> & d & r2 & -> & Hd & Hr2).
  destruct Hd as (d1 & r3 & -> & [Hd1 _] & sl & r4 & -> & -> & _).
  exists d1, (r4 ++ r2 ++ s'). split; [exact Hd1 |].
  cbn [app N_of_ascii]. rewrite <- !app_assoc. reflexivity.
Qed.

Lemma iso_begins :
  forall line m,
    exec isoRegex line = Some m ->
    exists ds X,
      Forall (fun x => isDigit x = true) ds /\ line = 91%N :: ds ++ 45%N :: X.
Proof.
  intros line m H. apply exec_anchored in H.
  destruct H as (w & s' & -> & Hl). unfold dashDate, ch in Hl.
  cbn [lang] in Hl.
  destruct Hl as (b & r1 & -> & -> & d & r2 & -> & Hd & Hr2).
  destruct Hd as (d1 & r3 & -> & [Hd1 _] & sl & r4 & -> & -> & _).
  exists d1, (r4 ++ r2 ++ s'). split; [exact Hd1 |].
  cbn [app N_of_ascii]. rewrite <- !app_assoc. reflexivity.
Qed.

Lemma android_begins :
  forall line m,
    exec androidRegex line = Some m ->
    exists d X, isDigit d = true /\ line = d :: X.
Proof.
  intros line m H. apply exec_anchored in H.
  destruct H as (w & s' & -> & Hl). unfold slashDate, ch in Hl.
  cbn [lang] in Hl.
  destruct Hl as (d & r2 & -> & Hd & Hr2).
  destruct Hd as (d1 & r3 & -> & [Hd1 Hlen] & _).
  destruct d1 as [| x d1]; [simpl in Hlen; lia |].
  inversion Hd1; subst. exists x, (d1 ++ r3 ++ r2 ++ s').
  split; [assumption |]. cbn [app]. rewrite <- !app_assoc. reflexivity.
Qed.

Lemma ios_excludes_android :
  forall line m1 m2,
    exec iosRegex line = Some m1 -> exec androidRegex line = Some m2 -> False.
Proof.
  intros line m1 m2 E1 E2.
  destruct (ios_begins _ _ E1) as (ds1 & X1 & Hd1 & L1).
  destruct (android_begins _ _ E2) as (d2 & X2 & Hd2 & L2).
  rewrite L1 in L2. injection L2 as <- _. discriminate.
Qed.

Lemma iso_excludes_android :
  forall line m1 m2,
    exec isoRegex line = Some m1 -> exec androidRegex line = Some m2 -> False.
Proof.
  intros line m1 m2 E1 E2.
  destruct (iso_begins _ _ E1) as (ds1 & X1 & Hd1 & L1).
  destruct (android_begins _ _ E2) as (d2 & X2 & Hd2 & L2).
  rewrite L1 in L2. injection L2 as <- _. discriminate.
Qed.

Lemma ios_excludes_iso :
  forall line m1 m2,
    exec iosRegex line = Some m1 -> exec isoRegex line = Some m2 -> False.
Proof.
  intros line m1 m2 E1 E2.
  destruct (ios_begins _ _ E1) as (ds1 & X1 & Hd1 & L1).
  destruct (iso_begins _ _ E2) as (ds3 & X3 & Hd3 & L3).
  rewrite L1 in L3. injection L3 as L3.
  assert (H : 47%N = 45%N).
  { apply (digits_prefix_unique ds1 ds3 47 45 X1 X3); auto. }
  discriminate.
Qed.

Lemma grammars_exclude :
  forall line,
    (exec iosRegex line = None \/ exec androidRegex line = None)
    /\ (exec iosRegex line = None \/ exec isoRegex line = None)
    /\ (exec androidRegex line = None \/ exec isoRegex line = None).
Proof.
  intro line.
  destruct (exec iosRegex line) as [m1 |] eqn:E1;
    destruct (exec androidRegex line) as [m2 |] eqn:E2;
    destruct (exec isoRegex line) as [m3 |] eqn:E3; auto; exfalso.
  - exact (ios_excludes_android _ _ _ E1 E2).
  - exact (ios_excludes_android _ _ _ E1 E2).
  - exact (ios_excludes_iso _ _ _ E1 E3).
  - exact (iso_excludes_android _ _ _ E3 E2).
Qed.

(** X20.  No line matches two of the three grammars, so the order in
    which the parser tries them does not matter: a line is taken as a
    timestamp line of a format, with given captures, exactly when the
    pattern of that format matches it with these captures. *)
Theorem format_is_unambiguous :
  forall (line : jsstring) (fmt : FormatType) (m : caps),
    matchLine line = Some (fmt, m) <-> exec (regexOf fmt) line = Some m.
Proof.
  intros line fmt m. unfold matchLine.
  destruct (grammars_exclude line) as (H12 & H13 & H23).
  destruct (exec iosRegex line) as [m1 |] eqn:E1;
    destruct (exec androidRegex line) as [m2 |] eqn:E2;
    destruct (exec isoRegex line) as [m3 |] eqn:E3;
    try (destruct H12; discriminate); try (destruct H13; discriminate);
    try (destruct H23; discriminate);
    destruct fmt; cbn [regexOf]; rewrite ?E1, ?E2, ?E3;
    split; intro H; try discriminate; try congruence.
Qed.

(** *** Parsed dates are valid *)

Lemma decimal_bound :
  forall ds,
    Forall (fun c => isDigit c = true) ds ->
    0 <= decimal ds < 10 ^ Z.of_nat (length ds).
Proof.
  intros ds H. unfold decimal.
  assert (G : forall l acc n,
             Forall (fun c => isDigit c = true) l ->
             0 <= acc < 10 ^ Z.of_nat n ->
             0 <= fold_left (fun a c => 10 * a + Z.of_N (c - 48)) l acc
             < 10 ^ Z.of_nat (n + length l)).
  { induction l as [| c l IH]; intros acc n Hl Hacc; cbn [fold_left length].
    - rewrite Nat.add_0_r. exact Hacc.
    - inversion Hl as [| ? ? Hc Hl']; subst.
      replace (n + S (length l))%nat with (S n + length l)%nat by lia.
      apply IH; [exact Hl' |].
      rewrite Nat2Z.inj_succ, Z.pow_succ_r by lia.
      to_prop Hc. lia. }
  apply (G ds 0 0%nat H). simpl. lia.
Qed.

Lemma decimal_four_digits :
  forall ds,
    isDigits ds -> (length ds <= 4)%nat -> 0 <= decimal ds < 10000.
Proof.
  intros ds [_ H] Hlen. pose proof (decimal_bound ds H) as Hb.
  assert (10 ^ Z.of_nat (length ds) <= 10 ^ 4)
    by (apply Z.pow_le_mono_r; lia).
  change (10 ^ 4) with 10000 in *. lia.
Qed.

(** A date built from numbers of at most four digits (and an hour that
    has gained 12) is valid. *)
Lemma newDate_valid :
  forall y m d h mi s,
    0 <= y < 12000 -> -1 <= m < 10000 -> 0 <= d < 10000 ->
    0 <= h < 10012 -> 0 <= mi < 10000 -> 0 <= s < 10000 ->
    newDate (Some y) (Some m) (Some d) (Some h) (Some mi) (Some s) <> None.
Proof.
  intros y m d h mi s Hy Hm Hd Hh Hmi Hs. unfold newDate.
  set (yr := if (0 <=? y) && (y <=? 99) then 1900 + y else y).
  assert (Hyr : 0 <= yr < 12000).
  { unfold yr. destruct ((0 <=? y) && (y <=? 99)) eqn:E; [| lia].
    apply andb_true_iff in E. destruct E as [_ E]. apply Z.leb_le in E. lia. }
  assert (Hdays : -1000000 <= daysFromCivil (yr + m / 12) (m mod 12 + 1) 1
                  <= 6000000).
  { unfold daysFromCivil.
    pose proof (Z.mod_pos_bound m 12 ltac:(lia)) as Hmod.
    assert (Hq : -1 <= m / 12 < 834).
    { split; [apply Z.div_le_lower_bound; lia
             | apply Z.div_lt_upper_bound; lia]. }
    set (y' := if m mod 12 + 1 <=? 2 then yr + m / 12 - 1 else yr + m / 12).
    assert (Hy' : -2 <= y' < 12834)
      by (unfold y'; destruct (m mod 12 + 1 <=? 2); lia).
    pose proof (Z.div_mod y' 400 ltac:(lia)) as Hdm.
    pose proof (Z.mod_pos_bound y' 400 ltac:(lia)) as Hmb.
    assert (Hyoe : y' - y' / 400 * 400 = y' mod 400) by lia.
    rewrite Hyoe.
    assert (Hera : -1 <= y' / 400 < 33).
    { split; [apply Z.div_le_lower_bound; lia
             | apply Z.div_lt_upper_bound; lia]. }
    pose proof (Z.mod_pos_bound (m mod 12 + 1 + 9) 12 ltac:(lia)) as Hmp.
    assert (Hdoy : 0 <= (153 * ((m mod 12 + 1 + 9) mod 12) + 2) / 5 <= 400).
    { split; [apply Z.div_pos; lia | apply Z.div_le_upper_bound; lia]. }
    assert (H4 : 0 <= y' mod 400 / 4 <= 100).
    { split; [apply Z.div_pos; lia | apply Z.div_le_upper_bound; lia]. }
    assert (H100 : 0 <= y' mod 400 / 100 <= 4).
    { split; [apply Z.div_pos; lia | apply Z.div_le_upper_bound; lia]. }
    lia. }
  set (t := (daysFromCivil (yr + m / 12) (m mod 12 + 1) 1 + d - 1) * msPerDay
            + h * 3600000 + mi * 60000 + s * 1000).
  assert (Ht : Z.abs t <= 8640000000000000).
  { unfold t, msPerDay. lia. }
  apply Z.leb_le in Ht. rewrite Ht. discriminate.
Qed.

Lemma matchLine_lengths :
  forall line fmt m,
    matchLine line = Some (fmt, m) ->
    exists d1 d2 d3 hs ms ss ap g3 g4,
      isDigits d1 /\ isDigits d2 /\ isDigits d3
      /\ isDigits hs /\ isDigits ms /\ secondsOK ss /\ meridiemOK ap
      /\ (length d1 <= 4 /\ length d2 <= 4 /\ length d3 <= 4
          /\ length hs <= 4 /\ length ms <= 4
          /\ match ss with Some s => length s <= 4 | None => True end)%nat
      /\ m 1%nat = Some (dateText fmt d1 d2 d3)
      /\ m 2%nat = Some (timeBody hs ms ss ++ meridiemText ap)
      /\ m 3%nat = Some g3 /\ m 4%nat = Some g4.
Proof.
  assert (Hslash : forall d,
             lang slashDate d ->
             exists d1 d2 d3,
               isDigits d1 /\ isDigits d2 /\ isDigits d3
               /\ (length d1 <= 4 /\ length d2 <= 4 /\ length d3 <= 4)%nat
               /\ d = dateText Ios d1 d2 d3).
  { intros d H. unfold slashDate, ch in H. cbn [lang] in H.
    destruct H as (d1 & r1 & -> & H1 & s1 & r2 & -> & -> & d2 & r3 & -> & H2
                   & s2 & d3 & -> & -> & H3).
    apply rep_digits in H1, H2, H3.
    exists d1, d2, d3. conjs; try tauto; try reflexivity; lia. }
  assert (Hdash : forall d,
             lang dashDate d ->
             exists d1 d2 d3,
               isDigits d1 /\ isDigits d2 /\ isDigits d3
               /\ (length d1 <= 4 /\ length d2 <= 4 /\ length d3 <= 4)%nat
               /\ d = dateText Iso d1 d2 d3).
  { intros d H. unfold dashDate, ch in H. cbn [lang] in H.
    destruct H as (d1 & r1 & -> & H1 & s1 & r2 & -> & -> & d2 & r3 & -> & H2
                   & s2 & d3 & -> & -> & H3).
    apply rep_digits in H1, H2, H3.
    exists d1, d2, d3. conjs; try tauto; try reflexivity; lia. }
  assert (Htws : forall t,
             lang timeWithSeconds t ->
             exists hs ms ss ap,
               isDigits hs /\ isDigits ms /\ secondsOK ss /\ meridiemOK ap
               /\ (length hs <= 4 /\ length ms <= 4
                   /\ match ss with Some s => length s <= 4 | None => True end)%nat
               /\ t = timeBody hs ms ss ++ meridiemText ap).
  { intros t H. unfold timeWithSeconds, ch in H. cbn [lang] in H.
    destruct H as (hs & r1 & -> & Hh & c1 & r2 & -> & -> & ms & r3 & -> & Hm
                   & o1 & o2 & -> & Ho1 & Ho2).
    apply rep_digits in Hh, Hm.
    destruct (amPm_shape o2 Ho2) as (ap & Hap & ->).
    assert (Hsec : exists ss,
               secondsOK ss
               /\ match ss with Some s => (length s <= 4)%nat | None => True end
               /\ o1 = secondsText ss).
    { destruct Ho1 as [-> | (c2 & s & -> & -> & Hs)].
      - exists None. split; [exact I |]. split; [exact I | reflexivity].
      - apply rep_digits in Hs. exists (Some s).
        split; [apply Hs |]. split; [lia | reflexivity]. }
    destruct Hsec as (ss & Hss & Hsl & ->).
    exists hs, ms, ss, ap. conjs; try tauto; try lia.
    unfold timeBody. cbn [app]. rewrite <- !app_assoc. cbn [app].
    rewrite <- !app_assoc. reflexivity. }
  assert (Htns : forall t,
             lang timeNoSeconds t ->
             exists hs ms ap,
               isDigits hs /\ isDigits ms /\ meridiemOK ap
               /\ (length hs <= 4 /\ length ms <= 4)%nat
               /\ t = timeBody hs ms None ++ meridiemText ap).
  { intros t H. unfold timeNoSeconds, ch in H. cbn [lang] in H.
    destruct H as (hs & r1 & -> & Hh & c1 & r2 & -> & -> & ms & o2 & -> & Hm
                   & Ho2).
    apply rep_digits in Hh, Hm.
    destruct (amPm_shape o2 Ho2) as (ap & Hap & ->).
    exists hs, ms, ap. conjs; try tauto; try lia.
    unfold timeBody. cbn [app secondsText]. rewrite app_nil_r, <- !app_assoc.
    cbn [app]. reflexivity. }
  intros line fmt m H. unfold matchLine in H.
  destruct (exec iosRegex line) as [m1 |] eqn:E1.
  { injection H as <- <-.
    destruct (ios_groups line m1 E1)
      as (d & t & g3 & g4 & G1 & G2 & G3 & G4 & Ld & Lt).
    destruct (Hslash d Ld) as (d1 & d2 & d3 & H1 & H2 & H3 & Hl & ->).
    destruct (Htws t Lt) as (hs & ms & ss & ap & Hh & Hm & Hs & Ha & Hl' & ->).
    exists d1, d2, d3, hs, ms, ss, ap, g3, g4. conjs; auto; tauto. }
  destruct (exec androidRegex line) as [m2 |] eqn:E2.
  { injection H as <- <-.
    destruct (android_groups line m2 E2)
      as (d & t & g3 & g4 & G1 & G2 & G3 & G4 & Ld & Lt).
    destruct (Hslash d Ld) as (d1 & d2 & d3 & H1 & H2 & H3 & Hl & ->).
    destruct (Htns t Lt) as (hs & ms & ap & Hh & Hm & Ha & Hl' & ->).
    exists d1, d2, d3, hs, ms, None, ap, g3, g4.
    conjs; auto; try tauto; first [exact I | exact G1]. }
  destruct (exec isoRegex line) as [m3 |] eqn:E3; [| discriminate].
  injection H as <- <-.
  destruct (iso_groups line m3 E3)
    as (d & t & g3 & g4 & G1 & G2 & G3 & G4 & Ld & Lt).
  destruct (Hdash d Ld) as (d1 & d2 & d3 & H1 & H2 & H3 & Hl & ->).
  destruct (Htws t Lt) as (hs & ms & ss & ap & Hh & Hm & Hs & Ha & Hl' & ->).
  exists d1, d2, d3, hs, ms, ss, ap, g3, g4. conjs; auto; tauto.
Qed.

Lemma expectedDate_valid :
  forall fmt d1 d2 d3 hs ms ss ap,
    isDigits d1 -> isDigits d2 -> isDigits d3 ->
    isDigits hs -> isDigits ms -> secondsOK ss ->
    (length d1 <= 4 /\ length d2 <= 4 /\ length d3 <= 4
     /\ length hs <= 4 /\ length ms <= 4
     /\ match ss with Some s => length s <= 4 | None => True end)%nat ->
    expectedDate fmt d1 d2 d3 hs ms ss ap <> None.
Proof.
  intros fmt d1 d2 d3 hs ms ss ap H1 H2 H3 Hh Hm Hs (L1 & L2 & L3 & L4 & L5 & L6).
  pose proof (decimal_four_digits d1 H1 L1).
  pose proof (decimal_four_digits d2 H2 L2).
  pose proof (decimal_four_digits d3 H3 L3).
  pose proof (decimal_four_digits hs Hh L4).
  pose proof (decimal_four_digits ms Hm L5).
  assert (Hsec : 0 <= match ss with Some s => decimal s | None => 0 end < 10000).
  { destruct ss as [s |]; [apply decimal_four_digits; assumption | lia]. }
  assert (Hhour : 0 <= hour24 (option_map snd ap) (decimal hs) < 10012).
  { unfold hour24. destruct (option_map snd ap) as [[|] |];
      try destruct (decimal hs =? 12); lia. }
  unfold expectedDate.
  destruct fmt; cbn [dateFields];
    try destruct (decimal d3 <? 100); apply newDate_valid; lia.
Qed.

Lemma parseLine_valid :
  forall st rawLine st',
    parseLine st rawLine = Ok st' ->
    Forall (fun m => timestamp m <> None) (flush st) ->
    Forall (fun m => timestamp m <> None) (flush st').
Proof.
  intros [messages currentMessage] rawLine st'. unfold parseLine.
  destruct (length (trim rawLine) =? 0)%nat.
  { intro H. injection H as <-. auto. }
  destruct (matchLine (trim rawLine)) as [[fmt m] |] eqn:E.
  - destruct (matchLine_lengths _ _ _ E)
      as (d1 & d2 & d3 & hs & ms & ss & ap & g3 & g4 & H1 & H2 & H3 & Hh & Hm
          & Hs & Ha & Hl & G1 & G2 & G3 & G4).
    unfold group. rewrite G1, G2, G3, G4. cbn [bind].
    rewrite parseTimestamp_shape by assumption. cbn [bind].
    intro H. injection H as <-. unfold flush. cbn [fst snd]. intro HF.
    apply Forall_app. split.
    + destruct currentMessage; exact HF.
    + constructor; [| constructor]. cbn [timestamp].
      apply expectedDate_valid; assumption.
  - destruct currentMessage as [cm |]; intro H; injection H as <-; [| auto].
    unfold flush. cbn [fst snd]. intro HF.
    apply Forall_app in HF. destruct HF as [HF1 HF2].
    apply Forall_app. split; [exact HF1 |].
    inversion HF2; subst. constructor; [| constructor]. exact H1.
Qed.

Lemma parseLines_valid :
  forall lines st st',
    parseLines st lines = Ok st' ->
    Forall (fun m => timestamp m <> None) (flush st) ->
    Forall (fun m => timestamp m <> None) (flush st').
Proof.
  induction lines as [| l lines IH]; intros st st' H HF;
    cbn [parseLines] in H.
  - injection H as <-. exact HF.
  - destruct (parseLine st l) as [st1 |] eqn:E; [| discriminate].
    cbn [bind] in H. apply (IH _ _ H). apply (parseLine_valid _ _ _ E HF).
Qed.

(** X21.  Every message that the parser returns carries a valid date: the
    numbers of a timestamp line have at most four digits, and no date
    built from such numbers is out of the range of time values.  So no
    timestamp of the index is the Invalid Date. *)
Theorem parsed_dates_are_valid :
  forall (fileContent : jsstring) (messages : list (Message Date)),
    parseWhatsAppChat fileContent = Ok messages ->
    Forall (fun m => timestamp m <> None) messages.
Proof.
  intros fileContent messages. unfold parseWhatsAppChat.
  destruct ((length fileContent =? 0)%nat
            || (length (trim fileContent) =? 0)%nat); [discriminate |].
  destruct (parseLines ([], None) (split 10 fileContent)) as [st |] eqn:E;
    [| discriminate].
  cbn [bind]. destruct (length (flush st) =? 0)%nat; [discriminate |].
  intro H. injection H as <-.
  apply (parseLines_valid _ _ _ E). constructor.
Qed.

Lemma parsed_dates_are_valid_witness :
  exists messages,
    parseWhatsAppChat Examples.transcript = Ok messages
    /\ Forall (fun m => timestamp m <> None) messages.
Proof.
  destruct (parseWhatsAppChat Examples.transcript) as [messages | e] eqn:E.
  - exists messages. split; [reflexivity |].
    exact (parsed_dates_are_valid Examples.transcript messages E).
  - exfalso. revert E. vm_compute. discriminate.
Defined.

(* ================================================================== *)
(** ** Further properties: buckets, percentages and getters *)
(* ================================================================== *)

Lemma minutes_lt :
  forall ms k,
    0 < k ->
    jlt (jdiv (ofZ ms) (ofZ (60 * 1000))) (ofZ k) = (ms <? 60000 * k).
Proof.
  intros ms k Hk.
  assert (Hm : isQ (jdiv (ofZ ms) (ofZ (60 * 1000)))
                   (inject_Z ms / inject_Z 60000)).
  { apply isQ_jdiv; [apply isQ_ofZ | apply isQ_ofZ | discriminate]. }
  pose proof (isQ_jlt _ _ _ _ Hm (isQ_ofZ k)) as H.
  destruct (Z.ltb_spec ms (60000 * k)) as [L | L].
  - apply H. apply Qlt_shift_div_r; [reflexivity |].
    rewrite <- inject_Z_mult, <- Zlt_Qlt. lia.
  - destruct (jlt _ _); [| reflexivity].
    assert (G : (inject_Z ms / inject_Z 60000 < inject_Z k)%Q)
      by (apply H; reflexivity).
    exfalso. apply (Qlt_not_le _ _ G).
    apply Qle_shift_div_l; [reflexivity |].
    rewrite <- inject_Z_mult, <- Zle_Qle. lia.
Qed.

Lemma hours_lt :
  forall ms,
    jlt (jdiv (jdiv (ofZ ms) (ofZ (60 * 1000))) (ofZ 60)) (ofZ 1)
    = (ms <? 3600000).
Proof.
  intro ms.
  assert (Hm : isQ (jdiv (jdiv (ofZ ms) (ofZ (60 * 1000))) (ofZ 60))
                   (inject_Z ms / inject_Z 60000 / inject_Z 60)).
  { apply isQ_jdiv; [| apply isQ_ofZ | discriminate].
    apply isQ_jdiv; [apply isQ_ofZ | apply isQ_ofZ | discriminate]. }
  pose proof (isQ_jlt _ _ _ _ Hm (isQ_ofZ 1)) as H.
  destruct (Z.ltb_spec ms 3600000) as [L | L].
  - apply H. apply Qlt_shift_div_r; [reflexivity |].
    apply Qlt_shift_div_r; [reflexivity |].
    rewrite <- !inject_Z_mult, <- Zlt_Qlt. lia.
  - destruct (jlt _ _); [| reflexivity].
    assert (G : (inject_Z ms / inject_Z 60000 / inject_Z 60 < inject_Z 1)%Q)
      by (apply H; reflexivity).
    exfalso. apply (Qlt_not_le _ _ G).
    apply Qle_shift_div_l; [reflexivity |].
    apply Qle_shift_div_l; [reflexivity |].
    rewrite <- !inject_Z_mult, <- Zle_Qle. lia.
Qed.

Lemma getResponseTimeBucket_index :
  forall ms, getResponseTimeBucket ms = nth (bucketIndex ms) bucketLabels [].
Proof.
  intro ms. unfold getResponseTimeBucket, bucketIndex.
  rewrite !minutes_lt, hours_lt by lia.
  change (60000 * 1) with 60000. change (60000 * 5) with 300000.
  change (60000 * 30) with 1800000.
  destruct (ms <? 60000); [reflexivity |].
  destruct (ms <? 300000); [reflexivity |].
  destruct (ms <? 1800000); [reflexivity |].
  destruct (ms <? 3600000); reflexivity.
Qed.

Lemma distributionStep_index :
  forall d ms,
    distributionStep d ms
    = mkDistribution
        (underOneMinute d + if Nat.eqb (bucketIndex ms) 0 then 1 else 0)
        (oneToFiveMinutes d + if Nat.eqb (bucketIndex ms) 1 then 1 else 0)
        (fiveToThirtyMinutes d + if Nat.eqb (bucketIndex ms) 2 then 1 else 0)
        (thirtyMinutesToOneHour d
         + if Nat.eqb (bucketIndex ms) 3 then 1 else 0)
        (oneHourOrMore d + if Nat.eqb (bucketIndex ms) 4 then 1 else 0).
Proof.
  intros d ms. unfold distributionStep, bucketIndex.
  rewrite !minutes_lt, hours_lt by lia.
  change (60000 * 1) with 60000. change (60000 * 5) with 300000.
  change (60000 * 30) with 1800000.
  destruct (ms <? 60000); [cbn [Nat.eqb]; f_equal; lia |].
  destruct (ms <? 300000); [cbn [Nat.eqb]; f_equal; lia |].
  destruct (ms <? 1800000); [cbn [Nat.eqb]; f_equal; lia |].
  destruct (ms <? 3600000); cbn [Nat.eqb]; f_equal; lia.
Qed.

Lemma distribution_fold :
  forall times d,
    fold_left distributionStep times d
    = mkDistribution
        (underOneMinute d + inBucket 0 times)
        (oneToFiveMinutes d + inBucket 1 times)
        (fiveToThirtyMinutes d + inBucket 2 times)
        (thirtyMinutesToOneHour d + inBucket 3 times)
        (oneHourOrMore d + inBucket 4 times).
Proof.
  induction times as [| ms times IH]; intro d; cbn [fold_left].
  - destruct d. unfold inBucket. cbn. f_equal; lia.
  - rewrite IH, distributionStep_index. unfold inBucket.
    cbn [underOneMinute oneToFiveMinutes fiveToThirtyMinutes
         thirtyMinutesToOneHour oneHourOrMore filter].
    f_equal;
      match goal with
      | |- context [Nat.eqb (bucketIndex ms) ?i] =>
          destruct (Nat.eqb (bucketIndex ms) i)
      end; cbn [length]; lia.
Qed.

Lemma bucketIndex_range : forall ms, (bucketIndex ms < 5)%nat.
Proof.
  intro ms. unfold bucketIndex.
  destruct (ms <? 60000); [lia |]. destruct (ms <? 300000); [lia |].
  destruct (ms <? 1800000); [lia |]. destruct (ms <? 3600000); lia.
Qed.

(** X22.  A response time has the bucket '<1m' below one minute, '1-5m'
    from one minute to below five, '5-30m' from five minutes to below
    thirty, '30m-1h' from thirty minutes to below one hour and '1h+' from
    one hour on, [getResponseTimeBucket] and the distribution of a
    participant agreeing on the bounds; each entry of the distribution
    counts the response times of its bucket, and the five entries add up
    to the number of response times. *)
Theorem response_time_buckets :
  forall p : ParticipantData,
    let d := getResponseTimeDistribution p in
    (forall ms,
        getResponseTimeBucket ms = nth (bucketIndex ms) bucketLabels [])
    /\ underOneMinute d = inBucket 0 (responseTimes p)
    /\ oneToFiveMinutes d = inBucket 1 (responseTimes p)
    /\ fiveToThirtyMinutes d = inBucket 2 (responseTimes p)
    /\ thirtyMinutesToOneHour d = inBucket 3 (responseTimes p)
    /\ oneHourOrMore d = inBucket 4 (responseTimes p)
    /\ underOneMinute d + oneToFiveMinutes d + fiveToThirtyMinutes d
       + thirtyMinutesToOneHour d + oneHourOrMore d
       = Z.of_nat (length (responseTimes p)).
Proof.
  intros p d. split; [exact getResponseTimeBucket_index |].
  unfold d, getResponseTimeDistribution. rewrite distribution_fold.
  cbn [underOneMinute oneToFiveMinutes fiveToThirtyMinutes
       thirtyMinutesToOneHour oneHourOrMore].
  conjs; try reflexivity.
  pose proof (count_by_key bucketIndex 5 (responseTimes p) bucketIndex_range)
    as H.
  cbn [seq map] in H. rewrite !sumZ_cons in H. unfold inBucket.
  change (sumZ []) with 0 in H. lia.
Qed.

(** X23.  [calculatePercentage] is guarded: with the total 0 the result is
    0, whatever the part is; and for whole numbers with the part between 0
    and a total that is not 0, the result is a finite number between 0 and
    100. *)
Theorem calculatePercentage_is_guarded :
  (forall part : jsnum, calculatePercentage part (ofZ 0) = ofZ 0)
  /\ (forall part total : Z,
         0 <= part <= total -> 0 < total ->
         within 0 100 (calculatePercentage (ofZ part) (ofZ total))).
Proof.
  split; [intro part; reflexivity |].
  intros part total Hp Ht. unfold calculatePercentage.
  assert (Hz : isZero (ofZ total) = false).
  { unfold isZero, ofZ.
    pose proof (signQ_inject_Z total ltac:(lia)).
    destruct (signQ (inject_Z total)); congruence. }
  rewrite Hz.
  assert (HT : (0 < inject_Z total)%Q).
  { change (inject_Z 0 < inject_Z total)%Q. rewrite <- Zlt_Qlt. exact Ht. }
  assert (Hq : ~ (inject_Z total == 0)%Q).
  { intro H. rewrite H in HT. exact (Qlt_irrefl _ HT). }
  assert (L : (0 <= inject_Z part / inject_Z total)%Q).
  { apply Qle_shift_div_l; [exact HT |]. rewrite Qmult_0_l.
    change (inject_Z 0 <= inject_Z part)%Q. rewrite <- Zle_Qle. lia. }
  assert (U : (inject_Z part / inject_Z total <= 1)%Q).
  { apply Qle_shift_div_r; [exact HT |]. rewrite Qmult_1_l.
    rewrite <- Zle_Qle. lia. }
  destruct (isQ_jmul _ _ _ _
              (isQ_jdiv _ _ _ _ (isQ_ofZ part) (isQ_ofZ total) Hq)
              (isQ_ofZ 100)) as (q & E & Hv).
  exists q. split; [exact E |]. rewrite Hv.
  set (r := (inject_Z part / inject_Z total)%Q) in *.
  unfold inject_Z. split; lra.
Qed.

(** X24.  [getCached] memoizes: a second call with the same key returns
    the value of the first call, whatever function it is given, and leaves
    the cache as it is; the value is the one already cached, or else the
    one computed; the other keys are not touched; and after
    [invalidateCache] the value is computed anew. *)
Theorem getCached_memoizes :
  forall (V : Type) (cache : JSMap V) (key : jsstring)
         (computeFn other : unit -> V),
    let first := getCached cache key computeFn in
    let second := getCached (snd first) key other in
    fst first
    = Some (match mapGet key cache with
            | Some v => v
            | None => computeFn tt
            end)
    /\ fst second = fst first
    /\ snd second = snd first
    /\ (forall k, k <> key -> mapGet k (snd first) = mapGet k cache)
    /\ fst (getCached (invalidateCache (snd first)) key other)
       = Some (other tt).
Proof.
  intros V cache key computeFn other first second.
  unfold second, first, getCached, mapHas, invalidateCache.
  destruct (mapGet key cache) as [v |] eqn:E; cbn [negb fst snd].
  - rewrite E. cbn [negb]. rewrite E. conjs; try reflexivity.
    cbn. rewrite jsstring_eqb_refl. reflexivity.
  - rewrite mapGet_mapSet, jsstring_eqb_refl. cbn [negb].
    rewrite mapGet_mapSet, jsstring_eqb_refl. conjs; try reflexivity.
    + intros k Hk. rewrite mapGet_mapSet.
      destruct (jsstring_eqb key k) eqn:Ek; [| reflexivity].
      apply jsstring_eqb_eq in Ek. congruence.
    + cbn. rewrite jsstring_eqb_refl. reflexivity.
Qed.

(** *** Sorted getters: the median and the top emojis *)

Lemma sortBy_sorted :
  forall {A : Type} (le : A -> A -> bool),
    (forall a b, le a b = false -> le b a = true) ->
    (forall a b c, le a b = true -> le b c = true -> le a c = true) ->
    forall l, StronglySorted (fun a b => le a b = true) (sortBy le l).
Proof.
  intros A le Htotal Htrans l. induction l as [| x l IH]; [constructor |].
  cbn [sortBy fold_right]. fold (sortBy le l).
  revert IH. generalize (sortBy le l) as s. clear l. intros s Hs.
  induction Hs as [| y s Hs IH Hy]; cbn [insertSorted].
  - constructor; constructor.
  - destruct (le x y) eqn:E.
    + constructor; [constructor; assumption |].
      constructor; [exact E |].
      apply Forall_impl with (2 := Hy). intros z Hz. exact (Htrans _ _ _ E Hz).
    + constructor; [exact IH |].
      apply Forall_forall. intros z Hz. apply In_insertSorted in Hz.
      destruct Hz as [-> | Hz]; [exact (Htotal _ _ E) |].
      rewrite Forall_forall in Hy. exact (Hy z Hz).
Qed.

Lemma sorted_numbers :
  forall l : list Z,
    StronglySorted Z.le (sortBy (fun a b => a - b <=? 0) l).
Proof.
  intro l.
  pose proof (sortBy_sorted (fun a b => a - b <=? 0)) as H.
  assert (H' : StronglySorted (fun a b => (a - b <=? 0) = true)
                              (sortBy (fun a b => a - b <=? 0) l)).
  { apply H.
    - intros a b E. apply Z.leb_gt in E. apply Z.leb_le. lia.
    - intros a b c E1 E2. apply Z.leb_le in E1, E2. apply Z.leb_le. lia. }
  revert H'. generalize (sortBy (fun a b => a - b <=? 0) l) as s.
  intros s Hs. induction Hs as [| y s Hs IH Hy]; constructor; [exact IH |].
  apply Forall_impl with (2 := Hy). intros z Hz. apply Z.leb_le in Hz. lia.
Qed.

(** In a sorted list the elements up to a position are at most the element
    there, and the elements from it on are at least that element. *)
Lemma sorted_nth_le :
  forall (s : list Z) (i j : nat),
    StronglySorted Z.le s -> (i <= j < length s)%nat ->
    nth i s 0 <= nth j s 0.
Proof.
  intros s i j Hs. revert i j. induction Hs as [| y s Hs IH Hy];
    intros i j Hij; [simpl in Hij; lia |].
  destruct i as [| i], j as [| j]; cbn [nth]; try lia.
  - rewrite Forall_forall in Hy. apply Hy, nth_In. simpl in Hij. lia.
  - apply IH. simpl in Hij. lia.
Qed.

Lemma count_firstn :
  forall (f : Z -> bool) (s : list Z) (k : nat),
    (k <= length s)%nat ->
    (forall i, (i < k)%nat -> f (nth i s 0) = true) ->
    (k <= length (filter f s))%nat.
Proof.
  intros f s. induction s as [| x s IH]; intros k Hk H.
  - simpl in Hk. simpl. lia.
  - destruct k as [| k]; [lia |]. cbn [filter].
    pose proof (H 0%nat ltac:(lia)) as Hx. cbn [nth] in Hx. rewrite Hx.
    cbn [length].
    apply le_n_S, IH; [simpl in Hk; lia |].
    intros i Hi. apply (H (S i)). lia.
Qed.

Lemma count_skipn :
  forall (f : Z -> bool) (s : list Z) (k : nat),
    (k <= length s)%nat ->
    (forall i, (k <= i < length s)%nat -> f (nth i s 0) = true) ->
    (length s - k <= length (filter f s))%nat.
Proof.
  intros f s. induction s as [| x s IH]; intros k Hk H.
  - simpl. lia.
  - destruct k as [| k].
    + cbn [filter].
      pose proof (H 0%nat ltac:(simpl; lia)) as Hx. cbn [nth] in Hx.
      rewrite Hx. cbn [length].
      specialize (IH 0%nat ltac:(lia)).
      assert (forall i, (0 <= i < length s)%nat -> f (nth i s 0) = true).
      { intros i Hi. apply (H (S i)). simpl. lia. }
      specialize (IH H0). lia.
    + cbn [length]. simpl in Hk.
      specialize (IH k ltac:(lia)).
      assert (forall i, (k <= i < length s)%nat -> f (nth i s 0) = true).
      { intros i Hi. apply (H (S i)). simpl. lia. }
      specialize (IH H0). cbn [filter]. destruct (f x); cbn [length]; lia.
Qed.

Lemma half_cases :
  forall n : nat,
    (n mod 2 = 0 /\ n = 2 * (n / 2))%nat
    \/ (n mod 2 = 1 /\ n = 2 * (n / 2) + 1)%nat.
Proof.
  intro n. pose proof (Nat.div_mod_eq n 2) as H.
  pose proof (Nat.mod_upper_bound n 2 ltac:(lia)) as Hm.
  destruct (n mod 2)%nat as [| [| k]]; [left | right |]; lia.
Qed.

(** X25.  The median response time is 0 without samples and otherwise a
    finite number of which at least half of the samples are at most, and at
    least half are at least; with an odd number of samples it is one of
    them. *)
Theorem median_splits_the_samples :
  forall p : ParticipantData,
    match responseTimes p with
    | [] => getMedianResponseTime p = ofZ 0
    | _ :: _ =>
        exists q : Q,
          isQ (getMedianResponseTime p) q
          /\ (length (responseTimes p)
              <= 2 * length (filter (fun d => Qle_bool (inject_Z d) q)
                                    (responseTimes p)))%nat
          /\ (length (responseTimes p)
              <= 2 * length (filter (fun d => Qle_bool q (inject_Z d))
                                    (responseTimes p)))%nat
          /\ (Nat.odd (length (responseTimes p)) = true ->
              exists d, In d (responseTimes p) /\ (q == inject_Z d)%Q)
    end.
Proof.
  intro p. unfold getMedianResponseTime.
  destruct (responseTimes p) as [| t ts] eqn:Et; [reflexivity |].
  rewrite <- Et. set (times := responseTimes p) in *.
  assert (Hne : (0 < length times)%nat) by (rewrite Et; simpl; lia).
  assert (E0 : (length times =? 0)%nat = false) by (apply Nat.eqb_neq; lia).
  rewrite E0.
  pose proof (sorted_numbers times) as Hs.
  pose proof (length_sortBy (fun a b => a - b <=? 0) times) as Hl.
  set (s := sortBy (fun a b => a - b <=? 0) times) in *.
  rewrite Hl. set (n := length times) in *.
  assert (Hcount : forall f, length (filter f times) = length (filter f s)).
  { intro f. unfold s. symmetry. apply filter_length_sortBy. }
  destruct (half_cases n) as [[Hm Hn] | [Hm Hn]]; rewrite Hm;
    cbn [Nat.eqb].
  - (* an even number of samples *)
    set (a := nth (n / 2 - 1) s 0). set (b := nth (n / 2) s 0).
    assert (Hab : a <= b) by (apply sorted_nth_le; [exact Hs | lia]).
    exists (inject_Z (a + b) / inject_Z 2)%Q.
    assert (Hlo : (inject_Z a <= inject_Z (a + b) / inject_Z 2)%Q).
    { apply Qle_shift_div_l; [reflexivity |].
      rewrite <- inject_Z_mult, <- Zle_Qle. lia. }
    assert (Hhi : (inject_Z (a + b) / inject_Z 2 <= inject_Z b)%Q).
    { apply Qle_shift_div_r; [reflexivity |].
      rewrite <- inject_Z_mult, <- Zle_Qle. lia. }
    split; [apply isQ_jdiv; [apply isQ_ofZ | apply isQ_ofZ | discriminate] |].
    split; [| split].
    + rewrite Hcount.
      assert (G : (n / 2 <= length (filter
                                      (fun d => Qle_bool (inject_Z d)
                                                  (inject_Z (a + b) / inject_Z 2))
                                      s))%nat).
      { apply count_firstn; [lia |]. intros i Hi.
        apply Qle_bool_iff. apply Qle_trans with (2 := Hlo).
        rewrite <- Zle_Qle. apply sorted_nth_le; [exact Hs | lia]. }
      lia.
    + rewrite Hcount.
      assert (G : (length s - n / 2
                   <= length (filter
                                (fun d => Qle_bool
                                            (inject_Z (a + b) / inject_Z 2)
                                            (inject_Z d)) s))%nat).
      { apply count_skipn; [lia |]. intros i Hi.
        apply Qle_bool_iff. apply Qle_trans with (1 := Hhi).
        rewrite <- Zle_Qle. apply sorted_nth_le; [exact Hs | lia]. }
      lia.
    + intro Hodd. exfalso. rewrite <- Nat.negb_even in Hodd.
      apply negb_true_iff in Hodd.
      assert (Nat.even n = true)
        by (apply Nat.even_spec; exists (n / 2)%nat; lia).
      congruence.
  - (* an odd number of samples *)
    set (c := nth (n / 2) s 0).
    exists (inject_Z c). split; [apply isQ_ofZ |].
    split; [| split].
    + rewrite Hcount.
      assert (G : (n / 2 + 1
                   <= length (filter (fun d => Qle_bool (inject_Z d) (inject_Z c))
                                     s))%nat).
      { apply count_firstn; [lia |]. intros i Hi.
        apply Qle_bool_iff. rewrite <- Zle_Qle.
        apply sorted_nth_le; [exact Hs | lia]. }
      lia.
    + rewrite Hcount.
      assert (G : (length s - n / 2
                   <= length (filter (fun d => Qle_bool (inject_Z c) (inject_Z d))
                                     s))%nat).
      { apply count_skipn; [lia |]. intros i Hi.
        apply Qle_bool_iff. rewrite <- Zle_Qle.
        apply sorted_nth_le; [exact Hs | lia]. }
      lia.
    + intros _. exists c. split; [| apply Qeq_refl].
      apply (In_sortBy (fun a b => a - b <=? 0)). fold s.
      apply nth_In. lia.
Qed.

Lemma sorted_app :
  forall {A : Type} (R : A -> A -> Prop) (l1 l2 : list A),
    StronglySorted R (l1 ++ l2) ->
    StronglySorted R l1
    /\ forall a b, In a l1 -> In b l2 -> R a b.
Proof.
  intros A R l1 l2. induction l1 as [| x l1 IH]; cbn [app]; intro H.
  - split; [constructor | intros a b []].
  - inversion H as [| ? ? Hs Hx]; subst. destruct (IH Hs) as [H1 H2].
    rewrite Forall_forall in Hx. split.
    + constructor; [exact H1 |]. apply Forall_forall. intros y Hy.
      apply Hx. apply in_or_app. left. exact Hy.
    + intros a b [<- | Ha] Hb; [| exact (H2 a b Ha Hb)].
      apply Hx. apply in_or_app. right. exact Hb.
Qed.

(** X26.  [getTopEmojis] returns the [n] entries of the emoji histogram
    with the greatest counts, or all of them when there are fewer, in
    descending order of count: no entry that is left out has a greater count
    than an entry that is returned. *)
Theorem top_emojis_are_the_greatest :
  forall (p : ParticipantData) (n : nat),
    let top := getTopEmojis p n in
    length top = Nat.min n (length (topEmojis p))
    /\ StronglySorted (fun a b => snd b <= snd a) top
    /\ exists rest,
         (forall e, In e (topEmojis p) <-> In e top \/ In e rest)
         /\ (forall e e', In e top -> In e' rest -> snd e' <= snd e)
         /\ (length top + length rest = length (topEmojis p))%nat.
Proof.
  intros p n top. unfold top, getTopEmojis.
  assert (Hs : StronglySorted (fun a b => snd b <= snd a)
                              (sortBy byCountDesc (topEmojis p))).
  { assert (H : StronglySorted (fun a b => byCountDesc a b = true)
                               (sortBy byCountDesc (topEmojis p))).
    { apply sortBy_sorted; unfold byCountDesc.
      - intros a b E. apply Z.leb_gt in E. apply Z.leb_le. lia.
      - intros a b c E1 E2. apply Z.leb_le in E1, E2. apply Z.leb_le. lia. }
    revert H. generalize (sortBy byCountDesc (topEmojis p)) as s.
    intros s H. induction H as [| y s H IH Hy]; constructor; [exact IH |].
    apply Forall_impl with (2 := Hy). intros z Hz. unfold byCountDesc in Hz.
    apply Z.leb_le in Hz. lia. }
  pose proof (length_sortBy byCountDesc (topEmojis p)) as Hl.
  pose proof (firstn_skipn n (sortBy byCountDesc (topEmojis p))) as Hsplit.
  rewrite <- Hsplit in Hs. apply sorted_app in Hs. destruct Hs as [Hs1 Hs2].
  split; [rewrite length_firstn, Hl; reflexivity |].
  split; [exact Hs1 |].
  exists (skipn n (sortBy byCountDesc (topEmojis p))).
  split; [| split].
  - intro e. rewrite <- (In_sortBy byCountDesc e (topEmojis p)).
    rewrite <- Hsplit at 1. apply in_app_iff.
  - intros e e' He He'. exact (Hs2 e e' He He').
  - rewrite <- Hl. rewrite <- Hsplit at 3. rewrite length_app. reflexivity.
Qed.

(** *** Sentiment *)

Lemma clamp_range :
  forall x : Q, (- (1 # 1) <= qmax (- (1 # 1)) (qmin (1 # 1) x) <= 1 # 1)%Q.
Proof.
  intro x. unfold qmax, qmin, qlt.
  destruct (Qcompare_spec x (1 # 1)) as [E | E | E];
    match goal with
    | |- context [Qcompare ?a ?b] => destruct (Qcompare_spec a b) as [G | G | G]
    end;
    split; try discriminate; try apply Qle_refl;
    try (apply Qlt_le_weak; assumption);
    try (rewrite <- G; discriminate);
    try (rewrite G; discriminate).
Qed.

Section SentimentRange.
Variable Sentiment : option (jsstring -> option Q).

Lemma analyzeMessageSentiment_range :
  forall text,
    (- (1 # 1) <= analyzeMessageSentiment Sentiment text <= 1 # 1)%Q.
Proof.
  intro text. unfold analyzeMessageSentiment.
  destruct ((length text =? 0)%nat || (length (trim text) =? 0)%nat);
    [split; discriminate |].
  destruct Sentiment as [analyze |]; [| split; discriminate].
  destruct (analyze text); [apply clamp_range | split; discriminate].
Qed.

Lemma sentimentStep_balanced :
  forall st m,
    balanced st ->
    balanced (sentimentStep Sentiment st m)
    /\ length (scoredMessages (sentimentStep Sentiment st m))
       = (length (scoredMessages st) + if scored m then 1 else 0)%nat.
Proof.
  intros st m (Hsum & Hp & Hn & Hz & Hlo & Hhi). unfold sentimentStep, scored.
  destruct ((length (content m) =? 0)%nat
            || (length (trim (content m)) =? 0)%nat); cbn [negb andb].
  { split; [repeat split; assumption | lia]. }
  destruct (MAX_LENGTH <? length (content m))%nat; cbn [negb].
  { split; [repeat split; assumption | lia]. }
  pose proof (analyzeMessageSentiment_range (content m)) as [Hs1 Hs2].
  set (sc := analyzeMessageSentiment Sentiment (content m)) in *.
  split; [| cbn [scoredMessages]; rewrite length_app; cbn [length]; lia].
  unfold balanced.
  cbn [positiveCount negativeCount neutralCount scoredMessages totalScore].
  rewrite length_app. cbn [length].
  replace (Z.of_nat (length (scoredMessages st) + 1))
    with (Z.of_nat (length (scoredMessages st)) + 1) by lia.
  rewrite inject_Z_plus.
  split; [destruct (qlt (5 # 100) sc); [lia |];
          destruct (qlt sc (- (5 # 100))); lia |].
  split; [destruct (qlt (5 # 100) sc); lia |].
  split; [destruct (qlt (5 # 100) sc); [lia |];
          destruct (qlt sc (- (5 # 100))); lia |].
  split; [destruct (qlt (5 # 100) sc); [lia |];
          destruct (qlt sc (- (5 # 100))); lia |].
  rewrite Qred_correct. split.
  - rewrite Qopp_plus. apply Qplus_le_compat; assumption.
  - apply Qplus_le_compat; assumption.
Qed.

Lemma sentiment_fold_balanced :
  forall l st,
    balanced st ->
    balanced (fold_left (sentimentStep Sentiment) l st)
    /\ length (scoredMessages (fold_left (sentimentStep Sentiment) l st))
       = (length (scoredMessages st) + length (filter scored l))%nat.
Proof.
  induction l as [| m l IH]; intros st H; cbn [fold_left filter].
  - split; [exact H | cbn; lia].
  - destruct (sentimentStep_balanced st m H) as [H1 H2].
    destruct (IH _ H1) as [G1 G2]. split; [exact G1 |].
    rewrite G2, H2. destruct (scored m); cbn [length]; lia.
Qed.

(** X27.  For a participant of the index the positive, the negative and
    the neutral count of [analyzeSentiment] add up to the number of
    messages that are scored (text that is not blank, of at most 200 code
    units); the overall score lies between -1 and 1; and each of the two
    top lists has at most five entries, all of positive score in the one
    and of negative score in the other.  For a name that is not in the
    index the result is the empty one. *)
Theorem sentiment_counts_and_range :
  forall (cd : ChatData) (participantName : jsstring),
    let r := analyzeSentiment Sentiment cd participantName in
    match getParticipant cd participantName with
    | None => r = emptySentiment
    | Some p =>
        positive r + negative r + neutral r
        = Z.of_nat (length (filter scored (messages p)))
        /\ 0 <= positive r /\ 0 <= negative r /\ 0 <= neutral r
        /\ (- (1 # 1) <= overall r <= 1 # 1)%Q
        /\ (length (topPositive r) <= 5)%nat
        /\ Forall (fun m => (0 < score m)%Q) (topPositive r)
        /\ (length (topNegative r) <= 5)%nat
        /\ Forall (fun m => (score m < 0)%Q) (topNegative r)
    end.
Proof.
  intros cd participantName r. unfold r, analyzeSentiment.
  destruct (getParticipant cd participantName) as [p |]; [| reflexivity].
  unfold sentimentOf.
  cbn [positive negative neutral overall topPositive topNegative].
  assert (H0 : balanced (mkSentimentState (0 # 1) 0 0 0 [] [])).
  { unfold balanced. cbn. repeat split; try lia; discriminate. }
  destruct (sentiment_fold_balanced (sortMessages (messages p)) _ H0)
    as [(Hsum & Hp & Hn & Hz & Hlo & Hhi) Hlen].
  set (st := fold_left (sentimentStep Sentiment) (sortMessages (messages p))
                       (mkSentimentState (0 # 1) 0 0 0 [] [])) in *.
  cbn [scoredMessages length Nat.add] in Hlen.
  assert (Hcount : length (scoredMessages st)
                   = length (filter scored (messages p))).
  { rewrite Hlen. unfold sortMessages. apply filter_length_sortBy. }
  assert (Hle : (length (scoredMessages st) <= length (sortMessages (messages p)))%nat).
  { rewrite Hlen. apply filter_length_le. }
  split; [rewrite Hsum, Hcount; reflexivity |].
  split; [exact Hp |]. split; [exact Hn |]. split; [exact Hz |].
  split; [| split; [| split; [| split]]].
  - destruct (length (sortMessages (messages p))) as [| k] eqn:Ek;
      cbn [Nat.ltb Nat.leb]; [split; discriminate |].
    rewrite Qred_correct.
    assert (Hk : (0 < inject_Z (Z.of_nat (S k)))%Q).
    { change (inject_Z 0 < inject_Z (Z.of_nat (S k)))%Q.
      rewrite <- Zlt_Qlt. lia. }
    assert (Hb : (inject_Z (Z.of_nat (length (scoredMessages st)))
                  <= inject_Z (Z.of_nat (S k)))%Q).
    { rewrite <- Zle_Qle. lia. }
    split.
    + apply Qle_shift_div_l; [exact Hk |].
      apply Qle_trans with (2 := Hlo).
      setoid_replace (- (1 # 1) * inject_Z (Z.of_nat (S k)))%Q
        with (- inject_Z (Z.of_nat (S k)))%Q by ring.
      apply Qopp_le_compat. exact Hb.
    + apply Qle_shift_div_r; [exact Hk |]. rewrite Qmult_1_l.
      apply Qle_trans with (1 := Hhi). exact Hb.
  - apply Nat.le_trans with (1 := filter_length_le _ _).
    rewrite length_firstn. lia.
  - apply Forall_forall. intros m Hm. apply filter_In in Hm.
    destruct Hm as [_ Hm]. unfold qlt in Hm.
    destruct (Qcompare_spec (0 # 1) (score m)); try discriminate. assumption.
  - apply Nat.le_trans with (1 := filter_length_le _ _).
    rewrite length_rev, length_skipn. lia.
  - apply Forall_forall. intros m Hm. apply filter_In in Hm.
    destruct Hm as [_ Hm]. unfold qlt in Hm.
    destruct (Qcompare_spec (score m) (0 # 1)); try discriminate. assumption.
Qed.

End SentimentRange.

(* ================================================================== *)
(** ** Further properties: the index after the statistics passes *)
(* ================================================================== *)

Lemma updateParticipant_keys :
  forall cd n f,
    map fst (participants (updateParticipant cd n f))
    = map fst (participants cd).
Proof.
  intros cd n f. unfold updateParticipant, getParticipant.
  destruct (mapGet n (participants cd)) as [p |] eqn:E; [| reflexivity].
  cbn [participants]. rewrite mapSet_keys. unfold setAddString.
  rewrite mapHas_keys. unfold mapHas. rewrite E. reflexivity.
Qed.

Lemma responseLoop_keys :
  forall s cd,
    map fst (participants (responseLoop s cd)) = map fst (participants cd).
Proof.
  induction s as [| cur later IH]; intro cd; cbn [responseLoop];
    [reflexivity |].
  rewrite IH. case_find nxt Ef; [| reflexivity].
  destruct (isValidResponseTime _); [| reflexivity].
  apply updateParticipant_keys.
Qed.

Lemma startersLoop_keys :
  forall rest previousMsg cd,
    map fst (participants (startersLoop previousMsg rest cd))
    = map fst (participants cd).
Proof.
  induction rest as [| m rest IH]; intros previousMsg cd;
    cbn [startersLoop]; [reflexivity |].
  rewrite IH. destruct (isNewConversation _); [| reflexivity].
  apply updateParticipant_keys.
Qed.

Lemma starters_keys :
  forall msgs cd,
    map fst (participants (calculateConversationStarters msgs cd))
    = map fst (participants cd).
Proof.
  intros msgs cd. unfold calculateConversationStarters.
  destruct (sortMessages msgs) as [| first rest]; [reflexivity |].
  rewrite startersLoop_keys. apply updateParticipant_keys.
Qed.

Lemma burst_keys :
  forall s st,
    map fst (participants (fst (fst (fold_left burstStep s st))))
    = map fst (participants (fst (fst st))).
Proof.
  induction s as [| m s IH]; intros [[cd cur] bc]; cbn [fold_left];
    [reflexivity |].
  rewrite IH. unfold burstStep. cbn [fst].
  match goal with |- context [if ?c then _ else cd] => destruct c end;
    [apply updateParticipant_keys | reflexivity].
Qed.

Lemma calculateAllStatistics_keys :
  forall cd,
    map fst (participants (calculateAllStatistics cd))
    = map fst (participants cd).
Proof.
  intro cd. unfold calculateAllStatistics, calculateMessageBursts,
    calculateResponseTimes.
  rewrite burst_keys. cbn [fst]. rewrite starters_keys, responseLoop_keys.
  reflexivity.
Qed.

Lemma mapGet_absent :
  forall {V : Type} (k : jsstring) (m : JSMap V),
    ~ In k (map fst m) -> mapGet k m = None.
Proof.
  intros V k m H. induction m as [| [k0 v0] m IH]; [reflexivity |].
  cbn [mapGet]. destruct (jsstring_eqb k0 k) eqn:E.
  - apply jsstring_eqb_eq in E. subst k0. exfalso. apply H. left. reflexivity.
  - apply IH. intro Hin. apply H. right. exact Hin.
Qed.

(** Two maps with the same keys, each once, are related entry by entry
    when their lookups are. *)
Lemma map_pointwise :
  forall {V : Type} (F : jsstring -> V -> V) (m m' : JSMap V),
    map fst m' = map fst m -> NoDup (map fst m) ->
    (forall k, mapGet k m' = option_map (F k) (mapGet k m)) ->
    m' = map (fun e => (fst e, F (fst e) (snd e))) m.
Proof.
  intros V F m. induction m as [| [k0 v0] m IH]; intros m' Hk Hnd Hget.
  - destruct m'; [reflexivity | discriminate].
  - destruct m' as [| [k1 v1] m']; [discriminate |].
    cbn [map fst] in Hk. injection Hk as -> Hk.
    cbn [map fst] in Hnd. inversion Hnd as [| ? ? Hnot Hnd']; subst.
    cbn [map fst snd]. f_equal.
    + pose proof (Hget k0) as H. cbn [mapGet] in H.
      rewrite jsstring_eqb_refl in H. cbn [option_map] in H. congruence.
    + apply IH; [exact Hk | exact Hnd' |]. intro k.
      destruct (jsstring_eqb k0 k) eqn:E.
      * apply jsstring_eqb_eq in E. subst k.
        rewrite !mapGet_absent; [reflexivity | exact Hnot |].
        rewrite Hk. exact Hnot.
      * pose proof (Hget k) as H. cbn [mapGet] in H. rewrite E in H. exact H.
Qed.

Section AfterPasses.
Variable pictographic : N -> bool.

(** The participants after the three passes over a freshly loaded index. *)
Lemma participants_after_passes :
  forall msgs : list Msg,
    let cd := loadMessages pictographic newChatData msgs in
    let s := sortMessages (kept msgs) in
    getAllParticipants (calculateAllStatistics cd)
    = map (fun p => addStatistics p
                      (responseSamples s (name p))
                      (countStarts (name p) s (startFlags None s))
                      (countStarts (name p) s (repeatFlags None s)))
          (getAllParticipants cd).
Proof.
  intros msgs cd s.
  destruct (loadMessages_participants pictographic msgs) as [Hk Hn].
  fold cd in Hk, Hn.
  pose proof (map_pointwise
                (fun k p => addStatistics p
                              (responseSamples s k)
                              (countStarts k s (startFlags None s))
                              (countStarts k s (repeatFlags None s)))
                (participants cd) (participants (calculateAllStatistics cd))
                (calculateAllStatistics_keys cd)) as H.
  unfold getAllParticipants. rewrite H.
  - rewrite !map_map. apply map_ext_in. intros [k p] Hin. cbn [fst snd].
    rewrite Forall_forall in Hn. pose proof (Hn _ Hin) as E.
    cbn [fst snd] in E. rewrite E. reflexivity.
  - rewrite Hk. apply NoDup_participantSet.
  - intro k.
    pose proof (passes_compose cd k) as G.
    cbv zeta in G. destruct G as [G _].
    replace (chatMessages cd) with (kept msgs) in G
      by (symmetry; apply loadMessages_chatMessages).
    exact G.
Qed.

End AfterPasses.
(* ================================================================== *)
(** ** Further properties: starters and conversations *)
(* ================================================================== *)

Lemma fold_plus :
  forall {A : Type} (f : A -> Z) (l : list A) (a : Z),
    fold_left (fun sum p => sum + f p) l a = a + sumZ (map f l).
Proof.
  intros A f l. induction l as [| x l IH]; intro a; cbn [fold_left map].
  - change (sumZ []) with 0. lia.
  - rewrite IH, sumZ_cons. lia.
Qed.

Lemma sum_zeros :
  forall {A : Type} (l : list A), sumZ (map (fun _ => 0) l) = 0.
Proof.
  intros A l. induction l as [| x l IH]; [reflexivity |].
  cbn [map]. rewrite sumZ_cons, IH. reflexivity.
Qed.

Lemma name_indicator_absent :
  forall (k : jsstring) (keys : list jsstring),
    ~ In k keys ->
    sumZ (map (fun n => if jsstring_eqb k n then 1 else 0) keys) = 0.
Proof.
  intros k keys. induction keys as [| n keys IH]; intro H; [reflexivity |].
  cbn [map]. rewrite sumZ_cons, IH by (intro G; apply H; right; exact G).
  destruct (jsstring_eqb k n) eqn:E; [| reflexivity].
  apply jsstring_eqb_eq in E. exfalso. apply H. left. congruence.
Qed.

(** A name occurs once among keys without repetition. *)
Lemma name_indicator :
  forall (k : jsstring) (keys : list jsstring),
    NoDup keys -> In k keys ->
    sumZ (map (fun n => if jsstring_eqb k n then 1 else 0) keys) = 1.
Proof.
  intros k keys Hnd. induction Hnd as [| n keys Hnot Hnd IH]; intro Hin;
    [destruct Hin |].
  cbn [map]. rewrite sumZ_cons. destruct (jsstring_eqb k n) eqn:E.
  - apply jsstring_eqb_eq in E. subst n.
    rewrite name_indicator_absent by exact Hnot. reflexivity.
  - apply jsstring_eqb_neq in E. destruct Hin as [-> | Hin]; [congruence |].
    rewrite IH by exact Hin. reflexivity.
Qed.

Lemma length_startFlags :
  forall s prev, length (startFlags prev s) = length s.
Proof.
  induction s as [| m s IH]; intro prev; [reflexivity |].
  cbn [startFlags length]. rewrite IH. reflexivity.
Qed.

(** Every flagged message is counted for exactly one name. *)
Lemma countStarts_sum :
  forall keys : list jsstring,
    NoDup keys ->
    forall (s : list Msg) (flags : list bool),
      (forall m, In m s -> In (participant m) keys) ->
      length flags = length s ->
      sumZ (map (fun n => countStarts n s flags) keys)
      = Z.of_nat (length (filter (fun b : bool => b) flags)).
Proof.
  intros keys Hnd. induction s as [| m s IH]; intros flags Hin Hlen.
  - destruct flags; [| discriminate].
    rewrite (map_ext _ (fun _ => 0)) by (intro n; reflexivity).
    apply sum_zeros.
  - destruct flags as [| f flags]; [discriminate |].
    rewrite (map_ext _ (fun n =>
                          (if f && jsstring_eqb (participant m) n
                           then 1 else 0)
                          + countStarts n s flags))
      by (intro n; apply countStarts_cons).
    rewrite sumZ_map_add.
    rewrite IH by (try (intros m' Hm'; apply Hin; right; exact Hm');
                   cbn [length] in Hlen; lia).
    destruct f; cbn [andb filter length].
    + rewrite name_indicator; [lia | exact Hnd |].
      apply Hin. left. reflexivity.
    + rewrite sum_zeros. lia.
Qed.

Section StartersTotal.
Variable pictographic : N -> bool.

(** X28.  Once a parsed chat is loaded and the statistics passes have
    run, the conversations started add up: the total that
    [getTotalStatistics] shows, the sum of the starter counters over all
    participants, is the number of conversations that
    [analyzeConversationLengths] reports, and both are the number of
    messages, in time order, that come first or more than two hours after
    the one before. *)
Theorem starters_add_up_to_conversations :
  forall msgs : list Msg,
    let cd := calculateAllStatistics
                (loadMessages pictographic newChatData msgs) in
    totalConversationsStarted (getTotalStatistics cd)
    = total (analyzeConversationLengths cd)
    /\ total (analyzeConversationLengths cd)
       = Z.of_nat
           (length (filter (fun b : bool => b)
                           (startFlags None (sortMessages (kept msgs))))).
Proof.
  intros msgs cd.
  set (cd0 := loadMessages pictographic newChatData msgs) in *.
  assert (Hmsgs : chatMessages cd = kept msgs).
  { unfold cd. destruct (passes_compose cd0 []) as (_ & H & _).
    rewrite H. apply loadMessages_chatMessages. }
  assert (Htotal : total (analyzeConversationLengths cd)
                   = Z.of_nat
                       (length (filter (fun b : bool => b)
                                  (startFlags None (sortMessages (kept msgs)))))).
  { unfold analyzeConversationLengths. cbn [total].
    destruct (conversationsOf_flags cd) as (_ & Hflags & Hne).
    rewrite <- Hmsgs, <- Hflags, partitionFlags_count by exact Hne.
    reflexivity. }
  split; [| exact Htotal]. rewrite Htotal.
  unfold getTotalStatistics. cbn [totalConversationsStarted].
  rewrite fold_plus. unfold cd.
  pose proof (participants_after_passes pictographic msgs) as Hall.
  cbv zeta in Hall. fold cd0 in Hall. rewrite Hall.
  rewrite map_map. cbn [addStatistics conversationsStarted].
  rewrite (map_ext_in _ (fun p => countStarts (name p)
                                    (sortMessages (kept msgs))
                                    (startFlags None (sortMessages (kept msgs))))).
  - destruct (loadMessages_participants pictographic msgs) as [Hk Hn].
    fold cd0 in Hk, Hn.
    assert (Hnames : map name (getAllParticipants cd0) = participantSet msgs).
    { rewrite <- Hk. unfold getAllParticipants. rewrite map_map.
      apply map_ext_in. intros e He. rewrite Forall_forall in Hn.
      exact (Hn e He). }
    rewrite <- (map_map name (fun n => countStarts n _ _)), Hnames.
    cbn [Z.add]. apply countStarts_sum.
    + apply NoDup_participantSet.
    + intros m Hm. apply In_sortBy in Hm. apply In_participantSet.
      unfold kept in Hm. apply filter_In in Hm. destruct Hm as [Hm Hs].
      apply negb_true_iff in Hs. exists m. auto.
    + apply length_startFlags.
  - intros p Hp.
    pose proof (loaded_participant_lookup pictographic msgs p Hp) as Hl.
    rewrite loaded_record in Hl.
    destruct (ownMessages (name p) (kept msgs)) as [| m l]; [discriminate |].
    injection Hl as Hl.
    change (fold_left (addMessage pictographic) (m :: l)
                      (newParticipantData (name p)) = p) in Hl.
    destruct (fold_addMessage_statistics pictographic (m :: l)
                (newParticipantData (name p))) as (_ & H2 & _).
    rewrite Hl in H2. rewrite H2. reflexivity.
Qed.

End StartersTotal.
(* ================================================================== *)
(** ** Further properties: the health scores after the passes *)
(* ================================================================== *)

Lemma within_of_isQ :
  forall a x lo hi,
    isQ a x -> (inject_Z lo <= x)%Q -> (x <= inject_Z hi)%Q ->
    within lo hi a.
Proof.
  intros a x lo hi (q & -> & E) H1 H2. exists q.
  split; [reflexivity |]. rewrite E. split; assumption.
Qed.

Lemma isQ_of_within :
  forall a lo hi,
    within lo hi a ->
    exists q, isQ a q /\ (inject_Z lo <= q)%Q /\ (q <= inject_Z hi)%Q.
Proof.
  intros a lo hi (q & -> & H). exists q. split; [apply isQ_Fin | exact H].
Qed.

Lemma within_jround :
  forall a lo hi,
    within lo hi a -> exists z, jround a = ofZ z /\ lo <= z <= hi.
Proof.
  intros a lo hi (q & -> & H1 & H2). exists (Qround_half_up q).
  split; [reflexivity |]. apply Qround_half_up_bounds; assumption.
Qed.

Lemma div_nonneg :
  forall x c : Q, (0 <= x)%Q -> (0 < c)%Q -> (0 <= x / c)%Q.
Proof.
  intros x c Hx Hc. apply Qle_shift_div_l; [exact Hc |].
  rewrite Qmult_0_l. exact Hx.
Qed.

Lemma positive_nonzero : forall c : Q, (0 < c)%Q -> ~ (c == 0)%Q.
Proof. intros c H E. rewrite E in H. exact (Qlt_irrefl _ H). Qed.

Lemma inject_Z_pos : forall z, 0 < z -> (0 < inject_Z z)%Q.
Proof.
  intros z H. change (inject_Z 0 < inject_Z z)%Q. rewrite <- Zlt_Qlt. exact H.
Qed.

Lemma inject_Z_nonneg : forall z, 0 <= z -> (0 <= inject_Z z)%Q.
Proof.
  intros z H. change (inject_Z 0 <= inject_Z z)%Q. rewrite <- Zle_Qle. exact H.
Qed.

Lemma half_value : forall x : Q, (x / inject_Z 2 == x * (1 # 2))%Q.
Proof. intro x. reflexivity. Qed.

(** [Math.max(0, 100 - ratio * 100)] for a ratio that is not negative. *)
Lemma score_range :
  forall x q,
    isQ x q -> (0 <= q)%Q ->
    within 0 100 (jmax (ofZ 0) (jsub hundred (jmul x hundred))).
Proof.
  intros x q H Hq. unfold hundred.
  pose proof (isQ_jmax _ _ _ _ (isQ_ofZ 0)
                (isQ_jsub _ _ _ _ (isQ_ofZ 100)
                   (isQ_jmul _ _ _ _ H (isQ_ofZ 100)))) as G.
  destruct (Qlt_le_dec _ _) as [L | L];
    apply (within_of_isQ _ _ _ _ G); unfold inject_Z in *; lra.
Qed.

Lemma score_range_half :
  forall x q,
    isQ x q -> (0 <= q)%Q -> (q <= 1 # 2)%Q ->
    within 50 100 (jmax (ofZ 0) (jsub hundred (jmul x hundred))).
Proof.
  intros x q H Hq Hh. unfold hundred.
  pose proof (isQ_jmax _ _ _ _ (isQ_ofZ 0)
                (isQ_jsub _ _ _ _ (isQ_ofZ 100)
                   (isQ_jmul _ _ _ _ H (isQ_ofZ 100)))) as G.
  destruct (Qlt_le_dec _ _) as [L | L];
    apply (within_of_isQ _ _ _ _ G); unfold inject_Z in *; lra.
Qed.

(** The balance of the two message counts. *)
Lemma reciprocityOf_range :
  forall p1 p2,
    0 < messageCount p1 -> 0 < messageCount p2 ->
    within 50 100 (reciprocityOf p1 p2).
Proof.
  intros p1 p2 H1 H2. unfold reciprocityOf. cbv zeta.
  assert (HT : (0 < inject_Z (messageCount p1 + messageCount p2))%Q)
    by (apply inject_Z_pos; lia).
  assert (Hd : (Qabs (inject_Z (messageCount p1)
                      - inject_Z (messageCount p1 + messageCount p2)
                        / inject_Z 2)
                <= (1 # 2) * inject_Z (messageCount p1 + messageCount p2))%Q).
  { apply Qabs_Qle_condition. rewrite half_value, inject_Z_plus.
    pose proof (inject_Z_pos _ H1) as G1. pose proof (inject_Z_pos _ H2) as G2.
    set (a := inject_Z (messageCount p1)) in *.
    set (b := inject_Z (messageCount p2)) in *.
    split; lra. }
  apply (score_range_half _
           (Qabs (inject_Z (messageCount p1)
                  - inject_Z (messageCount p1 + messageCount p2) / inject_Z 2)
            / inject_Z (messageCount p1 + messageCount p2))%Q).
  - apply isQ_jdiv; [| apply isQ_ofZ | apply positive_nonzero, HT].
    apply isQ_jabs, isQ_jsub; [apply isQ_ofZ |].
    apply isQ_jdiv; [apply isQ_ofZ | apply isQ_ofZ | discriminate].
  - apply div_nonneg; [apply Qabs_nonneg | exact HT].
  - apply Qle_shift_div_r; [exact HT | exact Hd].
Qed.

Lemma sumZ_nonneg :
  forall l : list Z, Forall (fun d => 0 <= d) l -> 0 <= sumZ l.
Proof.
  intros l H. induction H as [| d l Hd _ IH]; [cbn; lia |].
  rewrite sumZ_cons. lia.
Qed.

(** The average response time of a record is a number that is not
    negative when no sample is. *)
Lemma getAverageResponseTime_nonneg :
  forall p,
    Forall (fun d => 0 <= d) (responseTimes p) ->
    exists q, isQ (getAverageResponseTime p) q /\ (0 <= q)%Q.
Proof.
  intros p H. unfold getAverageResponseTime.
  destruct (length (responseTimes p) =? 0)%nat eqn:E.
  - exists (inject_Z 0). split; [apply isQ_ofZ | apply Qle_refl].
  - apply Nat.eqb_neq in E.
    assert (Hl : (0 < inject_Z (Z.of_nat (length (responseTimes p))))%Q)
      by (apply inject_Z_pos; lia).
    eexists. split.
    + apply isQ_jdiv; [apply isQ_ofZ | apply isQ_ofZ |].
      apply positive_nonzero, Hl.
    + apply div_nonneg; [| exact Hl].
      apply inject_Z_nonneg, sumZ_nonneg, H.
Qed.

Lemma responseOf_range :
  forall p1 p2,
    Forall (fun d => 0 <= d) (responseTimes p1) ->
    Forall (fun d => 0 <= d) (responseTimes p2) ->
    within 0 100 (responseOf p1 p2).
Proof.
  intros p1 p2 H1 H2. unfold responseOf. cbv zeta.
  destruct (getAverageResponseTime_nonneg p1 H1) as (a1 & A1 & G1).
  destruct (getAverageResponseTime_nonneg p2 H2) as (a2 & A2 & G2).
  assert (HM : (0 < inject_Z (24 * 60 * 60 * 1000))%Q) by reflexivity.
  assert (S1 : within 0 100
                 (jmax (ofZ 0)
                    (jsub hundred
                       (jmul (jdiv (getAverageResponseTime p1)
                                   (ofZ (24 * 60 * 60 * 1000))) hundred)))).
  { apply (score_range _ (a1 / inject_Z (24 * 60 * 60 * 1000))%Q).
    - apply isQ_jdiv; [exact A1 | apply isQ_ofZ | apply positive_nonzero, HM].
    - apply div_nonneg; assumption. }
  assert (S2 : within 0 100
                 (jmax (ofZ 0)
                    (jsub hundred
                       (jmul (jdiv (getAverageResponseTime p2)
                                   (ofZ (24 * 60 * 60 * 1000))) hundred)))).
  { apply (score_range _ (a2 / inject_Z (24 * 60 * 60 * 1000))%Q).
    - apply isQ_jdiv; [exact A2 | apply isQ_ofZ | apply positive_nonzero, HM].
    - apply div_nonneg; assumption. }
  apply isQ_of_within in S1, S2.
  destruct S1 as (s1 & Q1 & L1 & U1). destruct S2 as (s2 & Q2 & L2 & U2).
  apply (within_of_isQ _ ((s1 + s2) / inject_Z 2)%Q).
  - apply isQ_jdiv; [| apply isQ_ofZ | discriminate].
    apply isQ_jadd; assumption.
  - rewrite half_value. unfold inject_Z in *. lra.
  - rewrite half_value. unfold inject_Z in *. lra.
Qed.

Lemma jorZero_nonneg :
  forall a q,
    isQ a q -> (0 <= q)%Q -> exists q', isQ (jorZero a) q' /\ (0 <= q')%Q.
Proof.
  intros a q (x & -> & E) Hq. unfold jorZero.
  destruct (signQ x).
  - exists (0 # 1)%Q. split; [apply isQ_Fin | apply Qle_refl].
  - exists q. split; [exists x; auto | exact Hq].
  - exists q. split; [exists x; auto | exact Hq].
Qed.

Lemma avgWordCountOf_nonneg :
  forall p,
    0 <= wordCount p -> 0 < messageCount p ->
    exists q, isQ (avgWordCountOf p) q /\ (0 <= q)%Q.
Proof.
  intros p Hw Hm. unfold avgWordCountOf.
  assert (HM : (0 < inject_Z (messageCount p))%Q) by (apply inject_Z_pos, Hm).
  apply (jorZero_nonneg _ (inject_Z (wordCount p) / inject_Z (messageCount p))%Q).
  - apply isQ_jdiv; [apply isQ_ofZ | apply isQ_ofZ |].
    apply positive_nonzero, HM.
  - apply div_nonneg; [apply inject_Z_nonneg, Hw | exact HM].
Qed.

Lemma engagementOf_range :
  forall p1 p2,
    0 <= wordCount p1 -> 0 < messageCount p1 ->
    0 <= wordCount p2 -> 0 < messageCount p2 ->
    within 0 100 (engagementOf p1 p2).
Proof.
  intros p1 p2 W1 M1 W2 M2. unfold engagementOf. cbv zeta.
  destruct (avgWordCountOf_nonneg p1 W1 M1) as (a1 & A1 & G1).
  destruct (avgWordCountOf_nonneg p2 W2 M2) as (a2 & A2 & G2).
  assert (Hv : isQ (jdiv (jadd (avgWordCountOf p1) (avgWordCountOf p2))
                         (ofZ 2))
                   ((a1 + a2) / inject_Z 2)%Q).
  { apply isQ_jdiv; [| apply isQ_ofZ | discriminate].
    apply isQ_jadd; assumption. }
  assert (Hv0 : (0 <= (a1 + a2) / inject_Z 2)%Q)
    by (rewrite half_value; lra).
  set (v := ((a1 + a2) / inject_Z 2)%Q) in *.
  set (avg := jdiv (jadd (avgWordCountOf p1) (avgWordCountOf p2)) (ofZ 2))
    in *.
  destruct (jlt avg (ofZ 5)) eqn:E5.
  - apply (isQ_jlt _ _ _ _ Hv (isQ_ofZ 5)) in E5.
    assert (H5 : (0 < inject_Z 5)%Q) by reflexivity.
    pose proof (div_nonneg v (inject_Z 5) Hv0 H5) as L.
    assert (U : (v / inject_Z 5 <= 1)%Q).
    { apply Qle_shift_div_r; [exact H5 |]. unfold inject_Z in *. lra. }
    apply (within_of_isQ _ (v / inject_Z 5 * inject_Z 100)%Q).
    + apply isQ_jmul; [| apply isQ_ofZ].
      apply isQ_jdiv; [exact Hv | apply isQ_ofZ | discriminate].
    + set (r := (v / inject_Z 5)%Q) in *. unfold inject_Z. lra.
    + set (r := (v / inject_Z 5)%Q) in *. unfold inject_Z. lra.
  - unfold jgt. destruct (jlt (ofZ 20) avg) eqn:E20.
    + apply (isQ_jlt _ _ _ _ (isQ_ofZ 20) Hv) in E20.
      apply (score_range _ ((v - inject_Z 20) / inject_Z 30)%Q).
      * apply isQ_jdiv; [| apply isQ_ofZ | discriminate].
        apply isQ_jsub; [exact Hv | apply isQ_ofZ].
      * apply div_nonneg; [| reflexivity]. unfold inject_Z in *. lra.
    + exists (inject_Z 100). split; [reflexivity |]. split; discriminate.
Qed.

Lemma overall_range :
  forall r s e,
    within 50 100 r -> within 0 100 s -> within 0 100 e ->
    within 20 100
      (jadd (jadd (jmul r (Fin (4 # 10)%Q)) (jmul s (Fin (3 # 10)%Q)))
            (jmul e (Fin (3 # 10)%Q))).
Proof.
  intros r s e Hr Hs He.
  apply isQ_of_within in Hr, Hs, He.
  destruct Hr as (x & Qx & Lx & Ux). destruct Hs as (y & Qy & Ly & Uy).
  destruct He as (z & Qz & Lz & Uz).
  apply (within_of_isQ _ (x * (4 # 10) + y * (3 # 10) + z * (3 # 10))%Q).
  - repeat first [apply isQ_jadd | apply isQ_jmul | apply isQ_Fin
                 | assumption].
  - unfold inject_Z in *. lra.
  - unfold inject_Z in *. lra.
Qed.

Lemma responseSamples_range :
  forall (msgs : list Msg) (n : jsstring),
    Forall (fun d => 0 <= d < 24 * 60 * 60 * 1000)
           (responseSamples (sortMessages msgs) n).
Proof.
  intros msgs n. apply Forall_forall. intros d Hd.
  apply responseSamples_sound in Hd.
  destruct Hd as [(pre & cur & mid & nxt & post & Es & _ & _ & _ & ->) Hlt].
  split; [| exact Hlt].
  pose proof (sortMessages_inTimeOrder msgs) as Hs. rewrite Es in Hs.
  apply inTimeOrder_split in Hs. lia.
Qed.

Section HealthRange.
Variable pictographic : N -> bool.

(** A record after loading and the passes. *)
Lemma record_after_passes :
  forall (msgs : list Msg) (p : ParticipantData),
    In p (getAllParticipants
            (calculateAllStatistics
               (loadMessages pictographic newChatData msgs))) ->
    0 < messageCount p
    /\ 0 <= wordCount p
    /\ Forall (fun d => 0 <= d < 24 * 60 * 60 * 1000) (responseTimes p).
Proof.
  intros msgs p Hin.
  pose proof (participants_after_passes pictographic msgs) as Hall.
  cbv zeta in Hall. rewrite Hall in Hin. apply in_map_iff in Hin.
  destruct Hin as (q & <- & Hq).
  pose proof (loadMessages_counts pictographic msgs q Hq) as Hc.
  pose proof (loaded_participant_lookup pictographic msgs q Hq) as Hl.
  rewrite loaded_record in Hl.
  destruct (ownMessages (name q) (kept msgs)) as [| m l]; [discriminate |].
  injection Hl as Hl.
  change (fold_left (addMessage pictographic) (m :: l)
                    (newParticipantData (name q)) = q) in Hl.
  assert (Hcons : consistent q).
  { rewrite <- Hl. apply fold_addMessage_consistent, consistent_new. }
  destruct (fold_addMessage_statistics pictographic (m :: l)
              (newParticipantData (name q))) as (R & _ & _).
  rewrite Hl in R. cbn [addStatistics messageCount wordCount responseTimes].
  rewrite R. cbn [app newParticipantData responseTimes].
  destruct Hcons as (_ & Hw & _ & _ & _ & _ & _ & _ & _ & _ & Hpos).
  split; [exact Hc |]. split.
  - rewrite Hw. apply sumZ_nonneg. exact Hpos.
  - apply responseSamples_range.
Qed.

(** X29.  For a loaded chat of exactly two participants, after the
    statistics passes, the relationship health is computed and all its
    scores are whole numbers in range: the reciprocity score between 50
    and 100, the response score and the engagement score between 0 and
    100, and the overall score between 20 and 100. *)
Theorem health_scores_in_range :
  forall (msgs : list Msg) (p1 p2 : ParticipantData),
    getAllParticipants
      (calculateAllStatistics (loadMessages pictographic newChatData msgs))
    = [p1; p2] ->
    exists (h : Health) (overall reciprocity response engagement : Z),
      calculateRelationshipHealth
        (calculateAllStatistics (loadMessages pictographic newChatData msgs))
      = Some h
      /\ overallHealth h = ofZ overall
      /\ reciprocityScore h = ofZ reciprocity
      /\ responseScore h = ofZ response
      /\ engagementScore h = ofZ engagement
      /\ 20 <= overall <= 100
      /\ 50 <= reciprocity <= 100
      /\ 0 <= response <= 100
      /\ 0 <= engagement <= 100.
Proof.
  intros msgs p1 p2 Hps.
  destruct (record_after_passes msgs p1) as (M1 & W1 & R1);
    [rewrite Hps; left; reflexivity |].
  destruct (record_after_passes msgs p2) as (M2 & W2 & R2);
    [rewrite Hps; right; left; reflexivity |].
  assert (N1 : Forall (fun d => 0 <= d) (responseTimes p1))
    by (apply Forall_impl with (2 := R1); intros; lia).
  assert (N2 : Forall (fun d => 0 <= d) (responseTimes p2))
    by (apply Forall_impl with (2 := R2); intros; lia).
  pose proof (reciprocityOf_range p1 p2 M1 M2) as Hr.
  pose proof (responseOf_range p1 p2 N1 N2) as Hs.
  pose proof (engagementOf_range p1 p2 W1 M1 W2 M2) as He.
  pose proof (overall_range _ _ _ Hr Hs He) as Ho.
  apply within_jround in Hr, Hs, He, Ho.
  destruct Hr as (r & Er & Br). destruct Hs as (s & Es & Bs).
  destruct He as (e & Ee & Be). destruct Ho as (o & Eo & Bo).
  unfold calculateRelationshipHealth. rewrite Hps.
  eexists _, o, r, s, e. split; [reflexivity |].
  cbn [overallHealth reciprocityScore responseScore engagementScore].
  conjs; first [assumption | lia].
Qed.

End HealthRange.

Lemma health_scores_in_range_witness :
  exists (p1 p2 : ParticipantData) (h : Health) (overall : Z),
    getAllParticipants
      (calculateAllStatistics
         (loadMessages Examples.noEmoji newChatData
                       Examples.twoPeopleMessages))
    = [p1; p2]
    /\ calculateRelationshipHealth
         (calculateAllStatistics
            (loadMessages Examples.noEmoji newChatData
                          Examples.twoPeopleMessages))
       = Some h
    /\ overallHealth h = ofZ overall
    /\ 20 <= overall <= 100.
Proof.
  destruct (getAllParticipants
              (calculateAllStatistics
                 (loadMessages Examples.noEmoji newChatData
                               Examples.twoPeopleMessages)))
    as [| p1 [| p2 [| p3 l]]] eqn:E;
    try (vm_compute in E; discriminate).
  destruct (health_scores_in_range Examples.noEmoji
              Examples.twoPeopleMessages p1 p2 E)
    as (h & o & r & s & e & Hh & Ho & _ & _ & _ & Bo & _).
  exists p1, p2, h, o. auto.
Defined.
(* ================================================================== *)
(** ** Further properties: the communication style of a record *)
(* ================================================================== *)

(** [count / messageCount * 100] for a counter between 0 and the message
    count. *)
Lemma percentage_range :
  forall count messageCount : Z,
    0 <= count <= messageCount -> 0 < messageCount ->
    within 0 100 (jmul (jdiv (ofZ count) (ofZ messageCount)) (ofZ 100)).
Proof.
  intros c m Hc Hm.
  assert (HM : (0 < inject_Z m)%Q) by (apply inject_Z_pos, Hm).
  assert (L : (0 <= inject_Z c / inject_Z m)%Q)
    by (apply div_nonneg; [apply inject_Z_nonneg; lia | exact HM]).
  assert (U : (inject_Z c / inject_Z m <= 1)%Q).
  { apply Qle_shift_div_r; [exact HM |]. rewrite Qmult_1_l.
    rewrite <- Zle_Qle. lia. }
  apply (within_of_isQ _ (inject_Z c / inject_Z m * inject_Z 100)%Q).
  - apply isQ_jmul; [| apply isQ_ofZ].
    apply isQ_jdiv; [apply isQ_ofZ | apply isQ_ofZ |].
    apply positive_nonzero, HM.
  - set (r := (inject_Z c / inject_Z m)%Q) in *. unfold inject_Z. lra.
  - set (r := (inject_Z c / inject_Z m)%Q) in *. unfold inject_Z. lra.
Qed.

Section StyleRange.
Variable pictographic : N -> bool.

Lemma loaded_record_consistent :
  forall (msgs : list Msg) (p : ParticipantData),
    In p (getAllParticipants (loadMessages pictographic newChatData msgs)) ->
    consistent p /\ 0 < messageCount p.
Proof.
  intros msgs p Hp.
  pose proof (loadMessages_counts pictographic msgs p Hp) as Hc.
  pose proof (loaded_participant_lookup pictographic msgs p Hp) as Hl.
  rewrite loaded_record in Hl.
  destruct (ownMessages (name p) (kept msgs)) as [| m l]; [discriminate |].
  injection Hl as Hl.
  change (fold_left (addMessage pictographic) (m :: l)
                    (newParticipantData (name p)) = p) in Hl.
  split; [| exact Hc].
  rewrite <- Hl. apply fold_addMessage_consistent, consistent_new.
Qed.

(** X30.  The communication style of a participant of a loaded chat shows
    the three counters of the record, and its three percentages (of
    questions, exclamations and all-caps messages among the messages of
    the participant) are finite numbers between 0 and 100.  On a record
    that has no message yet the three percentages are not numbers: the
    division is not guarded. *)
Theorem communication_style_percentages :
  (forall (msgs : list Msg) (p : ParticipantData),
      In p (getAllParticipants (loadMessages pictographic newChatData msgs)) ->
      let style := getCommunicationStyle p in
      within 0 100 (questionPercentage style)
      /\ within 0 100 (exclamationPercentage style)
      /\ within 0 100 (allCapsPercentage style)
      /\ 0 <= styleQuestionCount style <= messageCount p
      /\ 0 <= styleExclamationCount style <= messageCount p
      /\ 0 <= styleAllCapsCount style <= messageCount p)
  /\ (forall n : jsstring,
         let style := getCommunicationStyle (newParticipantData n) in
         questionPercentage style = NaN
         /\ exclamationPercentage style = NaN
         /\ allCapsPercentage style = NaN).
Proof.
  split.
  - intros msgs p Hp style.
    destruct (loaded_record_consistent msgs p Hp) as [Hc Hm].
    destruct Hc as (Hcount & _ & _ & Hlen & _ & Hq & He & Ha & _).
    unfold style, getCommunicationStyle.
    cbn [questionPercentage exclamationPercentage allCapsPercentage
         styleQuestionCount styleExclamationCount styleAllCapsCount].
    assert (Hq' : 0 <= questionCount p <= messageCount p) by lia.
    assert (He' : 0 <= exclamationCount p <= messageCount p) by lia.
    assert (Ha' : 0 <= allCapsCount p <= messageCount p) by lia.
    split; [apply percentage_range; assumption |].
    split; [apply percentage_range; assumption |].
    split; [apply percentage_range; assumption |].
    auto.
  - intro n. cbv zeta. repeat split; reflexivity.
Qed.

End StyleRange.

Lemma communication_style_percentages_witness :
  In Examples.alice (getAllParticipants Examples.twoPeople)
  /\ within 0 100 (questionPercentage (getCommunicationStyle Examples.alice)).
Proof.
  assert (H : In Examples.alice (getAllParticipants Examples.twoPeople))
    by (vm_compute; left; reflexivity).
  split; [exact H |].
  exact (proj1 (proj1 (communication_style_percentages Examples.noEmoji)
                  Examples.twoPeopleMessages Examples.alice H)).
Defined.

(* ================================================================== *)
(** ** Streaks: the current streak and the dates of the host *)
(* ================================================================== *)

Lemma sorted_last_greatest :
  forall (s : list Z) (x d : Z),
    StronglySorted Z.le s -> In x s -> x <= last s d.
Proof.
  intros s x d Hs. revert x. induction Hs as [| y s Hs IH Hy]; intros x Hin;
    [destruct Hin |].
  destruct s as [| z s].
  - destruct Hin as [<- | []]. simpl. lia.
  - change (last (y :: z :: s) d) with (last (z :: s) d).
    destruct Hin as [<- | Hin]; [| exact (IH x Hin)].
    rewrite Forall_forall in Hy.
    assert (y <= z) by (apply Hy; left; reflexivity).
    assert (z <= last (z :: s) d) by (apply IH; left; reflexivity).
    lia.
Qed.

Lemma fold_dateStrings :
  forall (host : Host) (l : list Msg) (acc : list jsstring),
    fold_left (fun s msg => setAddString s (toDateString host (timestamp msg)))
              l acc
    = fold_left setAddString
                (map (fun msg => toDateString host (timestamp msg)) l) acc.
Proof.
  intros host l. induction l as [| x l IH]; intro acc; [reflexivity |].
  cbn [fold_left map]. apply IH.
Qed.

(** The date of every message is among the dates that the loop of
    [calculateStreaks] runs over. *)
Lemma In_sortedDates :
  forall (host : Host) (msgs : list Msg) (m : Msg),
    In m msgs ->
    In (dateOf host (timestamp m))
       (sortBy (fun a b => a - b <=? 0)
               (map (dateOfString host)
                    (fold_left (fun s msg =>
                                  setAddString s
                                    (toDateString host (timestamp msg)))
                               msgs []))).
Proof.
  intros host msgs m Hm. apply In_sortBy. unfold dateOf. apply in_map.
  rewrite fold_dateStrings. apply In_fold_setAddString. right.
  apply (in_map (fun msg => toDateString host (timestamp msg))). exact Hm.
Qed.

(** The export line of the example is read as the message of the
    example, dated in 2099. *)
Lemma future_date_is_parsed :
  parseWhatsAppChat Examples.futureLine
  = Ok [ mkMessage (Some (timestamp Examples.futureMessage))
                   (participant Examples.futureMessage)
                   (content Examples.futureMessage) false false ].
Proof. vm_compute. reflexivity. Qed.

(** The example of the specification: messages on 2024-01-01 to
    2024-01-05 and on 2024-01-10, in the UTC host. *)
Lemma january_longest_streak :
  forall now : Z,
    longestStreak (calculateStreaks Hosts.utcHost now Examples.januaryChat) = 5
    /\ streaks (calculateStreaks Hosts.utcHost now Examples.januaryChat)
       = [mkStreak 5 (midnightOf 19723) (midnightOf 19727)].
Proof. intro now. split; vm_compute; reflexivity. Qed.

(** The loop takes two dates for consecutive days when they are at least
    24 and less than 48 hours apart.  In a host with daylight saving the
    midnights around the change to summer time are 23 hours apart, and
    the two calendar days, although consecutive, make no streak. *)
Lemma short_day_cuts_streak :
  forall (host : Host) (now : Z) (cd : ChatData) (m1 m2 : Msg),
    chatMessages cd = [m1; m2] ->
    toDateString host (timestamp m1) <> toDateString host (timestamp m2) ->
    0 < dateOf host (timestamp m2) - dateOf host (timestamp m1) < msPerDay ->
    longestStreak (calculateStreaks host now cd) = 1
    /\ streaks (calculateStreaks host now cd) = []
    /\ totalDaysWithMessages (calculateStreaks host now cd) = Some 2.
Proof.
  intros host now cd m1 m2 Hmsgs Hstr Hgap. unfold dateOf in Hgap.
  set (d1 := dateOfString host (toDateString host (timestamp m1))) in *.
  set (d2 := dateOfString host (toDateString host (timestamp m2))) in *.
  assert (Hset : map (dateOfString host)
                     (fold_left (fun s msg =>
                                   setAddString s
                                     (toDateString host (timestamp msg)))
                                [m1; m2] [])
                 = [d1; d2]).
  { cbn [fold_left]. unfold setAddString. cbn [existsb app].
    assert (E : jsstring_eqb (toDateString host (timestamp m2))
                             (toDateString host (timestamp m1)) = false)
      by (apply jsstring_eqb_neq; congruence).
    rewrite E. reflexivity. }
  assert (L : (d1 - d2 <=? 0) = true) by (apply Z.leb_le; lia).
  assert (D : (d2 - d1) / msPerDay = 0) by (apply Z.div_small; lia).
  unfold calculateStreaks. rewrite Hmsgs. cbv beta iota zeta. rewrite Hset.
  cbn [sortBy fold_right insertSorted]. rewrite L.
  cbn [hd tl streakLoop]. rewrite D. cbn. auto.
Qed.

(** C8.  The current streak is not 0 whenever a message is dated after
    today: the code asks only that the last date be less than two days
    before today's midnight, so that a date later than today counts as
    today or yesterday does.  This holds in every host.  In the example a
    chat whose only message is dated 2099-12-31 is evaluated on
    2024-06-01: the last date is neither today nor yesterday, the
    specification has the current streak 0, and the code reports 1. *)
Theorem current_streak_counts_later_dates :
  (forall (host : Host) (now : Z) (cd : ChatData) (m : Msg),
      In m (chatMessages cd) ->
      startOfDay host now < dateOf host (timestamp m) ->
      1 <= currentStreak (calculateStreaks host now cd))
  /\ (let host := Hosts.utcHost in
      let now := Examples.futureNow in
      let lastDate := dateOf host (timestamp Examples.futureMessage) in
      chatMessages Examples.futureChat = [Examples.futureMessage]
      /\ startOfDay host now = midnightOf 19875
      /\ lastDate = midnightOf 47481
      /\ currentStreak (calculateStreaks host now Examples.futureChat) = 1
      /\ claimedCurrentStreak host now lastDate 1 = 0).
Proof.
  split.
  - intros host now cd m Hm Hlater. unfold calculateStreaks.
    destruct (chatMessages cd) as [| m0 ms] eqn:E; [destruct Hm |].
    cbn [currentStreak].
    pose proof (In_sortedDates host (m0 :: ms) m Hm) as Hin.
    pose proof (sorted_numbers
                  (map (dateOfString host)
                       (fold_left (fun s msg =>
                                     setAddString s
                                       (toDateString host (timestamp msg)))
                                  (m0 :: ms) []))) as Hs.
    set (dates := sortBy (fun a b => a - b <=? 0) _) in *.
    pose proof (sorted_last_greatest dates _ 0 Hs Hin) as Hlast.
    destruct dates as [| first rest] eqn:Ed; [destruct Hin |].
    cbn [hd tl].
    destruct (streakLoop_bounds rest first (mkStreakState 1 1 [first] []) 1)
      as (H1 & _);
      cbn [stCurrent stLongest stStreaks]; try lia; [constructor |].
    cbv zeta in H1.
    assert (Hd : (startOfDay host now - last (first :: rest) 0) / msPerDay
                 < 2).
    { apply Z.div_lt_upper_bound; unfold msPerDay in *; lia. }
    destruct (Z.leb_spec ((startOfDay host now - last (first :: rest) 0)
                          / msPerDay) 1); [exact H1 | lia].
  - cbv zeta. repeat split; vm_compute; reflexivity.
Qed.

(* ================================================================== *)
(** ** Relationship health: the label and the score that is shown *)
(* ================================================================== *)

(** C9.  The relationship health has no result exactly when the number of
    participants is not 2.  With two participants the score that is
    reported is the weighted sum rounded to a whole number, but the label
    is read off the sum before it is rounded: for the chat of the example
    (Alice and Bob, three messages, after the statistics passes) the sum
    is just below 80, the result shows the score 80, for which the
    thresholds give 'Excellent', and the label 'Good'. *)
Theorem health_label_disagrees_with_score :
  (forall cd : ChatData,
      Binary64.calculateRelationshipHealth cd = None
      <-> length (getAllParticipants cd) <> 2%nat)
  /\ exists h : Binary64.Health,
       Binary64.calculateRelationshipHealth
         (calculateAllStatistics Examples.twoPeople) = Some h
       /\ Binary64.overallHealth h = Binary64.ofZ 80
       /\ Binary64.interpretation h = Good
       /\ Binary64.getHealthInterpretation (Binary64.overallHealth h)
          = Excellent.
Proof.
  split.
  - intro cd. unfold Binary64.calculateRelationshipHealth.
    destruct (getAllParticipants cd) as [| p1 [| p2 [| p3 l]]]; simpl;
      split; intro H; try reflexivity; try discriminate; try lia.
  - eexists. split; [vm_compute; reflexivity |].
    repeat split; vm_compute; reflexivity.
Qed.
